(** * Synthetic academic-graph generator: model and verified properties

    A shallow embedding of [generate_synthetic_dataset.py].  Python
    dictionaries used as records become Rocq records, dictionaries used as
    maps become [gmap]s, sets become [gset]s, and every use of the shared
    pseudo-random source is threaded through an explicit tape of raw draws,
    so that a theorem quantified over all tapes speaks about every run.

    Floating-point numbers are modelled by exact rationals ([Q]); the
    ranges proved below only rely on clamping and on monotonicity of
    rounding, which floats share. *)

From Stdlib Require Import ZArith QArith Qround Qabs Lia Lqa List Sorting.Sorted.
From stdpp Require Import base tactics option list gmap sets strings pretty relations sorting.

Local Open Scope Z_scope.
Set Warnings "-clear-no-such-hyp".

(** ** Exceptions and the random-source monad *)

Inductive PyExc := ValueError | IndexError | KeyError | ZeroDivisionError.

(** The state of [random]: the raw draws still to be consumed.  An
    exhausted tape keeps answering [0]. *)
Definition RNG := list nat.

Inductive Outcome (A : Type) :=
| Returns (a : A) (t : RNG)
| Raises (e : PyExc).
Arguments Returns {A} a t.
Arguments Raises {A} e.

Definition Rand (A : Type) : Type := RNG → Outcome A.

Definition ret {A} (a : A) : Rand A := λ t, Returns a t.
Definition raise {A} (e : PyExc) : Rand A := λ _, Raises e.
Definition bind {A B} (m : Rand A) (k : A → Rand B) : Rand B :=
  λ t, match m t with
       | Returns a t' => k a t'
       | Raises e => Raises e
       end.

Notation "'do' x <- m ; k" := (bind m (λ x, k))
  (at level 10, x name, m at level 100, k at level 200,
   format "'[v' 'do'  x  <-  m ; '/' k ']'").
Notation "'do' ' p <- m ; k" := (bind m (λ x, match x with p => k end))
  (at level 10, p pattern, m at level 100, k at level 200,
   format "'[v' 'do'  ' p  <-  m ; '/' k ']'").

(** [for x in l: s = body x s] *)
Fixpoint for_each {A S} (body : A → S → Rand S) (l : list A) (s : S) : Rand S :=
  match l with
  | [] => ret s
  | x :: l' => do s' <- body x s; for_each body l' s'
  end.

(** One raw draw. *)
Definition raw : Rand nat :=
  λ t, match t with
       | [] => Returns 0%nat []
       | n :: t' => Returns n t'
       end.

(** [random._randbelow(n)] for [n > 0]. *)
Definition randbelow (n : Z) : Rand Z :=
  do r <- raw; ret (Z.of_nat r mod n).

(** [random.randint(a, b)], that is [randrange(a, b + 1)]: an empty range
    raises [ValueError]. *)
Definition randint (a b : Z) : Rand Z :=
  let width := b + 1 - a in
  if 0 <? width then do r <- randbelow width; ret (a + r)
  else raise ValueError.

(** [random.randrange(n)]. *)
Definition randrange (n : Z) : Rand Z :=
  if 0 <? n then randbelow n else raise ValueError.

(** [random.random()]: a multiple of [2^-53] in [[0, 1)]. *)
Definition random_random : Rand Q :=
  do r <- raw; ret ((Z.of_nat r mod 2 ^ 53) # (2 ^ 53)).

(** [random.uniform(a, b)] is [a + (b - a) * random()]. *)
Definition uniform (a b : Q) : Rand Q :=
  do r <- random_random; ret (a + (b - a) * r)%Q.

(** [random.choice(seq)]: [IndexError] on an empty sequence. *)
Definition choice {A} (seq : list A) : Rand A :=
  match seq with
  | [] => raise IndexError
  | x :: _ =>
      do i <- randbelow (Z.of_nat (length seq));
      ret (default x (seq !! Z.to_nat i))
  end.

(** [random.sample(population, k)]: [k] draws at distinct positions, in the
    order drawn; [ValueError] when [k] is negative or exceeds the
    population.  Every drawn position leaves the pool. *)
Fixpoint sample_pool {A} (pool : list A) (k : nat) : Rand (list A) :=
  match k with
  | O => ret []
  | S k' =>
      do j <- randbelow (Z.of_nat (length pool));
      match pool !! Z.to_nat j with
      | Some x => do rest <- sample_pool (delete (Z.to_nat j) pool) k'; ret (x :: rest)
      | None => raise IndexError
      end
  end.

Definition sample {A} (population : list A) (k : Z) : Rand (list A) :=
  if (0 <=? k) && (k <=? Z.of_nat (length population))
  then sample_pool population (Z.to_nat k)
  else raise ValueError.

(** ** Python helpers *)

(** [range(start, stop)] *)
Definition py_range (start stop : Z) : list Z :=
  map (λ i, start + Z.of_nat i) (seq 0 (Z.to_nat (stop - start))).

(** [range(start, stop, step)] for a positive step *)
Definition py_range_step (start stop step : Z) : list Z :=
  map (λ i, start + step * Z.of_nat i)
      (seq 0 (Z.to_nat ((stop - start + step - 1) / step))).

(** [str(n)] *)
Definition py_str (n : Z) : string := pretty n.

(** ** Calendar dates ([datetime.date]) *)

Record Date := mkDate { year : Z; month : Z; day : Z }.

Definition is_leap (y : Z) : bool :=
  (y mod 4 =? 0) && (negb (y mod 100 =? 0) || (y mod 400 =? 0)).

Definition days_in_month (y m : Z) : Z :=
  if m =? 2 then (if is_leap y then 29 else 28)
  else if (m =? 4) || (m =? 6) || (m =? 9) || (m =? 11) then 30
  else 31.

(** The constructor [datetime.date(y, m, d)] validates its arguments. *)
Definition datetime_date (y m d : Z) : Rand Date :=
  if (1 <=? y) && (y <=? 9999) && (1 <=? m) && (m <=? 12)
     && (1 <=? d) && (d <=? days_in_month y m)
  then ret (mkDate y m d)
  else raise ValueError.

Definition days_before_year (y : Z) : Z :=
  let y1 := y - 1 in y1 * 365 + y1 / 4 - y1 / 100 + y1 / 400.

Definition days_before_month (y m : Z) : Z :=
  fold_right Z.add 0 (map (days_in_month y) (py_range 1 m)).

(** [date.toordinal()] *)
Definition toordinal (d : Date) : Z :=
  days_before_year (year d) + days_before_month (year d) (month d) + day d.

(** Chronological order on dates. *)
Definition date_lt (a b : Date) : Prop :=
  year a < year b ∨
  (year a = year b ∧ (month a < month b ∨ (month a = month b ∧ day a < day b))).

Definition date_ltb (a b : Date) : bool :=
  (year a <? year b) ||
  ((year a =? year b) && ((month a <? month b) || ((month a =? month b) && (day a <? day b)))).

(** ** Configuration settings *)

(** A dictionary literal used as a weight table keeps its insertion order. *)
Definition Weights (K : Type) := list (K * Q).

Record Config := mkConfig {
  NUM_STUDENTS : Z;
  NUM_COURSES : Z;
  NUM_FACULTY : Z;
  NUM_DEGREES : Z;
  TERMS_TO_GENERATE : Z;
  HISTORY_YEARS : Z;
  MAX_PREREQS_PER_COURSE : Z;
  LEARNING_STYLE_DISTRIBUTION : Weights string;
  COURSE_DIFFICULTY_DISTRIBUTION : Weights Z;
  GRADE_DISTRIBUTION : Weights string;
  DEPARTMENTS : list string;
  COURSE_LEVELS : Weights Z
}.

Definition q100 (n : Z) : Q := n # 100.

Definition default_config : Config := {|
  NUM_STUDENTS := 1000;
  NUM_COURSES := 200;
  NUM_FACULTY := 50;
  NUM_DEGREES := 15;
  TERMS_TO_GENERATE := 12;
  HISTORY_YEARS := 4;
  MAX_PREREQS_PER_COURSE := 3;
  LEARNING_STYLE_DISTRIBUTION :=
    [("Visual", q100 35); ("Auditory", q100 25); ("Kinesthetic", q100 20);
     ("Reading-Writing", q100 20)];
  COURSE_DIFFICULTY_DISTRIBUTION :=
    [(1, q100 5); (2, q100 25); (3, q100 40); (4, q100 25); (5, q100 5)];
  GRADE_DISTRIBUTION :=
    [("A", q100 15); ("A-", q100 15); ("B+", q100 15); ("B", q100 15);
     ("B-", q100 10); ("C+", q100 10); ("C", q100 8); ("C-", q100 5);
     ("D+", q100 3); ("D", q100 2); ("F", q100 1); ("W", q100 1)];
  DEPARTMENTS :=
    ["Computer Science"; "Information Systems"; "Mathematics"; "Physics";
     "Chemistry"; "Biology"; "Psychology"; "English"; "History";
     "Political Science"; "Sociology"; "Economics"; "Visual Arts"; "Music";
     "Engineering"];
  COURSE_LEVELS :=
    [(100, q100 30); (200, q100 30); (300, q100 25); (400, q100 15);
     (600, q100 5); (700, q100 5)]
|}.

(** ** The distribution sampler *)

(** [itertools.accumulate(weights)] *)
Fixpoint accumulate_from (acc : Q) (ws : list Q) : list Q :=
  match ws with
  | [] => []
  | w :: ws' => (acc + w)%Q :: accumulate_from (acc + w)%Q ws'
  end.
Definition accumulate (ws : list Q) : list Q := accumulate_from 0%Q ws.

(** [bisect.bisect(a, x, lo, hi)]: the binary search of the library; the
    interval shrinks at every turn, so [hi - lo] turns are enough. *)
Fixpoint bisect_loop (fuel : nat) (a : list Q) (x : Q) (lo hi : nat) : nat :=
  match fuel with
  | O => lo
  | S fuel' =>
      if (lo <? hi)%nat then
        let mid := ((lo + hi) / 2)%nat in
        match a !! mid with
        | Some am =>
            if Qlt_le_dec x am then bisect_loop fuel' a x lo mid
            else bisect_loop fuel' a x (mid + 1)%nat hi
        | None => lo
        end
      else lo
  end.
Definition bisect (a : list Q) (x : Q) (lo hi : nat) : nat :=
  bisect_loop (hi - lo) a x lo hi.

(** [random.choices(population, weights=weights, k=1)[0]] *)
Definition choices1 {A} (population : list A) (weights : list Q) : Rand A :=
  let n := length population in
  let cum_weights := accumulate weights in
  if negb (length cum_weights =? n)%nat then raise ValueError
  else match last cum_weights with
       | None => raise IndexError
       | Some total =>
           if Qle_bool total 0 then raise ValueError
           else
             do r <- random_random;
             match population !! bisect cum_weights (r * total)%Q 0 (n - 1) with
             | Some x => ret x
             | None => raise IndexError
             end
       end.

Definition weighted_choice {K} (choices_dict : Weights K) : Rand K :=
  let choices := map fst choices_dict in
  let weights := map snd choices_dict in
  choices1 choices weights.

(** ** Terms *)

Record Term := mkTerm {
  term_id : string;
  term_name : string;
  startDate : Date;   (* rendered with strftime in the source *)
  endDate : Date;
  term_type : string
}.

(** [term_info]: season, start month/day, end month/day *)
Definition term_info : list (string * (Z * Z * Z * Z)) :=
  [("Spring", (1, 25, 5, 15)); ("Summer", (6, 1, 7, 30)); ("Fall", (8, 25, 12, 15))].

(** The inner loop of [generate_terms]; [break] leaves the remaining
    seasons of the year unvisited. *)
Fixpoint terms_of_year (cfg : Config) (y : Z)
    (infos : list (string * (Z * Z * Z * Z))) (terms : list Term) : Rand (list Term) :=
  match infos with
  | [] => ret terms
  | (name, (sm, sd, em, ed)) :: infos' =>
      let tid := name +:+ py_str y in
      if TERMS_TO_GENERATE cfg <=? Z.of_nat (length terms) then ret terms
      else
        do start_date <- datetime_date y sm sd;
        do end_date <- datetime_date y em ed;
        terms_of_year cfg y infos'
          (terms ++ [ {| term_id := tid;
                         term_name := name +:+ " " +:+ py_str y;
                         startDate := start_date;
                         endDate := end_date;
                         term_type := name |} ])
  end.

Definition generate_terms (cfg : Config) (current_year : Z) : Rand (list Term) :=
  let start_year := current_year - HISTORY_YEARS cfg in
  let end_year := current_year + 1 in
  for_each (λ y terms, terms_of_year cfg y term_info terms)
           (py_range start_year (end_year + 1)) [].

(** [get_term_by_date] *)
Definition get_term_by_date (d : Date) : string :=
  if (1 <=? month d) && (month d <=? 5) then "Spring" +:+ py_str (year d)
  else if (6 <=? month d) && (month d <=? 7) then "Summer" +:+ py_str (year d)
  else "Fall" +:+ py_str (year d).

(** The record that one turn of the inner loop appends for year [y]. *)
Definition season_term (y : Z) (info : string * (Z * Z * Z * Z)) : Term :=
  let '(name, (sm, sd, em, ed)) := info in
  {| term_id := name +:+ py_str y;
     term_name := name +:+ " " +:+ py_str y;
     startDate := mkDate y sm sd;
     endDate := mkDate y em ed;
     term_type := name |}.

(** [sum(weights)] *)
Definition Qsum (l : list Q) : Q := fold_right Qplus 0%Q l.


(** ** Entities and edges *)

Record Course := mkCourse {
  course_id : string;
  course_name : string;
  department : string;
  credits : Z;
  level : Z;
  avgDifficulty : Z;
  avgTimeCommitment : Z;
  termAvailability : list string;
  instructionModes : list string;
  tags : list string;
  (* the four success rates are absent from the courses added by the
     top-up loop of generate_courses *)
  visualLearnerSuccess : option Q;
  auditoryLearnerSuccess : option Q;
  kinestheticLearnerSuccess : option Q;
  readingLearnerSuccess : option Q
}.

Record Student := mkStudent {
  student_id : string;
  student_name : string;
  enrollmentDate : Date;
  expectedGraduation : Date;
  learningStyle : string;
  preferredCourseLoad : Z;
  preferredPace : string;
  workHoursPerWeek : Z;
  financialAidStatus : string;
  preferredInstructionMode : string
}.

(** A PREREQUISITE_FOR edge *)
Record Prerequisite := mkPrerequisite {
  prereq_source : string;
  prereq_target : string;
  strength : string;
  minGrade : string
}.

(** ** Dictionaries of lists *)

(** [d[k].append(v)] on a [defaultdict(list)] *)
Definition group_append {K V} `{Countable K}
    (d : gmap K (list V)) (k : K) (v : V) : gmap K (list V) :=
  <[k := default [] (d !! k) ++ [v]]> d.

(** [d.get(k, [])] *)
Definition get_list {K V} `{Countable K} (d : gmap K (list V)) (k : K) : list V :=
  default [] (d !! k).

(** ** Curriculum graph builder: prerequisites *)

Definition by_dept_level (courses : list Course) : gmap (string * Z) (list Course) :=
  foldl (λ d course, group_append d (department course, level course) course) ∅ courses.

(** The number of prerequisites drawn for a course of the given level. *)
Definition draw_num_prereqs (cfg : Config) (lvl : Z) : Rand Z :=
  do num_prereqs <-
    (if lvl <=? 200 then randint 0 1
     else if lvl <=? 300 then randint 1 2
     else if lvl <=? 400 then randint 1 3
     else randint 2 (MAX_PREREQS_PER_COURSE cfg));
  ret (Z.min num_prereqs (MAX_PREREQS_PER_COURSE cfg)).

(** [for l in range(100, level, 100): if (d, l) in by_dept_level: extend] *)
Definition extend_lower_levels (bdl : gmap (string * Z) (list Course))
    (d : string) (lvl : Z) (potential_prereqs : list Course) : list Course :=
  foldl (λ acc l, match bdl !! (d, l) with
                  | Some cs => acc ++ cs
                  | None => acc
                  end)
        potential_prereqs (py_range_step 100 lvl 100).

(** The candidate pool of a course: its own department first, widened to
    the other departments when that is not enough for the drawn count. *)
Definition potential_prereqs (cfg : Config) (bdl : gmap (string * Z) (list Course))
    (dept : string) (lvl : Z) (num_prereqs : Z) : list Course :=
  let same_dept := extend_lower_levels bdl dept lvl [] in
  if Z.of_nat (length same_dept) <? num_prereqs then
    foldl (λ acc d, if decide (d ≠ dept) then extend_lower_levels bdl d lvl acc else acc)
          same_dept (DEPARTMENTS cfg)
  else same_dept.

(** One edge per selected prerequisite. *)
Definition append_prerequisite (course prereq : Course)
    (prerequisites : list Prerequisite) : Rand (list Prerequisite) :=
  do r <- random_random;
  let strength := if Qlt_le_dec r (8 # 10) then "Required" else "Recommended" in
  do min_grade <-
    (if String.eqb strength "Required" then choice ["C"; "C-"; "D"; "D-"] else ret "");
  ret (prerequisites ++
       [ {| prereq_source := course_id prereq;
            prereq_target := course_id course;
            strength := strength;
            minGrade := min_grade |} ]).

(** The body of the main loop of [generate_prerequisites]. *)
Definition prerequisites_for (cfg : Config) (bdl : gmap (string * Z) (list Course))
    (course : Course) (prerequisites : list Prerequisite) : Rand (list Prerequisite) :=
  let dept := department course in
  let lvl := level course in
  if 100 <? lvl then
    do num_prereqs <- draw_num_prereqs cfg lvl;
    let potential := potential_prereqs cfg bdl dept lvl num_prereqs in
    let num_prereqs := Z.min num_prereqs (Z.of_nat (length potential)) in
    do selected_prereqs <-
      (if 0 <? num_prereqs then sample potential num_prereqs else ret []);
    for_each (append_prerequisite course) selected_prereqs prerequisites
  else ret prerequisites.

Definition generate_prerequisites (cfg : Config) (courses : list Course)
    : Rand (list Prerequisite) :=
  let bdl := by_dept_level courses in
  for_each (prerequisites_for cfg bdl) courses [].

(** The PREREQUISITE_FOR relation on course identifiers. *)
Definition prereq_rel (edges : list Prerequisite) (x y : string) : Prop :=
  ∃ e, e ∈ edges ∧ prereq_source e = x ∧ prereq_target e = y.

(** ** Numeric conversions on the rational model of floats *)

(** [round(x)]: to the nearest integer, ties to the even one *)
Definition py_round (q : Q) : Z :=
  let f := Qfloor q in
  match (q - inject_Z f ?= 1 # 2)%Q with
  | Lt => f
  | Gt => f + 1
  | Eq => if Z.even f then f else f + 1
  end.

(** [round(x, 2)] *)
Definition py_round2 (q : Q) : Q := py_round (q * 100) # 100.

(** [int(x)]: truncation towards zero *)
Definition py_int (q : Q) : Z :=
  if Qle_bool 0 q then Qfloor q else Qceiling q.

(** [seq[i]] with Python's negative indices *)
Definition py_index {A} (seq : list A) (i : Z) : Rand A :=
  let n := Z.of_nat (length seq) in
  let j := if i <? 0 then i + n else i in
  if (0 <=? j) && (j <? n) then
    match seq !! Z.to_nat j with
    | Some x => ret x
    | None => raise IndexError
    end
  else raise IndexError.

(** [[f(x) for x in l]] *)
Fixpoint for_list {A B} (f : A → Rand B) (l : list A) : Rand (list B) :=
  match l with
  | [] => ret []
  | x :: l' => do y <- f x; do ys <- for_list f l'; ret (y :: ys)
  end.

(** ** Enrollment history simulator *)

(** A COMPLETED edge *)
Record Completed := mkCompleted {
  c_studentId : string;
  c_courseId : string;
  c_term : string;
  grade : string;
  difficulty : Z;
  timeSpent : Z;
  instructionMode : string;
  enjoyment : bool
}.

(** An ENROLLED_IN edge *)
Record Enrolled := mkEnrolled {
  e_studentId : string;
  e_courseId : string
}.

Inductive Emitted :=
| ENROLLED_IN (r : Enrolled)
| COMPLETED (r : Completed).

(** History variable: one entry per turn of the innermost loop, recording
    who selected which course in which term and what was appended. *)
Record Selection := mkSelection {
  sel_student : Student;
  sel_term : Term;
  sel_course : Course;
  sel_emitted : Emitted
}.

(** The two lists the function builds, and the history variable [trace]
    that no code reads. *)
Record History := mkHistory {
  completed_courses : list Completed;
  enrolled_courses : list Enrolled;
  trace : list Selection
}.

Definition prereq_graph_of (prerequisites : list Prerequisite) : gmap string (list string) :=
  foldl (λ d p, group_append d (prereq_target p) (prereq_source p)) ∅ prerequisites.

(** The learning-style adjustment of the perceived difficulty. *)
Definition style_match_modifier (student_style : string) (course : Course) : Q :=
  match String.eqb student_style "Visual", visualLearnerSuccess course with
  | true, Some s => ((s - (8 # 10)) * 2)%Q
  | _, _ =>
  match String.eqb student_style "Auditory", auditoryLearnerSuccess course with
  | true, Some s => ((s - (8 # 10)) * 2)%Q
  | _, _ =>
  match String.eqb student_style "Kinesthetic", kinestheticLearnerSuccess course with
  | true, Some s => ((s - (8 # 10)) * 2)%Q
  | _, _ =>
  match String.eqb student_style "Reading-Writing", readingLearnerSuccess course with
  | true, Some s => ((s - (8 # 10)) * 2)%Q
  | _, _ => 0%Q
  end end end end.

(** The outcome generated for a course of a past (or future) term. *)
Definition complete_course (cfg : Config) (student : Student) (term : Term)
    (course : Course) : Rand Completed :=
  do grade <- weighted_choice (GRADE_DISTRIBUTION cfg);
  let student_style := learningStyle student in
  let base_difficulty := avgDifficulty course in
  let modifier := style_match_modifier student_style course in
  let perceived_difficulty :=
    Z.max 1 (Z.min 5 (py_round (inject_Z base_difficulty - modifier))) in
  let avg_time := avgTimeCommitment course in
  do u <- uniform (7 # 10) (13 # 10);
  let time_spent := Z.max 1 (py_int (inject_Z avg_time * u)) in
  do instruction_mode <- choice (instructionModes course);
  let enjoyment :=
    bool_decide (grade ∈ ["A"; "A-"; "B+"; "B"]%string) && (perceived_difficulty <=? 4) in
  ret {| c_studentId := student_id student;
         c_courseId := course_id course;
         c_term := term_id term;
         grade := grade;
         difficulty := perceived_difficulty;
         timeSpent := time_spent;
         instructionMode := instruction_mode;
         enjoyment := enjoyment |}.

(** The body of the innermost loop: one selected course. *)
Definition record_course (cfg : Config) (current_term : string)
    (student : Student) (term : Term) (course : Course)
    (st : gset string * History) : Rand (gset string * History) :=
  let '(taken_courses, h) := st in
  let taken_courses := taken_courses ∪ {[course_id course]} in
  if String.eqb (term_id term) current_term then
    let r := {| e_studentId := student_id student; e_courseId := course_id course |} in
    ret (taken_courses,
         {| completed_courses := completed_courses h;
            enrolled_courses := enrolled_courses h ++ [r];
            trace := trace h ++ [mkSelection student term course (ENROLLED_IN r)] |})
  else
    do r <- complete_course cfg student term course;
    ret (taken_courses,
         {| completed_courses := completed_courses h ++ [r];
            enrolled_courses := enrolled_courses h;
            trace := trace h ++ [mkSelection student term course (COMPLETED r)] |}).

(** The courses a student may be given in a term. *)
Definition potential_courses (courses : list Course) (term : Term)
    (taken_courses : gset string) : list Course :=
  filter (λ c, term_type term ∈ termAvailability c ∧ course_id c ∉ taken_courses) courses.

Definition valid_courses (prereq_graph : gmap string (list string))
    (potential : list Course) (taken_courses : gset string) : list Course :=
  let valid := filter (λ c, Forall (λ p, p ∈ taken_courses)
                                   (get_list prereq_graph (course_id c))) potential in
  if decide (valid = []) then
    filter (λ c, get_list prereq_graph (course_id c) = []) potential
  else valid.

(** The body of the loop over the terms of one student. *)
Definition enroll_term (cfg : Config) (current_term : string) (courses : list Course)
    (prereq_graph : gmap string (list string)) (student : Student) (term : Term)
    (st : gset string * History) : Rand (gset string * History) :=
  let '(taken_courses, h) := st in
  do num_courses <- randint 1 (preferredCourseLoad student);
  let potential := potential_courses courses term taken_courses in
  let valid := valid_courses prereq_graph potential taken_courses in
  do term_courses <- sample valid (Z.min num_courses (Z.of_nat (length valid)));
  for_each (record_course cfg current_term student term) term_courses (taken_courses, h).

(** The terms a student walks: the trailing [terms_enrolled] ones. *)
Definition student_terms_of (cfg : Config) (now : Date) (terms : list Term)
    (student : Student) : Rand (list Term) :=
  let enrollment_date := enrollmentDate student in
  let terms_enrolled :=
    Z.min (TERMS_TO_GENERATE cfg) ((toordinal now - toordinal enrollment_date) / 120) in
  let terms_enrolled := if terms_enrolled =? 0 then 1 else terms_enrolled in
  let n := Z.of_nat (length terms) in
  let enrolled_term_indices := py_range (Z.max 0 (n - terms_enrolled)) n in
  for_list (py_index terms) enrolled_term_indices.

(** The body of the loop over the students. *)
Definition student_history (cfg : Config) (now : Date) (current_term : string)
    (courses : list Course) (terms : list Term)
    (prereq_graph : gmap string (list string))
    (student : Student) (h : History) : Rand History :=
  do student_terms <- student_terms_of cfg now terms student;
  do st <- for_each (enroll_term cfg current_term courses prereq_graph student)
                    student_terms (∅, h);
  ret st.2.

Definition simulate_history (cfg : Config) (now : Date) (students : list Student)
    (courses : list Course) (terms : list Term) (prerequisites : list Prerequisite)
    : Rand History :=
  let prereq_graph := prereq_graph_of prerequisites in
  let current_term := get_term_by_date now in
  for_each (student_history cfg now current_term courses terms prereq_graph)
           students (mkHistory [] [] []).

Definition generate_student_course_history (cfg : Config) (now : Date)
    (students : list Student) (courses : list Course) (terms : list Term)
    (prerequisites : list Prerequisite) : Rand (list Completed * list Enrolled) :=
  do h <- simulate_history cfg now students courses terms prerequisites;
  ret (completed_courses h, enrolled_courses h).

(** The records a trace stands for. *)
Definition completed_of (tr : list Selection) : list Completed :=
  omap (λ s, match sel_emitted s with COMPLETED r => Some r | _ => None end) tr.
Definition enrolled_of (tr : list Selection) : list Enrolled :=
  omap (λ s, match sel_emitted s with ENROLLED_IN r => Some r | _ => None end) tr.

(** Term [id1] starts strictly before term [id2]. *)
Definition earlier_term (terms : list Term) (id1 id2 : string) : Prop :=
  ∃ t1 t2, t1 ∈ terms ∧ t2 ∈ terms ∧ term_id t1 = id1 ∧ term_id t2 = id2 ∧
           date_lt (startDate t1) (startDate t2).

(** ** Invariants and specifications used in the proofs *)

Definition terms_inv (cfg : Config) (y : Z) (terms : list Term) : Prop :=
  StronglySorted date_lt (map startDate terms) ∧
  Forall (λ d, year d < y) (map startDate terms) ∧
  Z.of_nat (length terms) ≤ Z.max 0 (TERMS_TO_GENERATE cfg).

Definition lower_level_course (courses : list Course) (lvl : Z) (p : Course) : Prop :=
  p ∈ courses ∧ level p < lvl.

(** What one edge of the chunk emitted for [course] looks like. *)
Definition edge_of (courses : list Course) (course : Course) (e : Prerequisite) : Prop :=
  prereq_target e = course_id course ∧
  ∃ p, p ∈ courses ∧ level p < level course ∧ prereq_source e = course_id p.

(** The chunk of edges emitted for one course. *)
Definition chunk_of (cfg : Config) (courses : list Course)
    (course : Course) (new : list Prerequisite) : Prop :=
  Forall (edge_of courses course) new ∧
  ∃ num_prereqs,
    let pool := potential_prereqs cfg (by_dept_level courses)
                  (department course) (level course) num_prereqs in
    num_prereqs ≤ MAX_PREREQS_PER_COURSE cfg ∧
    Z.of_nat (length new) = Z.max 0 (Z.min num_prereqs (Z.of_nat (length pool))).


(** What the innermost loop logs when [student] is given [course] in
    [term]. *)
Definition entry_of (current_term : string) (student : Student) (term : Term)
    (course : Course) (s : Selection) : Prop :=
  sel_student s = student ∧ sel_term s = term ∧ sel_course s = course ∧
  if decide (term_id term = current_term)
  then sel_emitted s =
         ENROLLED_IN {| e_studentId := student_id student; e_courseId := course_id course |}
  else ∃ r, sel_emitted s = COMPLETED r ∧
            c_studentId r = student_id student ∧ c_courseId r = course_id course ∧
            c_term r = term_id term ∧ 1 ≤ difficulty r ≤ 5.

(** The term walk of one student as a step relation: from the set of
    courses taken so far, each term contributes the log entries of a sample
    of the courses valid at that point. *)
Inductive walk (current_term : string) (courses : list Course)
    (prereq_graph : gmap string (list string)) (student : Student)
    : gset string → list Term → list Selection → Prop :=
| walk_done taken : walk current_term courses prereq_graph student taken [] []
| walk_term taken term terms term_courses chunk rest :
    term_courses ⊆+ valid_courses prereq_graph (potential_courses courses term taken) taken →
    Forall2 (entry_of current_term student term) term_courses chunk →
    walk current_term courses prereq_graph student
         (taken ∪ list_to_set (map course_id term_courses)) terms rest →
    walk current_term courses prereq_graph student taken (term :: terms) (chunk ++ rest).

(** The (student, course) pair a log entry is about. *)
Definition sel_key (s : Selection) : string * string :=
  (student_id (sel_student s), course_id (sel_course s)).

(** The log of one student: a walk over a suffix of the terms. *)
Definition student_log (cfg : Config) (now : Date) (courses : list Course)
    (terms : list Term) (prereq_graph : gmap string (list string))
    (student : Student) (log : list Selection) : Prop :=
  ∃ skipped student_terms,
    terms = skipped ++ student_terms ∧
    walk (get_term_by_date now) courses prereq_graph student ∅ student_terms log.

(** A history whose two lists are exactly what its trace records. *)
Definition history_consistent (h : History) : Prop :=
  completed_courses h = completed_of (trace h) ∧
  enrolled_courses h = enrolled_of (trace h).

(** The per-state facts every loop of the simulator preserves: the new
    state extends the old one by a piece of log, consistently. *)
Definition extends (h h' : History) (log : list Selection) : Prop :=
  trace h' = trace h ++ log ∧
  completed_courses h' = completed_courses h ++ completed_of log ∧
  enrolled_courses h' = enrolled_courses h ++ enrolled_of log.


(** The record of a log entry is about the entry's own student and course. *)
Definition record_matches (s : Selection) : Prop :=
  match sel_emitted s with
  | COMPLETED r => (c_studentId r, c_courseId r) = sel_key s
  | ENROLLED_IN r => (e_studentId r, e_courseId r) = sel_key s
  end.

(** The enrollment rule as the specification words it: ENROLLED_IN exactly
    for the current term, which it takes to be the last generated term. *)
Definition enrolled_rule_as_stated (now : Date) (terms : list Term) (h : History) : Prop :=
  ∀ s, s ∈ trace h →
    ((∃ r, sel_emitted s = ENROLLED_IN r) ↔ term_id (sel_term s) = get_term_by_date now) ∧
    ((∃ r, sel_emitted s = ENROLLED_IN r) → last terms = Some (sel_term s)).

(** Causal consistency as the specification words it: every prerequisite
    of a completed course was itself completed in an earlier term, unless
    the course has no prerequisite at all. *)
Definition causal_consistency_as_stated (terms : list Term)
    (prerequisites : list Prerequisite) (completed : list Completed) : Prop :=
  ∀ r, r ∈ completed →
    (∀ e, e ∈ prerequisites → prereq_target e = c_courseId r →
       ∃ r', r' ∈ completed ∧ c_studentId r' = c_studentId r ∧
             c_courseId r' = prereq_source e ∧
             earlier_term terms (c_term r') (c_term r)) ∨
    (∀ e, e ∈ prerequisites → prereq_target e ≠ c_courseId r).

(** ** A small run, used to exercise the theorems *)

(** The source's settings with a history window of zero years: the
    generated terms then span the current and the next year. *)
Definition window_config : Config := {|
  NUM_STUDENTS := 1;
  NUM_COURSES := 2;
  NUM_FACULTY := NUM_FACULTY default_config;
  NUM_DEGREES := NUM_DEGREES default_config;
  TERMS_TO_GENERATE := TERMS_TO_GENERATE default_config;
  HISTORY_YEARS := 0;
  MAX_PREREQS_PER_COURSE := MAX_PREREQS_PER_COURSE default_config;
  LEARNING_STYLE_DISTRIBUTION := LEARNING_STYLE_DISTRIBUTION default_config;
  COURSE_DIFFICULTY_DISTRIBUTION := COURSE_DIFFICULTY_DISTRIBUTION default_config;
  GRADE_DISTRIBUTION := GRADE_DISTRIBUTION default_config;
  DEPARTMENTS := DEPARTMENTS default_config;
  COURSE_LEVELS := COURSE_LEVELS default_config
|}.

Definition demo_now : Date := mkDate 2026 11 3.

Definition demo_intro : Course := {|
  course_id := "CSAA 100";
  course_name := "Introduction to Algorithms";
  department := "Computer Science";
  credits := 3;
  level := 100;
  avgDifficulty := 3;
  avgTimeCommitment := 6;
  termAvailability := ["Fall"; "Spring"];
  instructionModes := ["In-person"; "Online"];
  tags := ["Computer Science"; "Level-1"; "Intro"];
  visualLearnerSuccess := Some (q100 90);
  auditoryLearnerSuccess := Some (q100 70);
  kinestheticLearnerSuccess := Some (q100 80);
  readingLearnerSuccess := Some (q100 65)
|}.

Definition demo_next : Course := {|
  course_id := "CSAA 200";
  course_name := "Data Structures";
  department := "Computer Science";
  credits := 4;
  level := 200;
  avgDifficulty := 4;
  avgTimeCommitment := 8;
  termAvailability := ["Fall"; "Spring"];
  instructionModes := ["In-person"];
  tags := ["Computer Science"; "Level-2"; "Data"];
  visualLearnerSuccess := Some (q100 60);
  auditoryLearnerSuccess := Some (q100 75);
  kinestheticLearnerSuccess := Some (q100 80);
  readingLearnerSuccess := Some (q100 95)
|}.

Definition demo_courses : list Course := [demo_intro; demo_next].

Definition demo_student : Student := {|
  student_id := "AB12345";
  student_name := "Ada Brown";
  enrollmentDate := mkDate 2025 1 15;
  expectedGraduation := mkDate 2028 5 20;
  learningStyle := "Visual";
  preferredCourseLoad := 2;
  preferredPace := "Standard";
  workHoursPerWeek := 10;
  financialAidStatus := "Scholarship";
  preferredInstructionMode := "In-person"
|}.

Definition demo_students : list Student := [demo_student].

(** The six terms [generate_terms] yields for that window in 2026. *)
Definition demo_terms : list Term :=
  flat_map (λ y, map (season_term y) term_info) [2026; 2027].

(** The edge [generate_prerequisites] yields on the tape [[1]]. *)
Definition demo_prerequisites : list Prerequisite :=
  [ {| prereq_source := "CSAA 100"; prereq_target := "CSAA 200";
       strength := "Required"; minGrade := "C" |} ].

Definition demo_enrolled : list Enrolled :=
  [ {| e_studentId := "AB12345"; e_courseId := "CSAA 100" |} ].

Definition demo_completed : list Completed :=
  [ {| c_studentId := "AB12345"; c_courseId := "CSAA 200"; c_term := "Spring2027";
       grade := "A"; difficulty := 4; timeSpent := 5;
       instructionMode := "In-person"; enjoyment := true |} ].

Definition demo_fall2026 : Term := season_term 2026 ("Fall", (8, 25, 12, 15)).
Definition demo_spring2027 : Term := season_term 2027 ("Spring", (1, 25, 5, 15)).

(** What that run logs: the introductory course in the current term, its
    successor in the following term. *)
Definition demo_history : History := {|
  completed_courses := demo_completed;
  enrolled_courses := demo_enrolled;
  trace :=
    [ mkSelection demo_student demo_fall2026 demo_intro
        (ENROLLED_IN {| e_studentId := "AB12345"; e_courseId := "CSAA 100" |});
      mkSelection demo_student demo_spring2027 demo_next
        (COMPLETED {| c_studentId := "AB12345"; c_courseId := "CSAA 200";
                      c_term := "Spring2027"; grade := "A"; difficulty := 4;
                      timeSpent := 5; instructionMode := "In-person";
                      enjoyment := true |}) ]
|}.

(** ** Similarity graph builder: students *)

(** A SIMILAR_LEARNING_STYLE edge *)
Record StyleSimilarity := mkStyleSimilarity {
  ls_sourceId : string;
  ls_targetId : string;
  ls_similarity : Q
}.

(** A SIMILAR_PERFORMANCE edge *)
Record PerformanceSimilarity := mkPerformanceSimilarity {
  ps_sourceId : string;
  ps_targetId : string;
  ps_similarity : Q;
  ps_courses : list string
}.

(** [{key(x): x for x in l}]: later entries overwrite earlier ones. *)
Definition dict_of {K V} `{Countable K} (key : V → K) (l : list V) : gmap K V :=
  foldl (λ d x, <[key x := x]> d) ∅ l.

(** [d[k]] *)
Definition dict_item {K V} `{Countable K} (d : gmap K V) (k : K) : Rand V :=
  match d !! k with
  | Some v => ret v
  | None => raise KeyError
  end.

(** [x / y] on floats *)
Definition py_div (x y : Q) : Rand Q :=
  if Qeq_bool y 0 then raise ZeroDivisionError else ret (x / y)%Q.

Definition grade_map : gmap string Q :=
  list_to_map
    [("A", 40 # 10); ("A-", 37 # 10);
     ("B+", 33 # 10); ("B", 30 # 10); ("B-", 27 # 10);
     ("C+", 23 # 10); ("C", 20 # 10); ("C-", 17 # 10);
     ("D+", 13 # 10); ("D", 10 # 10); ("D-", 7 # 10);
     ("F", 0); ("W", 0)]%Q.

(** [grade_map.get(g, 0)] *)
Definition grade_points (g : string) : Q := default 0%Q (grade_map !! g).

Definition Qmax (a b : Q) : Q := if Qle_bool a b then b else a.
Definition Qmin (a b : Q) : Q := if Qle_bool a b then a else b.

(** The score of one SIMILAR_LEARNING_STYLE edge. *)
Definition style_similarity_score (student similar : Student) : Rand Q :=
  let base_similarity := (7 # 10)%Q in
  let base_similarity :=
    if String.eqb (preferredPace similar) (preferredPace student)
    then (base_similarity + (1 # 10))%Q else base_similarity in
  let load_diff := Z.abs (preferredCourseLoad similar - preferredCourseLoad student) in
  let base_similarity := (base_similarity - inject_Z load_diff * (2 # 100))%Q in
  let base_similarity :=
    if String.eqb (preferredInstructionMode similar) (preferredInstructionMode student)
    then (base_similarity + (1 # 10))%Q else base_similarity in
  do u <- uniform (- (1 # 10)) (1 # 10);
  ret (py_round2 (Qmax (1 # 10) (Qmin 1 (base_similarity + u)))).

(** The learning-style half of the body of the main loop. *)
Definition style_edges (by_style : gmap string (list Student)) (student : Student)
    (learning_style_similarity : list StyleSimilarity) : Rand (list StyleSimilarity) :=
  let same_style_students := get_list by_style (learningStyle student) in
  let num_similar := Z.min 20 (Z.of_nat (length same_style_students)) in
  do similar_students <- sample same_style_students num_similar;
  for_each (λ similar acc,
              if String.eqb (student_id similar) (student_id student) then ret acc
              else
                do score <- style_similarity_score student similar;
                ret (acc ++ [ {| ls_sourceId := student_id student;
                                 ls_targetId := student_id similar;
                                 ls_similarity := score |} ]))
           similar_students learning_style_similarity.

(** [sum(abs(f(a[c]) - f(b[c])) for c in common) / len(common)] *)
Definition average_gap (f : Completed → Q) (student_taken other_taken : gmap string Completed)
    (common_courses : list string) : Rand Q :=
  do diffs <- for_list (λ course_id,
                do a <- dict_item student_taken course_id;
                do b <- dict_item other_taken course_id;
                ret (Qabs (f a - f b))) common_courses;
  py_div (Qsum diffs) (inject_Z (Z.of_nat (length diffs))).

(** The score over the courses both students completed. *)
Definition performance_score (student_taken other_taken : gmap string Completed)
    (common_courses : list string) : Rand Q :=
  do avg_grade_diff <-
    average_gap (λ r, grade_points (grade r)) student_taken other_taken common_courses;
  let grade_similarity := Qmax 0 (1 - avg_grade_diff / 4) in
  do avg_diff_diff <-
    average_gap (λ r, inject_Z (difficulty r)) student_taken other_taken common_courses;
  let diff_similarity := Qmax 0 (1 - avg_diff_diff / 5) in
  ret (py_round2 (grade_similarity * (7 # 10) + diff_similarity * (3 # 10))).

(** The performance half of the body, for one other student. *)
Definition performance_edge (student_courses : gmap string (list Completed))
    (student : Student) (student_taken : gmap string Completed) (other_student : Student)
    (performance_similarity : list PerformanceSimilarity)
    : Rand (list PerformanceSimilarity) :=
  if String.eqb (student_id other_student) (student_id student)
  then ret performance_similarity
  else
    let other_taken :=
      dict_of c_courseId (get_list student_courses (student_id other_student)) in
    let common_courses : gset string := dom student_taken ∩ dom other_taken in
    if 3 <=? Z.of_nat (size common_courses) then
      (* the iteration order of a set is unspecified; [elements] fixes one *)
      do overall_similarity <-
        performance_score student_taken other_taken (elements common_courses);
      ret (performance_similarity ++
           [ {| ps_sourceId := student_id student;
                ps_targetId := student_id other_student;
                ps_similarity := overall_similarity;
                ps_courses := elements common_courses |} ])
    else ret performance_similarity.

(** [enumerate(l)] *)
Definition py_enumerate {A} (l : list A) : list (Z * A) :=
  imap (λ i x, (Z.of_nat i, x)) l.

Definition similarity_body (students : list Student)
    (by_style : gmap string (list Student))
    (student_courses : gmap string (list Completed))
    (ix : Z * Student)
    (st : list StyleSimilarity * list PerformanceSimilarity)
    : Rand (list StyleSimilarity * list PerformanceSimilarity) :=
  let '(i, student) := ix in
  let '(learning_style_similarity, performance_similarity) := st in
  do learning_style_similarity <- style_edges by_style student learning_style_similarity;
  let student_taken :=
    dict_of c_courseId (get_list student_courses (student_id student)) in
  if i mod 5 =? 0 then
    do performance_similarity <-
      for_each (performance_edge student_courses student student_taken)
               students performance_similarity;
    ret (learning_style_similarity, performance_similarity)
  else ret (learning_style_similarity, performance_similarity).

Definition generate_student_similarity (students : list Student)
    (completed_courses : list Completed)
    : Rand (list StyleSimilarity * list PerformanceSimilarity) :=
  let by_style :=
    foldl (λ d student, group_append d (learningStyle student) student) ∅ students in
  let student_courses :=
    foldl (λ d completed, group_append d (c_studentId completed) completed)
          ∅ completed_courses in
  for_each (similarity_body students by_style student_courses)
           (py_enumerate students) ([], []).

(** *** The performance score in the words of the specification *)

(** The record of student [a] for course [c]: the last one in the list. *)
Definition record_for (completed : list Completed) (a c : string) : option Completed :=
  last (filter (λ r, c_studentId r = a ∧ c_courseId r = c) completed).

(** The courses both students have completed. *)
Definition shared_courses (completed : list Completed) (a b : string) : gset string :=
  list_to_set (map c_courseId (filter (λ r, c_studentId r = a) completed)) ∩
  list_to_set (map c_courseId (filter (λ r, c_studentId r = b) completed)).

(** Mean absolute gap of a measure over the shared courses. *)
Definition mean_gap (f : Completed → Q) (completed : list Completed) (a b : string) : Q :=
  let shared := elements (shared_courses completed a b) in
  (Qsum (map (λ c, match record_for completed a c, record_for completed b c with
                   | Some ra, Some rb => Qabs (f ra - f rb)
                   | _, _ => 0
                   end) shared)
   / inject_Z (Z.of_nat (length shared)))%Q.

Definition grade_agreement (completed : list Completed) (a b : string) : Q :=
  Qmax 0 (1 - mean_gap (λ r, grade_points (grade r)) completed a b / 4).

Definition difficulty_agreement (completed : list Completed) (a b : string) : Q :=
  Qmax 0 (1 - mean_gap (λ r, inject_Z (difficulty r)) completed a b / 5).

(** What a SIMILAR_PERFORMANCE edge must look like, in the words of the
    specification. *)
Definition performance_edge_spec (students : list Student) (completed : list Completed)
    (e : PerformanceSimilarity) : Prop :=
  ∃ (i : nat) student other,
    students !! i = Some student ∧ Z.of_nat i mod 5 = 0 ∧ other ∈ students ∧
    ps_sourceId e = student_id student ∧ ps_targetId e = student_id other ∧
    (3 ≤ size (shared_courses completed (student_id student) (student_id other)))%nat ∧
    ps_similarity e =
      py_round2 ((7 # 10) * grade_agreement completed (student_id student) (student_id other)
                 + (3 # 10) * difficulty_agreement completed (student_id student)
                                (student_id other)) ∧
    ps_courses e = elements (shared_courses completed (student_id student) (student_id other)).

Definition unit_interval (q : Q) : Prop := (0 <= q)%Q ∧ (q <= 1)%Q.

(** The gap of one shared course, as [mean_gap] sums it. *)
Definition course_gap (f : Completed → Q) (ra rb : option Completed) : Q :=
  match ra, rb with
  | Some ra, Some rb => Qabs (f ra - f rb)
  | _, _ => 0
  end.

(** The edges the performance pass adds for one ordered pair of students,
    written with the specification's score. *)
Definition performance_edges_for (completed : list Completed)
    (student other : Student) : list PerformanceSimilarity :=
  let a := student_id student in
  let b := student_id other in
  if String.eqb b a then []
  else if 3 <=? Z.of_nat (size (shared_courses completed a b)) then
    [ {| ps_sourceId := a;
         ps_targetId := b;
         ps_similarity :=
           py_round2 ((7 # 10) * grade_agreement completed a b
                      + (3 # 10) * difficulty_agreement completed a b);
         ps_courses := elements (shared_courses completed a b) |} ]
  else [].

(** The invariant of the main loop of [generate_student_similarity]. *)
Definition similarity_inv (students : list Student) (completed : list Completed)
    (st : list StyleSimilarity * list PerformanceSimilarity) : Prop :=
  Forall (λ e, unit_interval (ls_similarity e)) st.1 ∧
  Forall (performance_edge_spec students completed) st.2.


(** ** Similarity graph builder: courses *)

(** A SIMILAR_CONTENT or SIMILAR_DIFFICULTY edge *)
Record CourseSimilarity := mkCourseSimilarity {
  cs_source : string;
  cs_target : string;
  cs_similarity : Q
}.

(** [d[k] = v] on a dictionary that remembers insertion order *)
Fixpoint dict_set {K V} `{EqDecision K} (d : list (K * V)) (k : K) (v : V) : list (K * V) :=
  match d with
  | [] => [(k, v)]
  | (k', v') :: d' =>
      if decide (k = k') then (k, v) :: d' else (k', v') :: dict_set d' k v
  end.

(** [list({key(x): x for x in l}.values())] *)
Definition dict_values_of {K V} `{EqDecision K} (key : V → K) (l : list V) : list V :=
  map snd (foldl (λ d x, dict_set d (key x) x) [] l).

Definition by_dept_of (courses : list Course) : gmap string (list Course) :=
  foldl (λ d course, group_append d (department course) course) ∅ courses.

Definition by_tag_of (courses : list Course) : gmap string (list Course) :=
  foldl (λ d course, foldl (λ d tag, group_append d tag course) d (tags course))
        ∅ courses.

(** Content similarity to one course of the same department. *)
Definition content_same_dept (course similar : Course)
    (similarity_content : list CourseSimilarity) : Rand (list CourseSimilarity) :=
  if negb (String.eqb (course_id similar) (course_id course)) then
    do r <- random_random;
    if Qlt_le_dec r (1 # 10) then
      do u <- uniform (1 # 10) (8 # 10);
      ret (similarity_content ++
           [ {| cs_source := course_id course; cs_target := course_id similar;
                cs_similarity := py_round2 u |} ])
    else ret similarity_content
  else ret similarity_content.

(** Content similarity to one course sharing a tag; [seen_course_ids] is
    filled but never consulted. *)
Definition content_shared_tag (course similar : Course)
    (st : gset string * list CourseSimilarity) : Rand (gset string * list CourseSimilarity) :=
  let '(seen_course_ids, similarity_content) := st in
  let seen_course_ids := seen_course_ids ∪ {[course_id similar]} in
  if negb (String.eqb (course_id similar) (course_id course)) then
    do r <- random_random;
    if Qlt_le_dec r (2 # 10) then
      let course_tags : gset string := list_to_set (tags course) in
      let similar_tags : gset string := list_to_set (tags similar) in
      let shared_tags := Z.of_nat (size (course_tags ∩ similar_tags)) in
      let base_similarity := ((2 # 10) + inject_Z shared_tags * (1 # 10))%Q in
      do u <- uniform 0 (2 # 10);
      ret (seen_course_ids,
           similarity_content ++
           [ {| cs_source := course_id course; cs_target := course_id similar;
                cs_similarity := py_round2 (Qmin (9 # 10) (base_similarity + u)) |} ])
    else ret (seen_course_ids, similarity_content)
  else ret (seen_course_ids, similarity_content).

(** Difficulty similarity to one sampled course. *)
Definition difficulty_similar (course similar : Course)
    (similarity_difficulty : list CourseSimilarity) : list CourseSimilarity :=
  if negb (String.eqb (course_id similar) (course_id course))
     && (Z.abs (avgDifficulty course - avgDifficulty similar) <=? 1) then
    let difficulty_diff := Z.abs (avgDifficulty course - avgDifficulty similar) in
    similarity_difficulty ++
    [ {| cs_source := course_id course; cs_target := course_id similar;
         cs_similarity := py_round2 (1 - inject_Z difficulty_diff / 5) |} ]
  else similarity_difficulty.

Definition course_similarity_body (courses : list Course)
    (by_dept by_tag : gmap string (list Course)) (course : Course)
    (st : list CourseSimilarity * list CourseSimilarity)
    : Rand (list CourseSimilarity * list CourseSimilarity) :=
  let '(similarity_content, similarity_difficulty) := st in
  let same_dept_courses := get_list by_dept (department course) in
  let shared_tag_courses := flat_map (λ tag, get_list by_tag tag) (tags course) in
  do similarity_content <-
    for_each (content_same_dept course) same_dept_courses similarity_content;
  do seen_content <-
    for_each (content_shared_tag course) shared_tag_courses (∅, similarity_content);
  do sampled <- sample courses (Z.min 10 (Z.of_nat (length courses)));
  ret (seen_content.2,
       foldl (λ acc similar, difficulty_similar course similar acc)
             similarity_difficulty sampled).

Definition generate_course_similarity (courses : list Course)
    : Rand (list CourseSimilarity * list CourseSimilarity) :=
  let by_dept := by_dept_of courses in
  let by_tag := by_tag_of courses in
  do st <- for_each (course_similarity_body courses by_dept by_tag) courses ([], []);
  let edge_key (s : CourseSimilarity) := (cs_source s, cs_target s) in
  ret (dict_values_of edge_key st.1, dict_values_of edge_key st.2).

Definition unit_edges (l : list CourseSimilarity) : Prop :=
  Forall (λ e, unit_interval (cs_similarity e)) l.

(** ** Entity generator: courses *)

(** [str.upper] and [str.lower] on ASCII text *)
Definition py_upper_char (c : Ascii.ascii) : Ascii.ascii :=
  let n := Ascii.nat_of_ascii c in
  if (97 <=? n)%nat && (n <=? 122)%nat then Ascii.ascii_of_nat (n - 32) else c.
Definition py_lower_char (c : Ascii.ascii) : Ascii.ascii :=
  let n := Ascii.nat_of_ascii c in
  if (65 <=? n)%nat && (n <=? 90)%nat then Ascii.ascii_of_nat (n + 32) else c.
Fixpoint string_map (f : Ascii.ascii → Ascii.ascii) (s : string) : string :=
  match s with
  | String.EmptyString => String.EmptyString
  | String.String c s' => String.String (f c) (string_map f s')
  end.
Definition py_upper : string → string := string_map py_upper_char.
Definition py_lower : string → string := string_map py_lower_char.

(** [sub in s] *)
Definition py_in (sub s : string) : bool :=
  match String.index 0 sub s with Some _ => true | None => false end.

(** [c * n] for a one-character string *)
Fixpoint py_repeat (c : Ascii.ascii) (n : nat) : string :=
  match n with
  | O => String.EmptyString
  | S n' => String.String c (py_repeat c n')
  end.

Definition ascii_uppercase : string := "ABCDEFGHIJKLMNOPQRSTUVWXYZ".

Definition generate_course_id (dept : string) (lvl : Z) : Rand string :=
  let initials := omap (String.get 0) (take 2 (String.words dept)) in
  let dept_prefix := py_upper (String.string_of_list_ascii initials) in
  do dept_prefix <-
    (if (String.length dept_prefix <? 4)%nat then
       do ch <- choice (String.list_ascii_of_string ascii_uppercase);
       ret (dept_prefix +:+ py_repeat ch (4 - String.length dept_prefix))
     else ret dept_prefix);
  ret (String.substring 0 4 dept_prefix +:+ " " +:+ py_str lvl).

Definition dept_names : list (string * list string) :=
  [ ("Computer Science",
      ["Introduction to Programming"; "Data Structures";
       "Algorithms"; "Operating Systems"; "Computer Architecture";
       "Artificial Intelligence"; "Machine Learning"; "Database Systems";
       "Computer Networks"; "Software Engineering"; "Computer Graphics";
       "Cybersecurity"; "Web Development"; "Mobile Computing"]);
    ("Information Systems",
      ["Information Systems Fundamentals"; "Database Management";
       "System Analysis and Design"; "IT Infrastructure"; "Business Intelligence";
       "Enterprise Architecture"; "Knowledge Management"; "Data Analytics";
       "IT Project Management"; "Information Security"; "Decision Support Systems"]);
    ("Mathematics",
      ["Calculus I"; "Calculus II"; "Calculus III"; "Linear Algebra";
       "Differential Equations"; "Abstract Algebra"; "Real Analysis";
       "Discrete Mathematics"; "Probability Theory"; "Statistics";
       "Number Theory"; "Numerical Analysis"; "Graph Theory"]);
    ("Physics",
      ["General Physics I"; "General Physics II"; "Modern Physics";
       "Classical Mechanics"; "Electromagnetism"; "Thermodynamics";
       "Quantum Mechanics"; "Nuclear Physics"; "Solid State Physics";
       "Optics"; "Astrophysics"; "Relativity"]);
    ("Chemistry",
      ["General Chemistry"; "Organic Chemistry"; "Inorganic Chemistry";
       "Analytical Chemistry"; "Physical Chemistry"; "Biochemistry";
       "Environmental Chemistry"; "Chemical Kinetics"; "Spectroscopy";
       "Medicinal Chemistry"]);
    ("Biology",
      ["General Biology"; "Cell Biology"; "Molecular Biology";
       "Genetics"; "Ecology"; "Evolution"; "Microbiology";
       "Anatomy and Physiology"; "Botany"; "Zoology";
       "Marine Biology"; "Immunology"]);
    ("Psychology",
      ["Introduction to Psychology"; "Developmental Psychology";
       "Cognitive Psychology"; "Social Psychology"; "Abnormal Psychology";
       "Clinical Psychology"; "Educational Psychology"; "Health Psychology";
       "Personality Psychology"; "Neuropsychology"]);
    ("English",
      ["Composition"; "World Literature"; "American Literature";
       "British Literature"; "Creative Writing"; "Technical Writing";
       "Shakespeare"; "Poetry"; "Drama"; "Fiction"]);
    ("History",
      ["World History"; "American History"; "European History";
       "Asian History"; "African History"; "Latin American History";
       "Medieval History"; "Renaissance History"; "Modern History"]);
    ("Political Science",
      ["Introduction to Political Science"; "American Government";
       "International Relations"; "Comparative Politics"; "Political Theory";
       "Public Policy"; "Constitutional Law"; "Foreign Policy"]);
    ("Sociology",
      ["Introduction to Sociology"; "Social Problems"; "Social Theory";
       "Urban Sociology"; "Rural Sociology"; "Medical Sociology";
       "Criminology"; "Race and Ethnicity"; "Gender Studies"]);
    ("Economics",
      ["Microeconomics"; "Macroeconomics"; "International Economics";
       "Development Economics"; "Labor Economics"; "Monetary Economics";
       "Environmental Economics"; "Health Economics"; "Public Economics"]);
    ("Visual Arts",
      ["Drawing"; "Painting"; "Sculpture"; "Photography";
       "Digital Art"; "Graphic Design"; "Art History";
       "Printmaking"; "Ceramics"; "Animation"]);
    ("Music",
      ["Music Theory"; "Music History"; "Music Appreciation";
       "Applied Music"; "Music Composition"; "Ensemble";
       "Conducting"; "Ethnomusicology"; "Music Technology"]);
    ("Engineering",
      ["Engineering Fundamentals"; "Mechanics"; "Electrical Circuits";
       "Thermodynamics"; "Fluid Mechanics"; "Control Systems";
       "Robotics"; "Materials Science"; "Structural Analysis"]) ].

Definition generate_course_name (dept : string) (lvl : Z) : Rand string :=
  let names :=
    default ["Course"] ((list_to_map dept_names : gmap string (list string)) !! dept) in
  if lvl <? 200 then
    do p <- choice ["Introduction to "; "Fundamentals of "; "Principles of "; "Basic "];
    do n <- choice names;
    ret (p +:+ n)
  else if lvl <? 300 then
    choice names
  else if lvl <? 400 then
    do n <- choice names;
    do s <- choice [" I"; " Analysis"; " Methods"; " Applications"; " Theory"];
    ret (n +:+ s)
  else if lvl <? 500 then
    do n <- choice names;
    do s <- choice [" II"; " Advanced"; " Seminar"; " Research"; " Project"];
    ret (n +:+ s)
  else
    do p <- choice ["Advanced "; "Graduate "; "Research in "; "Topics in "];
    do n <- choice names;
    ret (p +:+ n).

(** [while any(c["id"] == course_id for c in courses): course_id = ...]:
    every turn makes the identifier longer, so it can collide at most once
    with each existing course, and [length courses] turns of the body are
    enough; the fuel never runs out ([unique_course_id_total]). *)
Fixpoint unique_course_id_loop (fuel : nat) (courses : list Course) (cid : string)
    : Rand string :=
  if existsb (λ c, String.eqb (course_id c) cid) courses then
    match fuel with
    | O => raise ValueError
    | S fuel' =>
        do r <- randint 1 9;
        unique_course_id_loop fuel' courses (cid +:+ "-" +:+ py_str r)
    end
  else ret cid.

Definition unique_course_id (courses : list Course) (cid : string) : Rand string :=
  unique_course_id_loop (length courses) courses cid.

Definition topic_keywords : list string :=
  ["Programming"; "Data"; "Theory"; "Analysis"; "Design";
   "Research"; "Applications"; "Methods"; "Systems"; "Project"].

(** [round(random.uniform(0.6, 1.0), 2)] *)
Definition draw_success : Rand Q :=
  do u <- uniform (6 # 10) 1; ret (py_round2 u).

(** [min(1.0, rate + 0.2)] when the name holds one of two keywords *)
Definition favor (name a b : string) (rate : Q) : Q :=
  if py_in a name || py_in b name then Qmin 1 (rate + (2 # 10)) else rate.

(** Credit hours: mostly 3, some 4, few 1 or 2. *)
Definition draw_credits : Rand Z :=
  do r <- random_random;
  if Qlt_le_dec r (7 # 10) then ret 3
  else
    do r' <- random_random;
    if Qlt_le_dec r' (2 # 10) then ret 4 else choice [1; 2].

(** [level // 100 + avg_difficulty + random.randint(1, 3)] *)
Definition draw_time_commitment (lvl avg_difficulty : Z) : Rand Z :=
  do r <- randint 1 3; ret (lvl / 100 + avg_difficulty + r).

(** The body of the loop over the courses of one department. *)
Definition department_course (cfg : Config) (dept : string) (courses : list Course)
    : Rand Course :=
  do lvl <- weighted_choice (COURSE_LEVELS cfg);
  do cid <- generate_course_id dept lvl;
  do cid <- unique_course_id courses cid;
  do name <- generate_course_name dept lvl;
  do avg_difficulty <- weighted_choice (COURSE_DIFFICULTY_DISTRIBUTION cfg);
  do avg_time_commitment <- draw_time_commitment lvl avg_difficulty;
  do summer <- random_random;
  let available_terms :=
    ["Fall"; "Spring"] ++ (if Qlt_le_dec summer (3 # 10) then ["Summer"] else []) in
  do online <- random_random;
  do hybrid <- random_random;
  let instruction_modes :=
    ["In-person"] ++ (if Qlt_le_dec online (6 # 10) then ["Online"] else [])
                  ++ (if Qlt_le_dec hybrid (4 # 10) then ["Hybrid"] else []) in
  do credits <- draw_credits;
  let tags :=
    [dept; "Level-" +:+ py_str (lvl / 100)]
    ++ (if py_in "Introduction" name then ["Intro"] else [])
    ++ (if py_in "Advanced" name then ["Advanced"] else [])
    ++ filter (λ keyword, py_in (py_lower keyword) (py_lower name) = true) topic_keywords in
  do visual_success <- draw_success;
  do auditory_success <- draw_success;
  do kinesthetic_success <- draw_success;
  do reading_success <- draw_success;
  ret {| course_id := cid;
         course_name := name;
         department := dept;
         credits := credits;
         level := lvl;
         avgDifficulty := avg_difficulty;
         avgTimeCommitment := avg_time_commitment;
         termAvailability := available_terms;
         instructionModes := instruction_modes;
         tags := tags;
         visualLearnerSuccess := Some (favor name "Design" "Graphics" visual_success);
         auditoryLearnerSuccess := Some (favor name "Lecture" "Theory" auditory_success);
         kinestheticLearnerSuccess := Some (favor name "Lab" "Practical" kinesthetic_success);
         readingLearnerSuccess := Some (favor name "Literature" "Research" reading_success) |}.

(** The body of the top-up loop. *)
Definition topup_course (cfg : Config) (courses : list Course) : Rand Course :=
  do dept <- choice (DEPARTMENTS cfg);
  do lvl <- weighted_choice (COURSE_LEVELS cfg);
  do cid <- generate_course_id dept lvl;
  do cid <- unique_course_id courses cid;
  do name <- generate_course_name dept lvl;
  do avg_difficulty <- weighted_choice (COURSE_DIFFICULTY_DISTRIBUTION cfg);
  do avg_time_commitment <- draw_time_commitment lvl avg_difficulty;
  ret {| course_id := cid;
         course_name := name;
         department := dept;
         credits := 3;
         level := lvl;
         avgDifficulty := avg_difficulty;
         avgTimeCommitment := avg_time_commitment;
         termAvailability := ["Fall"; "Spring"];
         instructionModes := ["In-person"];
         tags := [dept; "Level-" +:+ py_str (lvl / 100)];
         visualLearnerSuccess := None;
         auditoryLearnerSuccess := None;
         kinestheticLearnerSuccess := None;
         readingLearnerSuccess := None |}.

(** [courses.append(course); dept_courses[dept].append(course)] *)
Definition Catalog : Type := list Course * gmap string (list Course).

Definition add_course (course : Course) (cat : Catalog) : Catalog :=
  (cat.1 ++ [course], group_append cat.2 (department course) course).

(** [n] turns of a loop body *)
Fixpoint repeat_loop {S} (n : nat) (body : S → Rand S) (s : S) : Rand S :=
  match n with
  | O => ret s
  | S n' => do s' <- body s; repeat_loop n' body s'
  end.

Definition department_courses (cfg : Config) (dept : string) (cat : Catalog)
    : Rand Catalog :=
  do share <- py_div 1 (inject_Z (Z.of_nat (length (DEPARTMENTS cfg))));
  let dept_course_count := Z.max 5 (py_int (inject_Z (NUM_COURSES cfg) * share)) in
  repeat_loop (Z.to_nat dept_course_count)
    (λ cat, do course <- department_course cfg dept cat.1; ret (add_course course cat))
    cat.

(** [generate_courses]; its argument [faculty_by_dept] is not used.  The
    top-up loop appends one course per turn, so it makes exactly
    [NUM_COURSES - len(courses)] turns. *)
Definition generate_courses (cfg : Config) : Rand Catalog :=
  do cat <- for_each (department_courses cfg) (DEPARTMENTS cfg) ([], ∅);
  repeat_loop (Z.to_nat (NUM_COURSES cfg - Z.of_nat (length cat.1)))
    (λ cat, do course <- topup_course cfg cat.1; ret (add_course course cat))
    cat.

(** The invariant of the two loops of [generate_courses]. *)
Definition credits_ok (c : Course) : Prop := 1 ≤ credits c ≤ 4.

Definition catalog_inv (cat : Catalog) : Prop :=
  NoDup (map course_id cat.1) ∧
  Forall credits_ok cat.1 ∧
  ∀ d, get_list cat.2 d = filter (λ c, department c = d) cat.1.

(** The number of courses of a department. *)
Definition dept_count (d : string) (cat : Catalog) : nat :=
  length (filter (λ c, department c = d) cat.1).

(** ** Degree assembler *)

Record Degree := mkDegree {
  degree_id : string;
  degree_name : string;
  degree_department : string;
  degree_type : string;
  totalCreditsRequired : Z;
  coreCreditsRequired : Z;
  electiveCreditsRequired : Z
}.

Record RequirementGroup := mkRequirementGroup {
  req_id : string;
  req_name : string;
  req_description : string;
  minimumCourses : Z;
  minimumCredits : Z;
  req_degreeId : string;
  req_courses : list string
}.

(** [s.replace(' ', '')] *)
Fixpoint remove_spaces (s : string) : string :=
  match s with
  | String.EmptyString => String.EmptyString
  | String.String c s' =>
      if Ascii.eqb c (Ascii.ascii_of_nat 32) then remove_spaces s' else String.String c (remove_spaces s')
  end.

Definition oq_eqb (a b : option Q) : bool :=
  match a, b with
  | Some x, Some y => Qeq_bool x y
  | None, None => true
  | _, _ => false
  end.

(** Equality of two course dictionaries, field by field. *)
Definition course_eqb (a b : Course) : bool :=
  String.eqb (course_id a) (course_id b)
  && String.eqb (course_name a) (course_name b)
  && String.eqb (department a) (department b)
  && (credits a =? credits b) && (level a =? level b)
  && (avgDifficulty a =? avgDifficulty b)
  && (avgTimeCommitment a =? avgTimeCommitment b)
  && bool_decide (termAvailability a = termAvailability b)
  && bool_decide (instructionModes a = instructionModes b)
  && bool_decide (tags a = tags b)
  && oq_eqb (visualLearnerSuccess a) (visualLearnerSuccess b)
  && oq_eqb (auditoryLearnerSuccess a) (auditoryLearnerSuccess b)
  && oq_eqb (kinestheticLearnerSuccess a) (kinestheticLearnerSuccess b)
  && oq_eqb (readingLearnerSuccess a) (readingLearnerSuccess b).

(** [c in l] on course dictionaries *)
Definition course_in (c : Course) (l : list Course) : bool := existsb (course_eqb c) l.

(** [sorted(l, key=lambda x: x["level"])], a stable sort *)
Fixpoint insert_by_level (x : Course) (l : list Course) : list Course :=
  match l with
  | [] => [x]
  | y :: l' => if level x <? level y then x :: y :: l' else y :: insert_by_level x l'
  end.
Definition sorted_by_level (l : list Course) : list Course :=
  foldl (λ acc x, insert_by_level x acc) [] l.

Definition degree_types : Weights string :=
  [("Bachelor of Science", 4 # 10); ("Bachelor of Arts", 3 # 10);
   ("Master of Science", 2 # 10); ("Master of Arts", 1 # 10)].

Definition level_weights : gmap Z Q :=
  list_to_map [(100, 2 # 10); (200, 3 # 10); (300, 4 # 10); (400, 5 # 10);
               (600, 6 # 10); (700, 7 # 10)].

(** The courses a degree draws on: its department and a sample of up to
    five courses from each related department. *)
Definition extend_related (dept_courses : gmap string (list Course)) (dept : string)
    (related_dept : string) (available_courses : list Course) : Rand (list Course) :=
  if negb (String.eqb related_dept dept) && bool_decide (is_Some (dept_courses !! related_dept))
  then
    let pool := get_list dept_courses related_dept in
    do extra <- sample pool (Z.min 5 (Z.of_nat (length pool)));
    ret (available_courses ++ extra)
  else ret available_courses.

(** One turn of the core selection. *)
Definition select_core (target_core_courses : Z) (course : Course)
    (core_courses : list Course) : Rand (list Course) :=
  let weight := default (3 # 10) (level_weights !! level course) in
  do r <- random_random;
  if Qlt_le_dec r weight then
    if Z.of_nat (length core_courses) <? target_core_courses
    then ret (core_courses ++ [course]) else ret core_courses
  else ret core_courses.

(** One additional requirement group. *)
Definition additional_group (dept degree_id degree_name : string)
    (remaining_courses : list Course) (j : Z)
    (requirement_groups : list RequirementGroup) : Rand (list RequirementGroup) :=
  do req_type <- choice ["Elective"; "Concentration"; "Specialization"; "Distribution"];
  let rid := "REQ-" +:+ py_upper req_type +:+ "-" +:+ py_str (j + 1) +:+ "-" +:+ degree_id in
  let rname := dept +:+ " " +:+ req_type +:+ " Requirements - Group " +:+ py_str (j + 1) in
  do num_req_courses <- randint 3 8;
  do req_courses <-
    (match remaining_courses with
     | [] => ret []
     | _ => sample remaining_courses
              (Z.min num_req_courses (Z.of_nat (length remaining_courses)))
     end);
  do min_courses <- randint 1 (Z.max 1 (Z.of_nat (length req_courses) - 1));
  let min_credits := min_courses * 3 in
  ret (requirement_groups ++
       [ {| req_id := rid;
            req_name := rname;
            req_description := req_type +:+ " courses for " +:+ degree_name;
            minimumCourses := min_courses;
            minimumCredits := min_credits;
            req_degreeId := degree_id;
            req_courses := map course_id req_courses |} ]).

(** The body of the loop over the degrees.  Reading [dept_courses[dept]]
    on the defaultdict may add an empty entry; an empty entry is never
    told apart from a missing one, so the dictionary is not threaded. *)
Definition generate_degree (cfg : Config) (dept_courses : gmap string (list Course))
    (i : Z) (st : list Degree * list RequirementGroup)
    : Rand (list Degree * list RequirementGroup) :=
  let '(degrees, requirement_groups) := st in
  do dept <- choice (DEPARTMENTS cfg);
  do dtype <- weighted_choice degree_types;
  let prefix :=
    if String.eqb dtype "Bachelor of Science" then "BS"
    else if String.eqb dtype "Bachelor of Arts" then "BA"
    else if String.eqb dtype "Master of Science" then "MS" else "MA" in
  let did := prefix +:+ "-" +:+ remove_spaces dept +:+ "-" +:+ py_str (i + 1) in
  let dname := dtype +:+ " in " +:+ dept in
  do '(total_credits, core_credits) <-
    (if String.prefix "Bachelor" dtype
     then do c <- randint 60 80; ret (120, c)
     else do c <- randint 24 30; ret (36, c));
  let elective_credits := total_credits - core_credits in
  do first_word <- py_index (String.words dtype) 0;
  let degree :=
    {| degree_id := did; degree_name := dname; degree_department := dept;
       degree_type := first_word;
       totalCreditsRequired := total_credits;
       coreCreditsRequired := core_credits;
       electiveCreditsRequired := elective_credits |} in
  do num_requirement_groups <- randint 3 7;
  let available_courses := get_list dept_courses dept in
  do related_depts <-
    sample (DEPARTMENTS cfg) (Z.min 3 (Z.of_nat (length (DEPARTMENTS cfg))));
  do available_courses <-
    for_each (extend_related dept_courses dept) related_depts available_courses;
  let sorted := sorted_by_level available_courses in
  let target_core_courses := Z.min 20 (Z.of_nat (length available_courses) / 2) in
  do core_courses <- for_each (select_core target_core_courses) sorted [];
  let core_min_credits := fold_right Z.add 0 (map credits core_courses) in
  let core_min_courses := Z.of_nat (length core_courses) in
  let core_requirement :=
    {| req_id := "REQ-CORE-" +:+ did;
       req_name := "Core " +:+ dept +:+ " Requirements";
       req_description := "Required courses for " +:+ dname;
       minimumCourses := core_min_courses;
       minimumCredits := core_min_credits;
       req_degreeId := did;
       req_courses := map course_id core_courses |} in
  let remaining_courses :=
    filter (λ c, course_in c core_courses = false) available_courses in
  do requirement_groups <-
    for_each (additional_group dept did dname remaining_courses)
             (py_range 0 (num_requirement_groups - 1))
             (requirement_groups ++ [core_requirement]);
  ret (degrees ++ [degree], requirement_groups).

Definition generate_degrees (cfg : Config) (dept_courses : gmap string (list Course))
    : Rand (list Degree * list RequirementGroup) :=
  for_each (generate_degree cfg dept_courses) (py_range 0 (NUM_DEGREES cfg)) ([], []).

(** A requirement group is the core group of its degree. *)
Definition is_core_group (g : RequirementGroup) : bool :=
  String.prefix "REQ-CORE-" (req_id g).

(** What C4 asks of one requirement group. *)
Definition group_feasible (g : RequirementGroup) : Prop :=
  minimumCourses g ≤ Z.of_nat (length (req_courses g)) ∧
  (is_core_group g = false → minimumCourses g < Z.of_nat (length (req_courses g))).

(** Only the core group of a degree carries the core id. *)
Definition group_inv (g : RequirementGroup) : Prop :=
  group_feasible g ∧
  (is_core_group g = true → req_id g = "REQ-CORE-" +:+ req_degreeId g).

(** ** A one-department run of the course and degree generators *)

Definition studio_config : Config := {|
  NUM_STUDENTS := 1;
  NUM_COURSES := 5;
  NUM_FACULTY := 1;
  NUM_DEGREES := 1;
  TERMS_TO_GENERATE := TERMS_TO_GENERATE default_config;
  HISTORY_YEARS := HISTORY_YEARS default_config;
  MAX_PREREQS_PER_COURSE := MAX_PREREQS_PER_COURSE default_config;
  LEARNING_STYLE_DISTRIBUTION := LEARNING_STYLE_DISTRIBUTION default_config;
  COURSE_DIFFICULTY_DISTRIBUTION := COURSE_DIFFICULTY_DISTRIBUTION default_config;
  GRADE_DISTRIBUTION := GRADE_DISTRIBUTION default_config;
  DEPARTMENTS := ["Computer Science"];
  COURSE_LEVELS := COURSE_LEVELS default_config
|}.

(** The value a run returns, or [d] when it raises. *)
Definition result_of {A} (d : A) (o : Outcome A) : A :=
  match o with Returns a _ => a | Raises _ => d end.

(** Five courses of the department, on the exhausted tape. *)
Definition studio_catalog : Catalog :=
  result_of ([], ∅) (generate_courses studio_config []).

(** One degree over them: its core group and two elective groups. *)
Definition studio_degrees : list Degree * list RequirementGroup :=
  result_of ([], []) (generate_degrees studio_config studio_catalog.2 []).

(** The similarity edges of the two demo courses. *)
Definition demo_course_similarity : list CourseSimilarity * list CourseSimilarity :=
  result_of ([], []) (generate_course_similarity demo_courses []).

(** ** The academic calendar *)

(** The three terms of every year from [s] up to, not including, [e]. *)
Definition season_calendar (s e : Z) : list Term :=
  flat_map (λ y, map (season_term y) term_info) (py_range s e).

(** [a <= d <= b] on dates *)
Definition date_between (a d b : Date) : Prop := ¬ date_lt d a ∧ ¬ date_lt b d.

(** The position of the term of a date among the three terms of its year. *)
Definition season_index (d : Date) : Z :=
  if (1 <=? month d) && (month d <=? 5) then 0
  else if (6 <=? month d) && (month d <=? 7) then 1 else 2.

(** ** Well-formed courses *)

(** A learner success rate, where the course has one. *)
Definition rate_ok (o : option Q) : Prop :=
  match o with
  | Some q => (6 # 10 <= q)%Q ∧ (q <= 1)%Q
  | None => True
  end.

(** What every course dictionary built by [generate_courses] satisfies. *)
Definition course_wf (cfg : Config) (c : Course) : Prop :=
  department c ∈ DEPARTMENTS cfg ∧
  level c ∈ map fst (COURSE_LEVELS cfg) ∧
  avgDifficulty c ∈ map fst (COURSE_DIFFICULTY_DISTRIBUTION cfg) ∧
  level c / 100 + avgDifficulty c + 1 ≤ avgTimeCommitment c
    ≤ level c / 100 + avgDifficulty c + 3 ∧
  termAvailability c ∈ [["Fall"; "Spring"]; ["Fall"; "Spring"; "Summer"]] ∧
  instructionModes c ∈ [["In-person"]; ["In-person"; "Online"]; ["In-person"; "Hybrid"];
                        ["In-person"; "Online"; "Hybrid"]] ∧
  take 2 (tags c) = [department c; "Level-" +:+ py_str (level c / 100)] ∧
  rate_ok (visualLearnerSuccess c) ∧ rate_ok (auditoryLearnerSuccess c) ∧
  rate_ok (kinestheticLearnerSuccess c) ∧ rate_ok (readingLearnerSuccess c).

(** ** Runs that always return *)

(** On every tape, [m] returns a value satisfying [P]. *)
Definition returns_with {A} (m : Rand A) (P : A → Prop) : Prop :=
  ∀ t, ∃ a t', m t = Returns a t' ∧ P a.

(** On every tape, [m] returns. *)
Definition always_returns {A} (m : Rand A) : Prop := returns_with m (λ _, True).

(** ** Payload of a prerequisite edge *)

Definition edge_payload_ok (e : Prerequisite) : Prop :=
  (strength e = "Required" ∧ minGrade e ∈ ["C"; "C-"; "D"; "D-"]) ∨
  (strength e = "Recommended" ∧ minGrade e = "").

(** ** Course sequences: LEADS_TO *)

Record LeadsTo := mkLeadsTo {
  lt_source : string;
  lt_target : string;
  commonality : Q;
  successCorrelation : Q
}.

(** [prereq_graph[p["source"]].append(p["target"])]: the courses that list
    a course as a prerequisite. *)
Definition followers_of (prerequisites : list Prerequisite) : gmap string (list string) :=
  foldl (λ d p, group_append d (prereq_source p) (prereq_target p)) ∅ prerequisites.

(** [round(random.uniform(a, b), 2)] *)
Definition draw_rounded (a b : Q) : Rand Q :=
  do u <- uniform a b; ret (py_round2 u).

(** One follower of [course]: a LEADS_TO edge nine times out of ten. *)
Definition lead_to_follower (course : Course) (follower_id : string)
    (leads_to : list LeadsTo) : Rand (list LeadsTo) :=
  do r <- random_random;
  if Qlt_le_dec r (9 # 10) then
    do c <- draw_rounded (7 # 10) 1;
    do s <- draw_rounded (6 # 10) (9 # 10);
    ret (leads_to ++ [ {| lt_source := course_id course; lt_target := follower_id;
                          commonality := c; successCorrelation := s |} ])
  else ret leads_to.

(** One course of the same department at the next level; the random
    source is only consulted when the course is not a follower. *)
Definition lead_to_next_level (course : Course) (followers : list string)
    (potential : Course) (leads_to : list LeadsTo) : Rand (list LeadsTo) :=
  if bool_decide (course_id potential ∈ followers) then ret leads_to
  else
    do r <- random_random;
    if Qlt_le_dec r (3 # 10) then
      do c <- draw_rounded (2 # 10) (6 # 10);
      do s <- draw_rounded (4 # 10) (7 # 10);
      ret (leads_to ++ [ {| lt_source := course_id course;
                            lt_target := course_id potential;
                            commonality := c; successCorrelation := s |} ])
    else ret leads_to.

(** The body of the loop over the courses. *)
Definition leads_to_for (courses : list Course) (prereq_graph : gmap string (list string))
    (course : Course) (leads_to : list LeadsTo) : Rand (list LeadsTo) :=
  let followers := get_list prereq_graph (course_id course) in
  do leads_to <- for_each (lead_to_follower course) followers leads_to;
  let dept := department course in
  let next_level := level course + 100 in
  let same_dept_next_level :=
    filter (λ c, department c = dept ∧ level c = next_level) courses in
  for_each (lead_to_next_level course followers) same_dept_next_level leads_to.

Definition generate_leads_to_relationships (courses : list Course)
    (prerequisites : list Prerequisite) : Rand (list LeadsTo) :=
  let prereq_graph := followers_of prerequisites in
  for_each (leads_to_for courses prereq_graph) courses [].

(** A LEADS_TO edge that mirrors a prerequisite edge. *)
Definition follows_prerequisite (prerequisites : list Prerequisite) (e : LeadsTo) : Prop :=
  (∃ p, p ∈ prerequisites ∧ prereq_source p = lt_source e ∧ prereq_target p = lt_target e) ∧
  (7 # 10 <= commonality e)%Q ∧ (commonality e <= 1)%Q ∧
  (6 # 10 <= successCorrelation e)%Q ∧ (successCorrelation e <= 9 # 10)%Q.

(** A LEADS_TO edge to a course of the same department, one level up,
    that does not list the source as a prerequisite. *)
Definition next_level_lead (courses : list Course) (prerequisites : list Prerequisite)
    (e : LeadsTo) : Prop :=
  (∃ c q, c ∈ courses ∧ q ∈ courses ∧ course_id c = lt_source e ∧
          course_id q = lt_target e ∧ department q = department c ∧
          level q = level c + 100) ∧
  (∀ p, p ∈ prerequisites → prereq_source p = lt_source e → prereq_target p ≠ lt_target e) ∧
  (2 # 10 <= commonality e)%Q ∧ (commonality e <= 6 # 10)%Q ∧
  (4 # 10 <= successCorrelation e)%Q ∧ (successCorrelation e <= 7 # 10)%Q.

(** ** Students and their degrees *)

Record StudentDegree := mkStudentDegree {
  sd_studentId : string;
  sd_degreeId : string
}.

(** The body of the loop over the students: a primary degree, and a
    second one with a different id one time out of ten. *)
Definition pursue_degrees (degrees : list Degree) (student : Student)
    (student_degree : list StudentDegree) : Rand (list StudentDegree) :=
  do primary_degree <- choice degrees;
  let student_degree :=
    student_degree ++ [ {| sd_studentId := student_id student;
                           sd_degreeId := degree_id primary_degree |} ] in
  do r <- random_random;
  if Qlt_le_dec r (1 # 10) then
    do second_degree <-
      choice (filter (λ d, degree_id d ≠ degree_id primary_degree) degrees);
    ret (student_degree ++ [ {| sd_studentId := student_id student;
                                sd_degreeId := degree_id second_degree |} ])
  else ret student_degree.

Definition generate_student_degree_relationships (students : list Student)
    (degrees : list Degree) : Rand (list StudentDegree) :=
  for_each (pursue_degrees degrees) students [].

(** The records of one student: one degree, or two with different ids. *)
Definition degrees_of_student (degrees : list Degree) (student : Student)
    (chunk : list StudentDegree) : Prop :=
  ∃ d, d ∈ degrees ∧
    (chunk = [ {| sd_studentId := student_id student; sd_degreeId := degree_id d |} ] ∨
     ∃ d', d' ∈ degrees ∧ degree_id d' ≠ degree_id d ∧
       chunk = [ {| sd_studentId := student_id student; sd_degreeId := degree_id d |};
                 {| sd_studentId := student_id student; sd_degreeId := degree_id d' |} ]).

(** ** Faculty and teaching *)

Record Faculty := mkFaculty {
  faculty_id : string;
  faculty_name : string;
  faculty_department : string;
  teachingStyle : list string;
  avgRating : Q
}.

Record Teaching := mkTeaching {
  t_facultyId : string;
  t_courseId : string;
  t_terms : list string
}.

(** [faculty_by_dept]: a dictionary in insertion order, as its [values()]
    are listed. *)
Definition FacultyByDept := list (string * list Faculty).

(** [d.get(k, [])] *)
Definition dict_get_list {V} (d : list (string * list V)) (k : string) : list V :=
  match list_find (λ kv, kv.1 = k) d with
  | Some (_, (_, vs)) => vs
  | None => []
  end.

(** [[f for depts in faculty_by_dept.values() for f in depts]] *)
Definition all_faculty (faculty_by_dept : FacultyByDept) : list Faculty :=
  concat (map snd faculty_by_dept).

(** The terms a faculty member teaches a course in: each available term
    seven times out of ten; the random source is only consulted for the
    terms the course is offered in. *)
Definition draw_taught_term (course : Course) (term : string)
    (taught_terms : list string) : Rand (list string) :=
  if bool_decide (term ∈ termAvailability course) then
    do r <- random_random;
    if Qlt_le_dec r (7 # 10) then ret (taught_terms ++ [term]) else ret taught_terms
  else ret taught_terms.

Definition assign_faculty (course : Course) (faculty : Faculty)
    (teaching : list Teaching) : Rand (list Teaching) :=
  do taught_terms <- for_each (draw_taught_term course) ["Fall"; "Spring"; "Summer"] [];
  match taught_terms with
  | [] => ret teaching
  | _ => ret (teaching ++ [ {| t_facultyId := faculty_id faculty;
                               t_courseId := course_id course;
                               t_terms := taught_terms |} ])
  end.

(** The faculty a course may be given to: those of its department, or a
    sample of up to three of all faculty when the department has none. *)
Definition potential_faculty_of (faculty_by_dept : FacultyByDept) (course : Course)
    : Rand (list Faculty) :=
  match dict_get_list faculty_by_dept (department course) with
  | [] =>
      let everyone := all_faculty faculty_by_dept in
      sample everyone (Z.min 3 (Z.of_nat (length everyone)))
  | potential_faculty => ret potential_faculty
  end.

(** The body of the loop over the courses. *)
Definition teach_course (faculty_by_dept : FacultyByDept) (course : Course)
    (teaching : list Teaching) : Rand (list Teaching) :=
  do potential_faculty <- potential_faculty_of faculty_by_dept course;
  do num_faculty <- randint 1 (Z.min 3 (Z.of_nat (length potential_faculty)));
  do selected_faculty <- sample potential_faculty num_faculty;
  for_each (assign_faculty course) selected_faculty teaching.

Definition generate_teaching_relationships (faculty_by_dept : FacultyByDept)
    (courses : list Course) : Rand (list Teaching) :=
  for_each (teach_course faculty_by_dept) courses [].

(** One TEACHES record of [course]. *)
Definition teaches (faculty_by_dept : FacultyByDept) (course : Course) (r : Teaching)
    : Prop :=
  t_courseId r = course_id course ∧
  (∃ f, f ∈ all_faculty faculty_by_dept ∧ faculty_id f = t_facultyId r ∧
        (dict_get_list faculty_by_dept (department course) ≠ [] →
         f ∈ dict_get_list faculty_by_dept (department course))) ∧
  t_terms r ≠ [] ∧
  t_terms r `sublist_of` ["Fall"; "Spring"; "Summer"] ∧
  (∀ term, term ∈ t_terms r → term ∈ termAvailability course).

(** The TEACHES records of one course: at most three. *)
Definition teaching_of (faculty_by_dept : FacultyByDept) (course : Course)
    (chunk : list Teaching) : Prop :=
  (length chunk ≤ 3)%nat ∧ Forall (teaches faculty_by_dept course) chunk.

(** [faculty_by_dept[k].append(v)] on a defaultdict(list) that remembers
    the order in which its keys were first used *)
Fixpoint ordered_append {V} (d : list (string * list V)) (k : string) (v : V)
    : list (string * list V) :=
  match d with
  | [] => [(k, [v])]
  | (k', vs) :: d' =>
      if decide (k' = k) then (k', vs ++ [v]) :: d' else (k', vs) :: ordered_append d' k v
  end.

(** [s.zfill(width)] for a string without sign *)
Definition zfill (width : nat) (s : string) : string :=
  py_repeat (Ascii.ascii_of_nat 48) (width - String.length s) +:+ s.

(** [round(x, 1)] *)
Definition py_round1 (q : Q) : Q := py_round (q * 10) # 10.

Definition titles : list string :=
  ["Dr."; "Professor"; "Dr."; "Professor"; "Dr."; "Assoc. Prof."; "Asst. Prof."].

Definition teaching_styles : list string :=
  ["Lecture"; "Discussion"; "Problem-Based"; "Flipped Classroom";
   "Case Study"; "Project-Based"; "Hands-on"; "Collaborative";
   "Socratic"; "Demonstrative"; "Research-Oriented"; "Activity-Based"].

(** The body of the loop of [generate_faculty].  The names come from the
    Faker generator, which keeps a random state of its own: [fake n] is the
    [n]-th name it hands out from the call of [generate_faculty] on, a
    first name and a last name for every faculty member. *)
Definition generate_faculty_member (cfg : Config) (fake : nat → string) (i : Z)
    (st : list Faculty * FacultyByDept) : Rand (list Faculty * FacultyByDept) :=
  let '(faculty, faculty_by_dept) := st in
  let fid := "F" +:+ zfill 5 (py_str (i + 1001)) in
  do title <- choice titles;
  let first_name := fake (2 * Z.to_nat i)%nat in
  let last_name := fake (2 * Z.to_nat i + 1)%nat in
  let name := title +:+ " " +:+ first_name +:+ " " +:+ last_name in
  do dept <- choice (DEPARTMENTS cfg);
  do num_styles <- randint 1 3;
  do faculty_teaching_styles <- sample teaching_styles num_styles;
  do u <- uniform 3 5;
  let avg_rating := py_round1 u in
  let faculty_data :=
    {| faculty_id := fid; faculty_name := name; faculty_department := dept;
       teachingStyle := faculty_teaching_styles; avgRating := avg_rating |} in
  ret (faculty ++ [faculty_data], ordered_append faculty_by_dept dept faculty_data).

Definition generate_faculty (cfg : Config) (fake : nat → string)
    : Rand (list Faculty * FacultyByDept) :=
  for_each (generate_faculty_member cfg fake) (py_range 0 (NUM_FACULTY cfg)) ([], []).

(** What every faculty dictionary built by [generate_faculty] satisfies. *)
Definition faculty_wf (cfg : Config) (f : Faculty) : Prop :=
  faculty_department f ∈ DEPARTMENTS cfg ∧
  (1 ≤ length (teachingStyle f) ≤ 3)%nat ∧
  NoDup (teachingStyle f) ∧
  (∀ s, s ∈ teachingStyle f → s ∈ teaching_styles) ∧
  (3 <= avgRating f)%Q ∧ (avgRating f <= 5)%Q.

(** ** Payload of a COMPLETED record *)

Definition completed_wf (cfg : Config) (now : Date) (students : list Student)
    (courses : list Course) (terms : list Term) (r : Completed) : Prop :=
  ∃ student course term,
    student ∈ students ∧ course ∈ courses ∧ term ∈ terms ∧
    c_studentId r = student_id student ∧ c_courseId r = course_id course ∧
    c_term r = term_id term ∧
    term_id term ≠ get_term_by_date now ∧
    term_type term ∈ termAvailability course ∧
    grade r ∈ map fst (GRADE_DISTRIBUTION cfg) ∧
    1 ≤ timeSpent r ∧
    instructionMode r ∈ instructionModes course ∧
    (enjoyment r = true ↔ grade r ∈ ["A"; "A-"; "B+"; "B"] ∧ difficulty r ≤ 4).

(** ** Shape of degrees and requirement groups *)

Definition degree_wf (cfg : Config) (d : Degree) : Prop :=
  degree_department d ∈ DEPARTMENTS cfg ∧
  ((degree_type d = "Bachelor" ∧ totalCreditsRequired d = 120 ∧
    60 ≤ coreCreditsRequired d ≤ 80) ∨
   (degree_type d = "Master" ∧ totalCreditsRequired d = 36 ∧
    24 ≤ coreCreditsRequired d ≤ 30)) ∧
  electiveCreditsRequired d = totalCreditsRequired d - coreCreditsRequired d.

(** The requirement groups of one degree: the core group first, then two
    to six additional groups, each asking for at least one course and for
    three credits per course. *)
Definition groups_of_degree (d : Degree) (chunk : list RequirementGroup) : Prop :=
  ∃ core others,
    chunk = core :: others ∧
    (2 ≤ length others ≤ 6)%nat ∧
    req_id core = "REQ-CORE-" +:+ degree_id d ∧ req_degreeId core = degree_id d ∧
    minimumCourses core = Z.of_nat (length (req_courses core)) ∧
    Forall (λ g, req_degreeId g = degree_id d ∧ is_core_group g = false ∧
                 1 ≤ minimumCourses g ∧ minimumCredits g = 3 * minimumCourses g ∧
                 (length (req_courses g) ≤ 8)%nat) others.

(** ** Shape of a course similarity edge *)

(** An edge between two different listed courses. *)
Definition similarity_edge (courses : list Course) (e : CourseSimilarity) : Prop :=
  cs_source e ≠ cs_target e ∧
  ∃ c s, c ∈ courses ∧ s ∈ courses ∧ course_id c = cs_source e ∧ course_id s = cs_target e.

(** A SIMILAR_DIFFICULTY edge: the average difficulties differ by at most
    one, and the score is 1 for equal difficulties and 0.8 otherwise. *)
Definition difficulty_edge (courses : list Course) (e : CourseSimilarity) : Prop :=
  cs_source e ≠ cs_target e ∧
  ∃ c s, c ∈ courses ∧ s ∈ courses ∧ course_id c = cs_source e ∧ course_id s = cs_target e ∧
         ((avgDifficulty c = avgDifficulty s ∧ (cs_similarity e == 1)%Q) ∨
          (Z.abs (avgDifficulty c - avgDifficulty s) = 1 ∧ (cs_similarity e == 8 # 10)%Q)).

(** ** Student generator *)

(** [random.choices(population, k=k)] without weights: every draw takes
    the element at [floor(random() * n)]; an empty population raises
    IndexError. *)
Fixpoint choices_uniform {A} (population : list A) (k : nat) : Rand (list A) :=
  match k with
  | O => ret []
  | S k' =>
      do r <- random_random;
      match population !! Z.to_nat (Qfloor (r * inject_Z (Z.of_nat (length population)))) with
      | Some x => do rest <- choices_uniform population k'; ret (x :: rest)
      | None => raise IndexError
      end
  end.

Definition ascii_digits : string := "0123456789".

(** [generate_campus_id]: two capital letters followed by five digits. *)
Definition generate_campus_id : Rand string :=
  do letters <- choices_uniform (String.list_ascii_of_string ascii_uppercase) 2;
  do numbers <- choices_uniform (String.list_ascii_of_string ascii_digits) 5;
  ret (String.string_of_list_ascii letters +:+ String.string_of_list_ascii numbers).

(** The day after a date of the calendar. *)
Definition next_day (d : Date) : Date :=
  if day d <? days_in_month (year d) (month d) then mkDate (year d) (month d) (day d + 1)
  else if month d <? 12 then mkDate (year d) (month d + 1) 1
  else mkDate (year d + 1) 1 1.

(** [d + datetime.timedelta(days=n)] for a number of days that is not
    negative. *)
Definition date_add_days (d : Date) (n : Z) : Date := Nat.iter (Z.to_nat n) next_day d.

(** [generate_date(year_min, year_max)] *)
Definition generate_date (year_min year_max : Z) : Rand Date :=
  do start_date <- datetime_date year_min 1 1;
  do end_date <- datetime_date year_max 12 31;
  let days_between_dates := toordinal end_date - toordinal start_date in
  do random_days <- randrange days_between_dates;
  ret (date_add_days start_date random_days).

Definition course_loads : Weights string :=
  [("Accelerated", 1 # 10); ("Standard", 7 # 10); ("Part-time", 2 # 10)].

Definition instruction_prefs : Weights string :=
  [("In-person", 6 # 10); ("Online", 2 # 10); ("Hybrid", 2 # 10)].

Definition financial_statuses : Weights string :=
  [("Scholarship", 15 # 100); ("FinancialAid", 35 # 100);
   ("Self-Pay", 35 # 100); ("Loans", 15 # 100)].

(** [while any(s["id"] == campus_id for s in students): campus_id =
    generate_campus_id()].  Nothing bounds the number of turns of this
    loop: the model gives up, with [None], after [fuel] turns. *)
Fixpoint unique_campus_id_loop (fuel : nat) (students : list Student)
    (campus_id : string) : Rand (option string) :=
  if existsb (λ s, String.eqb (student_id s) campus_id) students then
    match fuel with
    | O => ret None
    | S fuel' =>
        do campus_id <- generate_campus_id;
        unique_campus_id_loop fuel' students campus_id
    end
  else ret (Some campus_id).

(** The hours worked per week, by pace. *)
Definition draw_work_hours (preferred_pace : string) : Rand Z :=
  if String.eqb preferred_pace "Part-time" then randint 20 40
  else if String.eqb preferred_pace "Standard" then randint 0 20
  else ret 0.

(** The body of the loop of [generate_students].  The names come from
    the Faker generator, as for the faculty: [fake n] is the [n]-th name it
    hands out from the call of [generate_students] on. *)
Definition generate_student (cfg : Config) (current_year : Z) (fake : nat → string)
    (fuel : nat) (i : Z) (st : option (list Student)) : Rand (option (list Student)) :=
  match st with
  | None => ret None
  | Some students =>
      do campus_id <- generate_campus_id;
      do unique <- unique_campus_id_loop fuel students campus_id;
      match unique with
      | None => ret None
      | Some campus_id =>
          let first_name := fake (2 * Z.to_nat i)%nat in
          let last_name := fake (2 * Z.to_nat i + 1)%nat in
          do enrollment_years_ago <- randint 1 5;
          do enrollment_date <-
            generate_date (current_year - enrollment_years_ago) current_year;
          do grad_years <-
            (if enrollment_years_ago <=? 3 then randint 1 4 else randint 0 2);
          do expected_graduation <-
            generate_date (current_year + grad_years) (current_year + grad_years);
          do learning_style <- weighted_choice (LEARNING_STYLE_DISTRIBUTION cfg);
          do preferred_course_load <- randint 2 5;
          do preferred_pace <- weighted_choice course_loads;
          do work_hours <- draw_work_hours preferred_pace;
          do financial_aid_status <- weighted_choice financial_statuses;
          do preferred_instruction_mode <- weighted_choice instruction_prefs;
          ret (Some (students ++
            [ {| student_id := campus_id;
                 student_name := first_name +:+ " " +:+ last_name;
                 enrollmentDate := enrollment_date;
                 expectedGraduation := expected_graduation;
                 learningStyle := learning_style;
                 preferredCourseLoad := preferred_course_load;
                 preferredPace := preferred_pace;
                 workHoursPerWeek := work_hours;
                 financialAidStatus := financial_aid_status;
                 preferredInstructionMode := preferred_instruction_mode |} ]))
      end
  end.

(** [generate_students]: [None] when the loop that makes campus ids
    unique was given up. *)
Definition generate_students (cfg : Config) (current_year : Z) (fake : nat → string)
    (fuel : nat) : Rand (option (list Student)) :=
  for_each (generate_student cfg current_year fake fuel)
           (py_range 0 (NUM_STUDENTS cfg)) (Some []).

(** What every student dictionary built by [generate_students] satisfies. *)
Definition student_wf (cfg : Config) (s : Student) : Prop :=
  String.length (student_id s) = 7%nat ∧
  learningStyle s ∈ map fst (LEARNING_STYLE_DISTRIBUTION cfg) ∧
  2 ≤ preferredCourseLoad s ≤ 5 ∧
  ((preferredPace s = "Part-time" ∧ 20 ≤ workHoursPerWeek s ≤ 40) ∨
   (preferredPace s = "Standard" ∧ 0 ≤ workHoursPerWeek s ≤ 20) ∨
   (preferredPace s = "Accelerated" ∧ workHoursPerWeek s = 0)) ∧
  financialAidStatus s ∈ map fst financial_statuses ∧
  preferredInstructionMode s ∈ map fst instruction_prefs.

(** ** Shape of the SIMILAR_LEARNING_STYLE edges *)

(** The edges that start at one student: at most twenty, each to another
    listed student of the same learning style, scored from 0.1 to 1. *)
Definition style_edges_of (students : list Student) (student : Student)
    (chunk : list StyleSimilarity) : Prop :=
  (length chunk ≤ 20)%nat ∧
  Forall (λ e, ls_sourceId e = student_id student ∧
               (∃ similar, similar ∈ students ∧ ls_targetId e = student_id similar ∧
                           student_id similar ≠ student_id student ∧
                           learningStyle similar = learningStyle student) ∧
               (1 # 10 <= ls_similarity e)%Q ∧ (ls_similarity e <= 1)%Q) chunk.

(** A date of the calendar. *)
Definition valid_date (d : Date) : Prop :=
  1 ≤ month d ≤ 12 ∧ 1 ≤ day d ≤ days_in_month (year d) (month d).

(** ** Further concrete runs *)

(** A name stream that repeats one name. *)
Definition demo_fake : nat → string := λ _, "Ada Lovelace".

(** The edge [generate_leads_to_relationships] yields for the two demo
    courses and their prerequisite edge. *)
Definition demo_leads_to : list LeadsTo :=
  result_of [] (generate_leads_to_relationships demo_courses demo_prerequisites []).

(** A graduate seminar. *)
Definition demo_seminar : Course := {|
  course_id := "CSAA 600";
  course_name := "Seminar in Algorithms";
  department := "Computer Science";
  credits := 3;
  level := 600;
  avgDifficulty := 5;
  avgTimeCommitment := 10;
  termAvailability := ["Fall"];
  instructionModes := ["In-person"];
  tags := ["Computer Science"; "Level-6"; "Seminar"];
  visualLearnerSuccess := Some (q100 70);
  auditoryLearnerSuccess := Some (q100 70);
  kinestheticLearnerSuccess := Some (q100 70);
  readingLearnerSuccess := Some (q100 70)
|}.

(** The window configuration with at most one prerequisite per course. *)
Definition strict_config : Config := {|
  NUM_STUDENTS := NUM_STUDENTS window_config;
  NUM_COURSES := NUM_COURSES window_config;
  NUM_FACULTY := NUM_FACULTY window_config;
  NUM_DEGREES := NUM_DEGREES window_config;
  TERMS_TO_GENERATE := TERMS_TO_GENERATE window_config;
  HISTORY_YEARS := HISTORY_YEARS window_config;
  MAX_PREREQS_PER_COURSE := 1;
  LEARNING_STYLE_DISTRIBUTION := LEARNING_STYLE_DISTRIBUTION window_config;
  COURSE_DIFFICULTY_DISTRIBUTION := COURSE_DIFFICULTY_DISTRIBUTION window_config;
  GRADE_DISTRIBUTION := GRADE_DISTRIBUTION window_config;
  DEPARTMENTS := DEPARTMENTS window_config;
  COURSE_LEVELS := COURSE_LEVELS window_config
|}.

(** The one-department configuration without its department. *)
Definition empty_config : Config := {|
  NUM_STUDENTS := NUM_STUDENTS studio_config;
  NUM_COURSES := NUM_COURSES studio_config;
  NUM_FACULTY := NUM_FACULTY studio_config;
  NUM_DEGREES := NUM_DEGREES studio_config;
  TERMS_TO_GENERATE := TERMS_TO_GENERATE studio_config;
  HISTORY_YEARS := HISTORY_YEARS studio_config;
  MAX_PREREQS_PER_COURSE := MAX_PREREQS_PER_COURSE studio_config;
  LEARNING_STYLE_DISTRIBUTION := LEARNING_STYLE_DISTRIBUTION studio_config;
  COURSE_DIFFICULTY_DISTRIBUTION := COURSE_DIFFICULTY_DISTRIBUTION studio_config;
  GRADE_DISTRIBUTION := GRADE_DISTRIBUTION studio_config;
  DEPARTMENTS := [];
  COURSE_LEVELS := COURSE_LEVELS studio_config
|}.

(** The one-department configuration with two degrees. *)
Definition pair_config : Config := {|
  NUM_STUDENTS := NUM_STUDENTS studio_config;
  NUM_COURSES := NUM_COURSES studio_config;
  NUM_FACULTY := NUM_FACULTY studio_config;
  NUM_DEGREES := 2;
  TERMS_TO_GENERATE := TERMS_TO_GENERATE studio_config;
  HISTORY_YEARS := HISTORY_YEARS studio_config;
  MAX_PREREQS_PER_COURSE := MAX_PREREQS_PER_COURSE studio_config;
  LEARNING_STYLE_DISTRIBUTION := LEARNING_STYLE_DISTRIBUTION studio_config;
  COURSE_DIFFICULTY_DISTRIBUTION := COURSE_DIFFICULTY_DISTRIBUTION studio_config;
  GRADE_DISTRIBUTION := GRADE_DISTRIBUTION studio_config;
  DEPARTMENTS := DEPARTMENTS studio_config;
  COURSE_LEVELS := COURSE_LEVELS studio_config
|}.

(** The faculty member of the one-department configuration and the course
    assignments drawn for the five courses. *)
Definition studio_faculty : list Faculty * FacultyByDept :=
  result_of ([], []) (generate_faculty studio_config demo_fake []).

Definition studio_teaching : list Teaching :=
  result_of [] (generate_teaching_relationships studio_faculty.2 studio_catalog.1 []).

(** Its student, enrolled by the year 2026. *)
Definition studio_students : list Student :=
  default [] (result_of None (generate_students studio_config 2026 demo_fake 3 [])).

(** Two degrees over the five courses, and the student's majors. *)
Definition pair_degrees : list Degree * list RequirementGroup :=
  result_of ([], []) (generate_degrees pair_config studio_catalog.2 []).

Definition pair_student_degree : list StudentDegree :=
  result_of [] (generate_student_degree_relationships studio_students pair_degrees.1 []).

(** The twelve terms of the shipped configuration in 2026, and the history
    of the demo student over them. *)
Definition default_terms : list Term :=
  result_of [] (generate_terms default_config 2026 []).

Definition default_history : list Completed * list Enrolled :=
  result_of ([], []) (generate_student_course_history default_config demo_now
                        demo_students demo_courses default_terms demo_prerequisites []).


(** * Reasoning about the random-source monad *)

Lemma bind_Returns {A B} (m : Rand A) (k : A → Rand B) t b t' :
  bind m k t = Returns b t' ↔ ∃ a t1, m t = Returns a t1 ∧ k a t1 = Returns b t'.
Proof.
  unfold bind. split.
  - destruct (m t) as [a t1|e]; [eauto | discriminate].
  - intros (a & t1 & -> & ?). done.
Qed.

Lemma ret_Returns {A} (a b : A) t t' : ret a t = Returns b t' ↔ a = b ∧ t = t'.
Proof. unfold ret. split; [intros [= -> ->] | intros [-> ->]]; done. Qed.

Lemma raise_Returns {A} e (b : A) t t' : raise e t = Returns b t' ↔ False.
Proof. unfold raise. split; [discriminate | done]. Qed.

(** Peel the binds of a hypothesis [m t = Returns a t']. *)
Ltac rand_inv :=
  repeat match goal with
    | H : bind _ _ _ = Returns _ _ |- _ =>
        apply bind_Returns in H; destruct H as (? & ? & ? & H)
    | H : ret _ _ = Returns _ _ |- _ =>
        apply ret_Returns in H; destruct H as [? ?]; subst
    | H : raise _ _ = Returns _ _ |- _ =>
        apply raise_Returns in H; destruct H
    | H : Returns _ _ = Returns _ _ |- _ => injection H as ? ?; subst
    | H : (_, _) = (_, _) |- _ => injection H as ? ?; subst
    | H : Raises _ = Returns _ _ |- _ => discriminate H
    end.

(** The invariant rule of the [for] loop. *)
Lemma for_each_inv {A S} (I : S → Prop) (body : A → S → Rand S) l :
  (∀ x s t s' t', x ∈ l → I s → body x s t = Returns s' t' → I s') →
  ∀ s t s' t', I s → for_each body l s t = Returns s' t' → I s'.
Proof.
  induction l as [|x l IH]; intros Hbody s t s' t' Hs Hrun; simpl in Hrun.
  - rand_inv. done.
  - rand_inv. eapply IH; [| |eassumption].
    + intros. eapply Hbody; [by right| |]; eassumption.
    + eapply Hbody; [by left| |]; eassumption.
Qed.

(** A loop whose body always returns, returns. *)
Lemma for_each_total {A S} (I : S → Prop) (body : A → S → Rand S) l :
  (∀ x s t, x ∈ l → I s → ∃ s' t', body x s t = Returns s' t' ∧ I s') →
  ∀ s t, I s → ∃ s' t', for_each body l s t = Returns s' t' ∧ I s'.
Proof.
  induction l as [|x l IH]; intros Hbody s t Hs; simpl.
  - exists s, t. done.
  - destruct (Hbody x s t) as (s1 & t1 & Hb & Hs1); [by left|done|].
    destruct (IH (λ y s0 t0 Hy, Hbody y s0 t0 (list_elem_of_further _ _ _ Hy)) s1 t1 Hs1)
      as (s2 & t2 & Hrun & Hs2).
    exists s2, t2. split; [|done]. apply bind_Returns. eauto.
Qed.

Lemma randbelow_range n t r t' :
  0 < n → randbelow n t = Returns r t' → 0 ≤ r < n.
Proof.
  intros Hn H. unfold randbelow in H. rand_inv. apply Z.mod_pos_bound. done.
Qed.

Lemma randbelow_total n t : ∃ r t', randbelow n t = Returns r t'.
Proof.
  unfold randbelow, bind, raw, ret. destruct t; eauto.
Qed.

Lemma randint_range a b t r t' : randint a b t = Returns r t' → a ≤ r ≤ b.
Proof.
  unfold randint. intros H. case_match; [|by rand_inv].
  rand_inv. match goal with H : randbelow _ _ = _ |- _ => apply randbelow_range in H end; lia.
Qed.

Lemma randint_total a b t : a ≤ b → ∃ r t', randint a b t = Returns r t'.
Proof.
  intros Hab. unfold randint.
  destruct (Z.ltb_spec 0 (b + 1 - a)); [|lia].
  destruct (randbelow_total (b + 1 - a) t) as (r & t' & Hr).
  exists (a + r), t'. apply bind_Returns. eauto.
Qed.

Lemma random_random_range t r t' :
  random_random t = Returns r t' → (0 <= r)%Q ∧ (r < 1)%Q.
Proof.
  unfold random_random. intros H. rand_inv.
  match goal with |- context [Z.of_nat ?n mod ?m] =>
    pose proof (Z.mod_pos_bound (Z.of_nat n) m ltac:(done)) as Hb end.
  unfold Qle, Qlt. simpl. lia.
Qed.

Lemma random_random_total t : ∃ r t', random_random t = Returns r t'.
Proof. unfold random_random, bind, raw, ret. destruct t; eauto. Qed.

Lemma uniform_range a b t r t' :
  (a <= b)%Q → uniform a b t = Returns r t' → (a <= r)%Q ∧ (r <= b)%Q.
Proof.
  intros Hab H. unfold uniform in H. rand_inv.
  match goal with H : random_random _ = _ |- _ => apply random_random_range in H as [H0 H1] end.
  match type of H0 with (0 <= ?r)%Q =>
    assert (0 <= (b - a) * r)%Q by (apply Qmult_le_0_compat; lra);
    assert ((b - a) * r <= (b - a) * 1)%Q
      by (apply Qmult_le_compat_nonneg; split; lra) end.
  split; lra.
Qed.

Lemma uniform_total a b t : ∃ r t', uniform a b t = Returns r t'.
Proof.
  destruct (random_random_total t) as (r & t' & Hr).
  eexists _, t'. unfold uniform. apply bind_Returns. eauto.
Qed.

Lemma choice_elem {A} (seq : list A) t x t' :
  choice seq t = Returns x t' → x ∈ seq.
Proof.
  destruct seq as [|y seq]; simpl; intros H; rand_inv.
  match goal with |- default _ ?o ∈ _ => destruct o eqn:E end; simpl.
  - eapply list_elem_of_lookup_2; eassumption.
  - by left.
Qed.

Lemma choice_total {A} (seq : list A) t :
  seq ≠ [] → ∃ x t', choice seq t = Returns x t'.
Proof.
  destruct seq as [|y seq]; [done|]. intros _. simpl.
  destruct (randbelow_total (Z.of_nat (length (y :: seq))) t) as (r & t' & Hr).
  eexists _, t'. apply bind_Returns. eauto.
Qed.

(** A sample of the pool is a sub-multiset of it: it keeps every
    multiplicity bound, hence distinctness. *)
Lemma sample_pool_submseteq {A} k : ∀ (pool : list A) t l t',
  sample_pool pool k t = Returns l t' → l ⊆+ pool ∧ length l = k.
Proof.
  induction k as [|k IH]; intros pool t l t' H; simpl in H.
  - rand_inv. split; [apply submseteq_nil_l | done].
  - rand_inv. case_match eqn:E; rand_inv.
    match goal with H : sample_pool _ _ _ = _ |- _ => apply IH in H as [Hsub Hlen] end.
    split; [|simpl; lia].
    rewrite (delete_Permutation _ _ _ E). by constructor.
Qed.

Lemma sample_submseteq {A} (population : list A) k t l t' :
  sample population k t = Returns l t' →
  l ⊆+ population ∧ Z.of_nat (length l) = k.
Proof.
  unfold sample. case_match eqn:E; [|intros; rand_inv].
  intros H. apply sample_pool_submseteq in H as [? ?].
  split; [done|]. apply andb_prop in E as [?%Z.leb_le _]. lia.
Qed.

Lemma sample_pool_total {A} k : ∀ (pool : list A) t,
  (k ≤ length pool)%nat → ∃ l t', sample_pool pool k t = Returns l t'.
Proof.
  induction k as [|k IH]; intros pool t Hk; simpl.
  - eexists _, _. reflexivity.
  - destruct (randbelow_total (Z.of_nat (length pool)) t) as (j & t1 & Hj).
    assert (0 < Z.of_nat (length pool)) as Hpos by lia.
    pose proof (randbelow_range _ _ _ _ Hpos Hj) as Hr.
    destruct (lookup_lt_is_Some_2 pool (Z.to_nat j) ltac:(lia)) as [x Hx].
    destruct (IH (delete (Z.to_nat j) pool) t1) as (l & t2 & Hl).
    { rewrite length_delete; [lia | eauto]. }
    exists (x :: l), t2. apply bind_Returns. exists j, t1. split; [done|].
    rewrite Hx. apply bind_Returns. eauto.
Qed.

Lemma sample_total {A} (population : list A) k t :
  0 ≤ k ≤ Z.of_nat (length population) →
  ∃ l t', sample population k t = Returns l t'.
Proof.
  intros Hk. unfold sample.
  destruct (Z.leb_spec 0 k); [|lia].
  destruct (Z.leb_spec k (Z.of_nat (length population))); [|lia]. simpl.
  apply sample_pool_total. lia.
Qed.


(** * Term generator *)

Lemma py_range_nil s e : e ≤ s → py_range s e = [].
Proof. intros. unfold py_range. replace (Z.to_nat (e - s)) with 0%nat by lia. done. Qed.

Lemma py_range_cons s e : s < e → py_range s e = s :: py_range (s + 1) e.
Proof.
  intros. unfold py_range.
  replace (Z.to_nat (e - s)) with (S (Z.to_nat (e - (s + 1)))) by lia.
  simpl. f_equal; [lia|].
  rewrite <- seq_shift, map_map. apply map_ext. intros; lia.
Qed.

Lemma elem_of_py_range s e x : x ∈ py_range s e ↔ s ≤ x < e.
Proof.
  unfold py_range. rewrite list_elem_of_In, in_map_iff. split.
  - intros (i & <- & Hi%in_seq). lia.
  - intros Hx. exists (Z.to_nat (x - s)). split; [lia|]. apply in_seq. lia.
Qed.

#[global] Instance date_lt_trans : Transitive date_lt.
Proof. intros a b c. unfold date_lt. lia. Qed.

Lemma date_lt_irrefl d : ¬ date_lt d d.
Proof. unfold date_lt. lia. Qed.

Lemma date_ltb_spec a b : date_ltb a b = true ↔ date_lt a b.
Proof. unfold date_ltb, date_lt. lia. Qed.

Lemma datetime_date_Returns y m d t dt t' :
  datetime_date y m d t = Returns dt t' → dt = mkDate y m d ∧ t' = t.
Proof. unfold datetime_date. case_match; intros; rand_inv; done. Qed.

Lemma datetime_date_total y m d t :
  1 ≤ y ≤ 9999 → 1 ≤ m ≤ 12 → 1 ≤ d ≤ 30 → m ≠ 2 →
  datetime_date y m d t = Returns (mkDate y m d) t.
Proof.
  intros. unfold datetime_date.
  assert (30 ≤ days_in_month y m).
  { unfold days_in_month. repeat case_match; lia. }
  rewrite !andb_true_intro; [done|..]; repeat split; lia.
Qed.

(** The inner loop appends the records of a prefix of the seasons and never
    grows the list beyond the cap. *)
Lemma terms_of_year_app cfg y infos : ∀ terms t terms' t',
  terms_of_year cfg y infos terms t = Returns terms' t' →
  ∃ k, terms' = terms ++ map (season_term y) (take k infos) ∧
       Z.of_nat (length terms') ≤ Z.max (Z.of_nat (length terms)) (TERMS_TO_GENERATE cfg).
Proof.
  induction infos as [|[name [[[sm sd] em] ed]] infos IH]; intros terms t terms' t' H;
    simpl in H.
  - rand_inv. exists 0%nat. rewrite app_nil_r. split; [done|lia].
  - destruct (Z.leb_spec (TERMS_TO_GENERATE cfg) (Z.of_nat (length terms))).
    + rand_inv. exists 0%nat. simpl. rewrite app_nil_r. split; [done|lia].
    + rand_inv.
      repeat match goal with H : datetime_date _ _ _ _ = _ |- _ =>
        apply datetime_date_Returns in H as [-> ->] end.
      apply IH in H as (k & -> & Hlen). exists (S k). simpl.
      rewrite <- app_assoc. split; [done|].
      rewrite !length_app in *. simpl in *. lia.
Qed.

Lemma terms_of_year_total cfg y infos : ∀ terms t,
  1 ≤ y ≤ 9999 →
  Forall (λ '(_, (sm, sd, em, ed)),
            (1 ≤ sm ≤ 12 ∧ sm ≠ 2 ∧ 1 ≤ sd ≤ 30) ∧ (1 ≤ em ≤ 12 ∧ em ≠ 2 ∧ 1 ≤ ed ≤ 30)) infos →
  ∃ terms', terms_of_year cfg y infos terms t = Returns terms' t.
Proof.
  induction infos as [|[name [[[sm sd] em] ed]] infos IH]; intros terms t Hy Hinfos; simpl.
  - eexists. reflexivity.
  - apply Forall_cons in Hinfos as [[(? & ? & ?) (? & ? & ?)] Hinfos].
    case_match; [eexists; reflexivity|].
    unfold bind. rewrite !datetime_date_total by done. apply IH; done.
Qed.

Lemma season_starts_sorted y k :
  StronglySorted date_lt (map startDate (map (season_term y) (take k term_info))) ∧
  Forall (λ d, year d = y) (map startDate (map (season_term y) (take k term_info))).
Proof.
  destruct k as [|[|[|[|k]]]]; simpl; split;
    repeat first [apply SSorted_nil | apply SSorted_cons | apply Forall_nil_2
                 | apply Forall_cons_2];
    unfold date_lt; simpl; lia.
Qed.

Lemma terms_of_year_inv cfg y terms t terms' t' :
  terms_inv cfg y terms →
  terms_of_year cfg y term_info terms t = Returns terms' t' →
  terms_inv cfg (y + 1) terms'.
Proof.
  intros (Hs & Hy & Hlen) H. apply terms_of_year_app in H as (k & -> & Hlen').
  destruct (season_starts_sorted y k) as [Hs2 Hy2].
  split; [|split].
  - rewrite map_app. apply StronglySorted_app_2; [|done..].
    intros a b Ha Hb. rewrite Forall_forall in Hy, Hy2.
    specialize (Hy a Ha). specialize (Hy2 b Hb). unfold date_lt. lia.
  - rewrite map_app. apply Forall_app. split.
    + eapply Forall_impl; [exact Hy|]. simpl. intros; lia.
    + eapply Forall_impl; [exact Hy2|]. simpl. intros; lia.
  - lia.
Qed.

Lemma year_loop_inv cfg n : ∀ s terms t terms' t',
  terms_inv cfg s terms →
  for_each (λ y terms, terms_of_year cfg y term_info terms)
           (py_range s (s + Z.of_nat n)) terms t = Returns terms' t' →
  terms_inv cfg (s + Z.of_nat n) terms'.
Proof.
  induction n as [|n IH]; intros s terms t terms' t' Hinv H.
  - rewrite py_range_nil in H by lia. simpl in H. rand_inv.
    by replace (s + Z.of_nat 0) with s by lia.
  - rewrite py_range_cons in H by lia. simpl in H. rand_inv.
    replace (s + Z.of_nat (S n)) with ((s + 1) + Z.of_nat n) in * by lia.
    eapply IH; [|eassumption]. eapply terms_of_year_inv; eassumption.
Qed.

Lemma generate_terms_inv cfg cy t terms t' :
  generate_terms cfg cy t = Returns terms t' →
  StronglySorted date_lt (map startDate terms) ∧
  Z.of_nat (length terms) ≤ Z.max 0 (TERMS_TO_GENERATE cfg).
Proof.
  unfold generate_terms. intros H.
  set (s := cy - HISTORY_YEARS cfg) in *. set (e := cy + 1 + 1) in *.
  assert (terms_inv cfg s []) as H0.
  { split; [constructor|]. split; [constructor|]. simpl. lia. }
  destruct (Z.le_gt_cases e s).
  - rewrite py_range_nil in H by done. simpl in H. rand_inv.
    destruct H0 as (? & ? & ?). done.
  - replace e with (s + Z.of_nat (Z.to_nat (e - s))) in H by lia.
    apply year_loop_inv in H as (? & ? & ?); done.
Qed.

Lemma year_loop_total cfg n : ∀ s terms t,
  1 ≤ s → s + Z.of_nat n ≤ 10000 →
  ∃ terms', for_each (λ y terms, terms_of_year cfg y term_info terms)
                     (py_range s (s + Z.of_nat n)) terms t = Returns terms' t.
Proof.
  induction n as [|n IH]; intros s terms t Hlo Hhi.
  - rewrite py_range_nil by lia. eexists. reflexivity.
  - rewrite py_range_cons by lia. simpl.
    destruct (terms_of_year_total cfg s term_info terms t) as [terms1 H1]; [lia| |].
    { unfold term_info. repeat first [apply Forall_nil_2 | apply Forall_cons_2]; simpl; lia. }
    replace (s + Z.of_nat (S n)) with ((s + 1) + Z.of_nat n) by lia.
    destruct (IH (s + 1) terms1 t) as [terms2 H2]; [lia..|].
    exists terms2. apply bind_Returns. eauto.
Qed.

Lemma generate_terms_total cfg cy t :
  1 ≤ cy - HISTORY_YEARS cfg → cy + 1 ≤ 9999 →
  ∃ terms, generate_terms cfg cy t = Returns terms t.
Proof.
  intros Hlo Hhi. unfold generate_terms.
  set (s := cy - HISTORY_YEARS cfg) in *. set (e := cy + 1 + 1).
  destruct (Z.le_gt_cases e s).
  - rewrite py_range_nil by done. eexists. reflexivity.
  - replace e with (s + Z.of_nat (Z.to_nat (e - s))) by lia.
    apply year_loop_total; lia.
Qed.

Lemma StronglySorted_lookup {A} (R : relation A) l i j a b :
  StronglySorted R l → (i < j)%nat → l !! i = Some a → l !! j = Some b → R a b.
Proof.
  intros Hs. revert i j. induction Hs as [|x l Hs IH Hx]; intros i j Hij Ha Hb; [done|].
  destruct j as [|j]; [lia|]. destruct i as [|i]; simpl in *.
  - injection Ha as ->. rewrite Forall_forall in Hx. apply Hx.
    eapply list_elem_of_lookup_2; eassumption.
  - eapply (IH i j); [lia|done..].
Qed.

(** C7: the list returned by generate_terms is in strictly increasing
    chronological order (each term starts strictly before its successor)
    and is never longer than TERMS_TO_GENERATE; the call returns whenever
    the years of the window are valid calendar years. *)
Theorem generate_terms_chronological_capped cfg current_year t :
  0 ≤ TERMS_TO_GENERATE cfg →
  1 ≤ current_year - HISTORY_YEARS cfg → current_year + 1 ≤ 9999 →
  ∃ terms, generate_terms cfg current_year t = Returns terms t ∧
    (∀ i a b, terms !! i = Some a → terms !! S i = Some b →
              date_lt (startDate a) (startDate b)) ∧
    Z.of_nat (length terms) ≤ TERMS_TO_GENERATE cfg.
Proof.
  intros Hcap Hlo Hhi.
  destruct (generate_terms_total cfg current_year t Hlo Hhi) as [terms Hrun].
  exists terms. split; [done|].
  apply generate_terms_inv in Hrun as [Hs Hlen]. split; [|lia].
  intros i a b Ha Hb.
  eapply (StronglySorted_lookup _ _ i (S i) _ _ Hs); [lia|..];
    rewrite list_lookup_fmap; [by rewrite Ha | by rewrite Hb].
Qed.


(** * Distribution sampler *)

Lemma length_accumulate_from ws : ∀ acc, length (accumulate_from acc ws) = length ws.
Proof. induction ws as [|w ws IH]; intros acc; simpl; [done | by rewrite IH]. Qed.

Lemma last_accumulate_from ws : ∀ acc w,
  ∃ total, last (accumulate_from acc (w :: ws)) = Some total ∧
           (total == acc + Qsum (w :: ws))%Q.
Proof.
  induction ws as [|w' ws IH]; intros acc w.
  - exists (acc + w)%Q. split; [done|]. simpl. lra.
  - destruct (IH (acc + w)%Q w') as (total & Hlast & Heq).
    exists total. split.
    + simpl in *. exact Hlast.
    + rewrite Heq. simpl. lra.
Qed.

Lemma bisect_loop_bounds fuel a x : ∀ lo hi,
  (lo ≤ hi)%nat → (lo ≤ bisect_loop fuel a x lo hi ≤ hi)%nat.
Proof.
  induction fuel as [|fuel IH]; intros lo hi Hle; cbn [bisect_loop]; [lia|].
  destruct (Nat.ltb_spec lo hi); [|lia].
  pose proof (Nat.div_mod_eq (lo + hi) 2).
  pose proof (Nat.mod_upper_bound (lo + hi) 2 ltac:(done)).
  destruct (a !! ((lo + hi) / 2)%nat); [|lia].
  destruct (Qlt_le_dec x q).
  - specialize (IH lo ((lo + hi) / 2)%nat ltac:(lia)). lia.
  - specialize (IH ((lo + hi) / 2 + 1)%nat hi ltac:(lia)). lia.
Qed.

Lemma choices1_Returns {A} (population : list A) weights t x t' :
  choices1 population weights t = Returns x t' → x ∈ population.
Proof.
  unfold choices1. intros H.
  repeat (case_match; rand_inv).
  eapply list_elem_of_lookup_2; eassumption.
Qed.

Lemma choices1_total {A} (population : list A) weights t :
  length weights = length population → weights ≠ [] → (0 < Qsum weights)%Q →
  ∃ x t', choices1 population weights t = Returns x t'.
Proof.
  intros Hlen Hne Hpos. unfold choices1, accumulate.
  rewrite length_accumulate_from, Hlen, Nat.eqb_refl. simpl.
  destruct weights as [|w ws]; [done|].
  destruct (last_accumulate_from ws 0%Q w) as (total & -> & Htotal).
  destruct (Qle_bool total 0) eqn:E.
  { apply Qle_bool_iff in E. lra. }
  destruct (random_random_total t) as (r & t' & Hr).
  pose proof (bisect_loop_bounds (length population - 1 - 0)
                (accumulate_from 0%Q (w :: ws)) (r * total)%Q 0 (length population - 1)
                ltac:(lia)) as Hb.
  fold (bisect (accumulate_from 0%Q (w :: ws)) (r * total)%Q 0 (length population - 1)) in Hb.
  destruct (lookup_lt_is_Some_2 population
              (bisect (accumulate_from 0%Q (w :: ws)) (r * total)%Q 0 (length population - 1)))
    as [x Hx].
  { simpl in Hlen. lia. }
  exists x, t'. apply bind_Returns. exists r, t'. split; [done|]. by rewrite Hx.
Qed.


(** The dispatcher is total on non-empty tables of positive total weight. *)
Lemma weighted_choice_total {K} (choices_dict : Weights K) t :
  choices_dict ≠ [] →
  (0 < Qsum (map snd choices_dict))%Q →
  ∃ k t', weighted_choice choices_dict t = Returns k t' ∧ k ∈ map fst choices_dict.
Proof.
  intros Hne Hpos.
  destruct (choices1_total (map fst choices_dict) (map snd choices_dict) t)
    as (k & t' & Hrun).
  - by rewrite !length_map.
  - destruct choices_dict; done.
  - done.
  - exists k, t'. split; [done|]. exact (choices1_Returns _ _ _ _ _ Hrun).
Qed.





(** * Dictionaries of lists *)

Section grouping.
Context {A K V : Type} `{Countable K} (key : A → K) (val : A → V).

Lemma get_list_group_append (d : gmap K (list V)) k v k' :
  get_list (group_append d k v) k' =
  get_list d k' ++ (if decide (k = k') then [v] else []).
Proof.
  unfold get_list, group_append. case_decide as Hk.
  - subst. by rewrite lookup_insert_eq.
  - rewrite lookup_insert_ne by done. by rewrite app_nil_r.
Qed.

Lemma get_list_grouped xs : ∀ (d : gmap K (list V)) k,
  get_list (foldl (λ d x, group_append d (key x) (val x)) d xs) k =
  get_list d k ++ map val (filter (λ x, key x = k) xs).
Proof.
  induction xs as [|x xs IH]; intros d k; simpl.
  - by rewrite app_nil_r.
  - rewrite IH, get_list_group_append, filter_cons.
    case_decide; simpl; by rewrite <- app_assoc.
Qed.

Lemma lookup_grouped_Some xs k vs :
  foldl (λ d x, group_append d (key x) (val x)) (∅ : gmap K (list V)) xs !! k = Some vs →
  vs = map val (filter (λ x, key x = k) xs).
Proof.
  intros Hl. pose proof (get_list_grouped xs ∅ k) as Hg.
  unfold get_list in Hg. rewrite Hl, lookup_empty in Hg. done.
Qed.

Lemma lookup_grouped_None xs : ∀ (d : gmap K (list V)) k,
  foldl (λ d x, group_append d (key x) (val x)) d xs !! k = None →
  d !! k = None ∧ filter (λ x, key x = k) xs = [].
Proof.
  induction xs as [|x xs IH]; intros d k Hl; simpl in *; [done|].
  apply IH in Hl as [Hl Hf]. unfold group_append in Hl.
  rewrite filter_cons. case_decide as Hk.
  - subst. by rewrite lookup_insert_eq in Hl.
  - by rewrite lookup_insert_ne in Hl.
Qed.

Lemma lookup_grouped_nonempty xs k vs :
  foldl (λ d x, group_append d (key x) (val x)) (∅ : gmap K (list V)) xs !! k = Some vs →
  vs ≠ [].
Proof.
  assert (∀ (d : gmap K (list V)),
            (∀ k vs, d !! k = Some vs → vs ≠ []) →
            ∀ k vs, foldl (λ d x, group_append d (key x) (val x)) d xs !! k = Some vs →
                    vs ≠ []) as Hgen.
  { induction xs as [|x xs IH]; intros d Hd k' vs' Hl; simpl in *; [eauto|].
    eapply IH; [|exact Hl]. intros k0 vs0. unfold group_append.
    destruct (decide (key x = k0)) as [->|].
    - rewrite lookup_insert_eq. intros [= <-]. by destruct (default [] _).
    - rewrite lookup_insert_ne by done. apply Hd. }
  apply Hgen. intros k' vs'. by rewrite lookup_empty.
Qed.
End grouping.

(** * Loops that only append *)

Lemma for_each_app {A B} (P : A → list B → Prop)
    (body : A → list B → Rand (list B)) l :
  (∀ x acc t acc' t', x ∈ l → body x acc t = Returns acc' t' →
                      ∃ new, acc' = acc ++ new ∧ P x new) →
  ∀ acc t acc' t', for_each body l acc t = Returns acc' t' →
    ∃ chunks, acc' = acc ++ concat chunks ∧ Forall2 P l chunks.
Proof.
  induction l as [|x l IH]; intros Hbody acc t acc' t' Hrun; simpl in Hrun.
  - rand_inv. exists []. simpl. by rewrite app_nil_r.
  - rand_inv.
    match goal with H : body _ _ _ = _ |- _ =>
      apply Hbody in H as (new & -> & Hnew); [|by left] end.
    apply IH in Hrun as (chunks & -> & Hchunks).
    + exists (new :: chunks). simpl. rewrite app_assoc. split; [done|by constructor].
    + intros. eapply Hbody; [by right|eassumption].
Qed.

Lemma elem_of_concat {A} (x : A) (ls : list (list A)) :
  x ∈ concat ls ↔ ∃ l, x ∈ l ∧ l ∈ ls.
Proof.
  rewrite list_elem_of_In, in_concat. split.
  - intros (l & ?%list_elem_of_In & ?%list_elem_of_In). eauto.
  - intros (l & ?%list_elem_of_In & ?%list_elem_of_In). eauto.
Qed.


Lemma filter_none {A} (P : A → Prop) `{∀ x, Decision (P x)} (l : list A) :
  Forall (λ x, ¬ P x) l → filter P l = [].
Proof.
  induction 1 as [|x l Hx _ IH]; [done|].
  by rewrite filter_cons, decide_False.
Qed.

Lemma foldl_inv {A B} (I : A → Prop) (f : A → B → A) l :
  (∀ a x, x ∈ l → I a → I (f a x)) → ∀ a, I a → I (foldl f a l).
Proof.
  induction l as [|x l IH]; intros Hf a Ha; simpl; [done|].
  apply IH; [|apply Hf; [by left|done]].
  intros. apply Hf; [by right|done].
Qed.

(** * Prerequisite generation *)

Lemma elem_of_py_range_step_100 lvl l :
  l ∈ py_range_step 100 lvl 100 → 100 ≤ l < lvl.
Proof.
  unfold py_range_step. rewrite list_elem_of_In, in_map_iff.
  intros (i & <- & Hi%in_seq).
  replace (lvl - 100 + 100 - 1) with (lvl - 1) in Hi by lia.
  destruct (Z.le_gt_cases (lvl - 1) 0).
  - assert ((lvl - 1) / 100 ≤ 0) by (apply Z.div_le_upper_bound; lia). lia.
  - pose proof (Z.mul_div_le (lvl - 1) 100 ltac:(lia)). lia.
Qed.

Lemma by_dept_level_lookup courses d l cs :
  by_dept_level courses !! (d, l) = Some cs →
  cs = filter (λ c, (department c, level c) = (d, l)) courses.
Proof.
  intros Hl. unfold by_dept_level in Hl.
  apply (lookup_grouped_Some (λ c, (department c, level c)) (λ c : Course, c)) in Hl.
  by rewrite map_id in Hl.
Qed.

Lemma extend_lower_levels_members courses d lvl acc :
  Forall (lower_level_course courses lvl) acc →
  Forall (lower_level_course courses lvl)
         (extend_lower_levels (by_dept_level courses) d lvl acc).
Proof.
  unfold extend_lower_levels. revert acc.
  apply (foldl_inv (Forall (lower_level_course courses lvl))).
  intros acc l Hl%elem_of_py_range_step_100 Hacc.
  destruct (by_dept_level courses !! (d, l)) as [cs|] eqn:E; [|done].
  apply Forall_app. split; [done|].
  apply by_dept_level_lookup in E as ->.
  apply Forall_forall. intros c [[= Hd Hlv] Hc]%list_elem_of_filter.
  split; [done|lia].
Qed.

Lemma potential_prereqs_members cfg courses dept lvl n :
  Forall (lower_level_course courses lvl)
         (potential_prereqs cfg (by_dept_level courses) dept lvl n).
Proof.
  unfold potential_prereqs.
  assert (Forall (lower_level_course courses lvl)
            (extend_lower_levels (by_dept_level courses) dept lvl [])) as Hsame
    by (apply extend_lower_levels_members; constructor).
  case_match; [|done]. revert Hsame.
  generalize (extend_lower_levels (by_dept_level courses) dept lvl []).
  apply (foldl_inv (Forall (lower_level_course courses lvl))).
  intros acc d _ Hacc. case_decide; [|done].
  by apply extend_lower_levels_members.
Qed.

Lemma draw_num_prereqs_range cfg lvl t n t' :
  draw_num_prereqs cfg lvl t = Returns n t' →
  n ≤ MAX_PREREQS_PER_COURSE cfg ∧ (0 ≤ MAX_PREREQS_PER_COURSE cfg → 0 ≤ n).
Proof.
  unfold draw_num_prereqs. intros H. rand_inv.
  repeat case_match;
    match goal with H : randint _ _ _ = _ |- _ => apply randint_range in H end; lia.
Qed.

Lemma draw_num_prereqs_total cfg lvl t :
  2 ≤ MAX_PREREQS_PER_COURSE cfg → ∃ n t', draw_num_prereqs cfg lvl t = Returns n t'.
Proof.
  intros Hmax. unfold draw_num_prereqs.
  assert (∃ n t', (if lvl <=? 200 then randint 0 1
                   else if lvl <=? 300 then randint 1 2
                   else if lvl <=? 400 then randint 1 3
                   else randint 2 (MAX_PREREQS_PER_COURSE cfg)) t = Returns n t')
    as (n & t' & Hn) by (repeat case_match; apply randint_total; lia).
  eexists _, t'. apply bind_Returns. eauto.
Qed.

Lemma append_prerequisite_spec course prereq acc t acc' t' :
  append_prerequisite course prereq acc t = Returns acc' t' →
  ∃ e, acc' = acc ++ [e] ∧ prereq_target e = course_id course ∧
       prereq_source e = course_id prereq.
Proof.
  unfold append_prerequisite. intros H. rand_inv. eexists. split; [done|]. done.
Qed.

Lemma append_prerequisite_total course prereq acc t :
  ∃ acc' t', append_prerequisite course prereq acc t = Returns acc' t'.
Proof.
  unfold append_prerequisite.
  destruct (random_random_total t) as (r & t1 & Hr).
  destruct (Qlt_le_dec r (8 # 10)) eqn:E.
  - destruct (choice_total ["C"; "C-"; "D"; "D-"]%string t1 ltac:(done)) as (g & t2 & Hg).
    eexists _, t2. apply bind_Returns. exists r, t1. split; [done|].
    rewrite E. simpl. apply bind_Returns. eauto.
  - eexists _, t1. apply bind_Returns. exists r, t1. split; [done|].
    rewrite E. simpl. reflexivity.
Qed.

Lemma append_loop_spec course selected : ∀ acc t acc' t',
  for_each (append_prerequisite course) selected acc t = Returns acc' t' →
  ∃ new, acc' = acc ++ new ∧
         Forall2 (λ p e, prereq_target e = course_id course ∧
                         prereq_source e = course_id p) selected new.
Proof.
  induction selected as [|p selected IH]; intros acc t acc' t' H; simpl in H.
  - rand_inv. exists []. by rewrite app_nil_r.
  - rand_inv.
    match goal with H : append_prerequisite _ _ _ _ = _ |- _ =>
      apply append_prerequisite_spec in H as (e & -> & ? & ?) end.
    apply IH in H as (new & -> & Hnew). exists (e :: new).
    rewrite <- app_assoc. split; [done|]. by constructor.
Qed.

Lemma append_loop_total course selected : ∀ acc t,
  ∃ acc' t', for_each (append_prerequisite course) selected acc t = Returns acc' t'.
Proof.
  induction selected as [|p selected IH]; intros acc t; simpl.
  - eexists _, _. reflexivity.
  - destruct (append_prerequisite_total course p acc t) as (acc1 & t1 & H1).
    destruct (IH acc1 t1) as (acc2 & t2 & H2).
    exists acc2, t2. apply bind_Returns. eauto.
Qed.

Lemma prerequisites_for_spec cfg courses course acc t acc' t' :
  prerequisites_for cfg (by_dept_level courses) course acc t = Returns acc' t' →
  ∃ new, acc' = acc ++ new ∧ chunk_of cfg courses course new.
Proof.
  unfold prerequisites_for. intros H.
  destruct (Z.ltb_spec 100 (level course)); cycle 1.
  { rand_inv. exists []. rewrite app_nil_r. split; [done|]. split; [constructor|].
    exists (Z.min 0 (MAX_PREREQS_PER_COURSE cfg)). simpl. lia. }
  rand_inv.
  match goal with H : draw_num_prereqs _ _ _ = Returns ?n _ |- _ =>
    rename H into Hn; set (num := n) in * end.
  set (pool := potential_prereqs cfg (by_dept_level courses) (department course)
                 (level course) num) in *.
  pose proof (potential_prereqs_members cfg courses (department course) (level course) num)
    as Hpool. fold pool in Hpool.
  apply draw_num_prereqs_range in Hn as [Hmax _].
  apply append_loop_spec in H as (new & -> & Hnew).
  exists new. split; [done|].
  assert (∃ selected, selected ⊆+ pool ∧
            Z.of_nat (length selected) = Z.max 0 (Z.min num (Z.of_nat (length pool))) ∧
            Forall2 (λ p e, prereq_target e = course_id course ∧
                            prereq_source e = course_id p) selected new)
    as (selected & Hsub & Hlen & Hsel).
  { match goal with H : (if ?b then _ else _) _ = Returns ?s _ |- _ =>
      exists s; destruct (Z.ltb_spec 0 (Z.min num (Z.of_nat (length pool)))) end.
    - match goal with H : sample _ _ _ = _ |- _ => apply sample_submseteq in H as [? ?] end.
      split; [done|]. split; [lia|done].
    - rand_inv. split; [apply submseteq_nil_l|]. split; [simpl; lia|done]. }
  split.
  - apply Forall_forall. intros e He.
    apply list_elem_of_lookup in He as [i Hi].
    destruct (Forall2_lookup_r _ _ _ _ _ Hsel Hi) as (p & Hp & Ht & Hs).
    split; [done|]. exists p.
    assert (p ∈ pool) as Hin.
    { eapply elem_of_submseteq; [|exact Hsub]. eapply list_elem_of_lookup_2; eassumption. }
    rewrite Forall_forall in Hpool. destruct (Hpool p Hin). done.
  - exists num. simpl. fold pool. split; [done|].
    rewrite <- Hlen. f_equal. symmetry. eapply Forall2_length; eassumption.
Qed.

Lemma prerequisites_for_total cfg bdl course acc t :
  2 ≤ MAX_PREREQS_PER_COURSE cfg →
  ∃ acc' t', prerequisites_for cfg bdl course acc t = Returns acc' t'.
Proof.
  intros Hmax. unfold prerequisites_for.
  case_match; [|eexists _, _; reflexivity].
  destruct (draw_num_prereqs_total cfg (level course) t Hmax) as (n & t1 & Hn).
  set (pool := potential_prereqs cfg bdl (department course) (level course) n).
  assert (∃ sel t2, (if 0 <? Z.min n (Z.of_nat (length pool))
                     then sample pool (Z.min n (Z.of_nat (length pool)))
                     else ret []) t1 = Returns sel t2) as (sel & t2 & Hsel).
  { case_match eqn:E; [|eexists _, _; reflexivity].
    apply Z.ltb_lt in E. apply sample_total. lia. }
  destruct (append_loop_total course sel acc t2) as (acc' & t3 & Hacc).
  exists acc', t3. apply bind_Returns. exists n, t1. split; [done|].
  fold pool. apply bind_Returns. eauto.
Qed.

(** The output is the concatenation of one chunk per course, in order. *)
Lemma generate_prerequisites_chunks cfg courses t edges t' :
  generate_prerequisites cfg courses t = Returns edges t' →
  ∃ chunks, edges = concat chunks ∧ Forall2 (chunk_of cfg courses) courses chunks.
Proof.
  unfold generate_prerequisites. intros H.
  apply (for_each_app (chunk_of cfg courses)) in H as (chunks & -> & Hch); [eauto|].
  intros x acc t0 acc' t0' _. apply prerequisites_for_spec.
Qed.

Lemma generate_prerequisites_total cfg courses t :
  2 ≤ MAX_PREREQS_PER_COURSE cfg →
  ∃ edges t', generate_prerequisites cfg courses t = Returns edges t'.
Proof.
  intros Hmax. unfold generate_prerequisites.
  destruct (for_each_total (λ _, True) (prerequisites_for cfg (by_dept_level courses))
              courses) with (s := @nil Prerequisite) (t := t) as (edges & t' & Hrun & _);
    [|done|eauto].
  intros x s t0 _ _.
  destruct (prerequisites_for_total cfg (by_dept_level courses) x s t0 Hmax) as (? & ? & ?).
  eauto.
Qed.

Lemma generate_prerequisites_edges cfg courses t edges t' :
  generate_prerequisites cfg courses t = Returns edges t' →
  ∀ e, e ∈ edges → ∃ c, c ∈ courses ∧ edge_of courses c e.
Proof.
  intros (chunks & -> & Hch)%generate_prerequisites_chunks e He.
  apply elem_of_concat in He as (chunk & He & Hchunk).
  apply list_elem_of_lookup in Hchunk as [i Hi].
  destruct (Forall2_lookup_r _ _ _ _ _ Hch Hi) as (c & Hc & Hspec & _).
  exists c. split; [eapply list_elem_of_lookup_2; eassumption|].
  rewrite Forall_forall in Hspec. auto.
Qed.

Lemma course_id_inj courses c1 c2 :
  NoDup (map course_id courses) → c1 ∈ courses → c2 ∈ courses →
  course_id c1 = course_id c2 → c1 = c2.
Proof.
  induction courses as [|c courses IH]; intros Hnd H1 H2 Heq; [by apply elem_of_nil in H1|].
  simpl in Hnd. apply NoDup_cons in Hnd as [Hc Hnd].
  apply elem_of_cons in H1 as [->|H1]; apply elem_of_cons in H2 as [->|H2];
    try done.
  - exfalso. apply Hc. rewrite Heq. apply list_elem_of_In, in_map, list_elem_of_In. done.
  - exfalso. apply Hc. rewrite <- Heq. apply list_elem_of_In, in_map, list_elem_of_In. done.
  - by apply IH.
Qed.

(** Along any non-empty chain of edges the level strictly increases. *)
Lemma prereq_chain_levels cfg courses t edges t' :
  NoDup (map course_id courses) →
  generate_prerequisites cfg courses t = Returns edges t' →
  ∀ x y, tc (prereq_rel edges) x y →
    ∃ cx cy, cx ∈ courses ∧ cy ∈ courses ∧ course_id cx = x ∧ course_id cy = y ∧
             level cx < level cy.
Proof.
  intros Hnd Hrun x y Hxy.
  assert (∀ x y, prereq_rel edges x y →
            ∃ cx cy, cx ∈ courses ∧ cy ∈ courses ∧ course_id cx = x ∧ course_id cy = y ∧
                     level cx < level cy) as Hstep.
  { intros a b (e & He & <- & <-).
    destruct (generate_prerequisites_edges _ _ _ _ _ Hrun e He)
      as (c & Hc & Ht & p & Hp & Hlt & Hs).
    exists p, c. done. }
  induction Hxy as [x y Hxy|x z y Hxz _ IH]; [auto|].
  destruct (Hstep _ _ Hxz) as (cx & cz & ? & ? & ? & Hz & ?).
  destruct IH as (cz' & cy & ? & ? & Hz' & ? & ?).
  assert (cz = cz') as <- by (eapply course_id_inj; [done..|congruence]).
  exists cx, cy. repeat split; try done. lia.
Qed.

(** C1: every PREREQUISITE_FOR edge goes from a course of strictly lower
    level to a course of strictly higher level (whatever the departments),
    hence the generated edge set has no cycle; and the generation returns
    under a prerequisite cap of at least 2 (the source has 3). *)
Theorem prerequisites_level_increasing_acyclic cfg courses t :
  NoDup (map course_id courses) →
  (2 ≤ MAX_PREREQS_PER_COURSE cfg →
   ∃ edges t', generate_prerequisites cfg courses t = Returns edges t') ∧
  ∀ edges t', generate_prerequisites cfg courses t = Returns edges t' →
    (∀ e, e ∈ edges →
      ∃ p c, p ∈ courses ∧ c ∈ courses ∧
             course_id p = prereq_source e ∧ course_id c = prereq_target e) ∧
    (∀ e p c, e ∈ edges → p ∈ courses → c ∈ courses →
      course_id p = prereq_source e → course_id c = prereq_target e →
      level p < level c) ∧
    (∀ x, ¬ tc (prereq_rel edges) x x).
Proof.
  intros Hnd. split; [apply generate_prerequisites_total|].
  intros edges t' Hrun. split; [|split].
  - intros e He.
    destruct (generate_prerequisites_edges _ _ _ _ _ Hrun e He)
      as (c & Hc & Ht & p & Hp & Hlt & Hs).
    exists p, c. done.
  - intros e p c He Hp Hc Hps Hct.
    destruct (generate_prerequisites_edges _ _ _ _ _ Hrun e He)
      as (c' & Hc' & Ht & p' & Hp' & Hlt & Hs).
    assert (p = p') as <- by (eapply course_id_inj; [done..|congruence]).
    assert (c = c') as <- by (eapply course_id_inj; [done..|congruence]).
    done.
  - intros x Hx.
    destruct (prereq_chain_levels _ _ _ _ _ Hnd Hrun x x Hx)
      as (c1 & c2 & ? & ? & ? & ? & ?).
    assert (c1 = c2) as <- by (eapply course_id_inj; [done..|congruence]).
    lia.
Qed.




(** * Enrollment history simulator: from the code to the step relation *)

Lemma completed_of_app a b : completed_of (a ++ b) = completed_of a ++ completed_of b.
Proof. apply omap_app. Qed.

Lemma enrolled_of_app a b : enrolled_of (a ++ b) = enrolled_of a ++ enrolled_of b.
Proof. apply omap_app. Qed.

Lemma complete_course_spec cfg student term course t r t' :
  complete_course cfg student term course t = Returns r t' →
  c_studentId r = student_id student ∧ c_courseId r = course_id course ∧
  c_term r = term_id term ∧ 1 ≤ difficulty r ≤ 5.
Proof.
  unfold complete_course. intros H. rand_inv. simpl. repeat split; lia.
Qed.

Lemma complete_course_total cfg student term course t :
  GRADE_DISTRIBUTION cfg ≠ [] →
  (0 < Qsum (map snd (GRADE_DISTRIBUTION cfg)))%Q →
  instructionModes course ≠ [] →
  ∃ r t', complete_course cfg student term course t = Returns r t'.
Proof.
  intros Hne Hpos Hmodes. unfold complete_course.
  destruct (weighted_choice_total (GRADE_DISTRIBUTION cfg) t Hne Hpos)
    as (g & t1 & Hg & _).
  destruct (uniform_total (7 # 10) (13 # 10) t1) as (u & t2 & Hu).
  destruct (choice_total (instructionModes course) t2 Hmodes) as (m & t3 & Hm).
  eexists _, t3. apply bind_Returns. exists g, t1. split; [done|].
  apply bind_Returns. exists u, t2. split; [done|].
  apply bind_Returns. exists m, t3. split; [done|]. reflexivity.
Qed.

Lemma extends_nil h : extends h h [].
Proof. unfold extends. simpl. by rewrite !app_nil_r. Qed.

Lemma extends_trans h1 h2 h3 l1 l2 :
  extends h1 h2 l1 → extends h2 h3 l2 → extends h1 h3 (l1 ++ l2).
Proof.
  intros (Ha & Hb & Hc) (Ha' & Hb' & Hc'). unfold extends.
  rewrite Ha', Hb', Hc', Ha, Hb, Hc, completed_of_app, enrolled_of_app, !app_assoc. done.
Qed.

Lemma record_course_spec cfg current student term course taken h t taken' h' t' :
  record_course cfg current student term course (taken, h) t = Returns (taken', h') t' →
  taken' = taken ∪ {[course_id course]} ∧
  ∃ s, entry_of current student term course s ∧ extends h h' [s].
Proof.
  unfold record_course. intros H.
  destruct (String.eqb_spec (term_id term) current) as [Heq|Hne].
  - rand_inv. split; [done|].
    exists (mkSelection student term course
              (ENROLLED_IN {| e_studentId := student_id student;
                              e_courseId := course_id course |})).
    split.
    + unfold entry_of. simpl. rewrite decide_True by done. done.
    + unfold extends. simpl. by rewrite app_nil_r.
  - rand_inv.
    match goal with H : complete_course _ _ _ _ _ = _ |- _ =>
      apply complete_course_spec in H as (? & ? & ? & ?) end.
    split; [done|].
    match goal with r : Completed |- _ =>
      exists (mkSelection student term course (COMPLETED r)) end.
    split.
    + unfold entry_of. simpl. rewrite decide_False by done. eauto 10.
    + unfold extends. simpl. by rewrite app_nil_r.
Qed.

Lemma record_loop_spec cfg current student term cs : ∀ taken h t taken' h' t',
  for_each (record_course cfg current student term) cs (taken, h) t
    = Returns (taken', h') t' →
  taken' = taken ∪ list_to_set (map course_id cs) ∧
  ∃ chunk, Forall2 (entry_of current student term) cs chunk ∧ extends h h' chunk.
Proof.
  induction cs as [|c cs IH]; intros taken h t taken' h' t' H; cbn [for_each] in H.
  - rand_inv.
    split; [set_solver|]. exists []. split; [constructor|apply extends_nil].
  - rand_inv.
    match goal with H : record_course _ _ _ _ _ ?st _ = Returns ?st1 _ |- _ =>
      destruct st1 as [taken1 h1]; apply record_course_spec in H as (-> & s & Hs & Hext) end.
    apply IH in H as (-> & chunk & Hchunk & Hext2).
    split; [simpl; set_solver|].
    exists (s :: chunk). split; [by constructor|].
    change (s :: chunk) with ([s] ++ chunk). eapply extends_trans; eassumption.
Qed.

Lemma enroll_term_spec cfg current courses pg student term taken h t taken' h' t' :
  enroll_term cfg current courses pg student term (taken, h) t = Returns (taken', h') t' →
  ∃ term_courses chunk,
    term_courses ⊆+ valid_courses pg (potential_courses courses term taken) taken ∧
    Forall2 (entry_of current student term) term_courses chunk ∧
    taken' = taken ∪ list_to_set (map course_id term_courses) ∧
    extends h h' chunk.
Proof.
  unfold enroll_term. intros H. rand_inv.
  match goal with H : sample _ _ _ = _ |- _ => apply sample_submseteq in H as [Hsub _] end.
  apply record_loop_spec in H as (-> & chunk & Hchunk & Hext).
  eauto 10.
Qed.

Lemma term_loop_spec cfg current courses pg student terms : ∀ taken h t taken' h' t',
  for_each (enroll_term cfg current courses pg student) terms (taken, h) t
    = Returns (taken', h') t' →
  ∃ log, walk current courses pg student taken terms log ∧ extends h h' log.
Proof.
  induction terms as [|term terms IH]; intros taken h t taken' h' t' H; cbn [for_each] in H.
  - rand_inv.
    exists []. split; [constructor|apply extends_nil].
  - rand_inv.
    match goal with H : enroll_term _ _ _ _ _ _ _ _ = Returns ?st1 _ |- _ =>
      destruct st1 as [taken1 h1];
      apply enroll_term_spec in H as (cs & chunk & Hsub & Hchunk & -> & Hext) end.
    apply IH in H as (rest & Hwalk & Hext2).
    exists (chunk ++ rest). split; [econstructor; eassumption|].
    eapply extends_trans; eassumption.
Qed.

Lemma py_index_nonneg {A} (l : list A) i x t :
  l !! i = Some x → py_index l (Z.of_nat i) t = Returns x t.
Proof.
  intros Hl. unfold py_index.
  pose proof (lookup_lt_Some _ _ _ Hl).
  destruct (Z.ltb_spec (Z.of_nat i) 0); [lia|].
  destruct (Z.leb_spec 0 (Z.of_nat i)); [|lia].
  destruct (Z.ltb_spec (Z.of_nat i) (Z.of_nat (length l))); [|lia].
  simpl. rewrite Nat2Z.id, Hl. done.
Qed.

Lemma for_list_index_range {A} (l : list A) t k : ∀ a,
  (a + k = length l)%nat →
  for_list (py_index l) (py_range (Z.of_nat a) (Z.of_nat (length l))) t
    = Returns (drop a l) t.
Proof.
  induction k as [|k IH]; intros a Ha.
  - rewrite py_range_nil by lia. rewrite drop_ge by lia. done.
  - rewrite py_range_cons by lia. simpl.
    destruct (lookup_lt_is_Some_2 l a ltac:(lia)) as [x Hx].
    apply bind_Returns. exists x, t. split; [by apply py_index_nonneg|].
    apply bind_Returns. exists (drop (S a) l), t. split.
    + replace (Z.of_nat a + 1) with (Z.of_nat (S a)) by lia. apply IH. lia.
    + by rewrite (drop_S _ _ _ Hx).
Qed.

(** The walked terms are a suffix of the generated terms. *)
Lemma student_terms_of_spec cfg now terms student t :
  ∃ k, student_terms_of cfg now terms student t = Returns (drop k terms) t.
Proof.
  unfold student_terms_of.
  set (te := if _ =? 0 then 1 else _).
  set (n := Z.of_nat (length terms)).
  destruct (Z.le_gt_cases n (Z.max 0 (n - te))).
  - exists (length terms). rewrite py_range_nil by done. by rewrite drop_all.
  - exists (Z.to_nat (Z.max 0 (n - te))).
    replace (Z.max 0 (n - te)) with (Z.of_nat (Z.to_nat (Z.max 0 (n - te)))) at 1 by lia.
    apply (for_list_index_range terms t (length terms - Z.to_nat (Z.max 0 (n - te)))).
    lia.
Qed.

Lemma student_history_spec cfg now courses terms pg student h t h' t' :
  student_history cfg now (get_term_by_date now) courses terms pg student h t
    = Returns h' t' →
  ∃ log, student_log cfg now courses terms pg student log ∧ extends h h' log.
Proof.
  unfold student_history. intros H. rand_inv.
  destruct (student_terms_of_spec cfg now terms student t) as [k Hk].
  match goal with H : student_terms_of _ _ _ _ _ = _ |- _ =>
    rewrite Hk in H; injection H as <- <- end.
  match goal with H : for_each _ _ _ _ = Returns ?st _ |- _ =>
    destruct st as [taken' h1]; apply term_loop_spec in H as (log & Hwalk & Hext) end.
  simpl. exists log. split; [|done].
  exists (take k terms), (drop k terms). split; [by rewrite take_drop|done].
Qed.

(** The whole run: the trace is the concatenation of one log per student,
    and the two returned lists are what the trace records. *)
Lemma simulate_history_spec cfg now students courses terms prerequisites t h t' :
  simulate_history cfg now students courses terms prerequisites t = Returns h t' →
  history_consistent h ∧
  ∃ logs, trace h = concat logs ∧
          Forall2 (student_log cfg now courses terms (prereq_graph_of prerequisites))
                  students logs.
Proof.
  unfold simulate_history.
  set (body := student_history _ _ _ _ _ _).
  assert (∀ students h0 t h t',
            for_each body students h0 t = Returns h t' →
            ∃ logs, extends h0 h (concat logs) ∧
              Forall2 (student_log cfg now courses terms (prereq_graph_of prerequisites))
                      students logs) as Hloop.
  { clear. intros students. induction students as [|s students IH];
      intros h0 t h t' H; simpl in H.
    - rand_inv. exists []. split; [apply extends_nil|constructor].
    - rand_inv.
      match goal with H : body _ _ _ = _ |- _ =>
        apply student_history_spec in H as (log & Hlog & Hext) end.
      apply IH in H as (logs & Hext2 & Hlogs).
      exists (log :: logs). split; [|by constructor].
      simpl. eapply extends_trans; eassumption. }
  intros H. apply Hloop in H as (logs & (Htr & Hc & He) & Hlogs).
  simpl in *. split; [split; congruence|]. eauto.
Qed.

Lemma generate_student_course_history_spec cfg now students courses terms prerequisites
    t completed enrolled t' :
  generate_student_course_history cfg now students courses terms prerequisites t
    = Returns (completed, enrolled) t' →
  ∃ h, simulate_history cfg now students courses terms prerequisites t = Returns h t' ∧
       completed = completed_of (trace h) ∧ enrolled = enrolled_of (trace h).
Proof.
  unfold generate_student_course_history. intros H. rand_inv.
  match goal with H : simulate_history _ _ _ _ _ _ _ = Returns ?h _ |- _ =>
    exists h; split; [done|]; apply simulate_history_spec in H as [[? ?] _] end.
  done.
Qed.


(** * Enrollment history simulator: properties of the term walk *)

Lemma submseteq_NoDup {A} (l k : list A) : l ⊆+ k → NoDup k → NoDup l.
Proof.
  intros (k' & Hsub & Hperm)%submseteq_sublist_l Hnd.
  eapply sublist_NoDup; [|exact Hsub]. by rewrite Hperm.
Qed.

Lemma valid_courses_elem pg potential taken c :
  c ∈ valid_courses pg potential taken →
  c ∈ potential ∧ ∀ p, p ∈ get_list pg (course_id c) → p ∈ taken.
Proof.
  unfold valid_courses. case_decide.
  - intros [Hnil Hc]%list_elem_of_filter. split; [done|].
    rewrite Hnil. intros p Hp. by apply elem_of_nil in Hp.
  - intros [Hall Hc]%list_elem_of_filter. split; [done|].
    rewrite Forall_forall in Hall. done.
Qed.

Lemma valid_courses_submseteq pg courses term taken :
  valid_courses pg (potential_courses courses term taken) taken ⊆+ courses.
Proof.
  transitivity (potential_courses courses term taken).
  - unfold valid_courses. case_decide; apply sublist_submseteq, sublist_filter.
  - apply sublist_submseteq, sublist_filter.
Qed.

Lemma potential_courses_elem courses term taken c :
  c ∈ potential_courses courses term taken →
  c ∈ courses ∧ term_type term ∈ termAvailability c ∧ course_id c ∉ taken.
Proof. unfold potential_courses. rewrite list_elem_of_filter. tauto. Qed.

Lemma chunk_courses current student term cs chunk :
  Forall2 (entry_of current student term) cs chunk →
  map sel_course chunk = cs.
Proof.
  induction 1 as [|c s cs chunk (_ & _ & Hc & _) _ IH]; simpl; [done|]. by f_equal.
Qed.

Lemma chunk_elem current student term cs chunk s :
  Forall2 (entry_of current student term) cs chunk → s ∈ chunk →
  sel_course s ∈ cs ∧ entry_of current student term (sel_course s) s.
Proof.
  intros HF Hs. apply list_elem_of_lookup in Hs as [i Hi].
  destruct (Forall2_lookup_r _ _ _ _ _ HF Hi) as (c & Hc & He).
  assert (sel_course s = c) as -> by (by destruct He as (_ & _ & ? & _)).
  split; [eapply list_elem_of_lookup_2; eassumption|done].
Qed.

Section walk_facts.
Context (current : string) (courses : list Course)
        (pg : gmap string (list string)) (student : Student).

(** Every entry is about this student, one of the walked terms, and a
    course that was offered and not yet taken. *)
Lemma walk_entries taken terms log :
  walk current courses pg student taken terms log →
  ∀ s, s ∈ log →
    sel_student s = student ∧ sel_term s ∈ terms ∧ sel_course s ∈ courses ∧
    (course_id (sel_course s) ∉ taken) ∧
    entry_of current student (sel_term s) (sel_course s) s.
Proof.
  induction 1 as [|taken term terms cs chunk rest Hsub Hchunk _ IH]; intros s Hs;
    [by apply elem_of_nil in Hs|].
  apply elem_of_app in Hs as [Hs|Hs].
  - destruct (chunk_elem _ _ _ _ _ _ Hchunk Hs) as [Hc He].
    pose proof He as (Hst & Hterm & _).
    pose proof (elem_of_submseteq _ _ _ Hc Hsub) as Hv.
    apply valid_courses_elem in Hv as [Hv _].
    apply potential_courses_elem in Hv as (? & _ & ?).
    split; [done|]. split; [rewrite Hterm; by left|]. split; [done|].
    split; [done|]. by rewrite Hterm.
  - destruct (IH s Hs) as (? & ? & ? & Hnot & ?).
    split; [done|]. split; [by right|]. split; [done|]. split; [|done].
    intros Hin. apply Hnot. by apply elem_of_union_l.
Qed.

(** C10, for one student: no course is logged twice. *)
Lemma walk_no_repeat taken terms log :
  NoDup (map course_id courses) →
  walk current courses pg student taken terms log →
  NoDup (map (λ s, course_id (sel_course s)) log).
Proof.
  intros Hnd. induction 1 as [|taken term terms cs chunk rest Hsub Hchunk Hw IH];
    [constructor|].
  rewrite map_app. apply NoDup_app. split; [|split; [|done]].
  - rewrite <- (map_map sel_course course_id), (chunk_courses _ _ _ _ _ Hchunk).
    eapply submseteq_NoDup; [|exact Hnd].
    apply fmap_submseteq. etransitivity; [exact Hsub|apply valid_courses_submseteq].
  - intros cid Hin Hin'.
    apply list_elem_of_In, in_map_iff in Hin as (s & <- & Hs%list_elem_of_In).
    apply list_elem_of_In, in_map_iff in Hin' as (s' & Heq & Hs'%list_elem_of_In).
    destruct (walk_entries _ _ _ Hw s' Hs') as (_ & _ & _ & Hnot & _).
    apply Hnot. rewrite Heq.
    destruct (chunk_elem _ _ _ _ _ _ Hchunk Hs) as [Hc _].
    apply elem_of_union_r, elem_of_list_to_set.
    apply list_elem_of_In, in_map, list_elem_of_In. done.
Qed.

(** C2, for one student: each prerequisite of a logged course was taken
    before the walk or is logged in a strictly earlier term. *)
Lemma walk_prerequisites taken terms log :
  StronglySorted date_lt (map startDate terms) →
  walk current courses pg student taken terms log →
  ∀ s p, s ∈ log → p ∈ get_list pg (course_id (sel_course s)) →
    p ∈ taken ∨
    ∃ s', s' ∈ log ∧ course_id (sel_course s') = p ∧
          date_lt (startDate (sel_term s')) (startDate (sel_term s)).
Proof.
  intros Hsorted Hw. revert Hsorted.
  induction Hw as [|taken term terms cs chunk rest Hsub Hchunk Hw IH];
    intros Hsorted s p Hs Hp; [by apply elem_of_nil in Hs|].
  simpl in Hsorted. apply StronglySorted_cons in Hsorted as [Hfirst Hsorted].
  apply elem_of_app in Hs as [Hs|Hs].
  - left. destruct (chunk_elem _ _ _ _ _ _ Hchunk Hs) as [Hc _].
    pose proof (elem_of_submseteq _ _ _ Hc Hsub) as Hv.
    apply valid_courses_elem in Hv as [_ Hv]. auto.
  - destruct (IH Hsorted s p Hs Hp) as [Hin|(s' & Hs' & Hid & Hlt)].
    + apply elem_of_union in Hin as [Hin|Hin]; [by left|]. right.
      apply elem_of_list_to_set, list_elem_of_In, in_map_iff in Hin
        as (c & <- & Hc%list_elem_of_In).
      apply list_elem_of_lookup in Hc as [i Hi].
      destruct (Forall2_lookup_l _ _ _ _ _ Hchunk Hi) as (s' & Hs' & _ & Hterm & Hcourse & _).
      exists s'. split; [apply elem_of_app; left; eapply list_elem_of_lookup_2; eassumption|].
      split; [by rewrite Hcourse|].
      rewrite Hterm. destruct (walk_entries _ _ _ Hw s Hs) as (_ & Hin & _).
      rewrite Forall_forall in Hfirst. apply Hfirst.
      apply list_elem_of_In, in_map, list_elem_of_In. done.
    + right. exists s'. split; [apply elem_of_app; by right|done].
Qed.
End walk_facts.

(** * Whole-run facts *)

Lemma prereq_graph_sources prerequisites e :
  e ∈ prerequisites →
  prereq_source e ∈ get_list (prereq_graph_of prerequisites) (prereq_target e).
Proof.
  intros He. unfold prereq_graph_of. rewrite get_list_grouped.
  unfold get_list. rewrite lookup_empty. simpl.
  apply list_elem_of_In, in_map, list_elem_of_In, list_elem_of_filter. done.
Qed.

Lemma elem_of_completed_of tr r :
  r ∈ completed_of tr ↔ ∃ s, s ∈ tr ∧ sel_emitted s = COMPLETED r.
Proof.
  unfold completed_of. rewrite list_elem_of_omap. split.
  - intros (s & Hs & He). exists s. split; [done|].
    destruct (sel_emitted s); naive_solver.
  - intros (s & Hs & He). exists s. by rewrite He.
Qed.

Lemma elem_of_enrolled_of tr r :
  r ∈ enrolled_of tr ↔ ∃ s, s ∈ tr ∧ sel_emitted s = ENROLLED_IN r.
Proof.
  unfold enrolled_of. rewrite list_elem_of_omap. split.
  - intros (s & Hs & He). exists s. split; [done|].
    destruct (sel_emitted s); naive_solver.
  - intros (s & Hs & He). exists s. by rewrite He.
Qed.

(** Every trace entry sits in the log of one student. *)
Lemma trace_entry_log cfg now students courses terms prerequisites t h t' s :
  simulate_history cfg now students courses terms prerequisites t = Returns h t' →
  s ∈ trace h →
  ∃ student log, student ∈ students ∧ s ∈ log ∧ (∀ s', s' ∈ log → s' ∈ trace h) ∧
    student_log cfg now courses terms (prereq_graph_of prerequisites) student log.
Proof.
  intros (_ & logs & Htr & Hlogs)%simulate_history_spec Hs.
  rewrite Htr in Hs |- *. apply elem_of_concat in Hs as (log & Hs & Hlog).
  apply list_elem_of_lookup in Hlog as [i Hi].
  destruct (Forall2_lookup_r _ _ _ _ _ Hlogs Hi) as (student & Hst & Hl).
  exists student, log. split; [eapply list_elem_of_lookup_2; eassumption|].
  split; [done|]. split; [|done].
  intros s' Hs'. apply elem_of_concat. exists log. split; [done|].
  eapply list_elem_of_lookup_2; eassumption.
Qed.

(** C2 (amended): for every COMPLETED record on course C in term T and
    every PREREQUISITE_FOR edge P -> C, the same student selected P in a
    strictly earlier term: P has a COMPLETED record of an earlier term, or,
    when that earlier term is the current one, an ENROLLED_IN record.  (A
    course without prerequisites satisfies this vacuously.) *)
Theorem completed_after_prerequisites cfg now students courses terms prerequisites
    t completed enrolled t' :
  StronglySorted date_lt (map startDate terms) →
  generate_student_course_history cfg now students courses terms prerequisites t
    = Returns (completed, enrolled) t' →
  ∀ r e, r ∈ completed → e ∈ prerequisites → prereq_target e = c_courseId r →
    (∃ r', r' ∈ completed ∧ c_studentId r' = c_studentId r ∧
           c_courseId r' = prereq_source e ∧
           earlier_term terms (c_term r') (c_term r)) ∨
    (∃ r', r' ∈ enrolled ∧ e_studentId r' = c_studentId r ∧
           e_courseId r' = prereq_source e ∧
           earlier_term terms (get_term_by_date now) (c_term r)).
Proof.
  intros Hsorted (h & Hrun & -> & ->)%generate_student_course_history_spec r e Hr He Ht.
  apply elem_of_completed_of in Hr as (s & Hs & Hem).
  destruct (trace_entry_log _ _ _ _ _ _ _ _ _ _ Hrun Hs)
    as (student & log & _ & Hslog & Hsub & skipped & sts & Hterms & Hwalk).
  assert (StronglySorted date_lt (map startDate sts)) as Hsorted'.
  { rewrite Hterms, map_app in Hsorted. by apply StronglySorted_app in Hsorted as (_ & _ & ?). }
  assert (∀ x, x ∈ sts → x ∈ terms) as Hin.
  { intros x Hx. rewrite Hterms. apply elem_of_app. by right. }
  destruct (walk_entries _ _ _ _ _ _ _ Hwalk s Hslog) as (Hst & Hterm & _ & _ & Hentry).
  destruct Hentry as (_ & _ & _ & Hentry). rewrite Hem in Hentry.
  case_decide; [done|]. destruct Hentry as (r0 & [= <-] & Hsid & Hcid & Htid & _).
  destruct (walk_prerequisites _ _ _ _ _ _ _ Hsorted' Hwalk s (prereq_source e) Hslog)
    as [Habs|(s' & Hs' & Hid & Hlt)].
  { rewrite <- Hcid, <- Ht. by apply prereq_graph_sources. }
  { by apply elem_of_empty in Habs. }
  destruct (walk_entries _ _ _ _ _ _ _ Hwalk s' Hs') as (Hst' & Hterm' & _ & _ & Hentry').
  destruct Hentry' as (_ & _ & _ & Hentry').
  assert (earlier_term terms (term_id (sel_term s')) (c_term r)) as Hearlier.
  { exists (sel_term s'), (sel_term s). rewrite Htid. auto 10. }
  case_decide as Hcur.
  - right. eexists. split; [apply elem_of_enrolled_of; eauto|]. simpl.
    rewrite Hsid, Hid, <- Hcur. done.
  - left. destruct Hentry' as (r' & Hem' & Hsid' & Hcid' & Htid' & _).
    exists r'. split; [apply elem_of_completed_of; eauto|].
    rewrite Hsid, Hsid', Hcid', Htid', Hid. done.
Qed.


(** * Enrollment history simulator: the run returns *)

Lemma record_course_total cfg current student term course st t :
  GRADE_DISTRIBUTION cfg ≠ [] →
  (0 < Qsum (map snd (GRADE_DISTRIBUTION cfg)))%Q →
  instructionModes course ≠ [] →
  ∃ st' t', record_course cfg current student term course st t = Returns st' t'.
Proof.
  intros Hne Hpos Hmodes. destruct st as [taken h]. unfold record_course.
  case_match; [eexists _, _; reflexivity|].
  destruct (complete_course_total cfg student term course t Hne Hpos Hmodes)
    as (r & t' & Hr).
  eexists _, t'. apply bind_Returns. exists r, t'. split; [done|reflexivity].
Qed.

Section totality.
Context (cfg : Config) (current : string) (courses : list Course)
        (pg : gmap string (list string)).
Hypothesis grades_nonempty : GRADE_DISTRIBUTION cfg ≠ [].
Hypothesis grades_positive : (0 < Qsum (map snd (GRADE_DISTRIBUTION cfg)))%Q.
Hypothesis modes_nonempty : ∀ c, c ∈ courses → instructionModes c ≠ [].

Lemma enroll_term_total student term st t :
  1 ≤ preferredCourseLoad student →
  ∃ st' t', enroll_term cfg current courses pg student term st t = Returns st' t'.
Proof.
  intros Hload. destruct st as [taken h]. unfold enroll_term.
  destruct (randint_total 1 (preferredCourseLoad student) t Hload) as (n & t1 & Hn).
  pose proof (randint_range _ _ _ _ _ Hn) as Hrange.
  set (valid := valid_courses pg (potential_courses courses term taken) taken).
  destruct (sample_total valid (Z.min n (Z.of_nat (length valid))) t1 ltac:(lia))
    as (cs & t2 & Hcs).
  pose proof (sample_submseteq _ _ _ _ _ Hcs) as [Hsub _].
  destruct (for_each_total (λ _, True) (record_course cfg current student term) cs)
    with (s := (taken, h)) (t := t2) as (st' & t3 & Hrun & _); [|done|].
  - intros c st0 t0 Hc _.
    destruct (record_course_total cfg current student term c st0 t0) as (? & ? & ?);
      [done..| |eauto].
    apply modes_nonempty.
    eapply elem_of_submseteq; [exact Hc|].
    etransitivity; [exact Hsub|apply valid_courses_submseteq].
  - exists st', t3. apply bind_Returns. exists n, t1. split; [done|].
    apply bind_Returns. eauto.
Qed.

Lemma student_history_total now terms student h t :
  1 ≤ preferredCourseLoad student →
  ∃ h' t', student_history cfg now current courses terms pg student h t = Returns h' t'.
Proof.
  intros Hload. unfold student_history.
  destruct (student_terms_of_spec cfg now terms student t) as [k Hk].
  destruct (for_each_total (λ _, True) (enroll_term cfg current courses pg student)
              (drop k terms)) with (s := ((∅ : gset string), h)) (t := t)
    as (st' & t1 & Hrun & _); [|done|].
  - intros term st0 t0 _ _.
    destruct (enroll_term_total student term st0 t0 Hload) as (? & ? & ?). eauto.
  - exists st'.2, t1. apply bind_Returns. exists (drop k terms), t. split; [done|].
    apply bind_Returns. eauto.
Qed.
End totality.

Lemma simulate_history_total cfg now students courses terms prerequisites t :
  (∀ s, s ∈ students → 1 ≤ preferredCourseLoad s) →
  (∀ c, c ∈ courses → instructionModes c ≠ []) →
  GRADE_DISTRIBUTION cfg ≠ [] →
  (0 < Qsum (map snd (GRADE_DISTRIBUTION cfg)))%Q →
  ∃ h t', simulate_history cfg now students courses terms prerequisites t = Returns h t'.
Proof.
  intros Hload Hmodes Hne Hpos. unfold simulate_history.
  destruct (for_each_total (λ _, True)
              (student_history cfg now (get_term_by_date now) courses terms
                 (prereq_graph_of prerequisites)) students)
    with (s := mkHistory [] [] []) (t := t) as (h & t' & Hrun & _); [|done|eauto].
  intros s h0 t0 Hs _.
  destruct (student_history_total cfg (get_term_by_date now) courses
              (prereq_graph_of prerequisites) Hne Hpos Hmodes now terms s h0 t0)
    as (? & ? & ?); [auto|eauto].
Qed.

(** * Enrollment history simulator: the emitted records *)

Lemma trace_entry_facts cfg now students courses terms prerequisites t h t' s :
  simulate_history cfg now students courses terms prerequisites t = Returns h t' →
  s ∈ trace h →
  sel_student s ∈ students ∧ sel_term s ∈ terms ∧ sel_course s ∈ courses ∧
  entry_of (get_term_by_date now) (sel_student s) (sel_term s) (sel_course s) s.
Proof.
  intros Hrun Hs.
  destruct (trace_entry_log _ _ _ _ _ _ _ _ _ _ Hrun Hs)
    as (student & log & Hstudent & Hslog & _ & skipped & sts & Hterms & Hwalk).
  destruct (walk_entries _ _ _ _ _ _ _ Hwalk s Hslog) as (-> & Hterm & Hc & _ & He).
  split; [done|]. split; [|done]. rewrite Hterms. apply elem_of_app. by right.
Qed.

(** C5 (amended): for every selected course the walk emits exactly one
    record: ENROLLED_IN if and only if the identifier of the term equals
    the one get_term_by_date computes for the generation date, otherwise a
    COMPLETED record carrying the identifier of the term.  ENROLLED_IN is
    produced for that term wherever it lies in the term list, and never
    when the list does not contain it. *)
Theorem enrolled_iff_current_term cfg now students courses terms prerequisites t :
  (∀ s, s ∈ students → 1 ≤ preferredCourseLoad s) →
  (∀ c, c ∈ courses → instructionModes c ≠ []) →
  GRADE_DISTRIBUTION cfg ≠ [] →
  (0 < Qsum (map snd (GRADE_DISTRIBUTION cfg)))%Q →
  ∃ h t',
    simulate_history cfg now students courses terms prerequisites t = Returns h t' ∧
    generate_student_course_history cfg now students courses terms prerequisites t
      = Returns (completed_courses h, enrolled_courses h) t' ∧
    completed_courses h = completed_of (trace h) ∧
    enrolled_courses h = enrolled_of (trace h) ∧
    (∀ s, s ∈ trace h →
       sel_student s ∈ students ∧ sel_term s ∈ terms ∧ sel_course s ∈ courses ∧
       ((∃ r, sel_emitted s = ENROLLED_IN r) ↔
          term_id (sel_term s) = get_term_by_date now) ∧
       (term_id (sel_term s) = get_term_by_date now →
          sel_emitted s = ENROLLED_IN {| e_studentId := student_id (sel_student s);
                                         e_courseId := course_id (sel_course s) |}) ∧
       (term_id (sel_term s) ≠ get_term_by_date now →
          ∃ r, sel_emitted s = COMPLETED r ∧
               c_studentId r = student_id (sel_student s) ∧
               c_courseId r = course_id (sel_course s) ∧
               c_term r = term_id (sel_term s))) ∧
    ((∀ T, T ∈ terms → term_id T ≠ get_term_by_date now) → enrolled_courses h = []).
Proof.
  intros Hload Hmodes Hne Hpos.
  destruct (simulate_history_total cfg now students courses terms prerequisites t
              Hload Hmodes Hne Hpos) as (h & t' & Hrun).
  exists h, t'. split; [done|].
  split. { unfold generate_student_course_history. apply bind_Returns. eauto. }
  destruct (simulate_history_spec _ _ _ _ _ _ _ _ _ Hrun) as [[Hc He] _].
  split; [done|]. split; [done|].
  assert (∀ s, s ∈ trace h →
            sel_student s ∈ students ∧ sel_term s ∈ terms ∧ sel_course s ∈ courses ∧
            ((∃ r, sel_emitted s = ENROLLED_IN r) ↔
               term_id (sel_term s) = get_term_by_date now) ∧
            (term_id (sel_term s) = get_term_by_date now →
               sel_emitted s = ENROLLED_IN {| e_studentId := student_id (sel_student s);
                                              e_courseId := course_id (sel_course s) |}) ∧
            (term_id (sel_term s) ≠ get_term_by_date now →
               ∃ r, sel_emitted s = COMPLETED r ∧
                    c_studentId r = student_id (sel_student s) ∧
                    c_courseId r = course_id (sel_course s) ∧
                    c_term r = term_id (sel_term s))) as Hentries.
  { intros s Hs.
    destruct (trace_entry_facts _ _ _ _ _ _ _ _ _ _ Hrun Hs)
      as (? & ? & ? & _ & _ & _ & Hentry).
    split; [done|]. split; [done|]. split; [done|].
    case_decide as Hcur.
    - split; [split; eauto|]. split; [done|]. intros Hn. by destruct Hn.
    - destruct Hentry as (r & Hem & ? & ? & ? & _).
      split; [|split; [done|eauto 10]].
      split; [|done]. intros [r' Hr']. rewrite Hem in Hr'. done. }
  split; [done|].
  intros Hnone. rewrite He.
  apply elem_of_nil_inv. intros r (s & Hs & Hem)%elem_of_enrolled_of.
  destruct (Hentries s Hs) as (_ & Hterm & _ & [Hiff _] & _).
  apply (Hnone _ Hterm). apply Hiff. eauto.
Qed.

(** * One record per student and course *)

Lemma student_log_keys cfg now courses terms pg student log :
  NoDup (map course_id courses) →
  student_log cfg now courses terms pg student log →
  NoDup (map sel_key log) ∧ ∀ s, s ∈ log → (sel_key s).1 = student_id student.
Proof.
  intros Hnd (skipped & sts & _ & Hwalk).
  assert (∀ s, s ∈ log → sel_student s = student) as Hst.
  { intros s Hs. by destruct (walk_entries _ _ _ _ _ _ _ Hwalk s Hs) as (? & _). }
  split.
  - apply (NoDup_fmap_1 snd). rewrite <- list_fmap_compose.
    apply (walk_no_repeat _ _ _ _ _ _ _ Hnd Hwalk).
  - intros s Hs. unfold sel_key. simpl. by rewrite Hst.
Qed.

Lemma trace_keys_NoDup cfg now courses terms pg : ∀ students logs,
  NoDup (map student_id students) → NoDup (map course_id courses) →
  Forall2 (student_log cfg now courses terms pg) students logs →
  NoDup (map sel_key (concat logs)) ∧
  ∀ s, s ∈ concat logs → (sel_key s).1 ∈ map student_id students.
Proof.
  intros students logs Hs Hc HF. revert Hs.
  induction HF as [|student log students logs Hlog _ IH]; intros Hs; simpl.
  - split; [constructor|]. intros s Hin. by apply elem_of_nil in Hin.
  - simpl in Hs. apply NoDup_cons in Hs as [Hfresh Hs].
    destruct (IH Hs) as [IHnd IHin].
    destruct (student_log_keys _ _ _ _ _ _ _ Hc Hlog) as [Hnd Hid].
    split.
    + rewrite map_app. apply NoDup_app. split; [done|]. split; [|done].
      intros k Hk Hk'.
      apply list_elem_of_In, in_map_iff in Hk as (s & <- & Hin%list_elem_of_In).
      apply list_elem_of_In, in_map_iff in Hk' as (s' & Heq & Hin'%list_elem_of_In).
      apply Hfresh. rewrite <- (Hid s Hin), <- Heq. by apply IHin.
    + intros s [Hin|Hin]%elem_of_app.
      * pose proof (Hid s Hin) as E. simpl in E |- *. rewrite E. by left.
      * right. by apply IHin.
Qed.

Lemma completed_of_cons s tr :
  completed_of (s :: tr) =
  match sel_emitted s with COMPLETED r => r :: completed_of tr | _ => completed_of tr end.
Proof. unfold completed_of. simpl. by destruct (sel_emitted s). Qed.

Lemma enrolled_of_cons s tr :
  enrolled_of (s :: tr) =
  match sel_emitted s with ENROLLED_IN r => r :: enrolled_of tr | _ => enrolled_of tr end.
Proof. unfold enrolled_of. simpl. by destruct (sel_emitted s). Qed.

Lemma filter_key_count (tr : list Selection) (k : string * string) :
  Forall record_matches tr →
  (length (filter (λ r, (c_studentId r, c_courseId r) = k) (completed_of tr)) +
   length (filter (λ r, (e_studentId r, e_courseId r) = k) (enrolled_of tr))
   = length (filter (λ s, sel_key s = k) tr))%nat.
Proof.
  induction 1 as [|s tr Hs _ IH]; [done|].
  rewrite completed_of_cons, enrolled_of_cons, (filter_cons (λ s, sel_key s = k)).
  unfold record_matches in Hs.
  destruct (sel_emitted s) as [r|r]; rewrite filter_cons, Hs;
    case_decide; simpl; lia.
Qed.

Lemma NoDup_filter_key_le {A K} `{EqDecision K} (key : A → K) (l : list A) k :
  NoDup (map key l) → (length (filter (λ x, key x = k) l) ≤ 1)%nat.
Proof.
  induction l as [|x l IH]; simpl; [lia|].
  intros [Hx Hnd]%NoDup_cons. rewrite filter_cons. case_decide as Hk; [|auto].
  simpl. rewrite (filter_none (λ y, key y = k) l); [simpl; lia|].
  apply Forall_forall. intros y Hy Hky. apply Hx. rewrite Hk, <- Hky.
  apply list_elem_of_In, in_map, list_elem_of_In. done.
Qed.

(** C10: across the COMPLETED and ENROLLED_IN outputs together there is at
    most one record for each (student, course) pair. *)
Theorem one_record_per_student_course cfg now students courses terms prerequisites
    t completed enrolled t' :
  NoDup (map student_id students) →
  NoDup (map course_id courses) →
  generate_student_course_history cfg now students courses terms prerequisites t
    = Returns (completed, enrolled) t' →
  ∀ sid cid,
    (length (filter (λ r, (c_studentId r, c_courseId r) = (sid, cid)) completed) +
     length (filter (λ r, (e_studentId r, e_courseId r) = (sid, cid)) enrolled) ≤ 1)%nat.
Proof.
  intros Hs Hc (h & Hrun & -> & ->)%generate_student_course_history_spec sid cid.
  rewrite filter_key_count.
  - destruct (simulate_history_spec _ _ _ _ _ _ _ _ _ Hrun) as (_ & logs & Htr & Hlogs).
    apply NoDup_filter_key_le. rewrite Htr.
    by destruct (trace_keys_NoDup _ _ _ _ _ _ _ Hs Hc Hlogs).
  - apply Forall_forall. intros s Hin.
    destruct (trace_entry_facts _ _ _ _ _ _ _ _ _ _ Hrun Hin)
      as (_ & _ & _ & _ & _ & _ & Hentry).
    unfold record_matches, sel_key. case_decide.
    + by rewrite Hentry.
    + destruct Hentry as (r & -> & -> & -> & _). done.
Qed.

(** The difficulty part of C3. *)
Lemma completed_difficulty_range cfg now students courses terms prerequisites
    t completed enrolled t' r :
  generate_student_course_history cfg now students courses terms prerequisites t
    = Returns (completed, enrolled) t' →
  r ∈ completed → 1 ≤ difficulty r ≤ 5.
Proof.
  intros (h & Hrun & -> & ->)%generate_student_course_history_spec
         (s & Hs & Hem)%elem_of_completed_of.
  destruct (trace_entry_facts _ _ _ _ _ _ _ _ _ _ Hrun Hs)
    as (_ & _ & _ & _ & _ & _ & Hentry).
  rewrite Hem in Hentry. case_decide; [done|].
  destruct Hentry as (r0 & [= <-] & _ & _ & _ & ?). done.
Qed.


(** * Rounding and clamping on the rational model *)

Lemma py_round_lower (n : Z) (q : Q) : (inject_Z n <= q)%Q → n ≤ py_round q.
Proof.
  intros Hq. apply Qfloor_resp_le in Hq. rewrite Qfloor_Z in Hq.
  unfold py_round. repeat case_match; lia.
Qed.

Lemma py_round_upper (n : Z) (q : Q) : (q <= inject_Z n)%Q → py_round q ≤ n.
Proof.
  intros Hq. pose proof (Qfloor_resp_le _ _ Hq) as Hf. rewrite Qfloor_Z in Hf.
  pose proof (Qfloor_le q) as Hfl.
  unfold py_round.
  destruct (q - inject_Z (Qfloor q) ?= 1 # 2)%Q eqn:E; [| lia |].
  - apply Qeq_alt in E.
    assert (inject_Z (Qfloor q) < inject_Z n)%Q as Hlt by lra.
    rewrite <- Zlt_Qlt in Hlt. case_match; lia.
  - apply Qgt_alt in E.
    assert (inject_Z (Qfloor q) < inject_Z n)%Q as Hlt by lra.
    rewrite <- Zlt_Qlt in Hlt. lia.
Qed.

Lemma py_round_comp (p q : Q) : (p == q)%Q → py_round p = py_round q.
Proof.
  intros Heq. unfold py_round. rewrite (Qfloor_comp _ _ Heq).
  assert (p - inject_Z (Qfloor q) == q - inject_Z (Qfloor q))%Q as -> by (rewrite Heq; reflexivity).
  done.
Qed.

Lemma py_round2_comp (p q : Q) : (p == q)%Q → py_round2 p = py_round2 q.
Proof.
  intros Heq. unfold py_round2. f_equal. apply py_round_comp. by rewrite Heq.
Qed.

Lemma py_round2_range (lo hi : Z) (q : Q) :
  (inject_Z lo <= q * 100)%Q → (q * 100 <= inject_Z hi)%Q →
  (lo # 100 <= py_round2 q)%Q ∧ (py_round2 q <= hi # 100)%Q.
Proof.
  intros Hlo Hhi. unfold py_round2.
  pose proof (py_round_lower _ _ Hlo). pose proof (py_round_upper _ _ Hhi).
  unfold Qle. simpl. lia.
Qed.

Lemma py_round2_unit (q : Q) :
  (0 <= q)%Q → (q <= 1)%Q → (0 <= py_round2 q)%Q ∧ (py_round2 q <= 1)%Q.
Proof.
  intros H0 H1.
  destruct (py_round2_range 0 100 q) as [Ha Hb].
  { change (inject_Z 0) with 0%Q. lra. }
  { change (inject_Z 100) with 100%Q. lra. }
  split; [|change 1%Q with (1 # 1)]; revert Ha Hb; unfold Qle; simpl; lia.
Qed.

Lemma Qmax_spec a b : (a <= Qmax a b)%Q ∧ (b <= Qmax a b)%Q ∧ (Qmax a b = a ∨ Qmax a b = b).
Proof.
  unfold Qmax. destruct (Qle_bool a b) eqn:E.
  - apply Qle_bool_iff in E. repeat split; [lra|lra|by right].
  - assert (¬ (a <= b)%Q) by (rewrite <- Qle_bool_iff, E; done).
    repeat split; [lra|lra|by left].
Qed.

Lemma Qmin_spec a b : (Qmin a b <= a)%Q ∧ (Qmin a b <= b)%Q ∧ (Qmin a b = a ∨ Qmin a b = b).
Proof.
  unfold Qmin. destruct (Qle_bool a b) eqn:E.
  - apply Qle_bool_iff in E. repeat split; [lra|lra|by left].
  - assert (¬ (a <= b)%Q) by (rewrite <- Qle_bool_iff, E; done).
    repeat split; [lra|lra|by right].
Qed.

Lemma Qmax_range lo hi a b :
  (lo <= a)%Q → (a <= hi)%Q → (b <= hi)%Q → (lo <= Qmax a b)%Q ∧ (Qmax a b <= hi)%Q.
Proof.
  intros Hlo Hhi Hb. destruct (Qmax_spec a b) as (Ha' & Hb' & _).
  split; [lra|]. destruct (Qmax_spec a b) as (_ & _ & [E | E]); rewrite E; lra.
Qed.

Lemma Qmin_range lo hi a b :
  (lo <= a)%Q → (lo <= b)%Q → (a <= hi)%Q → (lo <= Qmin a b)%Q ∧ (Qmin a b <= hi)%Q.
Proof.
  intros Ha Hb Hhi. destruct (Qmin_spec a b) as (Ha' & Hb' & _).
  split; [|lra]. destruct (Qmin_spec a b) as (_ & _ & [E | E]); rewrite E; lra.
Qed.

Lemma inject_Z_nat_nonneg (n : nat) : (0 <= inject_Z (Z.of_nat n))%Q.
Proof. change 0%Q with (inject_Z 0). rewrite <- Zle_Qle. lia. Qed.

Lemma Qsum_nonneg l : Forall (λ q, (0 <= q)%Q) l → (0 <= Qsum l)%Q.
Proof. induction 1 as [|q l Hq _ IH]; simpl; lra. Qed.

(** An agreement score [max(0, 1 - avg / d)] lies in the unit interval
    whenever the average gap is not negative. *)
Lemma agreement_unit (avg d : Q) :
  (0 < d)%Q → (0 <= avg)%Q →
  (0 <= Qmax 0 (1 - avg / d))%Q ∧ (Qmax 0 (1 - avg / d) <= 1)%Q.
Proof.
  intros Hd Havg.
  assert (0 <= avg / d)%Q.
  { apply Qle_shift_div_l; [done|]. lra. }
  apply Qmax_range; lra.
Qed.


(** * Similarity between students *)

Section dict_of.
Context {K V : Type} `{Countable K} (key : V → K).

Lemma dict_of_lookup_from l : ∀ (d : gmap K V) k,
  foldl (λ d x, <[key x := x]> d) d l !! k =
  match last (filter (λ x, key x = k) l) with
  | Some x => Some x
  | None => d !! k
  end.
Proof.
  induction l as [|x l IH]; intros d k; simpl; [done|].
  rewrite IH, filter_cons. case_decide as Hk.
  - rewrite last_cons. destruct (last (filter _ l)); [done|].
    subst. by rewrite lookup_insert_eq.
  - destruct (last (filter _ l)); [done|]. by rewrite lookup_insert_ne.
Qed.

Lemma dict_of_lookup l k :
  dict_of key l !! k = last (filter (λ x, key x = k) l).
Proof.
  unfold dict_of. rewrite dict_of_lookup_from, lookup_empty.
  by destruct (last _).
Qed.

Lemma dom_dict_of l : dom (dict_of key l) = list_to_set (map key l).
Proof.
  apply set_eq. intros k.
  rewrite elem_of_dom, dict_of_lookup, last_is_Some, elem_of_list_to_set.
  rewrite list_elem_of_In, in_map_iff. split.
  - intros Hne. destruct (filter _ l) as [|x l'] eqn:E; [done|].
    assert (x ∈ filter (λ x, key x = k) l) as [? ?]%list_elem_of_filter
      by (rewrite E; by left).
    exists x. by rewrite <- list_elem_of_In.
  - intros (x & Hk & Hx%list_elem_of_In) Hnil.
    eapply (filter_nil_not_elem_of _ _ x Hnil); done.
Qed.
End dict_of.

Lemma student_courses_get completed sid :
  get_list (foldl (λ d r, group_append d (c_studentId r) r) ∅ completed) sid =
  filter (λ r, c_studentId r = sid) completed.
Proof.
  rewrite (get_list_grouped c_studentId (λ r : Completed, r)).
  unfold get_list. rewrite lookup_empty, map_id. done.
Qed.

Lemma taken_lookup completed a c :
  dict_of c_courseId (filter (λ r, c_studentId r = a) completed) !! c =
  record_for completed a c.
Proof.
  rewrite dict_of_lookup, list_filter_filter. unfold record_for. f_equal.
  apply list_filter_iff. tauto.
Qed.

Lemma common_courses_shared completed a b :
  dom (dict_of c_courseId (filter (λ r, c_studentId r = a) completed)) ∩
  dom (dict_of c_courseId (filter (λ r, c_studentId r = b) completed)) =
  shared_courses completed a b.
Proof. by rewrite !dom_dict_of. Qed.

Lemma Qdiv_nonneg (x y : Q) : (0 <= x)%Q → (0 <= y)%Q → (0 <= x / y)%Q.
Proof.
  intros Hx Hy. unfold Qdiv. apply Qmult_le_0_compat; [done|].
  by apply Qinv_le_0_compat.
Qed.

Lemma course_gap_nonneg f ra rb : (0 <= course_gap f ra rb)%Q.
Proof. unfold course_gap. destruct ra, rb; try lra; apply Qabs_nonneg. Qed.

Lemma mean_gap_nonneg f completed a b : (0 <= mean_gap f completed a b)%Q.
Proof.
  unfold mean_gap. apply Qdiv_nonneg.
  - apply Qsum_nonneg, Forall_forall. intros q Hq.
    apply list_elem_of_In, in_map_iff in Hq as (c & <- & _).
    apply (course_gap_nonneg f).
  - change 0%Q with (inject_Z 0). rewrite <- Zle_Qle. lia.
Qed.

Lemma grade_agreement_unit completed a b : unit_interval (grade_agreement completed a b).
Proof. apply agreement_unit; [lra|apply mean_gap_nonneg]. Qed.

Lemma difficulty_agreement_unit completed a b :
  unit_interval (difficulty_agreement completed a b).
Proof. apply agreement_unit; [lra|apply mean_gap_nonneg]. Qed.

(** The list comprehension of [average_gap] never meets a missing key. *)
Lemma gaps_Returns f (sa sb : gmap string Completed) common t :
  (∀ c, c ∈ common → is_Some (sa !! c) ∧ is_Some (sb !! c)) →
  for_list (λ course_id,
              do a <- dict_item sa course_id;
              do b <- dict_item sb course_id;
              ret (Qabs (f a - f b))) common t
  = Returns (map (λ c, course_gap f (sa !! c) (sb !! c)) common) t.
Proof.
  induction common as [|c common IH]; intros Hin; cbn [for_list map]; [done|].
  destruct (Hin c) as [[ra Hra] [rb Hrb]]; [by left|].
  apply bind_Returns. exists (course_gap f (sa !! c) (sb !! c)), t. split.
  - apply bind_Returns. exists ra, t. split; [unfold dict_item; by rewrite Hra|].
    apply bind_Returns. exists rb, t. split; [unfold dict_item; by rewrite Hrb|].
    rewrite Hra, Hrb. done.
  - apply bind_Returns. eexists _, t. split; [|reflexivity].
    apply IH. intros; apply Hin; by right.
Qed.

Lemma average_gap_Returns f (sa sb : gmap string Completed) common t :
  (∀ c, c ∈ common → is_Some (sa !! c) ∧ is_Some (sb !! c)) →
  common ≠ [] →
  average_gap f sa sb common t
  = Returns (Qsum (map (λ c, course_gap f (sa !! c) (sb !! c)) common)
             / inject_Z (Z.of_nat (length common)))%Q t.
Proof.
  intros Hin Hne. unfold average_gap.
  apply bind_Returns. eexists _, t. split; [by apply gaps_Returns|].
  unfold py_div. rewrite length_map.
  destruct (Qeq_bool (inject_Z (Z.of_nat (length common))) 0) eqn:E; [|done].
  apply Qeq_bool_iff in E. exfalso. destruct common; [done|].
  revert E. unfold Qeq. simpl. lia.
Qed.

(** The score the code computes is the one the specification describes. *)
Lemma performance_score_Returns completed a b t :
  (1 ≤ size (shared_courses completed a b))%nat →
  performance_score
    (dict_of c_courseId (filter (λ r, c_studentId r = a) completed))
    (dict_of c_courseId (filter (λ r, c_studentId r = b) completed))
    (elements (shared_courses completed a b)) t
  = Returns (py_round2 ((7 # 10) * grade_agreement completed a b
                        + (3 # 10) * difficulty_agreement completed a b)) t.
Proof.
  intros Hsize.
  set (sa := dict_of c_courseId (filter (λ r, c_studentId r = a) completed)).
  set (sb := dict_of c_courseId (filter (λ r, c_studentId r = b) completed)).
  assert (∀ c, c ∈ elements (shared_courses completed a b) →
               is_Some (sa !! c) ∧ is_Some (sb !! c)) as Hin.
  { intros c Hc%elem_of_elements.
    rewrite <- common_courses_shared in Hc. fold sa sb in Hc.
    apply elem_of_intersection in Hc as [?%elem_of_dom ?%elem_of_dom]. done. }
  assert (elements (shared_courses completed a b) ≠ []) as Hne.
  { intros Hnil. apply (f_equal length) in Hnil. simpl in Hnil.
    unfold size, set_size in Hsize. simpl in Hsize. lia. }
  unfold performance_score.
  apply bind_Returns. eexists _, t. split; [by apply average_gap_Returns|].
  apply bind_Returns. eexists _, t. split; [by apply average_gap_Returns|].
  unfold ret. f_equal.
  assert (∀ f, (Qsum (map (λ c, course_gap f (sa !! c) (sb !! c))
                          (elements (shared_courses completed a b)))
                / inject_Z (Z.of_nat (length (elements (shared_courses completed a b)))))%Q
               = mean_gap f completed a b) as Hmean.
  { intros f. unfold mean_gap. f_equal. f_equal. apply map_ext. intros c.
    unfold sa, sb. by rewrite !taken_lookup. }
  rewrite !Hmean. apply py_round2_comp.
  unfold grade_agreement, difficulty_agreement. ring.
Qed.

Lemma performance_score_unit completed a b :
  unit_interval (py_round2 ((7 # 10) * grade_agreement completed a b
                            + (3 # 10) * difficulty_agreement completed a b)).
Proof.
  destruct (grade_agreement_unit completed a b), (difficulty_agreement_unit completed a b).
  apply py_round2_unit; lra.
Qed.

(** The performance pass is deterministic: for one pair of students it
    appends exactly the edge of the specification, or nothing. *)
Lemma performance_edge_Returns completed student other acc t :
  performance_edge
    (foldl (λ d r, group_append d (c_studentId r) r) ∅ completed) student
    (dict_of c_courseId
       (get_list (foldl (λ d r, group_append d (c_studentId r) r) ∅ completed)
                 (student_id student)))
    other acc t
  = Returns (acc ++ performance_edges_for completed student other) t.
Proof.
  unfold performance_edge, performance_edges_for.
  destruct (String.eqb (student_id other) (student_id student)).
  { by rewrite app_nil_r. }
  rewrite !student_courses_get, common_courses_shared.
  destruct (Z.leb_spec 3 (Z.of_nat (size (shared_courses completed (student_id student)
                                            (student_id other))))) as [Hsize|Hsize].
  - apply bind_Returns. eexists _, t. split; [|reflexivity].
    apply performance_score_Returns. lia.
  - by rewrite app_nil_r.
Qed.

Lemma performance_loop_Returns completed student others : ∀ acc t,
  for_each
    (performance_edge
       (foldl (λ d r, group_append d (c_studentId r) r) ∅ completed) student
       (dict_of c_courseId
          (get_list (foldl (λ d r, group_append d (c_studentId r) r) ∅ completed)
                    (student_id student))))
    others acc t
  = Returns (acc ++ flat_map (performance_edges_for completed student) others) t.
Proof.
  induction others as [|other others IH]; intros acc t; cbn [for_each flat_map].
  - by rewrite app_nil_r.
  - apply bind_Returns. eexists _, t. split; [apply performance_edge_Returns|].
    rewrite IH, app_assoc. done.
Qed.

Lemma performance_edges_for_spec students completed (i : nat) student other e :
  students !! i = Some student → Z.of_nat i mod 5 = 0 → other ∈ students →
  e ∈ performance_edges_for completed student other →
  performance_edge_spec students completed e.
Proof.
  intros Hi Hmod Hother. unfold performance_edges_for.
  destruct (String.eqb _ _); [by intros ?%elem_of_nil|].
  destruct (Z.leb_spec 3 (Z.of_nat (size (shared_courses completed (student_id student)
                                            (student_id other))))); [|by intros ?%elem_of_nil].
  intros ->%list_elem_of_singleton.
  exists i, student, other. simpl. repeat split; try done. lia.
Qed.

Lemma style_similarity_score_unit student similar t q t' :
  style_similarity_score student similar t = Returns q t' → unit_interval q.
Proof.
  unfold style_similarity_score. intros H. rand_inv.
  match goal with |- unit_interval (py_round2 (Qmax _ (Qmin _ ?x))) =>
    destruct (Qmin_spec 1 x) as (Hm & _ & _);
    destruct (Qmax_range 0 1 (1 # 10) (Qmin 1 x)) as [Hlo Hhi]; [lra..|] end.
  by apply py_round2_unit.
Qed.

Lemma style_similarity_score_total student similar t :
  ∃ q t', style_similarity_score student similar t = Returns q t'.
Proof.
  unfold style_similarity_score.
  destruct (uniform_total (- (1 # 10)) (1 # 10) t) as (u & t' & Hu).
  eexists _, t'. apply bind_Returns. eauto.
Qed.

Lemma style_edges_unit by_style student acc t acc' t' :
  style_edges by_style student acc t = Returns acc' t' →
  Forall (λ e, unit_interval (ls_similarity e)) acc →
  Forall (λ e, unit_interval (ls_similarity e)) acc'.
Proof.
  unfold style_edges. intros H Hacc. rand_inv. revert Hacc H.
  apply for_each_inv. intros similar acc0 t0 acc1 t1 _ Hacc0 Hstep.
  case_match; rand_inv; [done|].
  apply Forall_app. split; [done|]. constructor; [|constructor]. simpl.
  eapply style_similarity_score_unit; eassumption.
Qed.

Lemma style_edges_total by_style student acc t :
  ∃ acc' t', style_edges by_style student acc t = Returns acc' t'.
Proof.
  unfold style_edges.
  set (pool := get_list by_style (learningStyle student)).
  destruct (sample_total pool (Z.min 20 (Z.of_nat (length pool))) t ltac:(lia))
    as (sel & t1 & Hsel).
  destruct (for_each_total (λ _, True)
              (λ similar acc,
                 if String.eqb (student_id similar) (student_id student) then ret acc
                 else
                   do score <- style_similarity_score student similar;
                   ret (acc ++ [ {| ls_sourceId := student_id student;
                                    ls_targetId := student_id similar;
                                    ls_similarity := score |} ])) sel)
    with (s := acc) (t := t1) as (acc' & t2 & Hrun & _); [|done|].
  - intros similar acc0 t0 _ _. case_match; [eexists _, _; split; [reflexivity|done]|].
    destruct (style_similarity_score_total student similar t0) as (q & t0' & Hq).
    eexists _, t0'. split; [|done]. apply bind_Returns. eauto.
  - exists acc', t2. apply bind_Returns. eauto.
Qed.

Lemma elem_of_py_enumerate {A} (l : list A) (x : Z * A) :
  x ∈ py_enumerate l → ∃ i : nat, x.1 = Z.of_nat i ∧ l !! i = Some x.2.
Proof.
  unfold py_enumerate. intros (i & y & -> & Hy)%elem_of_lookup_imap. eauto.
Qed.

Lemma similarity_body_inv students completed ix st t st' t' :
  ix ∈ py_enumerate students →
  similarity_inv students completed st →
  similarity_body students
    (foldl (λ d student, group_append d (learningStyle student) student) ∅ students)
    (foldl (λ d r, group_append d (c_studentId r) r) ∅ completed) ix st t
  = Returns st' t' →
  similarity_inv students completed st'.
Proof.
  intros (i & Hi & Hlook)%elem_of_py_enumerate [Hls Hps] H.
  destruct ix as [iz student], st as [ls ps]. simpl in *. subst iz.
  unfold similarity_body in H. rand_inv.
  match goal with H : style_edges _ _ _ _ = _ |- _ =>
    pose proof (style_edges_unit _ _ _ _ _ _ H Hls) as Hls' end.
  destruct (Z.eqb_spec (Z.of_nat i mod 5) 0) as [Hmod|Hmod]; rand_inv; [|by split].
  match goal with H : for_each _ _ _ _ = _ |- _ =>
    rewrite performance_loop_Returns in H; injection H as <- <- end.
  split; [done|]. simpl. apply Forall_app. split; [done|].
  apply Forall_forall. intros e (other & Hother & He)%list_elem_of_In%in_flat_map.
  apply list_elem_of_In in Hother, He.
  eapply performance_edges_for_spec; eassumption.
Qed.

Lemma similarity_body_total students by_style completed ix st t :
  ∃ st' t', similarity_body students by_style
              (foldl (λ d r, group_append d (c_studentId r) r) ∅ completed) ix st t
            = Returns st' t'.
Proof.
  destruct ix as [i student], st as [ls ps]. unfold similarity_body.
  destruct (style_edges_total by_style student ls t) as (ls' & t1 & Hls).
  destruct (i mod 5 =? 0) eqn:E.
  - eexists _, t1. apply bind_Returns. exists ls', t1. split; [done|].
    cbv beta. apply bind_Returns. eexists _, t1.
    split; [apply performance_loop_Returns|reflexivity].
  - eexists _, t1. apply bind_Returns. exists ls', t1. split; [done|].
    cbv beta. reflexivity.
Qed.

Lemma generate_student_similarity_inv students completed t ls ps t' :
  generate_student_similarity students completed t = Returns (ls, ps) t' →
  similarity_inv students completed (ls, ps).
Proof.
  unfold generate_student_similarity. intros H.
  eapply (for_each_inv (similarity_inv students completed)); [| |exact H].
  - intros ix st t0 st' t0' Hix Hst Hstep. eapply similarity_body_inv; eassumption.
  - split; constructor.
Qed.

Lemma generate_student_similarity_total students completed t :
  ∃ ls ps t', generate_student_similarity students completed t = Returns (ls, ps) t'.
Proof.
  unfold generate_student_similarity.
  destruct (for_each_total (λ _, True)
              (similarity_body students
                 (foldl (λ d student, group_append d (learningStyle student) student)
                        ∅ students)
                 (foldl (λ d r, group_append d (c_studentId r) r) ∅ completed))
              (py_enumerate students))
    with (s := (@nil StyleSimilarity, @nil PerformanceSimilarity)) (t := t)
    as ([ls ps] & t' & Hrun & _); [|done|eauto].
  intros ix st t0 _ _.
  destruct (similarity_body_total students
              (foldl (λ d student, group_append d (learningStyle student) student)
                     ∅ students) completed ix st t0) as (st' & t0' & Hst).
  eauto.
Qed.


(** The student-similarity part of C3. *)
Lemma student_similarity_unit students completed t ls ps t' :
  generate_student_similarity students completed t = Returns (ls, ps) t' →
  (∀ e, e ∈ ls → unit_interval (ls_similarity e)) ∧
  (∀ e, e ∈ ps → unit_interval (ps_similarity e)).
Proof.
  intros [Hls Hps]%generate_student_similarity_inv.
  pose proof (proj1 (Forall_forall _ _) Hls) as Hls'.
  pose proof (proj1 (Forall_forall _ _) Hps) as Hps'.
  split; [exact Hls'|].
  intros e He. destruct (Hps' e He) as (i & s & o & _ & _ & _ & _ & _ & _ & -> & _).
  apply performance_score_unit.
Qed.


(** * Similarity between courses *)

Lemma dict_set_values {K V} `{EqDecision K} (d : list (K * V)) k v x :
  x ∈ map snd (dict_set d k v) → x = v ∨ x ∈ map snd d.
Proof.
  induction d as [|[k' v'] d IH]; simpl.
  - intros ->%list_elem_of_singleton. by left.
  - case_decide; simpl; intros [->|Hx]%elem_of_cons.
    + by left.
    + right. by right.
    + right. by left.
    + destruct (IH Hx) as [->|?]; [by left|]. right. by right.
Qed.

(** Collapsing duplicates keeps only values of the original list. *)
Lemma dict_values_of_subset {K V} `{EqDecision K} (key : V → K) (l : list V) x :
  x ∈ dict_values_of key l → x ∈ l.
Proof.
  unfold dict_values_of.
  assert (∀ d, x ∈ map snd (foldl (λ d x, dict_set d (key x) x) d l) →
               x ∈ map snd d ∨ x ∈ l) as Hgen.
  { induction l as [|y l IH]; intros d Hx; simpl in *; [by left|].
    destruct (IH _ Hx) as [Hd|Hl]; [|right; by right].
    apply dict_set_values in Hd as [->|Hd]; [right; by left|by left]. }
  intros Hx. destruct (Hgen [] Hx) as [Hnil|?]; [|done].
  by apply elem_of_nil in Hnil.
Qed.

Lemma unit_edges_snoc l e :
  unit_edges l → unit_interval (cs_similarity e) → unit_edges (l ++ [e]).
Proof.
  intros Hl He. apply Forall_app. split; [done|].
  apply Forall_cons_2; [done|apply Forall_nil_2].
Qed.

Lemma content_same_dept_unit course similar acc t acc' t' :
  content_same_dept course similar acc t = Returns acc' t' →
  unit_edges acc → unit_edges acc'.
Proof.
  unfold content_same_dept. intros H Hacc.
  case_match; rand_inv; [|done]. case_match; rand_inv; [|done].
  apply unit_edges_snoc; [done|]. simpl.
  match goal with H : uniform _ _ _ = _ |- _ =>
    apply uniform_range in H as [? ?]; [|lra] end.
  apply py_round2_unit; lra.
Qed.

Lemma content_shared_tag_unit course similar st t st' t' :
  content_shared_tag course similar st t = Returns st' t' →
  unit_edges st.2 → unit_edges st'.2.
Proof.
  destruct st as [seen acc]. unfold content_shared_tag. intros H Hacc. simpl in Hacc.
  case_match; rand_inv; [|done]. case_match; rand_inv; [|done].
  simpl. apply unit_edges_snoc; [done|]. simpl.
  match goal with H : uniform _ _ _ = _ |- _ =>
    apply uniform_range in H as [? ?]; [|lra] end.
  match goal with |- context [inject_Z (Z.of_nat ?n)] =>
    pose proof (inject_Z_nat_nonneg n) end.
  match goal with |- unit_interval (py_round2 (Qmin ?a ?x)) =>
    destruct (Qmin_range 0 1 a x) as [? ?]; [lra..|] end.
  by apply py_round2_unit.
Qed.

Lemma difficulty_similar_unit course similar acc :
  unit_edges acc → unit_edges (difficulty_similar course similar acc).
Proof.
  intros Hacc. unfold difficulty_similar.
  destruct (negb _ && _) eqn:E; [|done].
  apply andb_prop in E as [_ Hd%Z.leb_le].
  apply unit_edges_snoc; [done|]. simpl.
  set (d := Z.abs (avgDifficulty course - avgDifficulty similar)) in *.
  assert (0 <= inject_Z d)%Q
    by (change 0%Q with (inject_Z 0); rewrite <- Zle_Qle; lia).
  assert (inject_Z d <= 1)%Q
    by (change 1%Q with (inject_Z 1); rewrite <- Zle_Qle; lia).
  unfold Qdiv. change (/ 5)%Q with (1 # 5)%Q.
  apply py_round2_unit; lra.
Qed.

Lemma course_similarity_body_unit courses by_dept by_tag course st t st' t' :
  course_similarity_body courses by_dept by_tag course st t = Returns st' t' →
  unit_edges st.1 ∧ unit_edges st.2 → unit_edges st'.1 ∧ unit_edges st'.2.
Proof.
  destruct st as [content difficulty]. unfold course_similarity_body.
  intros H [Hc Hd]. simpl in Hc, Hd. rand_inv. simpl. split.
  - match goal with
    | H1 : for_each (content_same_dept _) _ _ _ = Returns ?c1 _,
      H2 : for_each (content_shared_tag _) _ _ _ = Returns ?s2 _ |- _ =>
        assert (unit_edges c1) as Hc1;
        [ revert Hc H1; apply for_each_inv;
          intros ? ? ? ? ? _ ? ?; eapply content_same_dept_unit; eassumption
        | change (unit_edges c1) with (unit_edges (∅ : gset string, c1).2) in Hc1;
          revert Hc1 H2; apply (for_each_inv (λ st, unit_edges st.2));
          intros ? ? ? ? ? _ ? ?; eapply content_shared_tag_unit; eassumption ]
    end.
  - revert Hd. apply (foldl_inv unit_edges).
    intros acc similar _. apply difficulty_similar_unit.
Qed.

(** The course-similarity part of C3. *)
Lemma course_similarity_unit courses t content difficulty t' :
  generate_course_similarity courses t = Returns (content, difficulty) t' →
  (∀ e, e ∈ content → unit_interval (cs_similarity e)) ∧
  (∀ e, e ∈ difficulty → unit_interval (cs_similarity e)).
Proof.
  unfold generate_course_similarity. intros H. rand_inv.
  match goal with H : for_each _ _ _ _ = Returns ?st _ |- _ =>
    assert (unit_edges st.1 ∧ unit_edges st.2) as [Hc Hd];
    [ revert H; apply (for_each_inv (λ st, unit_edges st.1 ∧ unit_edges st.2));
      [ intros ? ? ? ? ? _ ? ?; eapply course_similarity_body_unit; eassumption
      | split; constructor ]
    | ] end.
  unfold unit_edges in Hc, Hd.
  split; intros e He%dict_values_of_subset.
  - exact (proj1 (Forall_forall _ _) Hc e He).
  - exact (proj1 (Forall_forall _ _) Hd e He).
Qed.

Lemma course_similarity_body_total courses by_dept by_tag course st t :
  ∃ st' t', course_similarity_body courses by_dept by_tag course st t = Returns st' t'.
Proof.
  destruct st as [content difficulty]. unfold course_similarity_body.
  destruct (for_each_total (λ _, True) (content_same_dept course)
              (get_list by_dept (department course)))
    with (s := content) (t := t) as (c1 & t1 & H1 & _); [|done|].
  { intros similar acc t0 _ _. unfold content_same_dept.
    destruct (negb _); [|eexists _, _; split; [reflexivity|done]].
    destruct (random_random_total t0) as (r & t0' & Hr).
    destruct (Qlt_le_dec r (1 # 10)) eqn:E.
    - destruct (uniform_total (1 # 10) (8 # 10) t0') as (u & t0'' & Hu).
      eexists _, t0''. split; [|done]. apply bind_Returns. exists r, t0'. split; [done|].
      rewrite E. apply bind_Returns. eauto.
    - eexists _, t0'. split; [|done]. apply bind_Returns. exists r, t0'. split; [done|].
      rewrite E. reflexivity. }
  destruct (for_each_total (λ _, True) (content_shared_tag course)
              (flat_map (λ tag, get_list by_tag tag) (tags course)))
    with (s := ((∅ : gset string), c1)) (t := t1) as (s2 & t2 & H2 & _); [|done|].
  { intros similar [seen acc] t0 _ _. unfold content_shared_tag.
    destruct (negb _); [|eexists _, _; split; [reflexivity|done]].
    destruct (random_random_total t0) as (r & t0' & Hr).
    destruct (Qlt_le_dec r (2 # 10)) eqn:E.
    - destruct (uniform_total 0 (2 # 10) t0') as (u & t0'' & Hu).
      eexists _, t0''. split; [|done]. apply bind_Returns. exists r, t0'. split; [done|].
      rewrite E. apply bind_Returns. eauto.
    - eexists _, t0'. split; [|done]. apply bind_Returns. exists r, t0'. split; [done|].
      rewrite E. reflexivity. }
  destruct (sample_total courses (Z.min 10 (Z.of_nat (length courses))) t2 ltac:(lia))
    as (sampled & t3 & H3).
  eexists _, t3. apply bind_Returns. exists c1, t1. split; [done|].
  apply bind_Returns. exists s2, t2. split; [done|].
  apply bind_Returns. exists sampled, t3. split; [done|]. reflexivity.
Qed.

Lemma generate_course_similarity_total courses t :
  ∃ content difficulty t',
    generate_course_similarity courses t = Returns (content, difficulty) t'.
Proof.
  unfold generate_course_similarity.
  destruct (for_each_total (λ _, True)
              (course_similarity_body courses (by_dept_of courses) (by_tag_of courses))
              courses)
    with (s := (@nil CourseSimilarity, @nil CourseSimilarity)) (t := t)
    as (st & t' & Hrun & _); [|done|].
  - intros course st t0 _ _.
    destruct (course_similarity_body_total courses (by_dept_of courses)
                (by_tag_of courses) course st t0) as (? & ? & ?). eauto.
  - eexists _, _, t'. apply bind_Returns. exists st, t'. split; [done|]. reflexivity.
Qed.


(** * Course generator *)

Lemma draw_credits_range t c t' : draw_credits t = Returns c t' → 1 ≤ c ≤ 4.
Proof.
  unfold draw_credits. intros H. rand_inv.
  case_match; rand_inv; [lia|]. case_match; rand_inv; [lia|].
  match goal with H : choice _ _ = _ |- _ => apply choice_elem in H end.
  repeat match goal with H : _ ∈ _ :: _ |- _ => apply elem_of_cons in H as [->|H] end;
    [lia..|]. by apply elem_of_nil in H.
Qed.

Lemma unique_course_id_loop_fresh fuel courses : ∀ cid t cid' t',
  unique_course_id_loop fuel courses cid t = Returns cid' t' →
  cid' ∉ map course_id courses.
Proof.
  induction fuel as [|fuel IH]; intros cid t cid' t' H; simpl in H.
  - destruct (existsb _ courses) eqn:E; rand_inv.
    intros Hin. apply list_elem_of_In, in_map_iff in Hin as (c & Hc & Hin).
    assert (existsb (λ c, String.eqb (course_id c) cid') courses = true) as E'.
    { apply existsb_exists. exists c. split; [done|]. by apply String.eqb_eq. }
    congruence.
  - destruct (existsb _ courses) eqn:E; rand_inv.
    + eapply IH; eassumption.
    + intros Hin. apply list_elem_of_In, in_map_iff in Hin as (c & Hc & Hin).
      assert (existsb (λ c, String.eqb (course_id c) cid') courses = true) as E'.
      { apply existsb_exists. exists c. split; [done|]. by apply String.eqb_eq. }
      congruence.
Qed.

Lemma department_course_spec cfg dept courses t c t' :
  department_course cfg dept courses t = Returns c t' →
  department c = dept ∧ (course_id c ∉ map course_id courses) ∧ credits_ok c.
Proof.
  unfold department_course. intros H. rand_inv. simpl.
  split; [done|]. split.
  - eapply unique_course_id_loop_fresh; eassumption.
  - eapply draw_credits_range; eassumption.
Qed.

Lemma topup_course_spec cfg courses t c t' :
  topup_course cfg courses t = Returns c t' →
  (course_id c ∉ map course_id courses) ∧ credits_ok c.
Proof.
  unfold topup_course. intros H. rand_inv. simpl. split.
  - eapply unique_course_id_loop_fresh; eassumption.
  - unfold credits_ok. simpl. lia.
Qed.

Lemma add_course_inv course cat :
  catalog_inv cat → course_id course ∉ map course_id cat.1 → credits_ok course →
  catalog_inv (add_course course cat).
Proof.
  intros (Hnd & Hcr & Hgrp) Hfresh Hok. unfold add_course. split; [|split]; simpl.
  - rewrite map_app. apply NoDup_app. split; [done|]. split; [|apply NoDup_singleton].
    intros x Hx ->%list_elem_of_singleton. done.
  - apply Forall_app. split; [done|]. apply Forall_cons_2; [done|apply Forall_nil_2].
  - intros d. rewrite get_list_group_append, Hgrp, filter_app, filter_cons, filter_nil.
    by repeat case_decide.
Qed.

Lemma dept_count_add course cat d :
  dept_count d (add_course course cat) =
  (dept_count d cat + if decide (department course = d) then 1 else 0)%nat.
Proof.
  unfold dept_count, add_course. simpl.
  rewrite filter_app, length_app, filter_cons, filter_nil. by case_decide.
Qed.

(** The invariant rule of a counted loop. *)
Lemma repeat_loop_inv {S} (I : S → Prop) (body : S → Rand S) n :
  (∀ s t s' t', I s → body s t = Returns s' t' → I s') →
  ∀ s t s' t', I s → repeat_loop n body s t = Returns s' t' → I s'.
Proof.
  intros Hbody. induction n as [|n IH]; intros s t s' t' Hs H; simpl in H; rand_inv;
    [done|].
  eapply IH; [|eassumption]. eapply Hbody; eassumption.
Qed.

Lemma department_loop_spec cfg dept n : ∀ cat t cat' t',
  catalog_inv cat →
  repeat_loop n (λ cat, do course <- department_course cfg dept cat.1;
                        ret (add_course course cat)) cat t = Returns cat' t' →
  catalog_inv cat' ∧
  dept_count dept cat' = (dept_count dept cat + n)%nat ∧
  ∀ d, (dept_count d cat ≤ dept_count d cat')%nat.
Proof.
  induction n as [|n IH]; intros cat t cat' t' Hinv H; simpl in H; rand_inv.
  - split; [done|]. split; [lia|]. intros; lia.
  - match goal with H : department_course _ _ _ _ = Returns ?c _ |- _ =>
      apply department_course_spec in H as (Hd & Hfresh & Hok);
      pose proof (add_course_inv c cat Hinv Hfresh Hok) as Hinv';
      pose proof (dept_count_add c cat) as Hcount end.
    apply IH in H as (? & Hn & Hmono); [|done].
    split; [done|]. split.
    + rewrite Hn, Hcount, decide_True by done. lia.
    + intros d. specialize (Hmono d). rewrite Hcount in Hmono. lia.
Qed.

Lemma department_courses_spec cfg dept cat t cat' t' :
  catalog_inv cat →
  department_courses cfg dept cat t = Returns cat' t' →
  catalog_inv cat' ∧ (5 ≤ dept_count dept cat')%nat ∧
  ∀ d, (dept_count d cat ≤ dept_count d cat')%nat.
Proof.
  intros Hinv H. unfold department_courses in H. rand_inv.
  apply department_loop_spec in H as (? & Hn & ?); [|done].
  split; [done|]. split; [lia|done].
Qed.

Lemma departments_loop_spec cfg depts : ∀ cat t cat' t',
  catalog_inv cat →
  for_each (department_courses cfg) depts cat t = Returns cat' t' →
  catalog_inv cat' ∧
  (∀ d, (dept_count d cat ≤ dept_count d cat')%nat) ∧
  ∀ d, d ∈ depts → (5 ≤ dept_count d cat')%nat.
Proof.
  induction depts as [|dept depts IH]; intros cat t cat' t' Hinv H; simpl in H; rand_inv.
  - split; [done|]. split; [intros; lia|]. intros d Hd. by apply elem_of_nil in Hd.
  - match goal with H : department_courses _ _ _ _ = _ |- _ =>
      apply department_courses_spec in H as (Hinv1 & H5 & Hmono1); [|done] end.
    apply IH in H as (? & Hmono & Hall); [|done].
    split; [done|]. split.
    + intros d. specialize (Hmono1 d). specialize (Hmono d). lia.
    + intros d [->|Hd]%elem_of_cons; [|auto]. specialize (Hmono dept). lia.
Qed.

Lemma topup_loop_spec cfg n : ∀ cat t cat' t',
  catalog_inv cat →
  repeat_loop n (λ cat, do course <- topup_course cfg cat.1;
                        ret (add_course course cat)) cat t = Returns cat' t' →
  catalog_inv cat' ∧ ∀ d, (dept_count d cat ≤ dept_count d cat')%nat.
Proof.
  induction n as [|n IH]; intros cat t cat' t' Hinv H; simpl in H; rand_inv.
  - split; [done|]. intros; lia.
  - match goal with H : topup_course _ _ _ = Returns ?c _ |- _ =>
      apply topup_course_spec in H as (Hfresh & Hok);
      pose proof (add_course_inv c cat Hinv Hfresh Hok) as Hinv';
      pose proof (dept_count_add c cat) as Hcount end.
    apply IH in H as (? & Hmono); [|done].
    split; [done|]. intros d. specialize (Hmono d). rewrite Hcount in Hmono. lia.
Qed.

(** What [generate_courses] guarantees: unique identifiers, credits between
    1 and 4, a per-department index that agrees with the course list, and at
    least five courses in every department. *)
Lemma generate_courses_spec cfg t cat t' :
  generate_courses cfg t = Returns cat t' →
  catalog_inv cat ∧ ∀ d, d ∈ DEPARTMENTS cfg → (5 ≤ dept_count d cat)%nat.
Proof.
  unfold generate_courses. intros H. rand_inv.
  match goal with H : for_each _ _ _ _ = _ |- _ =>
    apply departments_loop_spec in H as (Hinv & _ & H5) end.
  - apply topup_loop_spec in H as (? & Hmono); [|done].
    split; [done|]. intros d Hd. specialize (H5 d Hd). specialize (Hmono d). lia.
  - split; [constructor|]. split; [constructor|]. intros d. simpl.
    unfold get_list. by rewrite lookup_empty.
Qed.

(** ** The uniqueness loop terminates *)

Lemma string_length_app (a b : string) :
  String.length (a +:+ b) = (String.length a + String.length b)%nat.
Proof. induction a as [|c a IH]; simpl; [done|]. by rewrite IH. Qed.

Lemma unique_course_id_loop_total fuel courses : ∀ visited cid t,
  NoDup visited →
  (∀ v, v ∈ visited →
        v ∈ map course_id courses ∧ (String.length v < String.length cid)%nat) →
  (length (map course_id courses) ≤ length visited + fuel)%nat →
  ∃ cid' t', unique_course_id_loop fuel courses cid t = Returns cid' t'.
Proof.
  induction fuel as [|fuel IH]; intros visited cid t Hnd Hvis Hlen; simpl;
    destruct (existsb _ courses) eqn:E; try (eexists _, _; reflexivity).
  - exfalso. apply existsb_exists in E as (c & Hc & Heq%String.eqb_eq).
    assert (NoDup (cid :: visited)) as Hnd'.
    { apply NoDup_cons. split; [|done]. intros Hin. destruct (Hvis _ Hin). lia. }
    assert (cid :: visited ⊆+ map course_id courses) as Hsub.
    { apply NoDup_submseteq; [done|]. intros x [->|Hx]%elem_of_cons.
      - rewrite <- Heq. apply list_elem_of_In, in_map. done.
      - by destruct (Hvis _ Hx). }
    apply submseteq_length in Hsub. simpl in Hsub. lia.
  - apply existsb_exists in E as (c & Hc & Heq%String.eqb_eq).
    destruct (randint_total 1 9 t ltac:(lia)) as (r & t1 & Hr).
    destruct (IH (cid :: visited) (cid +:+ "-" +:+ py_str r) t1) as (cid' & t' & Hrun).
    + apply NoDup_cons. split; [|done]. intros Hin. destruct (Hvis _ Hin). lia.
    + intros v [->|Hv]%elem_of_cons.
      * split; [rewrite <- Heq; by apply list_elem_of_In, in_map|].
        rewrite !string_length_app. simpl. lia.
      * destruct (Hvis _ Hv). split; [done|]. rewrite !string_length_app. simpl. lia.
    + simpl. lia.
    + exists cid', t'. apply bind_Returns. eauto.
Qed.

Lemma unique_course_id_total courses cid t :
  ∃ cid' t', unique_course_id courses cid t = Returns cid' t'.
Proof.
  apply (unique_course_id_loop_total _ _ []); [constructor| |rewrite length_map; simpl; lia].
  intros v Hv. by apply elem_of_nil in Hv.
Qed.


(** * The small run *)

(** Decide a closed decidable proposition by evaluation. *)
Ltac by_compute := apply (bool_decide_unpack _); vm_compute; exact I.

Lemma demo_terms_generated :
  generate_terms window_config 2026 [] = Returns demo_terms [].
Proof. vm_compute. reflexivity. Qed.

Lemma demo_prerequisites_generated :
  generate_prerequisites window_config demo_courses [1%nat]
    = Returns demo_prerequisites [].
Proof. vm_compute. reflexivity. Qed.

Lemma demo_history_simulated :
  simulate_history window_config demo_now demo_students demo_courses demo_terms
    demo_prerequisites [] = Returns demo_history [].
Proof. vm_compute. reflexivity. Qed.

Lemma demo_history_generated :
  generate_student_course_history window_config demo_now demo_students demo_courses
    demo_terms demo_prerequisites [] = Returns (demo_completed, demo_enrolled) [].
Proof. vm_compute. reflexivity. Qed.

Lemma demo_terms_sorted : StronglySorted date_lt (map startDate demo_terms).
Proof. exact (proj1 (generate_terms_inv _ _ _ _ _ demo_terms_generated)). Qed.

Lemma demo_courses_NoDup : NoDup (map course_id demo_courses).
Proof. by_compute. Qed.

Lemma demo_students_NoDup : NoDup (map student_id demo_students).
Proof. by_compute. Qed.

(** C2 as stated fails on that run: the successor course is COMPLETED in
    Spring 2027 though its prerequisite, taken in the current term Fall
    2026, has only an ENROLLED_IN record. *)
Lemma causal_consistency_counterexample :
  generate_terms window_config 2026 [] = Returns demo_terms [] ∧
  generate_prerequisites window_config demo_courses [1%nat]
    = Returns demo_prerequisites [] ∧
  generate_student_course_history window_config demo_now demo_students demo_courses
    demo_terms demo_prerequisites [] = Returns (demo_completed, demo_enrolled) [] ∧
  ¬ causal_consistency_as_stated demo_terms demo_prerequisites demo_completed.
Proof.
  split; [exact demo_terms_generated|]. split; [exact demo_prerequisites_generated|].
  split; [exact demo_history_generated|].
  intros Hclaim.
  destruct (Hclaim _ (list_elem_of_here _ _)) as [Hall|Hnone].
  - destruct (Hall _ (list_elem_of_here _ _) eq_refl) as (r' & Hr' & _ & Hcourse & _).
    apply list_elem_of_singleton in Hr' as ->. discriminate Hcourse.
  - exact (Hnone _ (list_elem_of_here _ _) eq_refl).
Qed.

(** C5 as stated fails on that run: the ENROLLED_IN record is produced in
    Fall 2026, the current term, while the last generated term is Fall
    2027. *)
Lemma enrolled_rule_counterexample :
  generate_terms window_config 2026 [] = Returns demo_terms [] ∧
  simulate_history window_config demo_now demo_students demo_courses demo_terms
    demo_prerequisites [] = Returns demo_history [] ∧
  ¬ enrolled_rule_as_stated demo_now demo_terms demo_history.
Proof.
  split; [exact demo_terms_generated|]. split; [exact demo_history_simulated|].
  intros Hclaim.
  destruct (Hclaim _ (list_elem_of_here _ _)) as [_ Hlast].
  specialize (Hlast (ex_intro _ _ eq_refl)). vm_compute in Hlast. discriminate Hlast.
Qed.


(** * Degree assembler *)

Lemma insert_by_level_perm x l : insert_by_level x l ≡ₚ x :: l.
Proof.
  induction l as [|y l IH]; simpl; [done|].
  case_match; [done|]. rewrite IH. apply Permutation_swap.
Qed.

Lemma sorted_by_level_perm l : sorted_by_level l ≡ₚ l.
Proof.
  unfold sorted_by_level.
  assert (∀ acc, foldl (λ acc x, insert_by_level x acc) acc l ≡ₚ acc ++ l) as H.
  { induction l as [|x l IH]; intros acc; simpl; [by rewrite app_nil_r|].
    rewrite IH, insert_by_level_perm. simpl. apply Permutation_middle. }
  apply H.
Qed.

Lemma course_eqb_id a b : course_eqb a b = true → course_id a = course_id b.
Proof.
  unfold course_eqb. rewrite !andb_true_iff.
  intros H. repeat match type of H with _ ∧ _ => destruct H as [H _] end.
  by apply String.eqb_eq in H.
Qed.

Lemma course_in_id c l : course_in c l = true → course_id c ∈ map course_id l.
Proof.
  unfold course_in. intros (x & Hx & Heq)%existsb_exists.
  apply course_eqb_id in Heq. rewrite Heq.
  apply list_elem_of_In, in_map, Hx.
Qed.

(** Removing the chosen courses from a list without repeated ids drops at
    most as many entries as were chosen. *)
Lemma remaining_length (core available : list Course) :
  NoDup (map course_id available) →
  (length available ≤
     length core + length (filter (λ c, course_in c core = false) available))%nat.
Proof.
  intros Hnd.
  pose proof (Permutation_length
                (filter_app_complement (λ c, course_in c core = false) available))
    as Hsplit.
  rewrite length_app in Hsplit.
  assert (length (filter (λ c, ¬ course_in c core = false) available) ≤ length core)%nat
    as Hle; [|lia].
  rewrite <- (length_map course_id core),
          <- (length_map course_id (filter _ available)).
  apply submseteq_length, NoDup_submseteq.
  - eapply sublist_NoDup; [exact Hnd|].
    apply (fmap_sublist course_id), sublist_filter.
  - intros i (c & -> & Hc)%list_elem_of_fmap.
    apply list_elem_of_filter in Hc as [Hc _].
    apply course_in_id. by destruct (course_in c core).
Qed.

(** The courses a degree draws on carry pairwise distinct ids: the samples
    come from different departments of the catalog. *)
Lemma extend_related_loop (courses : list Course) dept_courses dept :
  (∀ d, get_list dept_courses d = filter (λ c, department c = d) courses) →
  NoDup (map course_id courses) →
  ∀ related available t available' t',
    NoDup related →
    NoDup (map course_id available) →
    (∀ c, c ∈ available →
       c ∈ courses ∧ (department c = dept ∨ department c ∉ related)) →
    for_each (extend_related dept_courses dept) related available t
      = Returns available' t' →
    NoDup (map course_id available') ∧ (length available ≤ length available')%nat.
Proof.
  intros Hget Hids. induction related as [|r related IH];
    intros available t available' t' Hrel Hnd Hin Hrun; simpl in Hrun.
  { rand_inv. done. }
  apply NoDup_cons in Hrel as [Hr Hrel]. rand_inv.
  match goal with H : extend_related _ _ _ _ _ = _ |- _ => rename H into Hstep end.
  unfold extend_related in Hstep. case_match eqn:Hc; rand_inv.
  - apply andb_prop in Hc as [Hne _].
    apply negb_true_iff, String.eqb_neq in Hne.
    match goal with H : sample _ _ _ = _ |- _ =>
      apply sample_submseteq in H as [Hsub _] end.
    rewrite Hget in Hsub.
    match goal with H : for_each _ _ _ _ = _ |- _ => apply IH in H as [? Hlen] end;
      [split; [done|rewrite length_app in Hlen; lia] |done| |].
    + rewrite map_app. apply NoDup_app. split; [done|]. split.
      * intros i (c1 & -> & H1)%list_elem_of_fmap (c2 & Heq & H2)%list_elem_of_fmap.
        apply (elem_of_submseteq _ _ _ H2) in Hsub.
        apply list_elem_of_filter in Hsub as [Hd Hc2].
        destruct (Hin _ H1) as [Hc1 Hdep].
        pose proof (course_id_inj _ _ _ Hids Hc1 Hc2 Heq) as ->.
        destruct Hdep as [Hdep|Hdep]; [congruence|].
        apply Hdep. rewrite Hd. by left.
      * eapply submseteq_NoDup; [|exact Hids].
        apply (fmap_submseteq course_id). etrans; [exact Hsub|].
        apply sublist_submseteq, sublist_filter.
    + intros c [Hc|Hc]%elem_of_app.
      * destruct (Hin _ Hc) as [? [?|Hn]]; split; auto.
        right. intros ?. apply Hn. by right.
      * apply (elem_of_submseteq _ _ _ Hc) in Hsub.
        apply list_elem_of_filter in Hsub as [Hd ?]. split; [done|].
        right. by rewrite Hd.
  - match goal with H : for_each _ _ _ _ = _ |- _ => apply IH in H end; [done..|].
    intros c Hc'. destruct (Hin _ Hc') as [? [?|Hn]]; split; auto.
    right. intros ?. apply Hn. by right.
Qed.

(** The core selection never passes its target. *)
Lemma select_core_loop target l : ∀ core t core' t',
  Z.of_nat (length core) ≤ Z.max 0 target →
  for_each (select_core target) l core t = Returns core' t' →
  Z.of_nat (length core') ≤ Z.max 0 target.
Proof.
  apply (for_each_inv (λ core, Z.of_nat (length core) ≤ Z.max 0 target)).
  intros x core t core' t' _ Hlen Hstep. unfold select_core in Hstep. rand_inv.
  case_match; rand_inv; [|done].
  case_match eqn:E; rand_inv; [|done].
  apply Z.ltb_lt in E. rewrite length_app. simpl. lia.
Qed.

(** An additional group asks for fewer courses than it lists, as soon as
    three courses remain. *)
Lemma additional_group_spec dept did dname remaining j groups t groups' t' :
  (3 ≤ length remaining)%nat →
  Forall group_inv groups →
  additional_group dept did dname remaining j groups t = Returns groups' t' →
  Forall group_inv groups'.
Proof.
  intros Hrem Hgroups H. unfold additional_group in H. rand_inv.
  match goal with H : randint 3 8 _ = _ |- _ => apply randint_range in H as Hn end.
  match goal with H : randint 1 _ _ = _ |- _ => apply randint_range in H as Hm end.
  match goal with Hm : _ ≤ _ ≤ Z.max 1 (Z.of_nat (length ?l) - 1) |- _ =>
    assert (3 ≤ Z.of_nat (length l)) as Hlen end.
  { destruct remaining as [|c remaining]; [simpl in Hrem; lia|].
    match goal with H : sample _ _ _ = _ |- _ =>
      apply sample_submseteq in H as [_ Hl] end.
    rewrite Hl. lia. }
  apply Forall_app. split; [done|]. apply Forall_cons_2; [|apply Forall_nil_2].
  match goal with H : choice _ _ = Returns ?ty _ |- _ =>
    apply choice_elem in H as Hty;
    assert (∀ rest, String.prefix "REQ-CORE-" ("REQ-" +:+ py_upper ty +:+ rest) = false)
      as Hcore end.
  { intros rest. repeat (apply elem_of_cons in Hty as [->|Hty]; [reflexivity|]).
    by apply elem_of_nil in Hty. }
  unfold group_inv, group_feasible, is_core_group.
  cbn [req_id minimumCourses req_courses].
  rewrite length_map, Hcore. split; [lia|done].
Qed.

Lemma core_group_prefix did : String.prefix "REQ-CORE-" ("REQ-CORE-" +:+ did) = true.
Proof. simpl. by destruct did. Qed.

(** One degree keeps every requirement group feasible. *)
Lemma generate_degree_spec cfg cat i st t st' t' :
  NoDup (DEPARTMENTS cfg) →
  catalog_inv cat →
  (∀ d, d ∈ DEPARTMENTS cfg → (5 ≤ dept_count d cat)%nat) →
  Forall group_inv st.2 →
  generate_degree cfg cat.2 i st t = Returns st' t' →
  Forall group_inv st'.2.
Proof.
  intros Hdepts (Hids & _ & Hget) Hfive Hst H.
  destruct st as [degrees groups]. unfold generate_degree in H. rand_inv.
  repeat match goal with H : (let '(_, _) := ?p in _) _ = _ |- _ => destruct p end.
  rand_inv. simpl.
  match goal with H : choice (DEPARTMENTS cfg) _ = _ |- _ =>
    apply choice_elem in H as Hdept end.
  match goal with H : sample (DEPARTMENTS cfg) _ _ = _ |- _ =>
    apply sample_submseteq in H as [Hrel _] end.
  match goal with H : for_each (extend_related _ _) _ _ _ = _ |- _ =>
    eapply (extend_related_loop cat.1) in H as [Hnd Hlen];
      [|done|done|by eapply submseteq_NoDup| |] end; cycle 1.
  { rewrite Hget. eapply sublist_NoDup; [exact Hids|].
    apply (fmap_sublist course_id), sublist_filter. }
  { intros c Hc. rewrite Hget in Hc. apply list_elem_of_filter in Hc as [? ?]. auto. }
  rewrite Hget in Hlen. specialize (Hfive _ Hdept). unfold dept_count in Hfive.
  match goal with H : for_each (select_core _) _ _ _ = _ |- _ =>
    apply select_core_loop in H as Hcore; [|simpl; lia] end.
  match goal with H : for_each (additional_group _ _ _ _) _ _ _ = _ |- _ =>
    revert H; apply for_each_inv end.
  - intros j gs t1 gs' t1' _ Hgs Hstep.
    eapply additional_group_spec; [|exact Hgs|exact Hstep].
    match goal with
      Hc : Z.of_nat (length ?core) ≤ _ |- (3 ≤ length (filter _ ?a))%nat =>
      pose proof (remaining_length core a Hnd) as Hrem;
      assert (Z.of_nat (length a) / 2 < Z.of_nat (length a) - 2)
        by (apply Z.div_lt_upper_bound; lia) end.
    lia.
  - apply Forall_app. split; [done|]. apply Forall_cons_2; [|apply Forall_nil_2].
    unfold group_inv, group_feasible, is_core_group. simpl req_id.
    rewrite core_group_prefix. simpl. rewrite length_map. split; [split; [lia|done]|done].
Qed.

Lemma generate_degrees_spec cfg cat t st t' :
  NoDup (DEPARTMENTS cfg) →
  catalog_inv cat →
  (∀ d, d ∈ DEPARTMENTS cfg → (5 ≤ dept_count d cat)%nat) →
  generate_degrees cfg cat.2 t = Returns st t' →
  Forall group_inv st.2.
Proof.
  intros Hdepts Hcat Hfive. unfold generate_degrees.
  apply (for_each_inv (λ st, Forall group_inv st.2)); [|by constructor].
  intros i s t1 s' t1' _ Hs Hstep. eapply generate_degree_spec; eassumption.
Qed.

(** C4: in the generated data every requirement group asks for at most as
    many courses as it lists, and every group other than the core group of
    its degree asks for strictly fewer; only core groups carry the core id. *)
Theorem requirement_groups_feasible cfg t cat t1 t1' degrees groups t2 :
  NoDup (DEPARTMENTS cfg) →
  generate_courses cfg t = Returns cat t1 →
  generate_degrees cfg cat.2 t1' = Returns (degrees, groups) t2 →
  ∀ g, g ∈ groups →
    minimumCourses g ≤ Z.of_nat (length (req_courses g)) ∧
    (is_core_group g = false →
       minimumCourses g < Z.of_nat (length (req_courses g))) ∧
    (is_core_group g = true → req_id g = "REQ-CORE-" +:+ req_degreeId g).
Proof.
  intros Hdepts Hcourses Hdegrees g Hg.
  apply generate_courses_spec in Hcourses as [Hcat Hfive].
  pose proof (generate_degrees_spec _ _ _ _ _ Hdepts Hcat Hfive Hdegrees) as Hall.
  apply (proj1 (Forall_forall _ _) Hall) in Hg as [[? ?] ?]. done.
Qed.


(** * Ranges of the generated payloads *)

Lemma credits_enumerated c : credits_ok c → credits c ∈ [1; 2; 3; 4].
Proof.
  unfold credits_ok. intros H.
  assert (credits c = 1 ∨ credits c = 2 ∨ credits c = 3 ∨ credits c = 4)
    as [E|[E|[E|E]]] by lia; rewrite E;
    repeat first [by left | right].
Qed.

(** C3: every payload stays inside its documented range.  The perceived
    difficulty of every COMPLETED record is an integer from 1 to 5; the
    score of every SIMILAR_CONTENT, SIMILAR_DIFFICULTY,
    SIMILAR_LEARNING_STYLE and SIMILAR_PERFORMANCE edge lies between 0 and
    1; the credits of every generated course are 1, 2, 3 or 4. *)
Theorem payloads_within_ranges :
  (∀ cfg now students courses terms prerequisites t completed enrolled t',
     generate_student_course_history cfg now students courses terms prerequisites t
       = Returns (completed, enrolled) t' →
     ∀ r, r ∈ completed → 1 ≤ difficulty r ≤ 5) ∧
  (∀ courses t content by_difficulty t',
     generate_course_similarity courses t = Returns (content, by_difficulty) t' →
     ∀ e, e ∈ content ++ by_difficulty → unit_interval (cs_similarity e)) ∧
  (∀ students completed t by_style by_performance t',
     generate_student_similarity students completed t
       = Returns (by_style, by_performance) t' →
     (∀ e, e ∈ by_style → unit_interval (ls_similarity e)) ∧
     (∀ e, e ∈ by_performance → unit_interval (ps_similarity e))) ∧
  (∀ cfg t cat t',
     generate_courses cfg t = Returns cat t' →
     ∀ c, c ∈ cat.1 → credits c ∈ [1; 2; 3; 4]).
Proof.
  split; [|split; [|split]].
  - intros * Hrun r Hr. eapply completed_difficulty_range; eassumption.
  - intros * Hrun e He. apply course_similarity_unit in Hrun as [Hc Hd].
    apply elem_of_app in He as [He|He]; auto.
  - intros * Hrun. eapply student_similarity_unit; eassumption.
  - intros * Hrun c Hc. apply generate_courses_spec in Hrun as [(_ & Hcred & _) _].
    apply credits_enumerated. exact (proj1 (Forall_forall _ _) Hcred c Hc).
Qed.


(** * The theorems at concrete runs *)

(** The term calendar of 2026 under the shipped configuration. *)
Lemma generate_terms_chronological_capped_witness :
  0 ≤ TERMS_TO_GENERATE default_config ∧
  1 ≤ 2026 - HISTORY_YEARS default_config ∧
  2026 + 1 ≤ 9999 ∧
  ∃ terms, generate_terms default_config 2026 [] = Returns terms [] ∧
    (∀ i a b, terms !! i = Some a → terms !! S i = Some b →
              date_lt (startDate a) (startDate b)) ∧
    Z.of_nat (length terms) ≤ TERMS_TO_GENERATE default_config.
Proof.
  assert (0 ≤ TERMS_TO_GENERATE default_config) as H1 by (simpl; lia).
  assert (1 ≤ 2026 - HISTORY_YEARS default_config) as H2 by (simpl; lia).
  assert (2026 + 1 ≤ 9999) as H3 by lia.
  split; [exact H1|]. split; [exact H2|]. split; [exact H3|].
  exact (generate_terms_chronological_capped default_config 2026 [] H1 H2 H3).
Defined.


(** The prerequisite edges of the two demo courses. *)
Lemma prerequisites_level_increasing_acyclic_witness :
  NoDup (map course_id demo_courses) ∧
  (2 ≤ MAX_PREREQS_PER_COURSE window_config →
   ∃ edges t', generate_prerequisites window_config demo_courses [1%nat]
                 = Returns edges t') ∧
  ∀ edges t', generate_prerequisites window_config demo_courses [1%nat]
                = Returns edges t' →
    (∀ e, e ∈ edges →
      ∃ p c, p ∈ demo_courses ∧ c ∈ demo_courses ∧
             course_id p = prereq_source e ∧ course_id c = prereq_target e) ∧
    (∀ e p c, e ∈ edges → p ∈ demo_courses → c ∈ demo_courses →
      course_id p = prereq_source e → course_id c = prereq_target e →
      level p < level c) ∧
    (∀ x, ¬ tc (prereq_rel edges) x x).
Proof.
  assert (NoDup (map course_id demo_courses)) as H1 by by_compute.
  split; [exact H1|].
  exact (prerequisites_level_increasing_acyclic window_config demo_courses [1%nat] H1).
Defined.


(** The history of the demo student: the successor course is COMPLETED
    after its prerequisite was taken in the current term. *)
Lemma completed_after_prerequisites_witness :
  StronglySorted date_lt (map startDate demo_terms) ∧
  generate_student_course_history window_config demo_now demo_students demo_courses
    demo_terms demo_prerequisites [] = Returns (demo_completed, demo_enrolled) [] ∧
  ∀ r e, r ∈ demo_completed → e ∈ demo_prerequisites →
    prereq_target e = c_courseId r →
    (∃ r', r' ∈ demo_completed ∧ c_studentId r' = c_studentId r ∧
           c_courseId r' = prereq_source e ∧
           earlier_term demo_terms (c_term r') (c_term r)) ∨
    (∃ r', r' ∈ demo_enrolled ∧ e_studentId r' = c_studentId r ∧
           e_courseId r' = prereq_source e ∧
           earlier_term demo_terms (get_term_by_date demo_now) (c_term r)).
Proof.
  assert (StronglySorted date_lt (map startDate demo_terms)) as H1.
  { repeat first [ apply SSorted_nil | apply SSorted_cons
                 | apply Forall_nil_2 | apply Forall_cons_2 ];
      vm_compute; intuition (discriminate || reflexivity). }
  assert (generate_student_course_history window_config demo_now demo_students
            demo_courses demo_terms demo_prerequisites []
          = Returns (demo_completed, demo_enrolled) []) as H2
    by (vm_compute; reflexivity).
  split; [exact H1|]. split; [exact H2|].
  exact (completed_after_prerequisites window_config demo_now demo_students
           demo_courses demo_terms demo_prerequisites [] demo_completed demo_enrolled
           [] H1 H2).
Defined.

Lemma enrolled_iff_current_term_witness :
  (∀ s, s ∈ demo_students → 1 ≤ preferredCourseLoad s) ∧
  (∀ c, c ∈ demo_courses → instructionModes c ≠ []) ∧
  GRADE_DISTRIBUTION window_config ≠ [] ∧
  (0 < Qsum (map snd (GRADE_DISTRIBUTION window_config)))%Q ∧
  ∃ h t',
    simulate_history window_config demo_now demo_students demo_courses demo_terms
      demo_prerequisites [] = Returns h t' ∧
    generate_student_course_history window_config demo_now demo_students demo_courses
      demo_terms demo_prerequisites []
      = Returns (completed_courses h, enrolled_courses h) t' ∧
    completed_courses h = completed_of (trace h) ∧
    enrolled_courses h = enrolled_of (trace h) ∧
    (∀ s, s ∈ trace h →
       sel_student s ∈ demo_students ∧ sel_term s ∈ demo_terms ∧
       sel_course s ∈ demo_courses ∧
       ((∃ r, sel_emitted s = ENROLLED_IN r) ↔
          term_id (sel_term s) = get_term_by_date demo_now) ∧
       (term_id (sel_term s) = get_term_by_date demo_now →
          sel_emitted s = ENROLLED_IN {| e_studentId := student_id (sel_student s);
                                         e_courseId := course_id (sel_course s) |}) ∧
       (term_id (sel_term s) ≠ get_term_by_date demo_now →
          ∃ r, sel_emitted s = COMPLETED r ∧
               c_studentId r = student_id (sel_student s) ∧
               c_courseId r = course_id (sel_course s) ∧
               c_term r = term_id (sel_term s))) ∧
    ((∀ T, T ∈ demo_terms → term_id T ≠ get_term_by_date demo_now) →
     enrolled_courses h = []).
Proof.
  assert (∀ s, s ∈ demo_students → 1 ≤ preferredCourseLoad s) as H1.
  { apply Forall_forall. by_compute. }
  assert (∀ c, c ∈ demo_courses → instructionModes c ≠ []) as H2.
  { apply Forall_forall. by_compute. }
  assert (GRADE_DISTRIBUTION window_config ≠ []) as H3 by (simpl; discriminate).
  assert (0 < Qsum (map snd (GRADE_DISTRIBUTION window_config)))%Q as H4
    by (vm_compute; reflexivity).
  split; [exact H1|]. split; [exact H2|]. split; [exact H3|]. split; [exact H4|].
  exact (enrolled_iff_current_term window_config demo_now demo_students demo_courses
           demo_terms demo_prerequisites [] H1 H2 H3 H4).
Defined.

Lemma one_record_per_student_course_witness :
  NoDup (map student_id demo_students) ∧
  NoDup (map course_id demo_courses) ∧
  generate_student_course_history window_config demo_now demo_students demo_courses
    demo_terms demo_prerequisites [] = Returns (demo_completed, demo_enrolled) [] ∧
  ∀ sid cid,
    (length (filter (λ r, (c_studentId r, c_courseId r) = (sid, cid)) demo_completed) +
     length (filter (λ r, (e_studentId r, e_courseId r) = (sid, cid)) demo_enrolled)
     ≤ 1)%nat.
Proof.
  assert (NoDup (map student_id demo_students)) as H1 by by_compute.
  assert (NoDup (map course_id demo_courses)) as H2 by by_compute.
  assert (generate_student_course_history window_config demo_now demo_students
            demo_courses demo_terms demo_prerequisites []
          = Returns (demo_completed, demo_enrolled) []) as H3
    by (vm_compute; reflexivity).
  split; [exact H1|]. split; [exact H2|]. split; [exact H3|].
  exact (one_record_per_student_course window_config demo_now demo_students
           demo_courses demo_terms demo_prerequisites [] demo_completed demo_enrolled
           [] H1 H2 H3).
Defined.

(** One degree over the five courses of a single department. *)
Lemma requirement_groups_feasible_witness :
  NoDup (DEPARTMENTS studio_config) ∧
  generate_courses studio_config [] = Returns studio_catalog [] ∧
  generate_degrees studio_config studio_catalog.2 []
    = Returns (studio_degrees.1, studio_degrees.2) [] ∧
  length studio_degrees.2 = 3%nat ∧
  ∀ g, g ∈ studio_degrees.2 →
    minimumCourses g ≤ Z.of_nat (length (req_courses g)) ∧
    (is_core_group g = false →
       minimumCourses g < Z.of_nat (length (req_courses g))) ∧
    (is_core_group g = true → req_id g = "REQ-CORE-" +:+ req_degreeId g).
Proof.
  assert (NoDup (DEPARTMENTS studio_config)) as H1 by by_compute.
  assert (generate_courses studio_config [] = Returns studio_catalog []) as H2
    by (vm_compute; reflexivity).
  assert (generate_degrees studio_config studio_catalog.2 []
          = Returns (studio_degrees.1, studio_degrees.2) []) as H3
    by (vm_compute; reflexivity).
  split; [exact H1|]. split; [exact H2|]. split; [exact H3|].
  split; [vm_compute; reflexivity|].
  exact (requirement_groups_feasible studio_config [] studio_catalog [] []
           studio_degrees.1 studio_degrees.2 [] H1 H2 H3).
Defined.

(** The payloads of the demo run and of the one-department catalog. *)
Lemma payloads_within_ranges_witness :
  (∀ r, r ∈ demo_completed → 1 ≤ difficulty r ≤ 5) ∧
  (∀ e, e ∈ demo_course_similarity.1 ++ demo_course_similarity.2 →
        unit_interval (cs_similarity e)) ∧
  (∀ c, c ∈ studio_catalog.1 → credits c ∈ [1; 2; 3; 4]).
Proof.
  destruct payloads_within_ranges as (Hdifficulty & Hcourses & _ & Hcredits).
  split; [|split].
  - apply (Hdifficulty window_config demo_now demo_students demo_courses demo_terms
             demo_prerequisites [] demo_completed demo_enrolled []).
    vm_compute. reflexivity.
  - apply (Hcourses demo_courses [] _ _ []). vm_compute. reflexivity.
  - apply (Hcredits studio_config [] studio_catalog []). vm_compute. reflexivity.
Defined.


(** * The academic calendar in closed form *)

Lemma terms_of_year_exact cfg y infos : ∀ terms t,
  1 ≤ y ≤ 9999 →
  Forall (λ '(_, (sm, sd, em, ed)),
            (1 ≤ sm ≤ 12 ∧ sm ≠ 2 ∧ 1 ≤ sd ≤ 30) ∧ (1 ≤ em ≤ 12 ∧ em ≠ 2 ∧ 1 ≤ ed ≤ 30)) infos →
  terms_of_year cfg y infos terms t =
    Returns (terms ++ take (Z.to_nat (TERMS_TO_GENERATE cfg - Z.of_nat (length terms)))
                           (map (season_term y) infos)) t.
Proof.
  induction infos as [|[name [[[sm sd] em] ed]] infos IH]; intros terms t Hy Hinfos.
  - simpl. by rewrite take_nil, app_nil_r.
  - apply Forall_cons in Hinfos as [[(? & ? & ?) (? & ? & ?)] Hinfos].
    cbn [terms_of_year].
    destruct (Z.leb_spec (TERMS_TO_GENERATE cfg) (Z.of_nat (length terms))) as [Hle|Hgt].
    + replace (Z.to_nat _) with 0%nat by lia. by rewrite take_0, app_nil_r.
    + unfold bind. rewrite !datetime_date_total by (done || lia).
      rewrite IH by done. rewrite length_app. simpl length.
      replace (Z.to_nat (TERMS_TO_GENERATE cfg - Z.of_nat (length terms)))
        with (S (Z.to_nat (TERMS_TO_GENERATE cfg - Z.of_nat (length terms + 1)))) by lia.
      cbn [map take]. by rewrite <- app_assoc.
Qed.

Lemma term_info_valid :
  Forall (λ '(_, (sm, sd, em, ed)),
            (1 ≤ sm ≤ 12 ∧ sm ≠ 2 ∧ 1 ≤ sd ≤ 30) ∧ (1 ≤ em ≤ 12 ∧ em ≠ 2 ∧ 1 ≤ ed ≤ 30))
         term_info.
Proof. repeat constructor; lia. Qed.

Lemma year_loop_exact cfg n : ∀ s terms t,
  1 ≤ s → s + Z.of_nat n ≤ 10000 →
  for_each (λ y terms, terms_of_year cfg y term_info terms)
           (py_range s (s + Z.of_nat n)) terms t =
    Returns (terms ++ take (Z.to_nat (TERMS_TO_GENERATE cfg - Z.of_nat (length terms)))
                           (season_calendar s (s + Z.of_nat n))) t.
Proof.
  induction n as [|n IH]; intros s terms t Hlo Hhi; unfold season_calendar.
  - rewrite py_range_nil by lia. simpl. by rewrite take_nil, app_nil_r.
  - rewrite py_range_cons by lia. cbn [for_each flat_map]. unfold bind.
    rewrite terms_of_year_exact by (lia || apply term_info_valid).
    replace (s + Z.of_nat (S n)) with (s + 1 + Z.of_nat n) by lia.
    rewrite IH by lia. unfold season_calendar. f_equal.
    rewrite <- app_assoc. f_equal.
    set (k := Z.to_nat (TERMS_TO_GENERATE cfg - Z.of_nat (length terms))).
    rewrite take_app, length_app, length_take, length_map. f_equal.
    simpl length. f_equal. lia.
Qed.

Lemma generate_terms_take_calendar cfg current_year t :
  1 ≤ current_year - HISTORY_YEARS cfg → current_year + 1 ≤ 9999 →
  generate_terms cfg current_year t =
    Returns (take (Z.to_nat (TERMS_TO_GENERATE cfg))
                  (season_calendar (current_year - HISTORY_YEARS cfg) (current_year + 2))) t.
Proof.
  intros Hlo Hhi. unfold generate_terms.
  set (s := current_year - HISTORY_YEARS cfg) in *.
  destruct (Z.le_gt_cases (current_year + 2) s).
  - unfold season_calendar. rewrite !py_range_nil by lia. simpl. by rewrite take_nil.
  - replace (current_year + 1 + 1) with (s + Z.of_nat (Z.to_nat (current_year + 2 - s)))
      by lia.
    rewrite year_loop_exact by lia. simpl.
    do 3 f_equal; lia.
Qed.

Lemma generate_terms_members cfg cy t terms t' :
  generate_terms cfg cy t = Returns terms t' →
  ∀ T, T ∈ terms → ∃ y info, info ∈ term_info ∧ T = season_term y info.
Proof.
  unfold generate_terms.
  apply (for_each_inv
           (λ terms, ∀ T, T ∈ terms → ∃ y info, info ∈ term_info ∧ T = season_term y info)).
  - intros y ts t1 ts' t1' _ Hts (k & -> & _)%terms_of_year_app T
      [HT|HT]%elem_of_app; [by apply Hts|].
    apply list_elem_of_fmap in HT as (info & -> & Hinfo).
    exists y, info. split; [|done].
    eapply elem_of_submseteq; [exact Hinfo|]. apply sublist_submseteq, sublist_take.
  - intros T HT. by apply elem_of_nil in HT.
Qed.

(** X1: every date inside the window of a generated term is mapped by
    get_term_by_date to the id of that term. *)
Theorem term_window_agrees_with_get_term_by_date cfg current_year t terms t' T d :
  generate_terms cfg current_year t = Returns terms t' →
  T ∈ terms →
  date_between (startDate T) d (endDate T) →
  get_term_by_date d = term_id T.
Proof.
  intros Hrun HT [Hlo Hhi].
  destruct (generate_terms_members _ _ _ _ _ Hrun T HT) as (y & info & Hinfo & ->).
  unfold date_lt in Hlo, Hhi. unfold get_term_by_date.
  repeat (apply elem_of_cons in Hinfo as [->|Hinfo]); [..|by apply elem_of_nil in Hinfo];
    simpl in Hlo, Hhi; cbn [season_term term_id].
  - assert (year d = y ∧ 1 ≤ month d ≤ 5) as [-> ?] by lia.
    rewrite !andb_true_intro; [done|split; lia].
  - assert (year d = y ∧ 6 ≤ month d ≤ 7) as [-> ?] by lia.
    destruct (Z.leb_spec (month d) 5); [lia|]. rewrite andb_false_r.
    rewrite !andb_true_intro; [done|split; lia].
  - assert (year d = y ∧ 8 ≤ month d ≤ 12) as [-> ?] by lia.
    destruct (Z.leb_spec (month d) 5); [lia|]. rewrite andb_false_r.
    destruct (Z.leb_spec (month d) 7); [lia|]. by rewrite andb_false_r.
Qed.

Lemma season_term_id_inj y y' i i' :
  i ∈ term_info → i' ∈ term_info →
  term_id (season_term y i) = term_id (season_term y' i') → y = y' ∧ i = i'.
Proof.
  intros Hi Hi'.
  repeat (apply elem_of_cons in Hi as [->|Hi]); [..|by apply elem_of_nil in Hi];
  repeat (apply elem_of_cons in Hi' as [->|Hi']); try (by apply elem_of_nil in Hi');
    cbn [season_term term_id]; intros H; try discriminate H;
    apply String.app_inj, pretty_Z_inj in H; done.
Qed.

Lemma season_calendar_cons s e :
  s < e →
  season_calendar s e = map (season_term s) term_info ++ season_calendar (s + 1) e.
Proof. intros. unfold season_calendar. by rewrite py_range_cons. Qed.

(** The members of a prefix of the calendar, by year and season. *)
Lemma elem_of_take_calendar n : ∀ s k T,
  T ∈ take k (season_calendar s (s + Z.of_nat n)) ↔
  ∃ y j info, term_info !! j = Some info ∧ T = season_term y info ∧
              s ≤ y < s + Z.of_nat n ∧ (3 * Z.to_nat (y - s) + j < k)%nat.
Proof.
  induction n as [|n IH]; intros s k T.
  - unfold season_calendar. rewrite py_range_nil by lia. simpl. rewrite take_nil.
    split; [by intros ?%elem_of_nil | intros (? & ? & ? & _ & _ & ? & _); lia].
  - rewrite season_calendar_cons by lia.
    replace (s + Z.of_nat (S n)) with (s + 1 + Z.of_nat n) by lia.
    rewrite take_app, elem_of_app, IH, length_map. simpl length. split.
    + intros [(i & Hi & Hik)%elem_of_take|(y & j & info & Hj & -> & Hy & Hk)].
      * apply list_lookup_fmap_Some in Hi as (info & -> & Hi).
        exists s, i, info. repeat split; [done|lia..].
      * exists y, j, info. repeat split; [done|lia..].
    + intros (y & j & info & Hj & -> & Hy & Hk).
      destruct (decide (y = s)) as [->|Hne].
      * left. apply elem_of_take. exists j. split; [|lia].
        by rewrite list_lookup_fmap, Hj.
      * right. exists y, j, info. repeat split; [done|lia..].
Qed.

Lemma get_term_by_date_season d :
  ∃ info, term_info !! Z.to_nat (season_index d) = Some info ∧
          get_term_by_date d = term_id (season_term (year d) info).
Proof.
  unfold get_term_by_date, season_index.
  repeat case_match; eexists; (split; [reflexivity|done]).
Qed.

Lemma current_term_in_prefix cfg now :
  0 ≤ HISTORY_YEARS cfg →
  get_term_by_date now ∈
    map term_id (take (Z.to_nat (TERMS_TO_GENERATE cfg))
                      (season_calendar (year now - HISTORY_YEARS cfg) (year now + 2))) ↔
  3 * HISTORY_YEARS cfg + season_index now < TERMS_TO_GENERATE cfg.
Proof.
  intros HH.
  set (s := year now - HISTORY_YEARS cfg).
  replace (year now + 2) with (s + Z.of_nat (Z.to_nat (HISTORY_YEARS cfg + 2)))
    by (unfold s; lia).
  destruct (get_term_by_date_season now) as (info & Hinfo & ->).
  assert (0 ≤ season_index now ≤ 2) by (unfold season_index; repeat case_match; lia).
  split.
  - intros (T & Hid & HT)%list_elem_of_fmap.
    apply elem_of_take_calendar in HT as (y & j & info' & Hj & -> & Hy & Hk).
    symmetry in Hid. apply season_term_id_inj in Hid as [-> ->];
      [|eapply list_elem_of_lookup_2; eassumption..].
    assert (j = Z.to_nat (season_index now)) as ->; [|unfold s in Hk; lia].
    eapply NoDup_lookup; [|exact Hj|exact Hinfo].
    apply (bool_decide_unpack _). vm_compute. exact I.
  - intros Hcap. apply list_elem_of_fmap. eexists. split; [reflexivity|].
    apply elem_of_take_calendar. exists (year now), (Z.to_nat (season_index now)), info.
    repeat split; [done|unfold s; lia..].
Qed.

(** X2: the term of the generation date is among the generated terms exactly
    when the cap reaches it: it is the term number 3 * HISTORY_YEARS +
    (0 for Spring, 1 for Summer, 2 for Fall) of the calendar. *)
Theorem current_term_generated_iff cfg now t :
  0 ≤ HISTORY_YEARS cfg →
  1 ≤ year now - HISTORY_YEARS cfg → year now + 1 ≤ 9999 →
  ∃ terms, generate_terms cfg (year now) t = Returns terms t ∧
    (get_term_by_date now ∈ map term_id terms ↔
     3 * HISTORY_YEARS cfg + season_index now < TERMS_TO_GENERATE cfg).
Proof.
  intros HH Hlo Hhi. eexists. split; [by apply generate_terms_take_calendar|].
  by apply current_term_in_prefix.
Qed.

Lemma elem_of_calendar s e T :
  T ∈ season_calendar s e →
  ∃ y info, info ∈ term_info ∧ T = season_term y info ∧ s ≤ y < e.
Proof.
  unfold season_calendar. rewrite list_elem_of_In, in_flat_map.
  intros (y & Hy%list_elem_of_In%elem_of_py_range & HT%list_elem_of_In).
  apply list_elem_of_fmap in HT as (info & -> & Hinfo). eauto.
Qed.

Lemma calendar_ids_NoDup n : ∀ s, NoDup (map term_id (season_calendar s (s + Z.of_nat n))).
Proof.
  induction n as [|n IH]; intros s.
  - unfold season_calendar. rewrite py_range_nil by lia. constructor.
  - rewrite season_calendar_cons by lia.
    replace (s + Z.of_nat (S n)) with (s + 1 + Z.of_nat n) by lia.
    rewrite map_app. apply NoDup_app. split; [|split; [|apply IH]].
    + apply NoDup_fmap_2_strong; [|apply NoDup_fmap_2_strong].
      * intros a b (i & -> & Hi)%list_elem_of_fmap (j & -> & Hj)%list_elem_of_fmap Hid.
        by apply season_term_id_inj in Hid as [_ ->].
      * intros i j _ _ Hij. assert (term_id (season_term s i) = term_id (season_term s j))
          as Hid by congruence.
        destruct i as [? [[[? ?] ?] ?]], j as [? [[[? ?] ?] ?]].
        injection Hij. congruence.
      * apply (bool_decide_unpack _). vm_compute. exact I.
    + intros id (a & -> & (i & -> & Hi)%list_elem_of_fmap)%list_elem_of_fmap
             (b & Hid & (y & j & Hj & -> & Hy)%elem_of_calendar)%list_elem_of_fmap.
      apply season_term_id_inj in Hid as [? _]; [lia|done..].
Qed.

Lemma length_calendar n : ∀ s, length (season_calendar s (s + Z.of_nat n)) = (3 * n)%nat.
Proof.
  induction n as [|n IH]; intros s.
  - unfold season_calendar. by rewrite py_range_nil by lia.
  - rewrite season_calendar_cons by lia.
    replace (s + Z.of_nat (S n)) with (s + 1 + Z.of_nat n) by lia.
    rewrite length_app, IH. simpl. lia.
Qed.

(** X3: generate_terms returns the first TERMS_TO_GENERATE terms of the
    sequence Spring, Summer, Fall of every year from current_year -
    HISTORY_YEARS to current_year + 1 (the break only leaves the inner
    loop, and the later years add nothing); their ids are pairwise
    distinct, and their number is the smaller of the cap and three times
    the number of years. *)
Theorem generate_terms_calendar cfg current_year t :
  1 ≤ current_year - HISTORY_YEARS cfg → current_year + 1 ≤ 9999 →
  ∃ terms, generate_terms cfg current_year t = Returns terms t ∧
    terms = take (Z.to_nat (TERMS_TO_GENERATE cfg))
                 (season_calendar (current_year - HISTORY_YEARS cfg) (current_year + 2)) ∧
    NoDup (map term_id terms) ∧
    Z.of_nat (length terms) =
      Z.min (Z.max 0 (TERMS_TO_GENERATE cfg)) (3 * Z.max 0 (HISTORY_YEARS cfg + 2)).
Proof.
  intros Hlo Hhi. eexists. split; [by apply generate_terms_take_calendar|].
  split; [done|].
  set (s := current_year - HISTORY_YEARS cfg).
  destruct (Z.le_gt_cases (HISTORY_YEARS cfg + 2) 0).
  { unfold season_calendar. rewrite py_range_nil by (unfold s; lia).
    simpl. rewrite take_nil. split; [constructor|simpl; lia]. }
  replace (current_year + 2) with (s + Z.of_nat (Z.to_nat (HISTORY_YEARS cfg + 2)))
    by (unfold s; lia).
  split.
  - eapply sublist_NoDup; [apply calendar_ids_NoDup|].
    apply (fmap_sublist term_id), sublist_take.
  - rewrite length_take, length_calendar. lia.
Qed.


(** * The weighted sampler as an inverse distribution function *)




Lemma Qsum_take_all ws i : (length ws ≤ i)%nat → Qsum (take i ws) = Qsum ws.
Proof. intros. by rewrite take_ge. Qed.






(** * Course generator: shape of the catalog *)

Lemma weighted_choice_key {K} (choices_dict : Weights K) t k t' :
  weighted_choice choices_dict t = Returns k t' → k ∈ map fst choices_dict.
Proof. apply choices1_Returns. Qed.

Lemma draw_success_range t q t' :
  draw_success t = Returns q t' → (6 # 10 <= q)%Q ∧ (q <= 1)%Q.
Proof.
  unfold draw_success. intros H. rand_inv.
  match goal with H : uniform _ _ _ = _ |- _ =>
    apply uniform_range in H as [Hlo Hhi]; [|lra] end.
  destruct (py_round2_range 60 100 x) as [Ha Hb].
  - change (inject_Z 60) with (60 # 1)%Q. lra.
  - change (inject_Z 100) with (100 # 1)%Q. lra.
  - split.
    + eapply Qle_trans; [|exact Ha]. unfold Qle. simpl. lia.
    + eapply Qle_trans; [exact Hb|]. unfold Qle. simpl. lia.
Qed.

Lemma favor_range name a b q :
  (6 # 10 <= q)%Q ∧ (q <= 1)%Q → rate_ok (Some (favor name a b q)).
Proof.
  intros [Hlo Hhi]. unfold favor, rate_ok. case_match; [|done].
  destruct (Qmin_spec 1 (q + (2 # 10))) as (H1 & H2 & E).
  split; [|exact H1]. destruct E as [E|E]; rewrite E; lra.
Qed.

Lemma draw_time_commitment_range lvl d t r t' :
  draw_time_commitment lvl d t = Returns r t' → lvl / 100 + d + 1 ≤ r ≤ lvl / 100 + d + 3.
Proof.
  unfold draw_time_commitment. intros H. rand_inv.
  match goal with H : randint _ _ _ = _ |- _ => apply randint_range in H end. lia.
Qed.

Lemma department_course_wf cfg dept courses t c t' :
  dept ∈ DEPARTMENTS cfg →
  department_course cfg dept courses t = Returns c t' → course_wf cfg c.
Proof.
  intros Hdept H. unfold department_course in H. rand_inv.
  repeat match goal with
    | H : weighted_choice _ _ = _ |- _ => apply weighted_choice_key in H
    | H : draw_time_commitment _ _ _ = _ |- _ => apply draw_time_commitment_range in H
    | H : draw_success _ = _ |- _ => apply draw_success_range in H
    end.
  unfold course_wf. cbn -[favor py_in rate_ok].
  repeat split; try done; try lia; try (by apply favor_range).
  - case_match; [right; left|left]; done.
  - repeat case_match; simpl; set_solver.
Qed.

Lemma topup_course_wf cfg courses t c t' :
  topup_course cfg courses t = Returns c t' → course_wf cfg c.
Proof.
  intros H. unfold topup_course in H. rand_inv.
  repeat match goal with
    | H : weighted_choice _ _ = _ |- _ => apply weighted_choice_key in H
    | H : draw_time_commitment _ _ _ = _ |- _ => apply draw_time_commitment_range in H
    | H : choice _ _ = _ |- _ => apply choice_elem in H
    end.
  unfold course_wf. simpl. repeat split; try done; try lia; by left.
Qed.

Lemma add_loop_Forall (P : Course → Prop) (gen : list Course → Rand Course) n :
  (∀ courses t c t', gen courses t = Returns c t' → P c) →
  ∀ cat t cat' t',
    Forall P cat.1 →
    repeat_loop n (λ cat, do course <- gen cat.1; ret (add_course course cat)) cat t
      = Returns cat' t' →
    Forall P cat'.1 ∧ length cat'.1 = (length cat.1 + n)%nat.
Proof.
  intros Hgen. induction n as [|n IH]; intros cat t cat' t' HP H; simpl in H; rand_inv.
  - split; [done|lia].
  - match goal with H : gen _ _ = _ |- _ => apply Hgen in H as Hc end.
    apply IH in H as [? Hlen].
    + split; [done|]. rewrite Hlen. simpl. rewrite length_app. simpl. lia.
    + simpl. apply Forall_app. split; [done|]. by apply Forall_cons_2.
Qed.

Lemma generate_courses_Forall cfg (P : Course → Prop) :
  (∀ dept courses t c t',
     dept ∈ DEPARTMENTS cfg → department_course cfg dept courses t = Returns c t' → P c) →
  (∀ courses t c t', topup_course cfg courses t = Returns c t' → P c) →
  ∀ t cat t', generate_courses cfg t = Returns cat t' →
    Forall P cat.1 ∧ NUM_COURSES cfg ≤ Z.of_nat (length cat.1).
Proof.
  intros Hdept Htop t cat t' H. unfold generate_courses in H. rand_inv.
  match goal with H : for_each _ _ _ _ = Returns ?c _ |- _ =>
    assert (Forall P c.1) as Hc;
      [revert H; apply (for_each_inv (λ c, Forall P c.1)); [|constructor]|] end.
  { intros dept s t1 s' t1' Hin Hs Hstep. unfold department_courses in Hstep. rand_inv.
    eapply (add_loop_Forall P (department_course cfg dept)); [|exact Hs|eassumption].
    intros. eapply Hdept; eassumption. }
  eapply (add_loop_Forall P (topup_course cfg)) in H as [? Hlen]; [|exact Htop|exact Hc].
  split; [done|]. lia.
Qed.

(** X6: the catalog of generate_courses: course ids are pairwise distinct,
    dept_courses lists under every department name exactly the courses of
    that department, in the order of the course list, every configured
    department has at least five courses, and there are at least
    NUM_COURSES courses (more when five per department exceed it). *)
Theorem generate_courses_catalog_shape cfg t cat t' :
  generate_courses cfg t = Returns cat t' →
  NoDup (map course_id cat.1) ∧
  (∀ d, get_list cat.2 d = filter (λ c, department c = d) cat.1) ∧
  (∀ d, d ∈ DEPARTMENTS cfg → (5 ≤ length (get_list cat.2 d))%nat) ∧
  NUM_COURSES cfg ≤ Z.of_nat (length cat.1).
Proof.
  intros H.
  pose proof (generate_courses_spec _ _ _ _ H) as [(Hids & _ & Hget) Hfive].
  split; [done|]. split; [done|]. split.
  - intros d Hd. rewrite Hget. exact (Hfive d Hd).
  - eapply (generate_courses_Forall cfg (λ _, True)); [done|done|exact H].
Qed.

(** X7: every generated course is well formed: its department, level and
    average difficulty come from the configured tables, its weekly time
    is level // 100 + difficulty + 1..3, it is offered in Fall and Spring
    (and perhaps Summer), it can be taken in person, its first two tags
    are the department and the level band, and its learner success rates,
    when it has them, lie between 0.6 and 1. *)
Theorem generate_courses_well_formed cfg t cat t' :
  generate_courses cfg t = Returns cat t' → Forall (course_wf cfg) cat.1.
Proof.
  intros H.
  eapply (generate_courses_Forall cfg (course_wf cfg)); [| |exact H].
  - intros. eapply department_course_wf; eassumption.
  - intros. eapply topup_course_wf; eassumption.
Qed.


(** * Course generator: the run returns *)

Lemma returns_with_bind {A B} (m : Rand A) (k : A → Rand B) P Q :
  returns_with m P → (∀ a, P a → returns_with (k a) Q) → returns_with (bind m k) Q.
Proof.
  intros Hm Hk t. destruct (Hm t) as (a & t1 & Ha & HP).
  destruct (Hk a HP t1) as (b & t2 & Hb & HQ).
  exists b, t2. split; [|done]. apply bind_Returns. eauto.
Qed.

Lemma returns_with_ret {A} (a : A) (P : A → Prop) : P a → returns_with (ret a) P.
Proof. intros HP t. by exists a, t. Qed.

Lemma returns_with_weaken {A} (m : Rand A) (P Q : A → Prop) :
  returns_with m P → (∀ a, P a → Q a) → returns_with m Q.
Proof. intros Hm HPQ t. destruct (Hm t) as (a & t' & ? & ?). eauto. Qed.

Lemma always_returns_intro {A} (m : Rand A) :
  (∀ t, ∃ a t', m t = Returns a t') → always_returns m.
Proof. intros H t. destruct (H t) as (a & t' & ?). by exists a, t'. Qed.

Lemma always_bind {A B} (m : Rand A) (k : A → Rand B) :
  always_returns m → (∀ a, always_returns (k a)) → always_returns (bind m k).
Proof. intros Hm Hk. eapply returns_with_bind; [exact Hm|]. intros a _. apply Hk. Qed.

Lemma always_ret {A} (a : A) : always_returns (ret a).
Proof. by apply returns_with_ret. Qed.

Lemma repeat_loop_returns {S} (I : S → Prop) (body : S → Rand S) n :
  (∀ s, I s → returns_with (body s) I) → ∀ s, I s → returns_with (repeat_loop n body s) I.
Proof.
  intros Hbody. induction n as [|n IH]; intros s Hs; simpl.
  - by apply returns_with_ret.
  - eapply returns_with_bind; [by apply Hbody|]. intros s' Hs'. by apply IH.
Qed.

Lemma for_each_returns {A S} (I : S → Prop) (body : A → S → Rand S) l :
  (∀ x s, x ∈ l → I s → returns_with (body x s) I) →
  ∀ s, I s → returns_with (for_each body l s) I.
Proof.
  induction l as [|x l IH]; intros Hbody s Hs; simpl.
  - by apply returns_with_ret.
  - eapply returns_with_bind; [apply Hbody; [by left|done]|].
    intros s' Hs'. apply IH; [|done]. intros y s0 Hy. apply Hbody. by right.
Qed.

Lemma always_random_random : always_returns random_random.
Proof. apply always_returns_intro, random_random_total. Qed.

Lemma always_randint a b : a ≤ b → always_returns (randint a b).
Proof. intros. apply always_returns_intro. intros t. by apply randint_total. Qed.

Lemma always_choice {A} (seq : list A) : seq ≠ [] → always_returns (choice seq).
Proof. intros. apply always_returns_intro. intros t. by apply choice_total. Qed.

Lemma always_weighted_choice {K} (d : Weights K) :
  d ≠ [] → (0 < Qsum (map snd d))%Q → always_returns (weighted_choice d).
Proof.
  intros Hne Hpos. apply always_returns_intro. intros t.
  destruct (weighted_choice_total d t Hne Hpos) as (k & t' & ? & _). eauto.
Qed.

Lemma always_draw_success : always_returns draw_success.
Proof.
  unfold draw_success. apply always_bind; [|intros; apply always_ret].
  apply always_returns_intro, uniform_total.
Qed.

Lemma always_draw_credits : always_returns draw_credits.
Proof.
  unfold draw_credits. apply always_bind; [apply always_random_random|]. intros r.
  case_match; [apply always_ret|].
  apply always_bind; [apply always_random_random|]. intros r'.
  case_match; [apply always_ret|]. by apply always_choice.
Qed.

Lemma always_generate_course_id dept lvl : always_returns (generate_course_id dept lvl).
Proof.
  unfold generate_course_id. apply always_bind; [|intros; apply always_ret].
  case_match; [|apply always_ret].
  apply always_bind; [by apply always_choice|]. intros. apply always_ret.
Qed.

Lemma dept_names_nonempty dept :
  default ["Course"] ((list_to_map dept_names : gmap string (list string)) !! dept) ≠ [].
Proof.
  destruct (_ !! dept) as [names|] eqn:E; [|done]. simpl.
  apply elem_of_list_to_map_2 in E.
  assert (Forall (λ p : string * list string, p.2 ≠ []) dept_names) as Hall.
  { apply (bool_decide_unpack _). vm_compute. exact I. }
  exact (proj1 (Forall_forall _ _) Hall _ E).
Qed.

Lemma always_generate_course_name dept lvl : always_returns (generate_course_name dept lvl).
Proof.
  unfold generate_course_name. pose proof (dept_names_nonempty dept) as Hne.
  repeat case_match;
    repeat first [ apply always_ret
                 | apply always_choice; done
                 | apply always_bind; [by apply always_choice|intros] ].
Qed.

Lemma always_unique_course_id courses cid : always_returns (unique_course_id courses cid).
Proof. apply always_returns_intro. intros t. apply unique_course_id_total. Qed.

Lemma always_draw_time_commitment lvl d : always_returns (draw_time_commitment lvl d).
Proof.
  unfold draw_time_commitment. apply always_bind; [by apply always_randint|].
  intros. apply always_ret.
Qed.

Section tables.
Context (cfg : Config).
Hypothesis Hlevels : COURSE_LEVELS cfg ≠ [].
Hypothesis Hlevels_pos : (0 < Qsum (map snd (COURSE_LEVELS cfg)))%Q.
Hypothesis Hdifficulty : COURSE_DIFFICULTY_DISTRIBUTION cfg ≠ [].
Hypothesis Hdifficulty_pos : (0 < Qsum (map snd (COURSE_DIFFICULTY_DISTRIBUTION cfg)))%Q.

Lemma always_department_course dept courses :
  always_returns (department_course cfg dept courses).
Proof using All.
  unfold department_course.
  repeat first
    [ apply always_ret
    | apply always_bind;
        [ first [ by apply always_weighted_choice | apply always_generate_course_id
                | apply always_unique_course_id | apply always_generate_course_name
                | apply always_draw_time_commitment | apply always_random_random
                | apply always_draw_credits | apply always_draw_success ]
        | intros ] ].
Qed.

Lemma always_topup_course courses :
  DEPARTMENTS cfg ≠ [] → always_returns (topup_course cfg courses).
Proof using All.
  intros Hdepts. unfold topup_course.
  repeat first
    [ apply always_ret
    | apply always_bind;
        [ first [ by apply always_weighted_choice | by apply always_choice
                | apply always_generate_course_id
                | apply always_unique_course_id | apply always_generate_course_name
                | apply always_draw_time_commitment ]
        | intros ] ].
Qed.
End tables.

(** X8: generate_courses returns on every tape, the loop that makes course
    ids unique included, as soon as there is a department and the level
    and difficulty tables have entries of positive total weight. *)
Theorem generate_courses_returns cfg t :
  DEPARTMENTS cfg ≠ [] →
  COURSE_LEVELS cfg ≠ [] → (0 < Qsum (map snd (COURSE_LEVELS cfg)))%Q →
  COURSE_DIFFICULTY_DISTRIBUTION cfg ≠ [] →
  (0 < Qsum (map snd (COURSE_DIFFICULTY_DISTRIBUTION cfg)))%Q →
  ∃ cat t', generate_courses cfg t = Returns cat t'.
Proof.
  intros Hdepts Hl Hlp Hd Hdp.
  assert (always_returns (generate_courses cfg)) as Hall.
  { unfold generate_courses. apply always_bind.
    - apply (for_each_returns (λ _, True)); [|done]. intros dept cat _ _.
      unfold department_courses. apply always_bind.
      + apply always_returns_intro. intros t0. unfold py_div.
        case_match eqn:E; [|eexists _, _; reflexivity].
        apply Qeq_bool_iff in E. destruct (DEPARTMENTS cfg); [done|].
        exfalso. revert E. unfold Qeq. simpl. lia.
      + intros share. apply (repeat_loop_returns (λ _, True)); [|done]. intros cat' _.
        apply always_bind; [by apply always_department_course|]. intros. apply always_ret.
    - intros cat. apply (repeat_loop_returns (λ _, True)); [|done]. intros cat' _.
      apply always_bind; [by apply always_topup_course|]. intros. apply always_ret. }
  destruct (Hall t) as (cat & t' & Hrun & _). eauto.
Qed.

Lemma bind_Raises {A B} (m : Rand A) (k : A → Rand B) t e :
  m t = Raises e → bind m k t = Raises e.
Proof. intros H. unfold bind. by rewrite H. Qed.

Lemma topup_course_no_departments cfg courses t :
  DEPARTMENTS cfg = [] → topup_course cfg courses t = Raises IndexError.
Proof. intros Hdepts. unfold topup_course, bind. by rewrite Hdepts. Qed.

(** X9: without departments generate_courses returns the empty catalog when
    NUM_COURSES is not positive, and raises IndexError otherwise: the
    top-up loop draws from the empty department list. *)
Theorem generate_courses_no_departments cfg t :
  DEPARTMENTS cfg = [] →
  (NUM_COURSES cfg ≤ 0 → generate_courses cfg t = Returns ([], ∅) t) ∧
  (0 < NUM_COURSES cfg → generate_courses cfg t = Raises IndexError).
Proof.
  intros Hdepts. unfold generate_courses. rewrite Hdepts. cbn [for_each].
  change (bind (ret ?a) ?k t) with (k a t). cbv beta. cbn [fst length].
  split; intros Hn.
  - replace (Z.to_nat _) with 0%nat by lia. reflexivity.
  - destruct (Z.to_nat (NUM_COURSES cfg - Z.of_nat 0)) as [|n] eqn:E; [lia|].
    cbn [repeat_loop]. apply bind_Raises, bind_Raises.
    by apply topup_course_no_departments.
Qed.


(** * Prerequisite generator: payload, pool and failure *)

Lemma elem_of_py_range_step_100_mod lvl l :
  l ∈ py_range_step 100 lvl 100 → l mod 100 = 0.
Proof.
  unfold py_range_step. rewrite list_elem_of_In, in_map_iff.
  intros (i & <- & _).
  replace (100 + 100 * Z.of_nat i) with ((1 + Z.of_nat i) * 100) by lia.
  apply Z.mod_mul. lia.
Qed.

Lemma extend_lower_levels_Forall (P : Course → Prop) courses d lvl acc :
  (∀ p, p ∈ courses → department p = d → 100 ≤ level p < lvl →
        level p mod 100 = 0 → P p) →
  Forall P acc →
  Forall P (extend_lower_levels (by_dept_level courses) d lvl acc).
Proof.
  intros HP. unfold extend_lower_levels. revert acc.
  apply (foldl_inv (Forall P)).
  intros acc l Hl Hacc.
  pose proof (elem_of_py_range_step_100 _ _ Hl).
  pose proof (elem_of_py_range_step_100_mod _ _ Hl).
  destruct (by_dept_level courses !! (d, l)) as [cs|] eqn:E; [|done].
  apply Forall_app. split; [done|].
  apply by_dept_level_lookup in E as ->.
  apply Forall_forall. intros c [[= Hd Hlv] Hc]%list_elem_of_filter.
  apply HP; [done|done|lia|by rewrite Hlv].
Qed.

(** The members of the candidate pool of a course. *)
Lemma potential_prereqs_pool cfg courses dept lvl n :
  Forall (λ p, p ∈ courses ∧ 100 ≤ level p < lvl ∧ level p mod 100 = 0 ∧
               (department p ≠ dept →
                Z.of_nat (length (extend_lower_levels (by_dept_level courses) dept lvl []))
                  < n))
         (potential_prereqs cfg (by_dept_level courses) dept lvl n).
Proof.
  unfold potential_prereqs.
  set (same := extend_lower_levels (by_dept_level courses) dept lvl []).
  assert (Forall (λ p, p ∈ courses ∧ 100 ≤ level p < lvl ∧ level p mod 100 = 0 ∧
                       (department p ≠ dept → Z.of_nat (length same) < n)) same) as Hsame.
  { apply extend_lower_levels_Forall; [|constructor]. intros p ? ? ? ?. done. }
  destruct (Z.ltb_spec (Z.of_nat (length same)) n) as [Hlt|Hge]; [|done].
  revert Hsame. generalize same at 2 4. intros acc Hacc. revert acc Hacc.
  apply (foldl_inv (Forall (λ p, p ∈ courses ∧ 100 ≤ level p < lvl ∧ level p mod 100 = 0 ∧
                       (department p ≠ dept → Z.of_nat (length same) < n)))).
  intros acc d _ Hacc. case_decide; [|done].
  apply extend_lower_levels_Forall; [|done]. intros p ? ? ? ?. done.
Qed.

Lemma append_prerequisite_payload course prereq acc t acc' t' :
  append_prerequisite course prereq acc t = Returns acc' t' →
  ∃ e, acc' = acc ++ [e] ∧ prereq_target e = course_id course ∧
       prereq_source e = course_id prereq ∧ edge_payload_ok e.
Proof.
  unfold append_prerequisite. intros H.
  apply bind_Returns in H as (r & t1 & _ & H).
  destruct (Qlt_le_dec r (8 # 10)).
  - change (String.eqb "Required" "Required") with true in H. cbv iota in H.
    apply bind_Returns in H as (g & t2 & Hg%choice_elem & H). rand_inv.
    eexists. split; [reflexivity|]. repeat split. by left.
  - change (String.eqb "Recommended" "Required") with false in H. cbv iota in H.
    rand_inv. eexists. split; [reflexivity|]. repeat split. by right.
Qed.

(** X10: every PREREQUISITE_FOR edge is Required with a minimum grade among C,
    C-, D, D-, or Recommended with an empty minimum grade.  Its target is
    a course above level 100 and its source a course whose level is a
    multiple of 100 from 100 up; the source belongs to another department
    only when the target's own department has fewer lower-level courses
    than MAX_PREREQS_PER_COURSE. *)
Theorem prerequisite_edges_payload_and_pool cfg courses t edges t' :
  generate_prerequisites cfg courses t = Returns edges t' →
  ∀ e, e ∈ edges →
    edge_payload_ok e ∧
    ∃ p c, p ∈ courses ∧ c ∈ courses ∧
      prereq_source e = course_id p ∧ prereq_target e = course_id c ∧
      100 < level c ∧ 100 ≤ level p ∧ level p mod 100 = 0 ∧
      (department p ≠ department c →
       Z.of_nat (length (extend_lower_levels (by_dept_level courses)
                           (department c) (level c) []))
         < MAX_PREREQS_PER_COURSE cfg).
Proof.
  intros Hrun. unfold generate_prerequisites in Hrun.
  set (Q := λ e, edge_payload_ok e ∧
    ∃ p c, p ∈ courses ∧ c ∈ courses ∧
      prereq_source e = course_id p ∧ prereq_target e = course_id c ∧
      100 < level c ∧ 100 ≤ level p ∧ level p mod 100 = 0 ∧
      (department p ≠ department c →
       Z.of_nat (length (extend_lower_levels (by_dept_level courses)
                           (department c) (level c) []))
         < MAX_PREREQS_PER_COURSE cfg)).
  apply Forall_forall. change (Forall Q edges).
  revert Hrun. apply (for_each_inv (Forall Q)); [|constructor].
  intros c acc t1 acc' t1' Hc Hacc Hstep. unfold prerequisites_for in Hstep.
  destruct (Z.ltb_spec 100 (level c)) as [Hlvl|]; [|by rand_inv].
  apply bind_Returns in Hstep as (n & t2 & Hn%draw_num_prereqs_range & Hstep).
  apply bind_Returns in Hstep as (sel & t3 & Hsel & Hstep).
  pose proof (potential_prereqs_pool cfg courses (department c) (level c) n) as Hpool.
  set (pool := potential_prereqs cfg (by_dept_level courses) (department c) (level c) n)
    in *.
  assert (Forall (λ p, p ∈ pool) sel) as Hin.
  { case_match; rand_inv; [|constructor].
    apply sample_submseteq in Hsel as [Hsub _]. apply Forall_forall.
    intros p Hp. eapply elem_of_submseteq; eassumption. }
  revert Hstep. apply (for_each_inv (Forall Q)); [|done].
  intros p es t4 es' t4' Hp Hes (e & -> & Htgt & Hsrc & Hpay)%append_prerequisite_payload.
  apply Forall_app. split; [done|]. apply Forall_cons_2; [|constructor].
  pose proof (proj1 (Forall_forall _ _) Hin p Hp) as Hpp.
  destruct (proj1 (Forall_forall _ _) Hpool p Hpp) as (? & ? & ? & Hcross).
  split; [done|]. exists p, c. repeat split; try done; try lia.
  intros Hne. specialize (Hcross Hne). lia.
Qed.

Lemma randint_empty a b t : b < a → randint a b t = Raises ValueError.
Proof. intros. unfold randint. destruct (Z.ltb_spec 0 (b + 1 - a)); [lia|done]. Qed.

Lemma draw_num_prereqs_outcome cfg lvl t :
  (∃ n t', draw_num_prereqs cfg lvl t = Returns n t') ∨
  draw_num_prereqs cfg lvl t = Raises ValueError.
Proof.
  unfold draw_num_prereqs.
  assert (∀ a b, (∃ n t', randint a b t = Returns n t') ∨ randint a b t = Raises ValueError)
    as Hr.
  { intros a b. destruct (Z.le_gt_cases a b); [left; by apply randint_total|].
    right. apply randint_empty. lia. }
  repeat case_match;
    match goal with |- context [randint ?a ?b] =>
      destruct (Hr a b) as [(n & t' & Hn)|Hn] end;
    first [ left; eexists _, _; apply bind_Returns; eexists _, _; split; [exact Hn|reflexivity]
          | right; by apply bind_Raises ].
Qed.

(** The body of the main loop returns or raises ValueError, and raises it
    on every graduate course when the cap is below 2. *)
Lemma prerequisites_for_outcome cfg bdl course acc t :
  ((∃ acc' t', prerequisites_for cfg bdl course acc t = Returns acc' t') ∨
   prerequisites_for cfg bdl course acc t = Raises ValueError) ∧
  (MAX_PREREQS_PER_COURSE cfg < 2 → 400 < level course →
   prerequisites_for cfg bdl course acc t = Raises ValueError).
Proof.
  unfold prerequisites_for. split.
  - case_match; [|left; eexists _, _; reflexivity].
    destruct (draw_num_prereqs_outcome cfg (level course) t) as [(n & t1 & Hn)|Hn];
      [|right; by apply bind_Raises].
    left.
    set (pool := potential_prereqs cfg bdl (department course) (level course) n).
    assert (∃ sel t2, (if 0 <? Z.min n (Z.of_nat (length pool))
                       then sample pool (Z.min n (Z.of_nat (length pool)))
                       else ret []) t1 = Returns sel t2) as (sel & t2 & Hsel).
    { case_match eqn:E; [|eexists _, _; reflexivity].
      apply Z.ltb_lt in E. apply sample_total. lia. }
    destruct (append_loop_total course sel acc t2) as (acc' & t3 & Hacc).
    exists acc', t3. apply bind_Returns. exists n, t1. split; [done|].
    fold pool. apply bind_Returns. eauto.
  - intros Hmax Hlvl.
    destruct (Z.ltb_spec 100 (level course)); [|lia].
    apply bind_Raises. unfold draw_num_prereqs. apply bind_Raises.
    destruct (Z.leb_spec (level course) 200); [lia|].
    destruct (Z.leb_spec (level course) 300); [lia|].
    destruct (Z.leb_spec (level course) 400); [lia|].
    apply randint_empty. lia.
Qed.

(** X11: with a prerequisite cap below 2 and a course above level 400 in the
    list, generate_prerequisites raises ValueError: the draw
    randint(2, MAX_PREREQS_PER_COURSE) has an empty range. *)
Theorem generate_prerequisites_small_cap_raises cfg courses t :
  MAX_PREREQS_PER_COURSE cfg < 2 →
  (∃ c, c ∈ courses ∧ 400 < level c) →
  generate_prerequisites cfg courses t = Raises ValueError.
Proof.
  intros Hmax. unfold generate_prerequisites.
  generalize (by_dept_level courses) as bdl. intros bdl.
  generalize (@nil Prerequisite) as acc. revert t.
  induction courses as [|c courses IH]; intros t acc (g & Hg & Hlvl).
  { by apply elem_of_nil in Hg. }
  cbn [for_each].
  destruct (prerequisites_for_outcome cfg bdl c acc t) as [[(acc' & t1 & Hret)|Hraise] Hgrad].
  - apply elem_of_cons in Hg as [->|Hg].
    + rewrite Hgrad in Hret by done. discriminate.
    + unfold bind. rewrite Hret. apply IH. eauto.
  - by apply bind_Raises.
Qed.


(** * Prerequisite generator: no edge twice *)

Lemma NoDup_concat_by_key {A D} (h : D → list A) (key : A → D) ds :
  NoDup ds → (∀ d, NoDup (h d)) → (∀ d x, x ∈ h d → key x = d) →
  NoDup (concat (map h ds)).
Proof.
  intros Hds Hh Hkey. induction Hds as [|d ds Hd Hds IH]; simpl; [constructor|].
  apply NoDup_app. split; [apply Hh|]. split; [|exact IH].
  intros x Hx (l & Hin & (d' & -> & Hd')%list_elem_of_fmap)%elem_of_concat.
  apply Hkey in Hx, Hin. congruence.
Qed.

Lemma foldl_app_concat {A K} (f : K → list A) ks : ∀ acc,
  foldl (λ acc k, acc ++ f k) acc ks = acc ++ concat (map f ks).
Proof.
  induction ks as [|k ks IH]; intros acc; simpl; [by rewrite app_nil_r|].
  by rewrite IH, app_assoc.
Qed.

Lemma py_range_step_NoDup lvl : NoDup (py_range_step 100 lvl 100).
Proof.
  unfold py_range_step. apply NoDup_fmap_2_strong; [|apply NoDup_ListNoDup, seq_NoDup].
  intros i j _ _ ?. lia.
Qed.

Lemma extend_lower_levels_concat bdl d lvl acc :
  extend_lower_levels bdl d lvl acc =
  acc ++ concat (map (λ l, get_list bdl (d, l)) (py_range_step 100 lvl 100)).
Proof.
  unfold extend_lower_levels. rewrite <- foldl_app_concat.
  generalize (py_range_step 100 lvl 100) as ls. intros ls. revert acc.
  induction ls as [|l ls IH]; intros acc; simpl; [done|].
  rewrite <- IH. f_equal. unfold get_list.
  destruct (bdl !! (d, l)); simpl; [done|by rewrite app_nil_r].
Qed.

Lemma get_list_by_dept_level courses d l :
  get_list (by_dept_level courses) (d, l)
  = filter (λ c, (department c, level c) = (d, l)) courses.
Proof.
  unfold by_dept_level.
  rewrite (get_list_grouped (λ c, (department c, level c)) (λ c : Course, c)).
  unfold get_list. rewrite lookup_empty. simpl. by rewrite map_id.
Qed.

(** The lower-level courses of one department, without repetition. *)
Lemma lower_levels_NoDup courses d lvl :
  NoDup courses →
  NoDup (extend_lower_levels (by_dept_level courses) d lvl []) ∧
  ∀ p, p ∈ extend_lower_levels (by_dept_level courses) d lvl [] →
       p ∈ courses ∧ department p = d.
Proof.
  intros Hnd. rewrite extend_lower_levels_concat. simpl. split.
  - apply (NoDup_concat_by_key _ level); [apply py_range_step_NoDup| |].
    + intros l. rewrite get_list_by_dept_level. by apply NoDup_filter.
    + intros l p. rewrite get_list_by_dept_level.
      intros [[= _ ?] _]%list_elem_of_filter. done.
  - intros p (cs & Hp & (l & -> & _)%list_elem_of_fmap)%elem_of_concat.
    rewrite get_list_by_dept_level in Hp.
    apply list_elem_of_filter in Hp as [[= ? _] ?]. done.
Qed.

Lemma widen_concat bdl dept lvl ds : ∀ acc,
  foldl (λ acc d, if decide (d ≠ dept) then extend_lower_levels bdl d lvl acc else acc)
        acc ds =
  acc ++ concat (map (λ d, if decide (d ≠ dept)
                           then extend_lower_levels bdl d lvl [] else []) ds).
Proof.
  induction ds as [|d ds IH]; intros acc; simpl; [by rewrite app_nil_r|].
  rewrite IH. case_decide; simpl; [|done].
  rewrite (extend_lower_levels_concat bdl d lvl acc),
          (extend_lower_levels_concat bdl d lvl []). simpl. by rewrite app_assoc.
Qed.

(** The candidate pool holds no course twice. *)
Lemma potential_prereqs_NoDup cfg courses dept lvl n :
  NoDup (DEPARTMENTS cfg) → NoDup courses →
  NoDup (potential_prereqs cfg (by_dept_level courses) dept lvl n) ∧
  ∀ p, p ∈ potential_prereqs cfg (by_dept_level courses) dept lvl n → p ∈ courses.
Proof.
  intros Hdepts Hnd. unfold potential_prereqs.
  destruct (lower_levels_NoDup courses dept lvl Hnd) as [Hsame Hsame_in].
  case_match; [|split; [done|]; intros p Hp; by apply Hsame_in].
  rewrite widen_concat. split.
  - apply NoDup_app. split; [done|]. split.
    + intros p Hp (l & Hl & (d & -> & _)%list_elem_of_fmap)%elem_of_concat.
      case_decide; [|by apply elem_of_nil in Hl].
      apply Hsame_in in Hp as [_ ?].
      apply (lower_levels_NoDup courses d lvl Hnd) in Hl as [_ ?]. congruence.
    + apply (NoDup_concat_by_key _ department); [done| |].
      * intros d. case_decide; [|constructor]. by apply lower_levels_NoDup.
      * intros d p Hp. case_decide; [|by apply elem_of_nil in Hp].
        by apply (lower_levels_NoDup courses d lvl Hnd) in Hp as [_ ?].
  - intros p [Hp|(l & Hl & (d & -> & _)%list_elem_of_fmap)%elem_of_concat]%elem_of_app.
    + by apply Hsame_in.
    + case_decide; [|by apply elem_of_nil in Hl].
      by apply (lower_levels_NoDup courses d lvl Hnd) in Hl as [? _].
Qed.

(** The edges emitted for one course: all into that course, from
    pairwise distinct sources. *)
Lemma prerequisites_for_sources cfg courses course acc t acc' t' :
  NoDup (DEPARTMENTS cfg) → NoDup (map course_id courses) →
  prerequisites_for cfg (by_dept_level courses) course acc t = Returns acc' t' →
  ∃ new, acc' = acc ++ new ∧
         Forall (λ e, prereq_target e = course_id course) new ∧
         NoDup (map prereq_source new).
Proof.
  intros Hdepts Hids Hstep. unfold prerequisites_for in Hstep.
  case_match; [|rand_inv; exists []; rewrite app_nil_r; repeat constructor].
  apply bind_Returns in Hstep as (n & t2 & _ & Hstep).
  apply bind_Returns in Hstep as (sel & t3 & Hsel & Hstep).
  destruct (potential_prereqs_NoDup cfg courses (department course) (level course) n
              Hdepts (NoDup_fmap_1 _ _ Hids)) as [Hpool Hpool_in].
  set (pool := potential_prereqs cfg (by_dept_level courses) (department course)
                 (level course) n) in *.
  assert (NoDup (map course_id sel)) as Hsel_nd.
  { case_match; rand_inv; [|constructor].
    apply sample_submseteq in Hsel as [Hsub _].
    apply NoDup_fmap_2_strong; [|by eapply submseteq_NoDup].
    intros a b Ha Hb. apply (course_id_inj courses); [done|apply Hpool_in..];
      eapply elem_of_submseteq; eassumption. }
  apply append_loop_spec in Hstep as (new & -> & Hnew).
  exists new. split; [done|]. split.
  - apply Forall_forall. intros e (i & He)%list_elem_of_lookup.
    destruct (Forall2_lookup_r _ _ _ _ _ Hnew He) as (p & _ & ? & _). done.
  - replace (map prereq_source new) with (map course_id sel); [done|].
    clear -Hnew. induction Hnew as [|p e sel new [_ Hs] _ IH]; simpl; [done|].
    by rewrite Hs, IH.
Qed.

Lemma prerequisites_loop_NoDup cfg courses0 : ∀ rest acc t edges t',
  NoDup (DEPARTMENTS cfg) → NoDup (map course_id courses0) →
  NoDup (map course_id rest) →
  (∀ e, e ∈ acc → prereq_target e ∉ map course_id rest) →
  NoDup (map (λ e, (prereq_source e, prereq_target e)) acc) →
  for_each (prerequisites_for cfg (by_dept_level courses0)) rest acc t = Returns edges t' →
  NoDup (map (λ e, (prereq_source e, prereq_target e)) edges).
Proof.
  intros rest. induction rest as [|c rest IH];
    intros acc t edges t' Hdepts Hids Hrest Hacc Hnd Hrun; simpl in Hrun.
  { by rand_inv. }
  apply bind_Returns in Hrun as (acc1 & t1 & Hstep & Hrun).
  apply prerequisites_for_sources in Hstep as (new & -> & Htgt & Hsrc); [|done..].
  simpl in Hrest. apply NoDup_cons in Hrest as [Hc Hrest].
  pose proof (proj1 (Forall_forall _ _) Htgt) as Htgt'.
  eapply IH; [done..| | |exact Hrun].
  - intros e [He|He]%elem_of_app.
    + intros Hin. apply (Hacc e He). by right.
    + by rewrite (Htgt' e He).
  - rewrite map_app. apply NoDup_app. split; [done|]. split.
    + intros k (e & -> & He)%list_elem_of_fmap (e' & [= _ Ht] & He')%list_elem_of_fmap.
      apply (Hacc e He). rewrite Ht, (Htgt' e' He'). by left.
    + apply (NoDup_fmap_1 fst). rewrite <- list_fmap_compose. exact Hsrc.
Qed.

(** X12: no PREREQUISITE_FOR edge is generated twice: the (source, target)
    pairs are pairwise distinct when course ids are and no department
    is listed twice. *)
Theorem prerequisite_pairs_distinct cfg courses t edges t' :
  NoDup (DEPARTMENTS cfg) →
  NoDup (map course_id courses) →
  generate_prerequisites cfg courses t = Returns edges t' →
  NoDup (map (λ e, (prereq_source e, prereq_target e)) edges).
Proof.
  intros Hdepts Hids Hrun. unfold generate_prerequisites in Hrun.
  eapply prerequisites_loop_NoDup; [exact Hdepts|exact Hids|exact Hids| | |exact Hrun].
  - intros e He. by apply elem_of_nil in He.
  - constructor.
Qed.


(** * Course sequences *)

Lemma draw_rounded_range (lo hi : Z) a b t q t' :
  (a <= b)%Q → (inject_Z lo <= a * 100)%Q → (b * 100 <= inject_Z hi)%Q →
  draw_rounded a b t = Returns q t' → (lo # 100 <= q)%Q ∧ (q <= hi # 100)%Q.
Proof.
  intros Hab Hlo Hhi H. unfold draw_rounded in H. rand_inv.
  match goal with H : uniform _ _ _ = _ |- _ => apply uniform_range in H as [? ?]; [|done] end.
  apply py_round2_range; lra.
Qed.

Lemma always_draw_rounded a b : always_returns (draw_rounded a b).
Proof.
  unfold draw_rounded. apply always_bind; [|intros; apply always_ret].
  apply always_returns_intro, uniform_total.
Qed.

Lemma elem_of_followers prerequisites cid f :
  f ∈ get_list (followers_of prerequisites) cid ↔
  ∃ p, p ∈ prerequisites ∧ prereq_source p = cid ∧ prereq_target p = f.
Proof.
  unfold followers_of. rewrite (get_list_grouped prereq_source prereq_target).
  unfold get_list. rewrite lookup_empty. simpl. rewrite list_elem_of_fmap. split.
  - intros (p & -> & [? ?]%list_elem_of_filter). eauto.
  - intros (p & ? & ? & <-). exists p. split; [done|]. by apply list_elem_of_filter.
Qed.

Lemma lead_to_follower_spec prerequisites course f acc t acc' t' :
  f ∈ get_list (followers_of prerequisites) (course_id course) →
  lead_to_follower course f acc t = Returns acc' t' →
  acc' = acc ∨ ∃ e, acc' = acc ++ [e] ∧ lt_source e = course_id course ∧
                    follows_prerequisite prerequisites e.
Proof.
  intros Hf H. unfold lead_to_follower in H. rand_inv.
  case_match; rand_inv; [|by left]. right. eexists. split; [reflexivity|].
  split; [done|]. unfold follows_prerequisite. simpl.
  split; [by apply elem_of_followers in Hf as (p & ? & ? & ?); eauto|].
  repeat match goal with H : draw_rounded _ _ _ = _ |- _ =>
    first [ apply (draw_rounded_range 70 100) in H as [? ?];
              [|lra|change (inject_Z 70) with (70 # 1)%Q; lra
                   |change (inject_Z 100) with (100 # 1)%Q; lra]
          | apply (draw_rounded_range 60 90) in H as [? ?];
              [|lra|change (inject_Z 60) with (60 # 1)%Q; lra
                   |change (inject_Z 90) with (90 # 1)%Q; lra] ] end.
  repeat split; (eapply Qle_trans; [eassumption|]; unfold Qle; simpl; lia)
             || (eapply Qle_trans; [|eassumption]; unfold Qle; simpl; lia).
Qed.

Lemma lead_to_next_level_spec courses prerequisites course q acc t acc' t' :
  course ∈ courses → q ∈ courses →
  department q = department course → level q = level course + 100 →
  lead_to_next_level course (get_list (followers_of prerequisites) (course_id course))
                     q acc t = Returns acc' t' →
  acc' = acc ∨ ∃ e, acc' = acc ++ [e] ∧ lt_source e = course_id course ∧
                    next_level_lead courses prerequisites e.
Proof.
  intros Hc Hq Hd Hl H. unfold lead_to_next_level in H.
  case_bool_decide as Hfol; rand_inv; [by left|].
  case_match; rand_inv; [|by left]. right. eexists. split; [reflexivity|].
  split; [done|]. unfold next_level_lead. simpl.
  split; [by exists course, q|]. split.
  { intros p Hp Hs Ht. apply Hfol, elem_of_followers. eauto. }
  repeat match goal with H : draw_rounded _ _ _ = _ |- _ =>
    first [ apply (draw_rounded_range 20 60) in H as [? ?];
              [|lra|change (inject_Z 20) with (20 # 1)%Q; lra
                   |change (inject_Z 60) with (60 # 1)%Q; lra]
          | apply (draw_rounded_range 40 70) in H as [? ?];
              [|lra|change (inject_Z 40) with (40 # 1)%Q; lra
                   |change (inject_Z 70) with (70 # 1)%Q; lra] ] end.
  repeat split; (eapply Qle_trans; [eassumption|]; unfold Qle; simpl; lia)
             || (eapply Qle_trans; [|eassumption]; unfold Qle; simpl; lia).
Qed.

Lemma leads_to_edges_classified_aux courses prerequisites t leads_to t' :
  generate_leads_to_relationships courses prerequisites t = Returns leads_to t' →
  ∀ e, e ∈ leads_to →
    (∃ c, c ∈ courses ∧ course_id c = lt_source e) ∧
    (follows_prerequisite prerequisites e ∨ next_level_lead courses prerequisites e).
Proof.
  intros Hrun. unfold generate_leads_to_relationships in Hrun.
  set (Q := λ e : LeadsTo, (∃ c, c ∈ courses ∧ course_id c = lt_source e) ∧
    (follows_prerequisite prerequisites e ∨ next_level_lead courses prerequisites e)).
  apply Forall_forall. change (Forall Q leads_to).
  revert Hrun. apply (for_each_inv (Forall Q)); [|constructor].
  intros c acc t1 acc' t1' Hc Hacc Hstep. unfold leads_to_for in Hstep.
  apply bind_Returns in Hstep as (mid & t2 & Hfol & Hnext).
  assert (Forall Q mid) as Hmid.
  { revert Hfol. apply (for_each_inv (Forall Q)); [|done].
    intros f es t3 es' t3' Hf Hes Hone.
    eapply lead_to_follower_spec in Hone as [->|(e & -> & Hsrc & He)]; [done| |exact Hf].
    apply Forall_app. split; [done|]. apply Forall_cons_2; [|constructor].
    split; [exists c; by rewrite Hsrc|by left]. }
  revert Hnext. apply (for_each_inv (Forall Q)); [|done].
  intros q es t3 es' t3' [[Hd Hl] Hq]%list_elem_of_filter Hes Hone.
  eapply lead_to_next_level_spec in Hone as [->|(e & -> & Hsrc & He)]; [done| |done..].
  apply Forall_app. split; [done|]. apply Forall_cons_2; [|constructor].
  split; [exists c; by rewrite Hsrc|by right].
Qed.

(** generate_leads_to_relationships never raises. *)
Lemma always_generate_leads_to courses prerequisites :
  always_returns (generate_leads_to_relationships courses prerequisites).
Proof.
  unfold generate_leads_to_relationships.
  apply (for_each_returns (λ _, True)); [|done]. intros c acc _ _.
  unfold leads_to_for. apply always_bind.
  - apply (for_each_returns (λ _, True)); [|done]. intros f es _ _.
    unfold lead_to_follower. apply always_bind; [apply always_random_random|]. intros r.
    case_match; [|apply always_ret].
    repeat (apply always_bind; [apply always_draw_rounded|intros]). apply always_ret.
  - intros mid. apply (for_each_returns (λ _, True)); [|done]. intros q es _ _.
    unfold lead_to_next_level. case_bool_decide; [apply always_ret|].
    apply always_bind; [apply always_random_random|]. intros r.
    case_match; [|apply always_ret].
    repeat (apply always_bind; [apply always_draw_rounded|intros]). apply always_ret.
Qed.

(** X13: generate_leads_to_relationships returns on every tape.  Every
    LEADS_TO edge starts at a listed course and either mirrors a
    PREREQUISITE_FOR edge, with commonality in [0.7, 1] and success
    correlation in [0.6, 0.9], or goes to a course of the same department
    exactly one level (100) up that does not list the source as a
    prerequisite, with commonality in [0.2, 0.6] and success correlation
    in [0.4, 0.7]. *)
Theorem leads_to_edges_classified courses prerequisites t :
  ∃ leads_to t',
    generate_leads_to_relationships courses prerequisites t = Returns leads_to t' ∧
    ∀ e, e ∈ leads_to →
      (∃ c, c ∈ courses ∧ course_id c = lt_source e) ∧
      (follows_prerequisite prerequisites e ∨ next_level_lead courses prerequisites e).
Proof.
  destruct (always_generate_leads_to courses prerequisites t) as (leads_to & t' & Hrun & _).
  exists leads_to, t'. split; [done|].
  by apply (leads_to_edges_classified_aux courses prerequisites t leads_to t').
Qed.

(** X14: built on the output of generate_prerequisites, every LEADS_TO edge
    goes from a course to a course of strictly higher level. *)
Theorem leads_to_levels_increase cfg courses t0 prerequisites t1 t leads_to t' :
  generate_prerequisites cfg courses t0 = Returns prerequisites t1 →
  generate_leads_to_relationships courses prerequisites t = Returns leads_to t' →
  ∀ e, e ∈ leads_to →
    ∃ c q, c ∈ courses ∧ q ∈ courses ∧ course_id c = lt_source e ∧
           course_id q = lt_target e ∧ level c < level q.
Proof.
  intros Hpre Hrun e He.
  destruct (leads_to_edges_classified_aux courses prerequisites t leads_to t' Hrun e He)
    as [_ [[(p & Hp & Hs & Ht) _]|[(c & q & ? & ? & ? & ? & ? & ?) _]]].
  - destruct (generate_prerequisites_edges _ _ _ _ _ Hpre p Hp)
      as (q & Hq & Htgt & c & Hc & Hlvl & Hsrc).
    exists c, q. repeat split; [done|done|congruence|congruence|done].
  - exists c, q. repeat split; [done..|lia].
Qed.


(** * Students and their degrees *)

Lemma pursue_degrees_spec degrees student acc t acc' t' :
  pursue_degrees degrees student acc t = Returns acc' t' →
  ∃ chunk, acc' = acc ++ chunk ∧ degrees_of_student degrees student chunk.
Proof.
  intros H. unfold pursue_degrees in H. rand_inv.
  match goal with H : choice degrees _ = _ |- _ => apply choice_elem in H as Hd end.
  case_match; rand_inv.
  - match goal with H : choice (filter _ _) _ = _ |- _ =>
      apply choice_elem, list_elem_of_filter in H as [Hne Hd'] end.
    eexists. rewrite <- app_assoc. split; [reflexivity|].
    eexists. split; [exact Hd|]. right. eexists. split; [exact Hd'|]. by split.
  - eexists. split; [reflexivity|]. eexists. split; [exact Hd|]. by left.
Qed.

Lemma student_degree_loop students degrees : ∀ acc t acc' t',
  for_each (pursue_degrees degrees) students acc t = Returns acc' t' →
  ∃ chunks, acc' = acc ++ concat chunks ∧
            Forall2 (degrees_of_student degrees) students chunks.
Proof.
  induction students as [|s students IH]; intros acc t acc' t' H; simpl in H; rand_inv.
  - exists []. simpl. by rewrite app_nil_r.
  - match goal with H : pursue_degrees _ _ _ _ = _ |- _ =>
      apply pursue_degrees_spec in H as (chunk & -> & Hchunk) end.
    apply IH in H as (chunks & -> & Hall).
    exists (chunk :: chunks). simpl. rewrite app_assoc. split; [done|]. by constructor.
Qed.

(** X15: the STUDENT-DEGREE records come student by student, in the order of
    the student list: for each student one record with a listed degree,
    or two records with listed degrees of different ids.  Hence every
    student pursues a degree and nobody pursues the same degree twice. *)
Theorem student_degree_records students degrees t student_degree t' :
  generate_student_degree_relationships students degrees t = Returns student_degree t' →
  ∃ chunks, student_degree = concat chunks ∧
            Forall2 (degrees_of_student degrees) students chunks ∧
            (length students ≤ length student_degree ≤ 2 * length students)%nat.
Proof.
  intros H. apply student_degree_loop in H as (chunks & -> & Hall). simpl.
  exists chunks. split; [done|]. split; [done|].
  induction Hall as [|s chunk students chunks (d & _ & Hchunk) _ IH]; simpl; [lia|].
  rewrite length_app.
  destruct Hchunk as [->|(d' & _ & _ & ->)]; simpl; lia.
Qed.

Lemma bind_Raises_inv {A B} (m : Rand A) (k : A → Rand B) t e :
  bind m k t = Raises e →
  m t = Raises e ∨ ∃ a t1, m t = Returns a t1 ∧ k a t1 = Raises e.
Proof. unfold bind. destruct (m t) as [a t1|e']; [eauto|]. intros [= ->]. by left. Qed.

Lemma choice_Raises {A} (seq : list A) t e :
  choice seq t = Raises e → seq = [] ∧ e = IndexError.
Proof.
  destruct seq as [|x seq]; simpl; [by intros [= <-]|].
  intros H. exfalso.
  destruct (choice_total (x :: seq) t) as (y & t' & Hy); [done|]. simpl in Hy. congruence.
Qed.

Lemma pursue_degrees_Raises degrees student acc t e :
  pursue_degrees degrees student acc t = Raises e → e = IndexError.
Proof.
  unfold pursue_degrees. intros H.
  apply bind_Raises_inv in H as [H|(d & t1 & _ & H)]; [by apply choice_Raises in H as [_ ?]|].
  apply bind_Raises_inv in H as [H|(r & t2 & _ & H)].
  { destruct (random_random_total t1) as (? & ? & ?). congruence. }
  case_match; [|done].
  apply bind_Raises_inv in H as [H|(d' & t3 & _ & H)]; [by apply choice_Raises in H as [_ ?]|].
  done.
Qed.

Lemma student_degree_loop_Raises students degrees : ∀ acc t e,
  for_each (pursue_degrees degrees) students acc t = Raises e → e = IndexError.
Proof.
  induction students as [|s students IH]; intros acc t e H; simpl in H; [done|].
  apply bind_Raises_inv in H as [H|(acc1 & t1 & _ & H)].
  - by apply pursue_degrees_Raises in H.
  - by apply IH in H.
Qed.

(** X16: how generate_student_degree_relationships fails.  Without degrees it
    raises IndexError as soon as there is a student.  When all degrees share
    one id (a single degree, say) no second degree exists: the run raises
    IndexError, or returns exactly one record per student. *)
Theorem student_degree_failure_modes students degrees t :
  (students ≠ [] → degrees = [] →
   generate_student_degree_relationships students degrees t = Raises IndexError) ∧
  ((∀ d d', d ∈ degrees → d' ∈ degrees → degree_id d = degree_id d') →
   generate_student_degree_relationships students degrees t = Raises IndexError ∨
   ∃ student_degree t',
     generate_student_degree_relationships students degrees t
       = Returns student_degree t' ∧
     Forall2 (λ s r, sd_studentId r = student_id s ∧
                     ∃ d, d ∈ degrees ∧ sd_degreeId r = degree_id d)
             students student_degree).
Proof.
  split.
  - intros Hs ->. destruct students as [|s students]; [done|].
    unfold generate_student_degree_relationships. simpl. by apply bind_Raises.
  - intros Hsame.
    destruct (generate_student_degree_relationships students degrees t)
      as [sd t'|e] eqn:Hrun.
    + right. exists sd, t'. split; [done|].
      apply student_degree_loop in Hrun as (chunks & -> & Hall). simpl.
      induction Hall as [|s chunk students' chunks (d & Hd & Hchunk) _ IH]; simpl;
        [constructor|].
      destruct Hchunk as [->|(d' & Hd' & Hne & _)].
      * simpl. constructor; [|done]. split; [done|]. eauto.
      * exfalso. apply Hne. by apply Hsame.
    + left. f_equal. by apply student_degree_loop_Raises in Hrun.
Qed.

(** X17: with two degrees of different ids the run returns on every tape. *)
Theorem student_degree_returns students degrees t :
  (∃ d d', d ∈ degrees ∧ d' ∈ degrees ∧ degree_id d ≠ degree_id d') →
  ∃ student_degree t',
    generate_student_degree_relationships students degrees t = Returns student_degree t'.
Proof.
  intros (d & d' & Hd & Hd' & Hne).
  assert (always_returns (generate_student_degree_relationships students degrees)) as Hall.
  { apply (for_each_returns (λ _, True)); [|done]. intros s acc _ _.
    unfold pursue_degrees. apply always_bind.
    { apply always_choice. intros ->. by apply elem_of_nil in Hd. }
    intros p. apply always_bind; [apply always_random_random|]. intros r.
    case_match; [|apply always_ret].
    apply always_bind; [|intros; apply always_ret].
    apply always_choice. intros Hnil.
    destruct (decide (degree_id d = degree_id p)) as [Heq|Hdp].
    - assert (d' ∈ filter (λ x, degree_id x ≠ degree_id p) degrees) as Hin
        by (apply list_elem_of_filter; split; [congruence|done]).
      rewrite Hnil in Hin. by apply elem_of_nil in Hin.
    - assert (d ∈ filter (λ x, degree_id x ≠ degree_id p) degrees) as Hin
        by (by apply list_elem_of_filter).
      rewrite Hnil in Hin. by apply elem_of_nil in Hin. }
  destruct (Hall t) as (sd & t' & Hrun & _). eauto.
Qed.


(** * Faculty and teaching *)

Lemma taught_terms_spec course ts : ∀ acc t acc' t',
  for_each (draw_taught_term course) ts acc t = Returns acc' t' →
  ∃ new, acc' = acc ++ new ∧ new `sublist_of` ts ∧
         Forall (λ term, term ∈ termAvailability course) new.
Proof.
  induction ts as [|term ts IH]; intros acc t acc' t' H; simpl in H; rand_inv.
  - exists []. rewrite app_nil_r. repeat constructor.
  - match goal with H : draw_taught_term _ _ _ _ = _ |- _ =>
      unfold draw_taught_term in H; case_bool_decide as Hav; rand_inv;
        [case_match; rand_inv|] end;
      apply IH in H as (new & -> & Hsub & Hall).
    + exists (term :: new). rewrite <- app_assoc. split; [done|].
      split; [by constructor|by constructor].
    + exists new. split; [done|]. split; [by constructor|done].
    + exists new. split; [done|]. split; [by constructor|done].
Qed.

Lemma elem_of_dict_get_list faculty_by_dept dept (f : Faculty) :
  f ∈ dict_get_list faculty_by_dept dept → f ∈ all_faculty faculty_by_dept.
Proof.
  unfold dict_get_list, all_faculty.
  destruct (list_find _ _) as [[i [k vs]]|] eqn:E; [|by intros ?%elem_of_nil].
  apply list_find_Some in E as (Hi & _ & _). intros Hf.
  apply elem_of_concat. exists vs. split; [done|].
  apply list_elem_of_fmap. exists (k, vs). split; [done|].
  eapply list_elem_of_lookup_2; eassumption.
Qed.

Lemma potential_faculty_of_spec faculty_by_dept course t pf t' :
  potential_faculty_of faculty_by_dept course t = Returns pf t' →
  (∀ f, f ∈ pf → f ∈ all_faculty faculty_by_dept) ∧
  (dict_get_list faculty_by_dept (department course) ≠ [] →
   pf = dict_get_list faculty_by_dept (department course)).
Proof.
  unfold potential_faculty_of. intros H.
  destruct (dict_get_list faculty_by_dept (department course)) as [|f0 fs] eqn:E.
  - apply sample_submseteq in H as [Hsub _]. split; [|done].
    intros f Hf. eapply elem_of_submseteq; eassumption.
  - rand_inv. split; [|done]. intros f Hf. apply (elem_of_dict_get_list _ (department course)).
    by rewrite E.
Qed.

Lemma assign_faculty_spec faculty_by_dept course pf f acc t acc' t' :
  (∀ f, f ∈ pf → f ∈ all_faculty faculty_by_dept) →
  (dict_get_list faculty_by_dept (department course) ≠ [] →
   pf = dict_get_list faculty_by_dept (department course)) →
  f ∈ pf →
  assign_faculty course f acc t = Returns acc' t' →
  acc' = acc ∨ ∃ r, acc' = acc ++ [r] ∧ teaches faculty_by_dept course r.
Proof.
  intros Hall Hdept Hf H. unfold assign_faculty in H.
  apply bind_Returns in H as (terms & t1 & Hterms & H).
  apply taught_terms_spec in Hterms as (new & -> & Hsub & Hav). simpl in H.
  destruct new as [|term new]; rand_inv; [by left|]. right.
  eexists. split; [reflexivity|]. unfold teaches. simpl.
  split; [done|]. split.
  { exists f. split; [by apply Hall|]. split; [done|]. intros Hne. by rewrite <- Hdept. }
  split; [done|]. split; [done|]. exact (proj1 (Forall_forall _ _) Hav).
Qed.

Lemma teach_course_spec faculty_by_dept course acc t acc' t' :
  teach_course faculty_by_dept course acc t = Returns acc' t' →
  ∃ chunk, acc' = acc ++ chunk ∧ teaching_of faculty_by_dept course chunk.
Proof.
  intros H. unfold teach_course in H.
  apply bind_Returns in H as (pf & t1 & [Hall Hdept]%potential_faculty_of_spec & H).
  apply bind_Returns in H as (n & t2 & Hn%randint_range & H).
  apply bind_Returns in H as (sel & t3 & [Hsub Hlen]%sample_submseteq & H).
  assert (∃ chunk, acc' = acc ++ chunk ∧ (length chunk ≤ length sel)%nat ∧
                   Forall (teaches faculty_by_dept course) chunk) as (chunk & -> & ? & ?).
  { assert (∀ f, f ∈ sel → f ∈ pf) as Hin
      by (intros f Hf; eapply elem_of_submseteq; eassumption).
    clear Hsub Hlen Hn. revert acc t3 H.
    induction sel as [|f sel IH]; intros acc t3 H; simpl in H; rand_inv.
    - exists []. rewrite app_nil_r. repeat constructor.
    - match goal with H : assign_faculty _ _ _ _ = _ |- _ =>
        eapply assign_faculty_spec in H as [->|(r & -> & Hr)];
          [| |exact Hall|exact Hdept|apply Hin; by left] end;
        (apply IH in H as (chunk & -> & Hlen & Hok); [|intros; apply Hin; by right]).
      + exists chunk. split; [done|]. split; [simpl; lia|done].
      + exists (r :: chunk). rewrite <- app_assoc. split; [done|].
        split; [simpl; lia|by constructor]. }
  exists chunk. split; [done|]. split; [lia|done].
Qed.

(** X18: the TEACHES records come course by course, in the order of the course
    list: at most three per course, each naming a faculty member of the
    department of the course when it has any (of any department
    otherwise), with a non-empty list of terms taken in the order Fall,
    Spring, Summer among the terms the course is offered in. *)
Theorem teaching_records faculty_by_dept courses t teaching t' :
  generate_teaching_relationships faculty_by_dept courses t = Returns teaching t' →
  ∃ chunks, teaching = concat chunks ∧
            Forall2 (teaching_of faculty_by_dept) courses chunks.
Proof.
  unfold generate_teaching_relationships.
  assert (∀ acc t teaching t',
    for_each (teach_course faculty_by_dept) courses acc t = Returns teaching t' →
    ∃ chunks, teaching = acc ++ concat chunks ∧
              Forall2 (teaching_of faculty_by_dept) courses chunks) as Hloop.
  { induction courses as [|c courses IH]; intros acc t0 tg t0' H; simpl in H; rand_inv.
    - exists []. simpl. by rewrite app_nil_r.
    - match goal with H : teach_course _ _ _ _ = _ |- _ =>
        apply teach_course_spec in H as (chunk & -> & Hchunk) end.
      apply IH in H as (chunks & -> & Hall).
      exists (chunk :: chunks). simpl. rewrite app_assoc. split; [done|]. by constructor. }
  intros H. apply Hloop in H as (chunks & -> & Hall). eauto.
Qed.

Lemma dict_get_list_no_faculty faculty_by_dept dept :
  all_faculty faculty_by_dept = [] → dict_get_list faculty_by_dept dept = [].
Proof.
  intros Hnone. destruct (dict_get_list faculty_by_dept dept) as [|f fs] eqn:E; [done|].
  assert (f ∈ all_faculty faculty_by_dept) as Hf
    by (apply (elem_of_dict_get_list _ dept); rewrite E; by left).
  rewrite Hnone in Hf. by apply elem_of_nil in Hf.
Qed.

Lemma potential_faculty_returns faculty_by_dept course :
  all_faculty faculty_by_dept ≠ [] →
  returns_with (potential_faculty_of faculty_by_dept course) (λ pf, pf ≠ []).
Proof.
  intros Hsome t. unfold potential_faculty_of.
  destruct (dict_get_list faculty_by_dept (department course)) as [|f fs].
  - destruct (all_faculty faculty_by_dept) as [|f0 fs0] eqn:E; [done|].
    destruct (sample_total (f0 :: fs0) (Z.min 3 (Z.of_nat (length (f0 :: fs0)))) t)
      as (pf & t' & Hpf); [simpl; lia|].
    exists pf, t'. split; [done|].
    apply sample_submseteq in Hpf as [_ Hlen]. intros ->. simpl in Hlen. lia.
  - by exists (f :: fs), t.
Qed.

Lemma always_assign_faculty course f acc : always_returns (assign_faculty course f acc).
Proof.
  unfold assign_faculty. apply always_bind.
  - apply (for_each_returns (λ _, True)); [|done]. intros term ts _ _.
    unfold draw_taught_term. case_bool_decide; [|apply always_ret].
    apply always_bind; [apply always_random_random|]. intros r.
    case_match; apply always_ret.
  - intros [|term terms]; apply always_ret.
Qed.

Lemma always_generate_teaching faculty_by_dept courses :
  all_faculty faculty_by_dept ≠ [] →
  always_returns (generate_teaching_relationships faculty_by_dept courses).
Proof.
  intros Hsome.
  apply (for_each_returns (λ _, True)); [|done]. intros c acc _ _.
  unfold teach_course.
  eapply returns_with_bind; [by apply potential_faculty_returns|]. intros pf Hpf.
  eapply (returns_with_bind _ _ (λ n, 1 ≤ n ≤ Z.of_nat (length pf))).
  { intros t0. destruct pf as [|f pf]; [done|].
    destruct (randint_total 1 (Z.min 3 (Z.of_nat (length (f :: pf)))) t0)
      as (n & t1 & Hn); [simpl; lia|].
    exists n, t1. split; [done|]. apply randint_range in Hn. lia. }
  intros n Hn. apply always_bind.
  { apply always_returns_intro. intros t0. apply sample_total. lia. }
  intros sel. apply (for_each_returns (λ _, True)); [|done].
  intros f acc' _ _. apply always_assign_faculty.
Qed.

(** X19: generate_teaching_relationships needs faculty: when there is none and
    there is a course, it raises ValueError (randint(1, 0)); with at least
    one faculty member it returns on every tape. *)
Theorem teaching_needs_faculty faculty_by_dept courses t :
  (all_faculty faculty_by_dept = [] → courses ≠ [] →
   generate_teaching_relationships faculty_by_dept courses t = Raises ValueError) ∧
  (all_faculty faculty_by_dept ≠ [] →
   ∃ teaching t',
     generate_teaching_relationships faculty_by_dept courses t = Returns teaching t').
Proof.
  split.
  - intros Hnone Hcourses. destruct courses as [|c courses]; [done|].
    unfold generate_teaching_relationships. cbn [for_each].
    apply bind_Raises. unfold teach_course, potential_faculty_of.
    rewrite dict_get_list_no_faculty, Hnone by done. reflexivity.
  - intros Hsome.
    destruct (always_generate_teaching faculty_by_dept courses Hsome t)
      as (teaching & t' & Hrun & _). eauto.
Qed.


(** * Faculty generator *)

(** The decimal numeral of a positive number does not start with 0. *)
Lemma pretty_N_go_head (x : N) : ∀ s,
  (0 < x)%N → ∃ c rest, pretty_N_go x s = String.String c rest ∧ c ≠ Ascii.ascii_of_nat 48.
Proof.
  induction x as [x IH] using (well_founded_induction N.lt_wf_0). intros s Hx.
  rewrite pretty_N_go_step by done.
  destruct (decide (x `div` 10 = 0)%N) as [E|E].
  - rewrite E, pretty_N_go_0. eexists _, _. split; [reflexivity|].
    assert (x < 10)%N.
    { destruct (N.lt_ge_cases x 10) as [?|Hge]; [done|].
      pose proof (N.div_str_pos x 10 ltac:(lia)). lia. }
    rewrite N.mod_small by done.
    assert (x = 1 ∨ x = 2 ∨ x = 3 ∨ x = 4 ∨ x = 5 ∨ x = 6 ∨ x = 7 ∨ x = 8 ∨ x = 9)%N
      as Hcases by lia.
    repeat destruct Hcases as [->|Hcases]; try subst x; done.
  - assert (0 < x `div` 10)%N by (by apply N.neq_0_lt_0).
    apply IH; first [done | apply N.div_lt; lia].
Qed.

Lemma py_str_head (z : Z) :
  0 < z → ∃ c rest, py_str z = String.String c rest ∧ c ≠ Ascii.ascii_of_nat 48.
Proof.
  intros Hz. destruct z as [|p|p]; [lia| |lia].
  unfold py_str, pretty, pretty_Z, pretty, pretty_positive, pretty, pretty_N.
  case_decide; [done|]. apply pretty_N_go_head. lia.
Qed.

Lemma py_repeat_app c n m y :
  py_repeat c (n + m) +:+ y = py_repeat c n +:+ (py_repeat c m +:+ y).
Proof.
  induction n as [|n IH]; [done|].
  change (String.String c (py_repeat c (n + m) +:+ y)
          = String.String c (py_repeat c n +:+ (py_repeat c m +:+ y))).
  by rewrite IH.
Qed.

Lemma zfill_inj w s s' c c' r r' :
  s = String.String c r → s' = String.String c' r' →
  c ≠ Ascii.ascii_of_nat 48 → c' ≠ Ascii.ascii_of_nat 48 →
  zfill w s = zfill w s' → s = s'.
Proof.
  intros Hs Hs' Hc Hc'. unfold zfill.
  set (k := (w - String.length s)%nat). set (k' := (w - String.length s')%nat).
  intros H.
  assert (∀ a b (x y : string) ca ra cb rb,
            (a ≤ b)%nat → x = String.String ca ra → y = String.String cb rb →
            ca ≠ Ascii.ascii_of_nat 48 →
            py_repeat (Ascii.ascii_of_nat 48) a +:+ x
              = py_repeat (Ascii.ascii_of_nat 48) b +:+ y → x = y) as Haux.
  { intros a b x y ca ra cb rb Hab -> -> Hca Heq.
    replace b with (a + (b - a))%nat in Heq by lia.
    rewrite py_repeat_app in Heq. apply String.app_inj in Heq.
    destruct (b - a)%nat as [|d]; [done|].
    change (String.String ca ra
            = String.String (Ascii.ascii_of_nat 48)
                (py_repeat (Ascii.ascii_of_nat 48) d +:+ String.String cb rb)) in Heq.
    injection Heq as Hh _. done. }
  destruct (Nat.le_ge_cases k k').
  - eapply Haux; eauto.
  - symmetry. symmetry in H. eapply Haux; eauto.
Qed.

Lemma faculty_id_inj (i j : Z) :
  0 ≤ i → 0 ≤ j →
  "F" +:+ zfill 5 (py_str (i + 1001)) = "F" +:+ zfill 5 (py_str (j + 1001)) → i = j.
Proof.
  intros Hi Hj H. apply String.app_inj in H.
  destruct (py_str_head (i + 1001)) as (c & r & Hs & Hc); [lia|].
  destruct (py_str_head (j + 1001)) as (c' & r' & Hs' & Hc'); [lia|].
  apply (zfill_inj 5 _ _ c c' r r') in H; [|done..].
  apply pretty_Z_inj in H. lia.
Qed.

Lemma dict_get_list_cons {V} (d : list (string * list V)) k vs k' :
  dict_get_list ((k, vs) :: d) k' = if decide (k = k') then vs else dict_get_list d k'.
Proof.
  unfold dict_get_list. cbn [list_find]. simpl. case_decide; [done|].
  destruct (list_find _ d) as [[i [k0 v0]]|]; done.
Qed.

Lemma dict_get_list_ordered_append {V} (d : list (string * list V)) k (v : V) k' :
  dict_get_list (ordered_append d k v) k'
  = dict_get_list d k' ++ (if decide (k = k') then [v] else []).
Proof.
  induction d as [|[k0 vs] d IH]; cbn [ordered_append].
  - rewrite dict_get_list_cons. by case_decide.
  - destruct (decide (k0 = k)) as [->|E0]; rewrite !dict_get_list_cons.
    + destruct (decide (k = k')); [done|by rewrite app_nil_r].
    + rewrite IH. destruct (decide (k0 = k')) as [->|]; [|done].
      destruct (decide (k = k')); [congruence|by rewrite app_nil_r].
Qed.

Lemma all_faculty_ordered_append (d : FacultyByDept) k f :
  all_faculty (ordered_append d k f) ≡ₚ all_faculty d ++ [f].
Proof.
  unfold all_faculty. induction d as [|[k0 vs] d IH]; simpl; [done|].
  case_decide; simpl.
  - rewrite <- !app_assoc. apply Permutation_app_head. apply Permutation_app_comm.
  - by rewrite IH, app_assoc.
Qed.

Lemma py_range_snoc (n : nat) : py_range 0 (Z.of_nat (S n)) = py_range 0 (Z.of_nat n) ++ [Z.of_nat n].
Proof.
  unfold py_range. replace (Z.to_nat (Z.of_nat (S n) - 0)) with (S n) by lia.
  replace (Z.to_nat (Z.of_nat n - 0)) with n by lia.
  rewrite seq_S, map_app. simpl. done.
Qed.

Lemma py_round1_range (q : Q) :
  (3 <= q)%Q → (q <= 5)%Q → (3 <= py_round1 q)%Q ∧ (py_round1 q <= 5)%Q.
Proof.
  intros Hlo Hhi. unfold py_round1.
  assert (30 ≤ py_round (q * 10)) by (apply py_round_lower; change (inject_Z 30) with (30 # 1)%Q; lra).
  assert (py_round (q * 10) ≤ 50) by (apply py_round_upper; change (inject_Z 50) with (50 # 1)%Q; lra).
  unfold Qle. simpl. lia.
Qed.

Lemma generate_faculty_member_spec cfg fake i st t st' t' :
  generate_faculty_member cfg fake i st t = Returns st' t' →
  ∃ f, st' = (st.1 ++ [f], ordered_append st.2 (faculty_department f) f) ∧
       faculty_id f = "F" +:+ zfill 5 (py_str (i + 1001)) ∧ faculty_wf cfg f.
Proof.
  destruct st as [faculty fbd]. intros H. unfold generate_faculty_member in H. rand_inv.
  match goal with |- ∃ f, (_ ++ [?r], _) = _ ∧ _ => exists r end.
  split; [reflexivity|]. split; [done|]. unfold faculty_wf. simpl.
  repeat match goal with
    | H : choice (DEPARTMENTS cfg) _ = _ |- _ => apply choice_elem in H
    | H : randint _ _ _ = _ |- _ => apply randint_range in H
    | H : sample _ _ _ = _ |- _ => apply sample_submseteq in H as [Hsub Hlen]
    | H : uniform _ _ _ = _ |- _ => apply uniform_range in H as [? ?]; [|lra]
    end.
  split; [done|]. split; [lia|]. split.
  { eapply submseteq_NoDup; [exact Hsub|]. apply (bool_decide_unpack _). vm_compute. exact I. }
  split; [intros s Hs; eapply elem_of_submseteq; eassumption|].
  by apply py_round1_range.
Qed.

Lemma for_each_snoc {A S} (body : A → S → Rand S) l x : ∀ s t s' t',
  for_each body (l ++ [x]) s t = Returns s' t' →
  ∃ mid t1, for_each body l s t = Returns mid t1 ∧ body x mid t1 = Returns s' t'.
Proof.
  induction l as [|y l IH]; intros s t s' t' H; simpl in H.
  - rand_inv. eexists _, _. split; [reflexivity|done].
  - apply bind_Returns in H as (s1 & t1 & Hy & H).
    apply IH in H as (mid & t2 & Hl & Hx).
    exists mid, t2. split; [|done]. simpl. apply bind_Returns. eauto.
Qed.

Lemma generate_faculty_loop cfg fake (n : nat) : ∀ t st t',
  for_each (generate_faculty_member cfg fake) (py_range 0 (Z.of_nat n)) ([], []) t
    = Returns st t' →
  length st.1 = n ∧
  (∀ i f, st.1 !! i = Some f →
          faculty_id f = "F" +:+ zfill 5 (py_str (Z.of_nat i + 1001))) ∧
  Forall (faculty_wf cfg) st.1 ∧
  (∀ d, dict_get_list st.2 d = filter (λ f, faculty_department f = d) st.1) ∧
  all_faculty st.2 ≡ₚ st.1.
Proof.
  induction n as [|n IH]; intros t st t' H.
  - simpl in H. rand_inv. simpl.
    split; [done|]. split; [by intros [|?] ?|]. split; [constructor|]. by split.
  - rewrite py_range_snoc in H. apply for_each_snoc in H as (mid & t1 & Hmid & Hlast).
    apply IH in Hmid as (Hlen & Hids & Hwf & Hget & Hperm).
    match goal with H : generate_faculty_member _ _ _ _ _ = _ |- _ =>
      apply generate_faculty_member_spec in H as (f & -> & Hid & Hf) end.
    simpl. split; [rewrite length_app; simpl; lia|]. split; [|split; [|split]].
    + intros i g Hg. apply lookup_app_Some in Hg as [Hg|[Hge Hg]]; [by apply Hids|].
      rewrite Hlen in Hge, Hg. destruct (i - n)%nat as [|k] eqn:E; [|by destruct k].
      injection Hg as <-. rewrite Hid. do 3 f_equal. lia.
    + apply Forall_app. split; [done|]. by constructor.
    + intros d. rewrite dict_get_list_ordered_append, Hget, filter_app, filter_cons, filter_nil.
      by case_decide.
    + by rewrite all_faculty_ordered_append, Hperm.
Qed.

(** X20: the roster of generate_faculty: max(0, NUM_FACULTY) members, the i-th
    (from 0) with id F followed by i + 1001 padded to five digits, so ids
    are pairwise distinct; every member has a configured department, one to
    three distinct teaching styles of the list and a rating between 3 and
    5; faculty_by_dept lists under every department exactly its members in
    roster order, and nobody else. *)
Theorem generate_faculty_roster cfg fake t faculty faculty_by_dept t' :
  generate_faculty cfg fake t = Returns (faculty, faculty_by_dept) t' →
  Z.of_nat (length faculty) = Z.max 0 (NUM_FACULTY cfg) ∧
  (∀ i f, faculty !! i = Some f →
          faculty_id f = "F" +:+ zfill 5 (py_str (Z.of_nat i + 1001))) ∧
  NoDup (map faculty_id faculty) ∧
  Forall (faculty_wf cfg) faculty ∧
  (∀ d, dict_get_list faculty_by_dept d
        = filter (λ f, faculty_department f = d) faculty) ∧
  all_faculty faculty_by_dept ≡ₚ faculty.
Proof.
  unfold generate_faculty. intros H.
  assert (py_range 0 (NUM_FACULTY cfg) = py_range 0 (Z.of_nat (Z.to_nat (NUM_FACULTY cfg))))
    as Hr by (unfold py_range; do 2 f_equal; lia).
  rewrite Hr in H. apply generate_faculty_loop in H as (Hlen & Hids & Hwf & Hget & Hperm).
  simpl in *. split; [lia|]. split; [done|]. split; [|done].
  apply NoDup_alt. intros i j x Hi Hj.
  apply list_lookup_fmap_Some in Hi as (f & -> & Hi).
  apply list_lookup_fmap_Some in Hj as (g & Heq & Hj).
  rewrite (Hids _ _ Hi), (Hids _ _ Hj) in Heq.
  apply faculty_id_inj in Heq; lia.
Qed.

Lemma bind_Raises_after {A B} (m : Rand A) (k : A → Rand B) t e :
  always_returns m → (∀ a t1, k a t1 = Raises e) → bind m k t = Raises e.
Proof.
  intros Hm Hk. destruct (Hm t) as (a & t1 & Ha & _). unfold bind. rewrite Ha. apply Hk.
Qed.

Lemma always_generate_faculty cfg fake :
  DEPARTMENTS cfg ≠ [] → always_returns (generate_faculty cfg fake).
Proof.
  intros Hdepts. apply (for_each_returns (λ _, True)); [|done]. intros i [faculty fbd] _ _.
  unfold generate_faculty_member.
  apply always_bind; [by apply always_choice|]. intros title.
  apply always_bind; [by apply always_choice|]. intros dept.
  eapply (returns_with_bind _ _ (λ n, 1 ≤ n ≤ 3)).
  { intros t. destruct (randint_total 1 3 t) as (n & t1 & Hn); [lia|].
    exists n, t1. split; [done|]. by apply randint_range in Hn. }
  intros n Hn. apply always_bind.
  { apply always_returns_intro. intros t. apply sample_total. simpl. lia. }
  intros styles. apply always_bind; [apply always_returns_intro, uniform_total|].
  intros u. apply always_ret.
Qed.

(** X21: with a department and at least one faculty member to generate,
    generate_faculty returns on every tape and generate_teaching_relationships
    then returns as well, whatever the courses; without departments
    generate_faculty raises IndexError. *)
Theorem faculty_then_teaching_returns cfg fake courses t :
  1 ≤ NUM_FACULTY cfg →
  (DEPARTMENTS cfg = [] → generate_faculty cfg fake t = Raises IndexError) ∧
  (DEPARTMENTS cfg ≠ [] →
   ∃ faculty faculty_by_dept t1,
     generate_faculty cfg fake t = Returns (faculty, faculty_by_dept) t1 ∧
     ∀ t2, ∃ teaching t3,
       generate_teaching_relationships faculty_by_dept courses t2 = Returns teaching t3).
Proof.
  intros Hnum. split.
  - intros Hdepts. unfold generate_faculty. rewrite py_range_cons by lia.
    cbn [for_each]. apply bind_Raises. unfold generate_faculty_member.
    eapply bind_Raises_after; [by apply always_choice|].
    intros title t0. apply bind_Raises. by rewrite Hdepts.
  - intros Hdepts.
    destruct (always_generate_faculty cfg fake Hdepts t) as ([faculty fbd] & t1 & Hrun & _).
    exists faculty, fbd, t1. split; [done|]. intros t2.
    pose proof (generate_faculty_loop cfg fake (Z.to_nat (NUM_FACULTY cfg)) t (faculty, fbd) t1)
      as Hloop.
    unfold generate_faculty in Hrun.
    replace (Z.of_nat (Z.to_nat (NUM_FACULTY cfg))) with (NUM_FACULTY cfg) in Hloop by lia.
    destruct (Hloop Hrun) as (Hlen & _ & _ & _ & Hperm). simpl in *.
    assert (all_faculty fbd ≠ []) as Hsome.
    { intros Hnil. rewrite Hnil in Hperm. apply Permutation_nil_l in Hperm.
      subst faculty. simpl in Hlen. lia. }
    destruct (always_generate_teaching fbd courses Hsome t2) as (teaching & t3 & ? & _).
    eauto.
Qed.


(** * Enrollment history on the generated calendar *)

(** X22: over the calendar of generate_terms, the history holds ENROLLED_IN
    records only if the cap on the number of terms reaches the term of
    the generation date: when TERMS_TO_GENERATE is at most 3 *
    HISTORY_YEARS + (0 for Spring, 1 for Summer, 2 for Fall), as with the
    shipped 12 terms over 4 years, no ENROLLED_IN record is produced. *)
Theorem no_enrollment_when_cap_short cfg now students courses prerequisites
    t0 terms t1 t completed enrolled t' :
  0 ≤ HISTORY_YEARS cfg →
  1 ≤ year now - HISTORY_YEARS cfg → year now + 1 ≤ 9999 →
  TERMS_TO_GENERATE cfg ≤ 3 * HISTORY_YEARS cfg + season_index now →
  generate_terms cfg (year now) t0 = Returns terms t1 →
  generate_student_course_history cfg now students courses terms prerequisites t
    = Returns (completed, enrolled) t' →
  enrolled = [].
Proof.
  intros HH Hlo Hhi Hcap Hterms Hrun.
  rewrite generate_terms_take_calendar in Hterms by done. injection Hterms as <- _.
  apply generate_student_course_history_spec in Hrun as (h & Hsim & _ & ->).
  destruct (enrolled_of (trace h)) as [|r rs] eqn:E; [done|]. exfalso.
  assert (r ∈ enrolled_of (trace h)) as Hr by (rewrite E; by left).
  apply elem_of_enrolled_of in Hr as (s & Hs & Hem).
  destruct (trace_entry_facts _ _ _ _ _ _ _ _ _ _ Hsim Hs) as (_ & Hterm & _ & Hentry).
  destruct Hentry as (_ & _ & _ & Hkind).
  case_decide as Hcur; [|destruct Hkind as (r' & Hr' & _); congruence].
  assert (get_term_by_date now ∈
            map term_id (take (Z.to_nat (TERMS_TO_GENERATE cfg))
                              (season_calendar (year now - HISTORY_YEARS cfg) (year now + 2))))
    as Hin.
  { rewrite <- Hcur. apply list_elem_of_fmap. eauto. }
  apply current_term_in_prefix in Hin; [lia|done].
Qed.

Lemma complete_course_payload cfg student term course t r t' :
  complete_course cfg student term course t = Returns r t' →
  c_studentId r = student_id student ∧ c_courseId r = course_id course ∧
  c_term r = term_id term ∧
  grade r ∈ map fst (GRADE_DISTRIBUTION cfg) ∧ 1 ≤ timeSpent r ∧
  instructionMode r ∈ instructionModes course ∧
  (enjoyment r = true ↔ grade r ∈ ["A"; "A-"; "B+"; "B"] ∧ difficulty r ≤ 4).
Proof.
  unfold complete_course. intros H. rand_inv. simpl.
  repeat match goal with
    | H : weighted_choice _ _ = _ |- _ => apply weighted_choice_key in H
    | H : choice _ _ = _ |- _ => apply choice_elem in H
    end.
  do 6 (split; [done || lia|]).
  rewrite andb_true_iff, bool_decide_eq_true, Z.leb_le. done.
Qed.

(** Every COMPLETED record is the outcome of one call of
    [complete_course] on a listed student, a listed term other than the
    current one and a listed course offered in that term. *)
Lemma completed_records_inv cfg now students courses terms prerequisites
    (P : Completed → Prop) :
  (∀ student term course t r t',
     student ∈ students → term ∈ terms → course ∈ courses →
     term_type term ∈ termAvailability course →
     term_id term ≠ get_term_by_date now →
     complete_course cfg student term course t = Returns r t' → P r) →
  ∀ t h t', simulate_history cfg now students courses terms prerequisites t = Returns h t' →
    Forall P (completed_courses h).
Proof.
  intros HP t h t'. unfold simulate_history.
  apply (for_each_inv (λ h, Forall P (completed_courses h))); [|constructor].
  intros student h0 t0 h1 t1 Hstudent Hh0 Hstep. unfold student_history in Hstep.
  apply bind_Returns in Hstep as (sterms & t2 & Hsterms & Hstep).
  destruct (student_terms_of_spec cfg now terms student t0) as [k Hk].
  rewrite Hk in Hsterms. injection Hsterms as <- <-.
  apply bind_Returns in Hstep as (st & t3 & Hloop & Hret). rand_inv.
  revert Hloop.
  apply (for_each_inv (λ st : gset string * History, Forall P (completed_courses st.2)));
    [|done].
  intros term [taken h2] t4 [taken' h3] t5 Hterm Hh2 Hterm_step.
  assert (term ∈ terms) as Hterm'.
  { eapply elem_of_submseteq; [exact Hterm|]. apply sublist_submseteq, sublist_drop. }
  unfold enroll_term in Hterm_step.
  apply bind_Returns in Hterm_step as (n & t6 & _ & Hterm_step).
  apply bind_Returns in Hterm_step as (sel & t7 & [Hsub _]%sample_submseteq & Hrec).
  revert Hrec.
  apply (for_each_inv (λ st : gset string * History, Forall P (completed_courses st.2)));
    [|done].
  intros course [tk h4] t8 [tk' h5] t9 Hcourse Hh4 Hone.
  assert (course ∈ courses ∧ term_type term ∈ termAvailability course) as [Hc Hav].
  { apply (elem_of_submseteq _ _ _ Hcourse) in Hsub.
    apply valid_courses_elem in Hsub as [Hpot _].
    apply potential_courses_elem in Hpot as (? & ? & _). done. }
  unfold record_course in Hone.
  destruct (String.eqb_spec (term_id term) (get_term_by_date now)) as [Heq|Hne]; rand_inv.
  - done.
  - simpl. apply Forall_app. split; [done|]. apply Forall_cons_2; [|constructor].
    eapply HP; eassumption.
Qed.

(** X23: every COMPLETED record names a listed student, a listed course and a
    listed term other than the current one in which the course is
    offered; its grade is a key of GRADE_DISTRIBUTION, its weekly time is
    at least 1, its instruction mode is one of the modes of the course,
    and it is enjoyed exactly when the grade is A, A-, B+ or B and the
    perceived difficulty is at most 4. *)
Theorem completed_records_well_formed cfg now students courses terms prerequisites
    t completed enrolled t' :
  generate_student_course_history cfg now students courses terms prerequisites t
    = Returns (completed, enrolled) t' →
  Forall (completed_wf cfg now students courses terms) completed.
Proof.
  intros Hrun. unfold generate_student_course_history in Hrun.
  apply bind_Returns in Hrun as (h & t1 & Hsim & Hret). rand_inv.
  revert Hsim. apply completed_records_inv.
  intros student term course t0 r t0' Hs Ht Hc Hav Hne Hr.
  apply complete_course_payload in Hr as (? & ? & ? & ? & ? & ? & ?).
  exists student, course, term. repeat split; tauto.
Qed.


(** * Degree assembler: shape of the output *)

Lemma additional_group_shape dept did dname remaining j groups t groups' t' :
  additional_group dept did dname remaining j groups t = Returns groups' t' →
  ∃ g, groups' = groups ++ [g] ∧
       req_degreeId g = did ∧ is_core_group g = false ∧
       1 ≤ minimumCourses g ∧ minimumCredits g = 3 * minimumCourses g ∧
       (length (req_courses g) ≤ 8)%nat.
Proof.
  intros H. unfold additional_group in H. rand_inv.
  match goal with H : randint 3 8 _ = _ |- _ => apply randint_range in H as Hn end.
  match goal with H : randint 1 _ _ = _ |- _ => apply randint_range in H as Hm end.
  match goal with H : choice _ _ = Returns ?ty _ |- _ =>
    apply choice_elem in H as Hty;
    assert (∀ rest, String.prefix "REQ-CORE-" ("REQ-" +:+ py_upper ty +:+ rest) = false)
      as Hcore end.
  { intros rest. repeat (apply elem_of_cons in Hty as [->|Hty]; [reflexivity|]).
    by apply elem_of_nil in Hty. }
  eexists. split; [reflexivity|]. unfold is_core_group.
  cbn [req_id req_degreeId minimumCourses minimumCredits req_courses].
  rewrite Hcore, length_map. repeat split; [lia|lia|].
  match goal with |- (length ?l ≤ 8)%nat =>
    assert (Z.of_nat (length l) ≤ 8); [|lia] end.
  destruct remaining as [|c remaining]; rand_inv; [simpl; lia|].
  match goal with H : sample _ _ _ = _ |- _ => apply sample_submseteq in H as [_ Hl] end.
  lia.
Qed.

Lemma additional_groups_loop dept did dname remaining js : ∀ groups t groups' t',
  for_each (additional_group dept did dname remaining) js groups t = Returns groups' t' →
  ∃ others, groups' = groups ++ others ∧ length others = length js ∧
    Forall (λ g, req_degreeId g = did ∧ is_core_group g = false ∧
                 1 ≤ minimumCourses g ∧ minimumCredits g = 3 * minimumCourses g ∧
                 (length (req_courses g) ≤ 8)%nat) others.
Proof.
  induction js as [|j js IH]; intros groups t groups' t' H; simpl in H; rand_inv.
  - exists []. rewrite app_nil_r. repeat constructor.
  - match goal with H : additional_group _ _ _ _ _ _ _ = _ |- _ =>
      apply additional_group_shape in H as (g & -> & Hg) end.
    apply IH in H as (others & -> & Hlen & Hall).
    exists (g :: others). rewrite <- app_assoc. split; [done|].
    split; [simpl; lia|by constructor].
Qed.

Lemma length_py_range s e : Z.of_nat (length (py_range s e)) = Z.max 0 (e - s).
Proof. unfold py_range. rewrite length_map, length_seq. lia. Qed.

Lemma degree_type_word dtype t w t' :
  dtype ∈ map fst degree_types →
  py_index (String.words dtype) 0 t = Returns w t' →
  (String.prefix "Bachelor" dtype = true ∧ w = "Bachelor") ∨
  (String.prefix "Bachelor" dtype = false ∧ w = "Master").
Proof.
  intros Hd H.
  repeat (apply elem_of_cons in Hd as [->|Hd]);
    [..|by apply elem_of_nil in Hd]; vm_compute in H; injection H as <- _;
    first [left; by vm_compute | right; by vm_compute].
Qed.

Lemma generate_degree_shape cfg dept_courses i st t st' t' :
  generate_degree cfg dept_courses i st t = Returns st' t' →
  ∃ d chunk, st' = (st.1 ++ [d], st.2 ++ chunk) ∧
             degree_wf cfg d ∧ groups_of_degree d chunk.
Proof.
  destruct st as [degrees groups]. intros H. unfold generate_degree in H. rand_inv.
  repeat match goal with H : (let '(_, _) := ?p in _) _ = _ |- _ => destruct p end.
  rand_inv.
  match goal with H : choice (DEPARTMENTS cfg) _ = _ |- _ =>
    apply choice_elem in H as Hdept end.
  match goal with H : weighted_choice degree_types _ = _ |- _ =>
    apply weighted_choice_key in H as Hty end.
  match goal with H : py_index _ _ _ = _ |- _ =>
    apply (degree_type_word _ _ _ _ Hty) in H as Hword end.
  match goal with H : randint 3 7 _ = _ |- _ => apply randint_range in H as Hn end.
  match goal with H : for_each (additional_group _ _ _ _) _ _ _ = _ |- _ =>
    apply additional_groups_loop in H as (others & -> & Hlen & Hothers) end.
  eexists _, (_ :: others). split; [simpl; by rewrite <- app_assoc|]. split.
  - unfold degree_wf. simpl. split; [done|]. split; [|done].
    destruct Hword as [[Hp ->]|[Hp ->]]; rewrite Hp in *; rand_inv;
      repeat match goal with H : randint _ _ _ = _ |- _ => apply randint_range in H end;
      [left|right]; done.
  - eexists _, others. split; [reflexivity|]. simpl.
    match type of Hlen with _ = length (py_range 0 ?e) =>
      pose proof (length_py_range 0 e) as Hr end.
    split; [lia|]. repeat split; [by rewrite length_map|done].
Qed.

Lemma generate_degrees_loop cfg dept_courses js : ∀ st t st' t',
  for_each (generate_degree cfg dept_courses) js st t = Returns st' t' →
  ∃ ds chunks, st' = (st.1 ++ ds, st.2 ++ concat chunks) ∧
               length ds = length js ∧ Forall (degree_wf cfg) ds ∧
               Forall2 groups_of_degree ds chunks.
Proof.
  induction js as [|i js IH]; intros st t st' t' H; simpl in H; rand_inv.
  - exists [], []. simpl. rewrite !app_nil_r. destruct st'. repeat constructor.
  - match goal with H : generate_degree _ _ _ _ _ = _ |- _ =>
      apply generate_degree_shape in H as (d & chunk & -> & Hd & Hchunk) end.
    apply IH in H as (ds & chunks & -> & Hlen & Hds & Hchunks).
    exists (d :: ds), (chunk :: chunks). simpl. rewrite <- !app_assoc.
    split; [done|]. split; [lia|]. split; by constructor.
Qed.

(** X24: generate_degrees returns max(0, NUM_DEGREES) degrees.  A Bachelor
    degree requires 120 credits, 60 to 80 of them core, a Master degree 36
    credits, 24 to 30 of them core, and the elective credits are the
    rest.  The requirement groups come degree by degree: the core group,
    which asks for all the courses it lists, then two to six additional
    groups, each asking for at least one course, for three credits per
    course asked, and listing at most eight courses. *)
Theorem degrees_and_groups_shape cfg dept_courses t degrees groups t' :
  generate_degrees cfg dept_courses t = Returns (degrees, groups) t' →
  Z.of_nat (length degrees) = Z.max 0 (NUM_DEGREES cfg) ∧
  Forall (degree_wf cfg) degrees ∧
  ∃ chunks, groups = concat chunks ∧ Forall2 groups_of_degree degrees chunks.
Proof.
  intros H. unfold generate_degrees in H.
  apply generate_degrees_loop in H as (ds & chunks & [= -> ->] & Hlen & Hds & Hchunks).
  simpl. split; [|split; [done|eauto]].
  rewrite Hlen, length_py_range. lia.
Qed.

Lemma always_additional_group dept did dname remaining j groups :
  always_returns (additional_group dept did dname remaining j groups).
Proof.
  unfold additional_group.
  apply always_bind; [by apply always_choice|]. intros ty.
  eapply (returns_with_bind _ _ (λ n, 3 ≤ n ≤ 8)).
  { intros t. destruct (randint_total 3 8 t) as (n & t1 & Hn); [lia|].
    exists n, t1. split; [done|]. by apply randint_range in Hn. }
  intros n Hn. apply always_bind.
  { destruct remaining as [|c remaining]; [apply always_ret|].
    apply always_returns_intro. intros t. apply sample_total. simpl. lia. }
  intros req. apply always_bind; [apply always_randint; lia|].
  intros m. apply always_ret.
Qed.

Lemma always_generate_degree cfg dept_courses i st :
  DEPARTMENTS cfg ≠ [] → always_returns (generate_degree cfg dept_courses i st).
Proof.
  intros Hdepts. destruct st as [degrees groups]. unfold generate_degree.
  apply always_bind; [by apply always_choice|]. intros dept.
  eapply (returns_with_bind _ _ (λ k, k ∈ map fst degree_types)).
  { intros t. apply weighted_choice_total; [done|]. vm_compute. reflexivity. }
  intros dtype Hty. apply always_bind.
  { case_match; (apply always_bind; [apply always_randint; lia|intros; apply always_ret]). }
  intros [total core]. apply always_bind.
  { apply always_returns_intro. intros t.
    repeat (apply elem_of_cons in Hty as [->|Hty]); [..|by apply elem_of_nil in Hty];
      eexists _, _; vm_compute; reflexivity. }
  intros word. apply always_bind; [apply always_randint; lia|]. intros n.
  apply always_bind.
  { apply always_returns_intro. intros t. apply sample_total. lia. }
  intros related. apply always_bind.
  { apply (for_each_returns (λ _, True)); [|done]. intros d acc _ _.
    unfold extend_related. case_match; [|apply always_ret].
    apply always_bind; [|intros; apply always_ret].
    apply always_returns_intro. intros t. apply sample_total. lia. }
  intros available. apply always_bind.
  { apply (for_each_returns (λ _, True)); [|done]. intros c acc _ _.
    unfold select_core. apply always_bind; [apply always_random_random|]. intros r.
    repeat case_match; apply always_ret. }
  intros core_courses. apply always_bind; [|intros; apply always_ret].
  apply (for_each_returns (λ _, True)); [|done]. intros j gs _ _.
  apply always_additional_group.
Qed.

(** X25: generate_degrees returns on every tape and for every dept_courses as
    soon as there is a department; without departments it raises
    IndexError when NUM_DEGREES is at least 1. *)
Theorem generate_degrees_returns cfg dept_courses t :
  (DEPARTMENTS cfg ≠ [] →
   ∃ degrees groups t', generate_degrees cfg dept_courses t = Returns (degrees, groups) t') ∧
  (DEPARTMENTS cfg = [] → 1 ≤ NUM_DEGREES cfg →
   generate_degrees cfg dept_courses t = Raises IndexError).
Proof.
  split.
  - intros Hdepts.
    assert (always_returns (generate_degrees cfg dept_courses)) as Hall.
    { apply (for_each_returns (λ _, True)); [|done]. intros i st _ _.
      by apply always_generate_degree. }
    destruct (Hall t) as ([degrees groups] & t' & Hrun & _). eauto.
  - intros Hdepts Hnum. unfold generate_degrees. rewrite py_range_cons by lia.
    cbn [for_each]. apply bind_Raises. unfold generate_degree.
    apply bind_Raises. by rewrite Hdepts.
Qed.


(** * Course similarity: endpoints and duplicates *)

Lemma dict_set_keys {K V} `{EqDecision K} (d : list (K * V)) k v :
  NoDup (map fst d) → NoDup (map fst (dict_set d k v)) ∧
                      ∀ k', k' ∈ map fst (dict_set d k v) → k' = k ∨ k' ∈ map fst d.
Proof.
  induction d as [|[k0 v0] d IH]; simpl; intros Hnd.
  - split; [repeat constructor; by intros ?%elem_of_nil|].
    intros k' ->%list_elem_of_singleton. by left.
  - apply NoDup_cons in Hnd as [Hk0 Hnd]. destruct (IH Hnd) as [IH1 IH2].
    case_decide; simpl.
    + subst. split; [by constructor|]. intros k' Hk'. by right.
    + split.
      * constructor; [|done]. intros Hin. apply IH2 in Hin as [?|?]; [congruence|done].
      * intros k' [->|Hk']%elem_of_cons; [right; by left|].
        apply IH2 in Hk' as [?|?]; [by left|right; by right].
Qed.

Lemma dict_set_key_of {K V} `{EqDecision K} (key : V → K) (d : list (K * V)) k v :
  Forall (λ kv, kv.1 = key kv.2) d → k = key v →
  Forall (λ kv, kv.1 = key kv.2) (dict_set d k v).
Proof.
  intros Hd ->. induction Hd as [|[k0 v0] d Hk Hd IH]; simpl; [by repeat constructor|].
  case_decide; by constructor.
Qed.

(** The values of a dictionary comprehension have pairwise distinct keys. *)
Lemma dict_values_of_NoDup {K V} `{EqDecision K} (key : V → K) (l : list V) :
  NoDup (map key (dict_values_of key l)).
Proof.
  unfold dict_values_of.
  assert (∀ d, NoDup (map fst d) → Forall (λ kv, kv.1 = key kv.2) d →
               let d' := foldl (λ d x, dict_set d (key x) x) d l in
               NoDup (map fst d') ∧ Forall (λ kv, kv.1 = key kv.2) d') as Hgen.
  { induction l as [|x l IH]; intros d Hnd Hk; simpl; [done|].
    apply IH; [by apply dict_set_keys|by apply dict_set_key_of]. }
  destruct (Hgen [] ltac:(constructor) ltac:(constructor)) as [Hnd Hk].
  replace (map key (map snd (foldl (λ d x, dict_set d (key x) x) [] l)))
    with (map fst (foldl (λ d x, dict_set d (key x) x) [] l)); [done|].
  clear Hnd. induction Hk as [|[k v] d Hkv _ IH]; simpl; [done|].
  simpl in Hkv. by rewrite Hkv, IH.
Qed.

Lemma by_tag_of_members courses tag x :
  x ∈ get_list (by_tag_of courses) tag → x ∈ courses.
Proof.
  unfold by_tag_of.
  assert (∀ (l : list Course) d,
            (∀ tag x, x ∈ get_list d tag → x ∈ courses) → (∀ c, c ∈ l → c ∈ courses) →
            ∀ tag x,
              x ∈ get_list (foldl (λ d course,
                      foldl (λ d tag, group_append d tag course) d (tags course)) d l) tag →
              x ∈ courses) as Hgen.
  { induction l as [|c l IH]; intros d Hd Hl tg y; simpl; [apply Hd|].
    apply IH; [|intros; apply Hl; by right].
    assert (c ∈ courses) as Hc by (apply Hl; by left).
    generalize (tags c). intros ts. revert d Hd.
    induction ts as [|t0 ts IHts]; intros d Hd tg' z; simpl; [apply Hd|].
    apply IHts. intros tg'' w. rewrite get_list_group_append.
    intros [?|Hw]%elem_of_app; [by eapply Hd|].
    case_decide; [|by apply elem_of_nil in Hw].
    by apply list_elem_of_singleton in Hw as ->. }
  apply Hgen; [|done]. intros tg y. unfold get_list. rewrite lookup_empty.
  by intros ?%elem_of_nil.
Qed.

Lemma by_dept_of_members courses d x :
  x ∈ get_list (by_dept_of courses) d → x ∈ courses.
Proof.
  unfold by_dept_of. rewrite (get_list_grouped department (λ c : Course, c)).
  unfold get_list. rewrite lookup_empty, map_id. simpl.
  by intros [_ ?]%list_elem_of_filter.
Qed.

Lemma content_same_dept_edge courses course similar acc t acc' t' :
  course ∈ courses → similar ∈ courses →
  content_same_dept course similar acc t = Returns acc' t' →
  Forall (similarity_edge courses) acc → Forall (similarity_edge courses) acc'.
Proof.
  intros Hc Hs H Hacc. unfold content_same_dept in H.
  destruct (String.eqb_spec (course_id similar) (course_id course)) as [|Hne];
    simpl in H; rand_inv; [done|].
  case_match; rand_inv; [|done].
  apply Forall_app. split; [done|]. apply Forall_cons_2; [|constructor].
  split; simpl; [congruence|]. by exists course, similar.
Qed.

Lemma content_shared_tag_edge courses course similar st t st' t' :
  course ∈ courses → similar ∈ courses →
  content_shared_tag course similar st t = Returns st' t' →
  Forall (similarity_edge courses) st.2 → Forall (similarity_edge courses) st'.2.
Proof.
  destruct st as [seen acc]. intros Hc Hs H Hacc. unfold content_shared_tag in H.
  destruct (String.eqb_spec (course_id similar) (course_id course)) as [|Hne];
    simpl in H; rand_inv; [done|].
  case_match; rand_inv; [|done]. simpl.
  apply Forall_app. split; [done|]. apply Forall_cons_2; [|constructor].
  split; simpl; [congruence|]. by exists course, similar.
Qed.

Lemma difficulty_similar_edge courses course similar acc :
  course ∈ courses → similar ∈ courses →
  Forall (difficulty_edge courses) acc →
  Forall (difficulty_edge courses) (difficulty_similar course similar acc).
Proof.
  intros Hc Hs Hacc. unfold difficulty_similar.
  destruct (String.eqb_spec (course_id similar) (course_id course)) as [|Hne];
    simpl; [done|].
  destruct (Z.leb_spec (Z.abs (avgDifficulty course - avgDifficulty similar)) 1)
    as [Hd|]; [|done].
  apply Forall_app. split; [done|]. apply Forall_cons_2; [|constructor].
  split; simpl; [congruence|]. exists course, similar. do 4 (split; [done|]).
  assert (Z.abs (avgDifficulty course - avgDifficulty similar) = 0 ∨
          Z.abs (avgDifficulty course - avgDifficulty similar) = 1) as [E|E] by lia;
    rewrite E; [left|right]; (split; [lia|]); vm_compute; reflexivity.
Qed.

Lemma course_similarity_body_edges courses course st t st' t' :
  course ∈ courses →
  course_similarity_body courses (by_dept_of courses) (by_tag_of courses) course st t
    = Returns st' t' →
  Forall (similarity_edge courses) st.1 ∧ Forall (difficulty_edge courses) st.2 →
  Forall (similarity_edge courses) st'.1 ∧ Forall (difficulty_edge courses) st'.2.
Proof.
  destruct st as [content difficulty]. intros Hc H [Hcont Hdiff].
  unfold course_similarity_body in H. simpl in Hcont, Hdiff.
  apply bind_Returns in H as (c1 & t1 & Hsame & H).
  apply bind_Returns in H as (c2 & t2 & Htag & H).
  apply bind_Returns in H as (sampled & t3 & [Hsub _]%sample_submseteq & H). rand_inv.
  simpl. split.
  - revert Htag.
    apply (for_each_inv (λ st : gset string * list CourseSimilarity,
                           Forall (similarity_edge courses) st.2)).
    + intros s st0 t4 st1 t5 Hs Hst0 Hstep.
      eapply content_shared_tag_edge; [exact Hc| |exact Hstep|exact Hst0].
      apply list_elem_of_In, in_flat_map in Hs as (tag & _ & Hs%list_elem_of_In).
      by eapply by_tag_of_members.
    + simpl. revert Hsame. apply (for_each_inv (Forall (similarity_edge courses))); [|done].
      intros s acc t4 acc' t5 Hs Hacc Hstep.
      eapply content_same_dept_edge; [exact Hc| |exact Hstep|exact Hacc].
      by eapply by_dept_of_members.
  - apply (foldl_inv (Forall (difficulty_edge courses))); [|done].
    intros acc s Hs Hacc. apply difficulty_similar_edge; [done| |done].
    eapply elem_of_submseteq; eassumption.
Qed.

(** X26: generate_course_similarity returns on every tape.  No
    (source, target) pair occurs twice in either list, and every edge joins
    two different listed courses.  The two courses of a SIMILAR_DIFFICULTY
    edge have average difficulties at most one apart, and its score is 1
    when they are equal and 0.8 otherwise. *)
Theorem course_similarity_edges courses t :
  ∃ content by_difficulty t',
    generate_course_similarity courses t = Returns (content, by_difficulty) t' ∧
    NoDup (map (λ e, (cs_source e, cs_target e)) content) ∧
    NoDup (map (λ e, (cs_source e, cs_target e)) by_difficulty) ∧
    Forall (similarity_edge courses) content ∧
    Forall (difficulty_edge courses) by_difficulty.
Proof.
  destruct (generate_course_similarity_total courses t) as (content & diffs & t' & Hrun).
  exists content, diffs, t'. split; [done|].
  unfold generate_course_similarity in Hrun.
  apply bind_Returns in Hrun as (st & t1 & Hloop & Hret). rand_inv.
  split; [apply dict_values_of_NoDup|]. split; [apply dict_values_of_NoDup|].
  assert (Forall (similarity_edge courses) st.1 ∧ Forall (difficulty_edge courses) st.2)
    as [Hc Hd].
  { revert Hloop.
    apply (for_each_inv (λ st, Forall (similarity_edge courses) st.1 ∧
                               Forall (difficulty_edge courses) st.2)); [|by split].
    intros c s0 t2 s1 t3 Hc Hs0 Hstep. eapply course_similarity_body_edges; eassumption. }
  split; apply Forall_forall; intros e He%dict_values_of_subset.
  - exact (proj1 (Forall_forall _ _) Hc e He).
  - exact (proj1 (Forall_forall _ _) Hd e He).
Qed.


(** * Student generator *)

Lemma choices_uniform_spec {A} (population : list A) k : ∀ t l t',
  choices_uniform population k t = Returns l t' →
  length l = k ∧ Forall (λ x, x ∈ population) l.
Proof.
  induction k as [|k IH]; intros t l t' H; simpl in H; rand_inv; [by split|].
  case_match eqn:E; rand_inv.
  match goal with H : choices_uniform _ _ _ = _ |- _ => apply IH in H as [<- ?] end.
  split; [done|]. constructor; [|done]. eapply list_elem_of_lookup_2; eassumption.
Qed.

Lemma length_string_of_list_ascii l :
  String.length (String.string_of_list_ascii l) = length l.
Proof. induction l as [|c l IH]; simpl; [done|]. by rewrite IH. Qed.

Lemma generate_campus_id_length t cid t' :
  generate_campus_id t = Returns cid t' → String.length cid = 7%nat.
Proof.
  unfold generate_campus_id. intros H. rand_inv.
  repeat match goal with H : choices_uniform _ _ _ = _ |- _ =>
    apply choices_uniform_spec in H as [? _] end.
  rewrite string_length_app, !length_string_of_list_ascii. lia.
Qed.

Lemma unique_campus_id_loop_spec fuel students : ∀ cid t cid' t',
  String.length cid = 7%nat →
  unique_campus_id_loop fuel students cid t = Returns (Some cid') t' →
  String.length cid' = 7%nat ∧ cid' ∉ map student_id students.
Proof.
  assert (∀ cid, existsb (λ s, String.eqb (student_id s) cid) students = false →
                 cid ∉ map student_id students) as Hfresh.
  { intros cid E (s & -> & Hs)%list_elem_of_fmap.
    assert (existsb (λ s0, String.eqb (student_id s0) (student_id s)) students = true)
      as Hex; [|congruence].
    apply existsb_exists. exists s. split; [by apply list_elem_of_In|apply String.eqb_refl]. }
  induction fuel as [|fuel IH]; intros cid t cid' t' Hlen H;
    cbn [unique_campus_id_loop] in H;
    destruct (existsb _ students) eqn:E.
  - apply ret_Returns in H as [[=] _].
  - apply ret_Returns in H as [[= <-] _]. split; [done|by apply Hfresh].
  - apply bind_Returns in H as (cid1 & t1 & Hlen1%generate_campus_id_length & H).
    eapply IH; eassumption.
  - apply ret_Returns in H as [[= <-] _]. split; [done|by apply Hfresh].
Qed.

Lemma draw_work_hours_spec pace t w t' :
  pace ∈ map fst course_loads →
  draw_work_hours pace t = Returns w t' →
  (pace = "Part-time" ∧ 20 ≤ w ≤ 40) ∨ (pace = "Standard" ∧ 0 ≤ w ≤ 20) ∨
  (pace = "Accelerated" ∧ w = 0).
Proof.
  intros Hp H.
  repeat (apply elem_of_cons in Hp as [->|Hp]); [..|by apply elem_of_nil in Hp];
    vm_compute in H.
  - right. right. by injection H as <- _.
  - right. left. split; [done|].
    change (randint 0 20 t = Returns w t') in H. by apply randint_range in H.
  - left. split; [done|].
    change (randint 20 40 t = Returns w t') in H. by apply randint_range in H.
Qed.

Lemma generate_student_spec cfg cy fake fuel i students t st' t' :
  generate_student cfg cy fake fuel i (Some students) t = Returns st' t' →
  st' = None ∨
  ∃ s, st' = Some (students ++ [s]) ∧ student_wf cfg s ∧
       student_id s ∉ map student_id students.
Proof.
  intros H. cbn [generate_student] in H.
  apply bind_Returns in H as (cid0 & t1 & Hlen%generate_campus_id_length & H).
  apply bind_Returns in H as ([cid|] & t2 & Hloop & H); [|rand_inv; by left].
  apply (unique_campus_id_loop_spec _ _ _ _ _ _ Hlen) in Hloop as [Hlen' Hfresh].
  rand_inv. right. eexists. split; [reflexivity|]. split; [|done].
  unfold student_wf. simpl.
  repeat match goal with
    | H : weighted_choice _ _ = _ |- _ => apply weighted_choice_key in H
    | H : randint 2 5 _ = _ |- _ => apply randint_range in H
    end.
  split; [done|]. split; [done|]. split; [lia|]. split; [|done].
  eapply draw_work_hours_spec; eassumption.
Qed.

Lemma generate_students_loop cfg cy fake fuel js : ∀ students t students' t',
  NoDup (map student_id students) → Forall (student_wf cfg) students →
  for_each (generate_student cfg cy fake fuel) js (Some students) t
    = Returns (Some students') t' →
  length students' = (length students + length js)%nat ∧
  NoDup (map student_id students') ∧ Forall (student_wf cfg) students'.
Proof.
  induction js as [|j js IH]; intros students t students' t' Hnd Hwf H; simpl in H.
  - apply ret_Returns in H as [[= <-] _]. split; [simpl; lia|done].
  - apply bind_Returns in H as (st & t1 & Hstep & H).
    apply generate_student_spec in Hstep as [->|(s & -> & Hs & Hfresh)].
    + exfalso. clear -H. revert t1 H.
      induction js as [|j' js IH']; intros t1 H; simpl in H.
      * by apply ret_Returns in H as [[=] _].
      * apply bind_Returns in H as (st & t2 & Hst & H).
        apply ret_Returns in Hst as [<- <-]. by eapply IH'.
    + apply IH in H as (Hlen & ? & ?).
      * split; [|done]. rewrite Hlen, length_app. simpl. lia.
      * rewrite map_app. apply NoDup_app. split; [done|]. split.
        -- intros x Hx ->%list_elem_of_singleton. done.
        -- repeat constructor. by intros ?%elem_of_nil.
      * apply Forall_app. split; [done|]. by constructor.
Qed.

(** X27: when generate_students returns a roster (the loop that redraws
    campus ids was not given up), it holds max(0, NUM_STUDENTS) students
    with pairwise distinct campus ids of seven characters; every student
    has a configured learning style, a preferred course load from 2 to 5,
    weekly work hours of 20 to 40 (Part-time), 0 to 20 (Standard) or 0
    (Accelerated), and a financial aid status and an instruction mode of
    the tables. *)
Theorem generate_students_roster cfg current_year fake fuel t students t' :
  generate_students cfg current_year fake fuel t = Returns (Some students) t' →
  Z.of_nat (length students) = Z.max 0 (NUM_STUDENTS cfg) ∧
  NoDup (map student_id students) ∧
  Forall (student_wf cfg) students.
Proof.
  intros H. unfold generate_students in H.
  apply generate_students_loop in H as (Hlen & ? & ?); [|constructor..].
  split; [|done]. rewrite Hlen. simpl.
  rewrite length_py_range. lia.
Qed.

(** X28: the generated students and courses meet what the history generator
    needs: on them it returns on every tape, for all terms and
    prerequisites, as soon as the grade table has a positive total weight;
    and their ids are pairwise distinct, as the uniqueness of the
    history records per student and course requires. *)
Theorem history_returns_on_generated_inputs cfg current_year fake fuel t0 students t1
    t2 cat t3 now terms prerequisites t :
  generate_students cfg current_year fake fuel t0 = Returns (Some students) t1 →
  generate_courses cfg t2 = Returns cat t3 →
  GRADE_DISTRIBUTION cfg ≠ [] →
  (0 < Qsum (map snd (GRADE_DISTRIBUTION cfg)))%Q →
  (∃ completed enrolled t',
     generate_student_course_history cfg now students cat.1 terms prerequisites t
       = Returns (completed, enrolled) t') ∧
  NoDup (map student_id students) ∧ NoDup (map course_id cat.1).
Proof.
  intros Hstudents Hcourses Hgrades Hpos.
  apply generate_students_loop in Hstudents as (_ & Hids & Hwf); [|constructor..].
  pose proof (generate_courses_spec _ _ _ _ Hcourses) as [(Hcids & _ & _) _].
  destruct (generate_courses_Forall cfg (course_wf cfg)) with (t := t2) (cat := cat) (t' := t3)
    as [Hcwf _]; [| |done|].
  { intros. eapply department_course_wf; eassumption. }
  { intros. eapply topup_course_wf; eassumption. }
  split; [|done].
  destruct (simulate_history_total cfg now students cat.1 terms prerequisites t)
    as (h & t' & Hsim); [| |done..|].
  - intros s Hs. destruct (proj1 (Forall_forall _ _) Hwf s Hs) as (_ & _ & ? & _). lia.
  - intros c Hc.
    destruct (proj1 (Forall_forall _ _) Hcwf c Hc) as (_ & _ & _ & _ & _ & Hmodes & _).
    intros Hnil. rewrite Hnil in Hmodes.
    repeat (apply elem_of_cons in Hmodes as [?|Hmodes]; [done|]).
    by apply elem_of_nil in Hmodes.
  - exists (completed_courses h), (enrolled_courses h), t'.
    unfold generate_student_course_history. apply bind_Returns. eauto.
Qed.


(** * Learning-style similarity *)

Lemma style_similarity_score_range student similar t q t' :
  style_similarity_score student similar t = Returns q t' →
  (1 # 10 <= q)%Q ∧ (q <= 1)%Q.
Proof.
  unfold style_similarity_score. intros H. rand_inv.
  match goal with |- context [Qmax (1 # 10) (Qmin 1 ?x)] =>
    destruct (Qmax_spec (1 # 10) (Qmin 1 x)) as (Ha & Hb & Hc);
    destruct (Qmin_spec 1 x) as (Hd & He & Hf);
    set (m := Qmax (1 # 10) (Qmin 1 x)) in * end.
  assert (m <= 1)%Q as Hm1 by (destruct Hc as [E|E]; rewrite E; lra).
  destruct (py_round2_range 10 100 m) as [Hlo Hhi].
  - change (inject_Z 10) with (10 # 1)%Q. lra.
  - change (inject_Z 100) with (100 # 1)%Q. lra.
  - split.
    + eapply Qle_trans; [|exact Hlo]. unfold Qle. simpl. lia.
    + eapply Qle_trans; [exact Hhi|]. unfold Qle. simpl. lia.
Qed.

Lemma style_edges_chunk students student acc t acc' t' :
  style_edges (foldl (λ d s, group_append d (learningStyle s) s) ∅ students)
              student acc t = Returns acc' t' →
  ∃ chunk, acc' = acc ++ chunk ∧ style_edges_of students student chunk.
Proof.
  intros H. unfold style_edges in H.
  apply bind_Returns in H as (sel & t1 & [Hsub Hlen]%sample_submseteq & H).
  rewrite (get_list_grouped learningStyle (λ s : Student, s)) in Hsub, Hlen.
  unfold get_list in Hsub, Hlen. rewrite lookup_empty, map_id in Hsub, Hlen.
  simpl in Hsub, Hlen.
  assert (∀ s, s ∈ sel → s ∈ students ∧ learningStyle s = learningStyle student) as Hin.
  { intros s Hs. apply (elem_of_submseteq _ _ _ Hs) in Hsub.
    apply list_elem_of_filter in Hsub as [? ?]. done. }
  assert (∃ chunk, acc' = acc ++ chunk ∧ (length chunk ≤ length sel)%nat ∧
            Forall (λ e, ls_sourceId e = student_id student ∧
               (∃ similar, similar ∈ students ∧ ls_targetId e = student_id similar ∧
                           student_id similar ≠ student_id student ∧
                           learningStyle similar = learningStyle student) ∧
               (1 # 10 <= ls_similarity e)%Q ∧ (ls_similarity e <= 1)%Q) chunk)
    as (chunk & -> & Hl & Hall).
  { clear Hsub Hlen. revert acc t1 H.
    induction sel as [|s sel IH]; intros acc t1 H; simpl in H; rand_inv.
    - exists []. rewrite app_nil_r. repeat constructor.
    - destruct (Hin s ltac:(by left)) as [Hs Hstyle].
      match goal with H : (if String.eqb _ _ then _ else _) _ = _ |- _ =>
        destruct (String.eqb_spec (student_id s) (student_id student)) as [Heq|Hne];
          rand_inv end;
        (apply IH in H as (chunk & -> & Hl & Hall); [|intros; apply Hin; by right]).
      + exists chunk. split; [done|]. split; [simpl; lia|done].
      + eexists (_ :: chunk). rewrite <- app_assoc. split; [reflexivity|].
        split; [simpl; lia|]. constructor; [|done]. simpl.
        split; [done|]. split; [by exists s|].
        eapply style_similarity_score_range; eassumption. }
  exists chunk. split; [done|]. split; [lia|done].
Qed.

Lemma similarity_loop_style students student_courses l : ∀ st t st' t',
  for_each (similarity_body students
              (foldl (λ d s, group_append d (learningStyle s) s) ∅ students)
              student_courses) l st t = Returns st' t' →
  ∃ chunks, st'.1 = st.1 ++ concat chunks ∧
            Forall2 (style_edges_of students) (map snd l) chunks.
Proof.
  induction l as [|[i student] l IH]; intros st t st' t' H; cbn [for_each] in H; rand_inv.
  - exists []. simpl. by rewrite app_nil_r.
  - match goal with H : similarity_body _ _ _ _ ?s _ = Returns ?s1 _ |- _ =>
      assert (∃ chunk, s1.1 = s.1 ++ chunk ∧ style_edges_of students student chunk)
        as (chunk & Hchunk & Hok) end.
    { match goal with H : similarity_body _ _ _ _ _ _ = _ |- _ =>
        unfold similarity_body in H; destruct st as [ls ps];
        apply bind_Returns in H as (ls' & t1 & Hst%style_edges_chunk & H) end.
      destruct Hst as (chunk & -> & Hok). exists chunk. split; [|done].
      case_match; rand_inv; done. }
    apply IH in H as (chunks & -> & Hall). rewrite Hchunk.
    exists (chunk :: chunks). simpl. rewrite app_assoc. split; [done|]. by constructor.
Qed.

Lemma map_snd_py_enumerate {A} (l : list A) : map snd (py_enumerate l) = l.
Proof.
  unfold py_enumerate. apply list_eq. intros i.
  rewrite list_lookup_fmap, list_lookup_imap. by destruct (l !! i).
Qed.

(** X29: generate_student_similarity returns on every tape.  The
    SIMILAR_LEARNING_STYLE edges come student by student, in the order of
    the student list: at most twenty start at a student, each goes to
    another listed student (a different id) of the same learning style,
    and is scored from 0.1 to 1. *)
Theorem learning_style_edges students completed t :
  ∃ by_style by_performance t',
    generate_student_similarity students completed t
      = Returns (by_style, by_performance) t' ∧
    ∃ chunks, by_style = concat chunks ∧
              Forall2 (style_edges_of students) students chunks.
Proof.
  destruct (generate_student_similarity_total students completed t)
    as (ls & ps & t' & Hrun).
  exists ls, ps, t'. split; [done|].
  unfold generate_student_similarity in Hrun.
  apply similarity_loop_style in Hrun as (chunks & Hls & Hall).
  rewrite map_snd_py_enumerate in Hall. simpl in Hls. eauto.
Qed.


(** * Random dates *)

Lemma year_length y :
  days_before_year (y + 1) = days_before_year y + (if is_leap y then 366 else 365).
Proof.
  unfold days_before_year, is_leap. replace (y + 1 - 1) with y by lia.
  destruct (Z.eqb_spec (y mod 4) 0), (Z.eqb_spec (y mod 100) 0), (Z.eqb_spec (y mod 400) 0);
    simpl; Z.div_mod_to_equations; lia.
Qed.

Lemma days_before_month_cases y m :
  1 ≤ m ≤ 12 →
  days_before_month y m =
    nth (Z.to_nat (m - 1)) [0; 31; 59; 90; 120; 151; 181; 212; 243; 273; 304; 334] 0
    + (if (3 <=? m) && is_leap y then 1 else 0).
Proof.
  intros Hm.
  assert (m = 1 ∨ m = 2 ∨ m = 3 ∨ m = 4 ∨ m = 5 ∨ m = 6 ∨ m = 7 ∨ m = 8 ∨ m = 9 ∨
          m = 10 ∨ m = 11 ∨ m = 12) as Hcases by lia.
  repeat destruct Hcases as [->|Hcases]; try subst m;
    unfold days_before_month, py_range, days_in_month; simpl; destruct (is_leap y); reflexivity.
Qed.

Lemma days_in_month_cases y m :
  1 ≤ m ≤ 12 →
  days_in_month y m =
    nth (Z.to_nat (m - 1)) [31; 28; 31; 30; 31; 30; 31; 31; 30; 31; 30; 31] 0
    + (if (m =? 2) && is_leap y then 1 else 0).
Proof.
  intros Hm.
  assert (m = 1 ∨ m = 2 ∨ m = 3 ∨ m = 4 ∨ m = 5 ∨ m = 6 ∨ m = 7 ∨ m = 8 ∨ m = 9 ∨
          m = 10 ∨ m = 11 ∨ m = 12) as Hcases by lia.
  repeat destruct Hcases as [->|Hcases]; try subst m;
    unfold days_in_month; simpl; destruct (is_leap y); reflexivity.
Qed.

(** The day after a date is a date, one ordinal further. *)
Lemma next_day_spec d :
  valid_date d → valid_date (next_day d) ∧ toordinal (next_day d) = toordinal d + 1.
Proof.
  intros [Hm Hd]. unfold next_day, valid_date, toordinal.
  destruct (Z.ltb_spec (day d) (days_in_month (year d) (month d))) as [Hlt|Hge]; simpl.
  { split; [lia|lia]. }
  assert (day d = days_in_month (year d) (month d)) as Hday by lia.
  destruct (Z.ltb_spec (month d) 12) as [Hlt|Hge']; simpl.
  - assert (1 ≤ month d + 1 ≤ 12) as Hm' by lia.
    pose proof (days_in_month_cases (year d) (month d + 1) Hm') as Hdim'.
    pose proof (days_in_month_cases (year d) (month d) Hm) as Hdim.
    pose proof (days_before_month_cases (year d) (month d) Hm) as Hdbm.
    pose proof (days_before_month_cases (year d) (month d + 1) Hm') as Hdbm'.
    assert (month d = 1 ∨ month d = 2 ∨ month d = 3 ∨ month d = 4 ∨ month d = 5 ∨
            month d = 6 ∨ month d = 7 ∨ month d = 8 ∨ month d = 9 ∨ month d = 10 ∨
            month d = 11) as Hcases by lia.
    repeat destruct Hcases as [E|Hcases]; try (rename Hcases into E);
      rewrite E in *; simpl in Hdim, Hdim', Hdbm, Hdbm';
      destruct (is_leap (year d)); simpl in *; lia.
  - assert (month d = 12) as E by lia.
    pose proof (days_in_month_cases (year d) 12 ltac:(lia)) as Hdim.
    pose proof (days_before_month_cases (year d) 12 ltac:(lia)) as Hdbm.
    pose proof (days_before_month_cases (year d + 1) 1 ltac:(lia)) as Hdbm1.
    pose proof (days_in_month_cases (year d + 1) 1 ltac:(lia)) as Hdim1.
    pose proof (year_length (year d)) as Hy.
    rewrite E in *. simpl in Hdim, Hdbm, Hdbm1, Hdim1.
    destruct (is_leap (year d)), (is_leap (year d + 1)); simpl in *; lia.
Qed.

Lemma date_add_days_spec d n :
  valid_date d → 0 ≤ n →
  valid_date (date_add_days d n) ∧ toordinal (date_add_days d n) = toordinal d + n.
Proof.
  intros Hd Hn. unfold date_add_days.
  assert (∀ k, valid_date (Nat.iter k next_day d) ∧
               toordinal (Nat.iter k next_day d) = toordinal d + Z.of_nat k) as Hk.
  { induction k as [|k [IHv IHo]].
    - change (Nat.iter 0 next_day d) with d. split; [done|lia].
    - rewrite Nat.iter_succ. destruct (next_day_spec _ IHv) as [? ?]. split; [done|lia]. }
  destruct (Hk (Z.to_nat n)) as [? Ho]. split; [done|]. rewrite Ho. lia.
Qed.

Lemma days_before_year_mono y y' : y ≤ y' → days_before_year y ≤ days_before_year y'.
Proof. intros Hy. unfold days_before_year. Z.div_mod_to_equations. lia. Qed.

(** The ordinals of the dates of a year lie between the ends of the year. *)
Lemma toordinal_in_year d :
  valid_date d →
  days_before_year (year d) + 1 ≤ toordinal d ≤ days_before_year (year d + 1).
Proof.
  intros [Hm Hd]. unfold toordinal.
  pose proof (days_in_month_cases (year d) (month d) Hm) as Hdim.
  pose proof (days_before_month_cases (year d) (month d) Hm) as Hdbm.
  pose proof (year_length (year d)) as Hy.
  assert (month d = 1 ∨ month d = 2 ∨ month d = 3 ∨ month d = 4 ∨ month d = 5 ∨
          month d = 6 ∨ month d = 7 ∨ month d = 8 ∨ month d = 9 ∨ month d = 10 ∨
          month d = 11 ∨ month d = 12) as Hcases by lia.
  repeat destruct Hcases as [E|Hcases]; try (rename Hcases into E);
    rewrite E in *; simpl in Hdim, Hdbm;
    destruct (is_leap (year d)); simpl in *; lia.
Qed.

Lemma year_of_ordinal d lo hi :
  valid_date d →
  days_before_year lo + 1 ≤ toordinal d → toordinal d ≤ days_before_year (hi + 1) →
  lo ≤ year d ≤ hi.
Proof.
  intros Hv Hlo Hhi. pose proof (toordinal_in_year d Hv) as [H1 H2]. split.
  - destruct (Z.le_gt_cases lo (year d)) as [|Hlt]; [done|].
    pose proof (days_before_year_mono (year d + 1) lo ltac:(lia)). lia.
  - destruct (Z.le_gt_cases (year d) hi) as [|Hlt]; [done|].
    pose proof (days_before_year_mono (hi + 1) (year d) ltac:(lia)). lia.
Qed.

Lemma toordinal_jan_1 y : toordinal (mkDate y 1 1) = days_before_year y + 1.
Proof. unfold toordinal, days_before_month, py_range. simpl. lia. Qed.

Lemma toordinal_dec_31 y : toordinal (mkDate y 12 31) = days_before_year (y + 1).
Proof.
  unfold toordinal. simpl year. simpl month. simpl day.
  rewrite (days_before_month_cases y 12) by lia. rewrite year_length.
  simpl. destruct (is_leap y); lia.
Qed.

Lemma datetime_date_ok y m d t :
  1 ≤ y ≤ 9999 → 1 ≤ m ≤ 12 → 1 ≤ d ≤ days_in_month y m →
  datetime_date y m d t = Returns (mkDate y m d) t.
Proof.
  intros Hy Hm Hd. unfold datetime_date.
  repeat match goal with |- context [?a <=? ?b] =>
    destruct (Z.leb_spec a b); [|lia] end. reflexivity.
Qed.

Lemma datetime_date_bad_year y m d t :
  ¬ (1 ≤ y ≤ 9999) → datetime_date y m d t = Raises ValueError.
Proof.
  intros Hy. unfold datetime_date.
  destruct (Z.leb_spec 1 y); simpl; [|reflexivity].
  destruct (Z.leb_spec y 9999); simpl; [lia|reflexivity].
Qed.

(** X30: [generate_date(year_min, year_max)] returns exactly when
    [1 <= year_min <= year_max <= 9999], and raises [ValueError] otherwise.
    The date it returns is a date of the calendar whose year lies between
    the two, and it is never December 31 of [year_max]: the number of days
    added to January 1 of [year_min] is drawn below the distance of the
    two. *)
Theorem generate_date_range ymin ymax t :
  (1 ≤ ymin ≤ ymax ≤ 9999 →
     ∃ d t', generate_date ymin ymax t = Returns d t' ∧ valid_date d ∧
             ymin ≤ year d ≤ ymax ∧
             toordinal (mkDate ymin 1 1) ≤ toordinal d < toordinal (mkDate ymax 12 31)) ∧
  (¬ (1 ≤ ymin ≤ ymax ≤ 9999) → generate_date ymin ymax t = Raises ValueError).
Proof.
  split.
  - intros Hy. unfold generate_date.
    pose proof (days_before_year_mono ymin ymax ltac:(lia)) as Hmono.
    pose proof (year_length ymax) as Hlen.
    assert (0 < toordinal (mkDate ymax 12 31) - toordinal (mkDate ymin 1 1)) as Hpos.
    { rewrite toordinal_dec_31, toordinal_jan_1. destruct (is_leap ymax); lia. }
    unfold bind at 1. rewrite datetime_date_ok by (unfold days_in_month; simpl; lia).
    unfold bind at 1. rewrite datetime_date_ok by (unfold days_in_month; simpl; lia).
    unfold bind at 1. unfold randrange.
    destruct (Z.ltb_spec 0 (toordinal (mkDate ymax 12 31) - toordinal (mkDate ymin 1 1)));
      [|lia].
    destruct (randbelow_total (toordinal (mkDate ymax 12 31) - toordinal (mkDate ymin 1 1)) t)
      as (r & t' & Hr).
    rewrite Hr. pose proof (randbelow_range _ _ _ _ Hpos Hr) as Hrange.
    assert (valid_date (mkDate ymin 1 1)) as Hv by (unfold valid_date, days_in_month; simpl; lia).
    destruct (date_add_days_spec _ r Hv ltac:(lia)) as [Hvd Hord].
    exists (date_add_days (mkDate ymin 1 1) r), t'. split; [reflexivity|].
    split; [done|]. split; [|lia].
    apply year_of_ordinal; [done| |].
    + rewrite Hord, toordinal_jan_1. lia.
    + rewrite Hord. rewrite toordinal_dec_31 in Hrange. lia.
  - intros Hbad. unfold generate_date.
    destruct (decide (1 ≤ ymin ≤ 9999)) as [Hmin|Hmin].
    2:{ unfold bind at 1. by rewrite datetime_date_bad_year. }
    unfold bind at 1. rewrite datetime_date_ok by (unfold days_in_month; simpl; lia).
    destruct (decide (1 ≤ ymax ≤ 9999)) as [Hmax|Hmax].
    2:{ unfold bind at 1. by rewrite datetime_date_bad_year. }
    unfold bind at 1. rewrite datetime_date_ok by (unfold days_in_month; simpl; lia).
    unfold bind at 1. unfold randrange.
    pose proof (days_before_year_mono (ymax + 1) ymin ltac:(lia)) as Hmono.
    destruct (Z.ltb_spec 0 (toordinal (mkDate ymax 12 31) - toordinal (mkDate ymin 1 1)))
      as [Hlt|]; [|reflexivity].
    rewrite toordinal_dec_31, toordinal_jan_1 in Hlt. lia.
Qed.


(** * The further theorems at concrete runs *)

(** The calendar of the shipped configuration in 2026. *)
Lemma generate_terms_calendar_witness :
  1 ≤ 2026 - HISTORY_YEARS default_config ∧
  2026 + 1 ≤ 9999 ∧
  ∃ terms, generate_terms default_config 2026 [] = Returns terms [] ∧
    terms = take (Z.to_nat (TERMS_TO_GENERATE default_config))
                 (season_calendar (2026 - HISTORY_YEARS default_config) (2026 + 2)) ∧
    NoDup (map term_id terms) ∧
    Z.of_nat (length terms) =
      Z.min (Z.max 0 (TERMS_TO_GENERATE default_config))
            (3 * Z.max 0 (HISTORY_YEARS default_config + 2)).
Proof.
  assert (1 ≤ 2026 - HISTORY_YEARS default_config) as H1 by (simpl; lia).
  assert (2026 + 1 ≤ 9999) as H2 by lia.
  split; [exact H1|]. split; [exact H2|].
  exact (generate_terms_calendar default_config 2026 [] H1 H2).
Defined.

(** November 3, 2026 lies in the window of the fall term of 2026. *)
Lemma term_window_agrees_with_get_term_by_date_witness :
  generate_terms window_config 2026 [] = Returns demo_terms [] ∧
  demo_fall2026 ∈ demo_terms ∧
  date_between (startDate demo_fall2026) demo_now (endDate demo_fall2026) ∧
  get_term_by_date demo_now = term_id demo_fall2026.
Proof.
  assert (generate_terms window_config 2026 [] = Returns demo_terms []) as H1
    by (vm_compute; reflexivity).
  assert (demo_fall2026 ∈ demo_terms) as H2.
  { apply list_elem_of_lookup. exists 2%nat. vm_compute. reflexivity. }
  assert (date_between (startDate demo_fall2026) demo_now (endDate demo_fall2026)) as H3.
  { unfold date_between, date_lt. vm_compute. intuition discriminate. }
  split; [exact H1|]. split; [exact H2|]. split; [exact H3|].
  exact (term_window_agrees_with_get_term_by_date window_config 2026 [] demo_terms []
           demo_fall2026 demo_now H1 H2 H3).
Defined.

(** Under the shipped configuration the term of November 3, 2026 is not
    generated: twelve terms end with the fall of 2025. *)
Lemma current_term_generated_iff_witness :
  0 ≤ HISTORY_YEARS default_config ∧
  1 ≤ year demo_now - HISTORY_YEARS default_config ∧
  year demo_now + 1 ≤ 9999 ∧
  ∃ terms, generate_terms default_config (year demo_now) [] = Returns terms [] ∧
    (get_term_by_date demo_now ∈ map term_id terms ↔
     3 * HISTORY_YEARS default_config + season_index demo_now
       < TERMS_TO_GENERATE default_config).
Proof.
  assert (0 ≤ HISTORY_YEARS default_config) as H1 by (simpl; lia).
  assert (1 ≤ year demo_now - HISTORY_YEARS default_config) as H2 by (simpl; lia).
  assert (year demo_now + 1 ≤ 9999) as H3 by (simpl; lia).
  split; [exact H1|]. split; [exact H2|]. split; [exact H3|].
  exact (current_term_generated_iff default_config demo_now [] H1 H2 H3).
Defined.


(** The five courses of the one-department configuration. *)
Lemma generate_courses_catalog_shape_witness :
  generate_courses studio_config [] = Returns studio_catalog [] ∧
  NoDup (map course_id studio_catalog.1) ∧
  (∀ d, get_list studio_catalog.2 d = filter (λ c, department c = d) studio_catalog.1) ∧
  (∀ d, d ∈ DEPARTMENTS studio_config → (5 ≤ length (get_list studio_catalog.2 d))%nat) ∧
  NUM_COURSES studio_config ≤ Z.of_nat (length studio_catalog.1).
Proof.
  assert (generate_courses studio_config [] = Returns studio_catalog []) as H1
    by (vm_compute; reflexivity).
  split; [exact H1|].
  exact (generate_courses_catalog_shape studio_config [] studio_catalog [] H1).
Defined.

Lemma generate_courses_well_formed_witness :
  generate_courses studio_config [] = Returns studio_catalog [] ∧
  Forall (course_wf studio_config) studio_catalog.1.
Proof.
  assert (generate_courses studio_config [] = Returns studio_catalog []) as H1
    by (vm_compute; reflexivity).
  split; [exact H1|].
  exact (generate_courses_well_formed studio_config [] studio_catalog [] H1).
Defined.

Lemma generate_courses_returns_witness :
  DEPARTMENTS studio_config ≠ [] ∧
  COURSE_LEVELS studio_config ≠ [] ∧
  (0 < Qsum (map snd (COURSE_LEVELS studio_config)))%Q ∧
  COURSE_DIFFICULTY_DISTRIBUTION studio_config ≠ [] ∧
  (0 < Qsum (map snd (COURSE_DIFFICULTY_DISTRIBUTION studio_config)))%Q ∧
  ∃ cat t', generate_courses studio_config [] = Returns cat t'.
Proof.
  assert (DEPARTMENTS studio_config ≠ []) as H1 by (simpl; discriminate).
  assert (COURSE_LEVELS studio_config ≠ []) as H2 by (simpl; discriminate).
  assert (0 < Qsum (map snd (COURSE_LEVELS studio_config)))%Q as H3
    by (vm_compute; reflexivity).
  assert (COURSE_DIFFICULTY_DISTRIBUTION studio_config ≠ []) as H4
    by (simpl; discriminate).
  assert (0 < Qsum (map snd (COURSE_DIFFICULTY_DISTRIBUTION studio_config)))%Q as H5
    by (vm_compute; reflexivity).
  split; [exact H1|]. split; [exact H2|]. split; [exact H3|]. split; [exact H4|].
  split; [exact H5|].
  exact (generate_courses_returns studio_config [] H1 H2 H3 H4 H5).
Defined.

(** Without departments the five requested courses cannot be drawn. *)
Lemma generate_courses_no_departments_witness :
  DEPARTMENTS empty_config = [] ∧
  (NUM_COURSES empty_config ≤ 0 → generate_courses empty_config [] = Returns ([], ∅) []) ∧
  (0 < NUM_COURSES empty_config → generate_courses empty_config [] = Raises IndexError).
Proof.
  assert (DEPARTMENTS empty_config = []) as H1 by reflexivity.
  split; [exact H1|].
  exact (generate_courses_no_departments empty_config [] H1).
Defined.

(** The prerequisite edge of the two demo courses. *)
Lemma prerequisite_edges_payload_and_pool_witness :
  generate_prerequisites window_config demo_courses [1%nat]
    = Returns demo_prerequisites [] ∧
  ∀ e, e ∈ demo_prerequisites →
    edge_payload_ok e ∧
    ∃ p c, p ∈ demo_courses ∧ c ∈ demo_courses ∧
      prereq_source e = course_id p ∧ prereq_target e = course_id c ∧
      100 < level c ∧ 100 ≤ level p ∧ level p mod 100 = 0 ∧
      (department p ≠ department c →
       Z.of_nat (length (extend_lower_levels (by_dept_level demo_courses)
                           (department c) (level c) []))
         < MAX_PREREQS_PER_COURSE window_config).
Proof.
  assert (generate_prerequisites window_config demo_courses [1%nat]
          = Returns demo_prerequisites []) as H1 by (vm_compute; reflexivity).
  split; [exact H1|].
  exact (prerequisite_edges_payload_and_pool window_config demo_courses [1%nat]
           demo_prerequisites [] H1).
Defined.

(** With at most one prerequisite per course, the graduate seminar makes
    the generator fail. *)
Lemma generate_prerequisites_small_cap_raises_witness :
  MAX_PREREQS_PER_COURSE strict_config < 2 ∧
  (∃ c, c ∈ [demo_intro; demo_seminar] ∧ 400 < level c) ∧
  generate_prerequisites strict_config [demo_intro; demo_seminar] [] = Raises ValueError.
Proof.
  assert (MAX_PREREQS_PER_COURSE strict_config < 2) as H1 by (simpl; lia).
  assert (∃ c, c ∈ [demo_intro; demo_seminar] ∧ 400 < level c) as H2.
  { exists demo_seminar. split; [apply list_elem_of_lookup; exists 1%nat; reflexivity|].
    simpl. lia. }
  split; [exact H1|]. split; [exact H2|].
  exact (generate_prerequisites_small_cap_raises strict_config [demo_intro; demo_seminar]
           [] H1 H2).
Defined.

Lemma prerequisite_pairs_distinct_witness :
  NoDup (DEPARTMENTS window_config) ∧
  NoDup (map course_id demo_courses) ∧
  generate_prerequisites window_config demo_courses [1%nat]
    = Returns demo_prerequisites [] ∧
  NoDup (map (λ e, (prereq_source e, prereq_target e)) demo_prerequisites).
Proof.
  assert (NoDup (DEPARTMENTS window_config)) as H1 by by_compute.
  assert (NoDup (map course_id demo_courses)) as H2 by by_compute.
  assert (generate_prerequisites window_config demo_courses [1%nat]
          = Returns demo_prerequisites []) as H3 by (vm_compute; reflexivity).
  split; [exact H1|]. split; [exact H2|]. split; [exact H3|].
  exact (prerequisite_pairs_distinct window_config demo_courses [1%nat]
           demo_prerequisites [] H1 H2 H3).
Defined.

(** The edge from the introductory course to its successor. *)
Lemma leads_to_levels_increase_witness :
  generate_prerequisites window_config demo_courses [1%nat]
    = Returns demo_prerequisites [] ∧
  generate_leads_to_relationships demo_courses demo_prerequisites []
    = Returns demo_leads_to [] ∧
  ∀ e, e ∈ demo_leads_to →
    ∃ c q, c ∈ demo_courses ∧ q ∈ demo_courses ∧ course_id c = lt_source e ∧
           course_id q = lt_target e ∧ level c < level q.
Proof.
  assert (generate_prerequisites window_config demo_courses [1%nat]
          = Returns demo_prerequisites []) as H1 by (vm_compute; reflexivity).
  assert (generate_leads_to_relationships demo_courses demo_prerequisites []
          = Returns demo_leads_to []) as H2 by (vm_compute; reflexivity).
  split; [exact H1|]. split; [exact H2|].
  exact (leads_to_levels_increase window_config demo_courses [1%nat] demo_prerequisites
           [] [] demo_leads_to [] H1 H2).
Defined.

(** The student of the one-department configuration takes both degrees. *)
Lemma student_degree_records_witness :
  generate_student_degree_relationships studio_students pair_degrees.1 []
    = Returns pair_student_degree [] ∧
  ∃ chunks, pair_student_degree = concat chunks ∧
            Forall2 (degrees_of_student pair_degrees.1) studio_students chunks ∧
            (length studio_students ≤ length pair_student_degree
               ≤ 2 * length studio_students)%nat.
Proof.
  assert (generate_student_degree_relationships studio_students pair_degrees.1 []
          = Returns pair_student_degree []) as H1 by (vm_compute; reflexivity).
  split; [exact H1|].
  exact (student_degree_records studio_students pair_degrees.1 [] pair_student_degree
           [] H1).
Defined.

Lemma student_degree_returns_witness :
  (∃ d d', d ∈ pair_degrees.1 ∧ d' ∈ pair_degrees.1 ∧ degree_id d ≠ degree_id d') ∧
  ∃ student_degree t',
    generate_student_degree_relationships studio_students pair_degrees.1 []
      = Returns student_degree t'.
Proof.
  assert (∃ d d', d ∈ pair_degrees.1 ∧ d' ∈ pair_degrees.1 ∧
                  degree_id d ≠ degree_id d') as H1.
  { destruct (pair_degrees.1 !! 0%nat) as [d|] eqn:Hd; [|vm_compute in Hd; discriminate].
    destruct (pair_degrees.1 !! 1%nat) as [d'|] eqn:Hd'; [|vm_compute in Hd'; discriminate].
    exists d, d'. split; [by eapply list_elem_of_lookup_2|].
    split; [by eapply list_elem_of_lookup_2|].
    vm_compute in Hd, Hd'. injection Hd as <-. injection Hd' as <-.
    vm_compute. discriminate. }
  split; [exact H1|].
  exact (student_degree_returns studio_students pair_degrees.1 [] H1).
Defined.

(** The course assignments of the one faculty member. *)
Lemma teaching_records_witness :
  generate_teaching_relationships studio_faculty.2 studio_catalog.1 []
    = Returns studio_teaching [] ∧
  ∃ chunks, studio_teaching = concat chunks ∧
            Forall2 (teaching_of studio_faculty.2) studio_catalog.1 chunks.
Proof.
  assert (generate_teaching_relationships studio_faculty.2 studio_catalog.1 []
          = Returns studio_teaching []) as H1 by (vm_compute; reflexivity).
  split; [exact H1|].
  exact (teaching_records studio_faculty.2 studio_catalog.1 [] studio_teaching [] H1).
Defined.

Lemma generate_faculty_roster_witness :
  generate_faculty studio_config demo_fake []
    = Returns (studio_faculty.1, studio_faculty.2) [] ∧
  Z.of_nat (length studio_faculty.1) = Z.max 0 (NUM_FACULTY studio_config) ∧
  (∀ i f, studio_faculty.1 !! i = Some f →
          faculty_id f = "F" +:+ zfill 5 (py_str (Z.of_nat i + 1001))) ∧
  NoDup (map faculty_id studio_faculty.1) ∧
  Forall (faculty_wf studio_config) studio_faculty.1 ∧
  (∀ d, dict_get_list studio_faculty.2 d
        = filter (λ f, faculty_department f = d) studio_faculty.1) ∧
  all_faculty studio_faculty.2 ≡ₚ studio_faculty.1.
Proof.
  assert (generate_faculty studio_config demo_fake []
          = Returns (studio_faculty.1, studio_faculty.2) []) as H1
    by (vm_compute; reflexivity).
  split; [exact H1|].
  exact (generate_faculty_roster studio_config demo_fake [] studio_faculty.1
           studio_faculty.2 [] H1).
Defined.

Lemma faculty_then_teaching_returns_witness :
  1 ≤ NUM_FACULTY studio_config ∧
  (DEPARTMENTS studio_config = [] →
   generate_faculty studio_config demo_fake [] = Raises IndexError) ∧
  (DEPARTMENTS studio_config ≠ [] →
   ∃ faculty faculty_by_dept t1,
     generate_faculty studio_config demo_fake [] = Returns (faculty, faculty_by_dept) t1 ∧
     ∀ t2, ∃ teaching t3,
       generate_teaching_relationships faculty_by_dept studio_catalog.1 t2
         = Returns teaching t3).
Proof.
  assert (1 ≤ NUM_FACULTY studio_config) as H1 by (simpl; lia).
  split; [exact H1|].
  exact (faculty_then_teaching_returns studio_config demo_fake studio_catalog.1 [] H1).
Defined.

(** Under the shipped configuration in November 2026 the demo student has
    no enrollment: the twelve terms end before the current one. *)
Lemma no_enrollment_when_cap_short_witness :
  0 ≤ HISTORY_YEARS default_config ∧
  1 ≤ year demo_now - HISTORY_YEARS default_config ∧
  year demo_now + 1 ≤ 9999 ∧
  TERMS_TO_GENERATE default_config
    ≤ 3 * HISTORY_YEARS default_config + season_index demo_now ∧
  generate_terms default_config (year demo_now) [] = Returns default_terms [] ∧
  generate_student_course_history default_config demo_now demo_students demo_courses
    default_terms demo_prerequisites []
    = Returns (default_history.1, default_history.2) [] ∧
  default_history.2 = [].
Proof.
  assert (0 ≤ HISTORY_YEARS default_config) as H1 by (simpl; lia).
  assert (1 ≤ year demo_now - HISTORY_YEARS default_config) as H2 by (simpl; lia).
  assert (year demo_now + 1 ≤ 9999) as H3 by (simpl; lia).
  assert (TERMS_TO_GENERATE default_config
            ≤ 3 * HISTORY_YEARS default_config + season_index demo_now) as H4
    by (vm_compute; discriminate).
  assert (generate_terms default_config (year demo_now) [] = Returns default_terms [])
    as H5 by (vm_compute; reflexivity).
  assert (generate_student_course_history default_config demo_now demo_students
            demo_courses default_terms demo_prerequisites []
          = Returns (default_history.1, default_history.2) []) as H6
    by (vm_compute; reflexivity).
  split; [exact H1|]. split; [exact H2|]. split; [exact H3|]. split; [exact H4|].
  split; [exact H5|]. split; [exact H6|].
  exact (no_enrollment_when_cap_short default_config demo_now demo_students demo_courses
           demo_prerequisites [] default_terms [] [] default_history.1
           default_history.2 [] H1 H2 H3 H4 H5 H6).
Defined.

(** The completed course of the demo run. *)
Lemma completed_records_well_formed_witness :
  generate_student_course_history window_config demo_now demo_students demo_courses
    demo_terms demo_prerequisites [] = Returns (demo_completed, demo_enrolled) [] ∧
  Forall (completed_wf window_config demo_now demo_students demo_courses demo_terms)
         demo_completed.
Proof.
  assert (generate_student_course_history window_config demo_now demo_students
            demo_courses demo_terms demo_prerequisites []
          = Returns (demo_completed, demo_enrolled) []) as H1
    by (vm_compute; reflexivity).
  split; [exact H1|].
  exact (completed_records_well_formed window_config demo_now demo_students demo_courses
           demo_terms demo_prerequisites [] demo_completed demo_enrolled [] H1).
Defined.

(** The degree of the one-department configuration and its three groups. *)
Lemma degrees_and_groups_shape_witness :
  generate_degrees studio_config studio_catalog.2 []
    = Returns (studio_degrees.1, studio_degrees.2) [] ∧
  Z.of_nat (length studio_degrees.1) = Z.max 0 (NUM_DEGREES studio_config) ∧
  Forall (degree_wf studio_config) studio_degrees.1 ∧
  ∃ chunks, studio_degrees.2 = concat chunks ∧
            Forall2 groups_of_degree studio_degrees.1 chunks.
Proof.
  assert (generate_degrees studio_config studio_catalog.2 []
          = Returns (studio_degrees.1, studio_degrees.2) []) as H1
    by (vm_compute; reflexivity).
  split; [exact H1|].
  exact (degrees_and_groups_shape studio_config studio_catalog.2 [] studio_degrees.1
           studio_degrees.2 [] H1).
Defined.

(** The student of the one-department configuration. *)
Lemma generate_students_roster_witness :
  generate_students studio_config 2026 demo_fake 3 [] = Returns (Some studio_students) [] ∧
  Z.of_nat (length studio_students) = Z.max 0 (NUM_STUDENTS studio_config) ∧
  NoDup (map student_id studio_students) ∧
  Forall (student_wf studio_config) studio_students.
Proof.
  assert (generate_students studio_config 2026 demo_fake 3 []
          = Returns (Some studio_students) []) as H1 by (vm_compute; reflexivity).
  split; [exact H1|].
  exact (generate_students_roster studio_config 2026 demo_fake 3 [] studio_students []
           H1).
Defined.

(** The history of that student over the five courses and the demo terms. *)
Lemma history_returns_on_generated_inputs_witness :
  generate_students studio_config 2026 demo_fake 3 [] = Returns (Some studio_students) [] ∧
  generate_courses studio_config [] = Returns studio_catalog [] ∧
  GRADE_DISTRIBUTION studio_config ≠ [] ∧
  (0 < Qsum (map snd (GRADE_DISTRIBUTION studio_config)))%Q ∧
  (∃ completed enrolled t',
     generate_student_course_history studio_config demo_now studio_students
       studio_catalog.1 demo_terms [] [] = Returns (completed, enrolled) t') ∧
  NoDup (map student_id studio_students) ∧ NoDup (map course_id studio_catalog.1).
Proof.
  assert (generate_students studio_config 2026 demo_fake 3 []
          = Returns (Some studio_students) []) as H1 by (vm_compute; reflexivity).
  assert (generate_courses studio_config [] = Returns studio_catalog []) as H2
    by (vm_compute; reflexivity).
  assert (GRADE_DISTRIBUTION studio_config ≠ []) as H3 by (simpl; discriminate).
  assert (0 < Qsum (map snd (GRADE_DISTRIBUTION studio_config)))%Q as H4
    by (vm_compute; reflexivity).
  split; [exact H1|]. split; [exact H2|]. split; [exact H3|]. split; [exact H4|].
  exact (history_returns_on_generated_inputs studio_config 2026 demo_fake 3 []
           studio_students [] [] studio_catalog [] demo_now demo_terms [] [] H1 H2 H3 H4).
Defined.
